(** * Broadcast-on-all-channels: evidence store and listener multiplexer

    A shallow embedding of [database.ts] (class [ChatDatabase]),
    [broadcaster.ts] (class [Broadcaster], method [broadcast]) and
    [chat-broadcaster.ts] (class [ChatBroadcaster]), with the properties of
    the SQL mutations, of the acknowledgment path and of the de-duplication
    pipeline; then of the readers of [ChatDatabase] and of the statistics
    viewers ([getStats], [formatDuration], [formatTimeAgo], the report of
    the legacy viewer), with what they return on a working store and what
    they do when a statement fails.

    Conventions.
    - JavaScript numbers that hold millisecond clocks and counters are
      whole numbers within the safe range and are integers in [Z].  The
      client binds a JavaScript number as a REAL; a column of INTEGER
      affinity stores a REAL without fraction as an integer, so the columns
      that only ever receive such numbers are in [Z].  The one column that
      receives fractions, [protocol_performance.avg_latency_ms], and the
      delays of the retry loop are binary64 values, modelled as the
      rationals they denote (module [Binary64]).
    - An optional field ([x?: number]) is an [option]; [undefined] and SQL
      [NULL] are both [None].
    - Asynchronous methods are computations in a state-and-exception monad
      [M] over a [World]; the [await] points of [handleIncomingMessage] are
      made explicit in the task machine of module [Multiplexer], which is
      shown to agree with the method.
    - Everything the program reads from outside (the clock, random numbers,
      the outcome of a SQLite statement, the network) comes from an
      environment [Env] that the definitions take as a parameter.
    - The five [sendVia...] methods talk to network libraries; a send is an
      event of the trace plus a reply of the environment.  Handlers
      registered with [onMessage] belong to the caller; a call of a handler
      is an event of the trace, and whether the handler returns or throws
      is the environment's [handlerFault]. *)

From Stdlib Require Import ZArith QArith Qabs Qround Lia Lqa Ascii String.
From stdpp Require Import base strings gmap list pretty sorting.

Local Open Scope Z_scope.

(** ** JavaScript coercions *)

Module Js.

(** [x || null] on an optional number: [undefined], [null] and [0] are all
    falsy, so all three become [null]. *)
Definition orNull (x : option Z) : option Z :=
  match x with
  | Some 0 => None
  | Some v => Some v
  | None => None
  end.

(** [s || null] on an optional string: the empty string is falsy. *)
Definition orNullStr (s : option string) : option string :=
  match s with
  | Some EmptyString => None
  | Some v => Some v
  | None => None
  end.

(** [b ? 1 : 0] *)
Definition toInt (b : bool) : Z := if b then 1 else 0.

(** What a [throw] carries: an error object with its [code] and [message]
    (what [db.execute] and [broadcast] throw), or [undefined], the value of
    [lastError] before any attempt was made. *)
Inductive Exn : Type :=
| Undefined
| Error (code : option string) (message : string).

Definition code_of (e : Exn) : option string :=
  match e with
  | Undefined => None
  | Error c _ => c
  end.

End Js.

(** ** Binary64 arithmetic

    JavaScript numbers and SQLite REALs are IEEE 754 binary64.  A finite
    double denotes a rational; an operation computes the exact result and
    rounds it to the nearest double, ties to even.  The quantities the
    program computes this way (delays in milliseconds, averages of
    latencies) are far from overflow and from the subnormal range, which are
    not modelled: the exponent is unbounded. *)

Module Binary64.

(** [2^e] for an integer [e] of either sign. *)
Definition pow2 (e : Z) : Q :=
  if 0 <=? e then inject_Z (2 ^ e) else (/ inject_Z (2 ^ (- e)))%Q.

(** [⌊log2 |q|⌋], for [q] other than 0. *)
Definition exponent (q : Q) : Z :=
  let e := Z.log2 (Z.abs (Qnum q)) - Z.log2 (Z.pos (Qden q)) in
  if Qle_bool (pow2 e) (Qabs q) then e else e - 1.

(** The nearest integer, ties to even. *)
Definition nearestEven (q : Q) : Z :=
  let f := Qfloor q in
  match (q - inject_Z f ?= 1 # 2)%Q with
  | Lt => f
  | Gt => f + 1
  | Eq => if Z.even f then f else f + 1
  end.

(** Rounding to 53 significant bits: the unit in the last place of [q] is
    [2^(exponent q - 52)]. *)
Definition round (q : Q) : Q :=
  if Qeq_bool q 0 then 0%Q
  else
    let ulp := pow2 (exponent q - 52) in
    Qred (inject_Z (nearestEven (q / ulp)) * ulp).

Definition add (a b : Q) : Q := round (a + b).
Definition mul (a b : Q) : Q := round (a * b).
Definition div (a b : Q) : Q := round (a / b).

End Binary64.

(** ** Message envelope ([message-types.ts]) *)

Module ChannelPreferenceInfo.
Record t : Type := mk {
  protocol : string;
  preferenceOrder : Z;
  cannotUse : bool
}.
End ChannelPreferenceInfo.

(** The fields an [AcknowledgmentMessage] has on top of a [ChatMessage]. *)
Module AckFields.
Record t : Type := mk {
  ackOfUuid : string;
  receivedVia : string;
  channelPreferences : option (list ChannelPreferenceInfo.t)
}.
End AckFields.

Module ChatMessage.
(** [type] is ['message'] when [ack] is [None] and ['acknowledgment']
    otherwise. *)
Record t : Type := mk {
  uuid : string;
  content : string;
  timestamp : Z;
  fromMagnetLink : string;
  ack : option AckFields.t
}.
End ChatMessage.

(** Modelled from the spec: [isAcknowledgment] of [message-types.ts] (that
  file is not among the sources); the spec gives
  [type ∈ {message, acknowledgment}] and [handleIncomingMessage] itself
  tests [message.type === 'acknowledgment']. *)
Definition isAcknowledgment (message : ChatMessage.t) : bool :=
  match ChatMessage.ack message with
  | Some _ => true
  | None => false
  end.

(** ** The interfaces of [database.ts] *)

Module Message.
Record t : Type := mk {
  uuid : string;
  fromIdentity : string;
  toIdentity : string;
  content : string;
  timestamp : Z;
  isAcknowledgment : bool;
  firstReceivedProtocol : option string;
  firstReceivedAt : option Z
}.
End Message.

Module MessageReceipt.
Record t : Type := mk {
  messageUuid : string;
  protocol : string;
  server : option string;
  receivedAt : Z;
  latencyMs : Z
}.
End MessageReceipt.

Module ChannelPreference.
Record t : Type := mk {
  identity : string;
  protocol : string;
  isWorking : bool;
  lastAckAt : option Z;
  avgLatencyMs : option Z;
  preferenceOrder : option Z;
  cannotUse : bool
}.
End ChannelPreference.

(** ** The four tables created by [initTables] *)

Module Messages.
Record row : Type := mk {
  id : Z;
  uuid : string;                          (* TEXT UNIQUE NOT NULL *)
  from_identity : string;
  to_identity : string;
  content : string;
  timestamp : Z;
  is_acknowledgment : Z;
  first_received_protocol : option string;
  first_received_at : option Z
}.
End Messages.

Module MessageReceipts.
Record row : Type := mk {
  id : Z;
  message_uuid : string;
  protocol : string;
  server : option string;
  received_at : Z;
  latency_ms : Z
}.
End MessageReceipts.

Module ChannelPreferences.
(** [UNIQUE(identity, protocol)]: the table is a finite map on that key. *)
Record row : Type := mk {
  id : Z;
  is_working : Z;
  last_ack_at : option Z;
  avg_latency_ms : option Z;
  preference_order : option Z;
  cannot_use : Z
}.
End ChannelPreferences.

Module ProtocolPerformance.
(** [protocol TEXT PRIMARY KEY]: the table is a finite map on it. *)
Record row : Type := mk {
  total_sent : Z;
  total_acked : Z;
  avg_latency_ms : option Q;              (* holds halves once averaged *)
  last_used_at : option Z
}.
End ProtocolPerformance.

(** SQLite's own table [sqlite_sequence]: for each AUTOINCREMENT table, the
    largest rowid handed out so far. *)
Module SqliteSequence.
Record t : Type := mk {
  messages : Z;
  message_receipts : Z;
  channel_preferences : Z
}.
End SqliteSequence.

Record Store : Type := mkStore {
  messages : list Messages.row;             (* in insertion order *)
  message_receipts : list MessageReceipts.row;
  channel_preferences : gmap (string * string) ChannelPreferences.row;
  protocol_performance : gmap string ProtocolPerformance.row;
  sqlite_sequence : SqliteSequence.t
}.

Definition emptyStore : Store := mkStore [] [] ∅ ∅ (SqliteSequence.mk 0 0 0).

(** How a call settles: it returns a value or it throws (an [async] method
    resolves or rejects). *)
Inductive Result (A : Type) : Type :=
| Ok (a : A)
| Throw (e : Js.Exn).
Arguments Ok {A} a.
Arguments Throw {A} e.

(** ** The SQL statements the class executes *)

Module Sql.

(** One constructor per statement text of [database.ts]; the arguments are
    the [args] array, in order. *)
Inductive Statement : Type :=
| InsertOrIgnoreMessage
    (uuid from_identity to_identity content : string)
    (timestamp is_acknowledgment : Z)
    (first_received_protocol : option string) (first_received_at : option Z)
| UpdateMessageFirstReceipt (protocol : string) (receivedAt : Z) (uuid : string)
| InsertMessageReceipt
    (message_uuid protocol : string) (server : option string)
    (received_at latency_ms : Z)
| UpsertChannelPreference
    (identity protocol : string) (is_working : Z)
    (last_ack_at avg_latency_ms preference_order : option Z) (cannot_use : Z)
| UpsertProtocolPerformance
    (a1 : string) (a2 : Z) (a3 : option Z) (a4 : Z) (a5 : Z)
    (a6 a7 a8 : option Z) (a9 : Z).

Definition hasUuid (u : string) (r : Messages.row) : bool :=
  bool_decide (Messages.uuid r = u).

(** The rowid an INSERT into an AUTOINCREMENT table is given: one more than
    the largest rowid ever handed out and than every rowid in the table. *)
Definition nextId (sequence : Z) (ids : list Z) : Z :=
  Z.max sequence (foldr Z.max 0 ids) + 1.

Definition nextMessageId (s : Store) : Z :=
  nextId (SqliteSequence.messages (sqlite_sequence s)) (map Messages.id (messages s)).

Definition nextReceiptId (s : Store) : Z :=
  nextId (SqliteSequence.message_receipts (sqlite_sequence s))
    (map MessageReceipts.id (message_receipts s)).

Definition nextPreferenceId (s : Store) : Z :=
  Z.max (SqliteSequence.channel_preferences (sqlite_sequence s))
    (map_fold (fun _ r acc => Z.max (ChannelPreferences.id r) acc) 0
       (channel_preferences s)) + 1.

(** [INSERT OR IGNORE INTO messages]: the UNIQUE constraint on [uuid]
    turns a second insertion into a no-op. *)
Definition insertOrIgnoreMessage (r : Messages.row) (rows : list Messages.row)
  : list Messages.row :=
  if existsb (hasUuid (Messages.uuid r)) rows then rows else rows ++ [r].

(** [UPDATE messages SET ... WHERE uuid = ? AND first_received_protocol IS NULL] *)
Definition updateFirstReceipt (protocol : string) (receivedAt : Z) (u : string)
    (r : Messages.row) : Messages.row :=
  if hasUuid u r && bool_decide (Messages.first_received_protocol r = None) then
    Messages.mk (Messages.id r) (Messages.uuid r) (Messages.from_identity r)
      (Messages.to_identity r) (Messages.content r) (Messages.timestamp r)
      (Messages.is_acknowledgment r) (Some protocol) (Some receivedAt)
  else r.

(** [COALESCE(x, y)] *)
Definition coalesce (x y : option Z) : option Z :=
  match x with
  | Some v => Some v
  | None => y
  end.

(** [INSERT INTO channel_preferences ... ON CONFLICT(identity, protocol)
    DO UPDATE SET ...] *)
Definition upsertChannelPreference
    (is_working : Z) (last_ack_at avg_latency_ms preference_order : option Z)
    (cannot_use : Z) (fresh : Z) (old : option ChannelPreferences.row)
  : ChannelPreferences.row :=
  match old with
  | None =>
      ChannelPreferences.mk fresh is_working last_ack_at avg_latency_ms
        preference_order cannot_use
  | Some r =>
      ChannelPreferences.mk (ChannelPreferences.id r)
        is_working                                     (* excluded.is_working *)
        last_ack_at                                    (* excluded.last_ack_at *)
        avg_latency_ms                                 (* excluded.avg_latency_ms *)
        (coalesce preference_order (ChannelPreferences.preference_order r))
        cannot_use                                     (* excluded.cannot_use *)
  end.

(** [(avg_latency_ms + ?) / 2] with the parameter bound as a REAL: the sum
    and the quotient are REALs, and the column keeps a REAL that has a
    fraction. *)
Definition average (avg : Q) (p : option Z) : option Q :=
  match p with
  | Some v => Some (Binary64.div (Binary64.add avg (inject_Z v)) 2)
  | None => None                                       (* [x + NULL] is NULL *)
  end.

(** [INSERT INTO protocol_performance ... VALUES (?, 1, ?, ?, ?)
    ON CONFLICT(protocol) DO UPDATE SET ...] *)
Definition upsertProtocolPerformance
    (a2 : Z) (a3 : option Z) (a4 : Z) (a5 : Z) (a6 a7 a8 : option Z) (a9 : Z)
    (old : option ProtocolPerformance.row) : ProtocolPerformance.row :=
  match old with
  | None => ProtocolPerformance.mk 1 a2 (option_map inject_Z a3) (Some a4)
  | Some r =>
      ProtocolPerformance.mk
        (ProtocolPerformance.total_sent r + 1)
        (ProtocolPerformance.total_acked r + a5)
        (match a6 with
         | Some _ =>                                   (* WHEN ? IS NOT NULL *)
             match ProtocolPerformance.avg_latency_ms r with
             | None => option_map inject_Z a7          (* THEN ? *)
             | Some avg => average avg a8
             end
         | None => ProtocolPerformance.avg_latency_ms r
         end)
        (Some a9)
  end.

(** What the client throws when [message_receipts.message_uuid] has no row
    of [messages] to refer to: the schema declares the FOREIGN KEY and the
    client enforces it. *)
Definition foreignKeyError : Js.Exn :=
  Js.Error (Some "SQLITE_CONSTRAINT") "FOREIGN KEY constraint failed".

(** The constraint a statement violates on store [s], if any.  The NOT NULL
    columns always receive a value, and the UNIQUE constraints are met by
    OR IGNORE and ON CONFLICT; what is left is the foreign key of
    [message_receipts]. *)
Definition violation (stmt : Statement) (s : Store) : option Js.Exn :=
  match stmt with
  | InsertMessageReceipt u _ _ _ _ =>
      if existsb (hasUuid u) (messages s) then None else Some foreignKeyError
  | _ => None
  end.

(** How [db.execute] settles when SQLite itself runs the statement. *)
Definition outcome (stmt : Statement) (s : Store) : Result unit :=
  match violation stmt s with
  | Some e => Throw e
  | None => Ok tt
  end.

(** The store after a statement.  An INSERT into an AUTOINCREMENT table
    spends a rowid even when OR IGNORE drops the row or ON CONFLICT turns it
    into an UPDATE; a statement that violates a constraint is rolled back
    and leaves the store as it was. *)
Definition exec (stmt : Statement) (s : Store) : Store :=
  let q := sqlite_sequence s in
  match stmt with
  | InsertOrIgnoreMessage u f t c ts ack frp fra =>
      mkStore
        (insertOrIgnoreMessage
           (Messages.mk (nextMessageId s) u f t c ts ack frp fra) (messages s))
        (message_receipts s) (channel_preferences s) (protocol_performance s)
        (SqliteSequence.mk (nextMessageId s)
           (SqliteSequence.message_receipts q) (SqliteSequence.channel_preferences q))
  | UpdateMessageFirstReceipt p at_ u =>
      mkStore (map (updateFirstReceipt p at_ u) (messages s))
        (message_receipts s) (channel_preferences s) (protocol_performance s) q
  | InsertMessageReceipt u p srv at_ lat =>
      if existsb (hasUuid u) (messages s) then
        mkStore (messages s)
          (message_receipts s ++
             [MessageReceipts.mk (nextReceiptId s) u p srv at_ lat])
          (channel_preferences s) (protocol_performance s)
          (SqliteSequence.mk (SqliteSequence.messages q) (nextReceiptId s)
             (SqliteSequence.channel_preferences q))
      else s
  | UpsertChannelPreference i p w la al po cu =>
      mkStore (messages s) (message_receipts s)
        (<[(i, p) :=
             upsertChannelPreference w la al po cu (nextPreferenceId s)
               (channel_preferences s !! (i, p))]> (channel_preferences s))
        (protocol_performance s)
        (SqliteSequence.mk (SqliteSequence.messages q)
           (SqliteSequence.message_receipts q) (nextPreferenceId s))
  | UpsertProtocolPerformance a1 a2 a3 a4 a5 a6 a7 a8 a9 =>
      mkStore (messages s) (message_receipts s) (channel_preferences s)
        (<[a1 :=
             upsertProtocolPerformance a2 a3 a4 a5 a6 a7 a8 a9
               (protocol_performance s !! a1)]> (protocol_performance s)) q
  end.

End Sql.

(** ** Broadcaster: identities, drivers, results *)

(** What [decodeIdentity] extracts from a magnet link: the two public keys
    and the Ethereum address. *)
Record Identity : Type := mkIdentity {
  secp256k1pub : string;
  ed25519pub : string;
  eth : string
}.

(** The five [sendVia...] methods. *)
Inductive Driver : Type := XMTP | Nostr | Waku | MQTT | IROH.

Module BroadcastResult.
Record t : Type := mk {
  protocol : string;
  success : bool;
  error : option string;
  latencyMs : option Z
}.
End BroadcastResult.

(** What a driver reports for one send, before the broadcaster adds the
    latency it measured; [d_stamped] says that the send got as far as
    building its payload. *)
Record Delivery : Type := mkDelivery {
  d_protocol : string;
  d_success : bool;
  d_error : option string;
  d_stamped : bool
}.

(** The fields of a constructed and initialised [Broadcaster]: the merged
    options and which protocol clients [initialize] managed to set up. *)
Record Broadcaster : Type := mkBroadcaster {
  xmtpEnabled : bool;
  nostrEnabled : bool;
  wakuEnabled : bool;
  mqttEnabled : bool;
  irohEnabled : bool;
  xmtpClient : bool;          (* [this.xmtpClient] is defined *)
  nostrRelays : nat;          (* [this.nostrRelays.length] *)
  wakuNode : bool;
  mqttClients : nat;          (* [this.mqttClients.length] *)
  irohNode : bool
}.

(** ** Environment *)

(** Everything the program obtains from outside.  The n-th call of
    [Date.now()], [crypto.randomUUID()] or [Math.random()] returns the n-th
    value of the corresponding sequence; [Math.random()] is the double
    [mathRandom n mod 2^53 / 2^53], so it lies in [0, 1).  [sqliteFault n] is
    what the n-th [db.execute] raises for a reason of its own (a locked
    file, a failing disk, a value it cannot convert), if anything; a
    constraint that the statement violates is not part of it.
    [handlerFault n h message protocol] is what handler [h] throws when it
    is called with these arguments after [n] events, if anything.
    [decodeIdentity],
    [serializeMessage] ([identity.ts], [message-types.ts]) and the runtime
    probes [supportsXMTP], [supportsWaku] ([runtime.ts]) are not among the
    sources and are taken as they come. *)
Record Env : Type := mkEnv {
  dateNow : nat -> Z;
  randomUUID : nat -> string;
  mathRandom : nat -> N;
  sqliteFault : nat -> option Js.Exn;
  handlerFault : nat -> nat -> ChatMessage.t -> string -> option Js.Exn;
  transport : Driver -> Identity -> string -> nat -> Delivery;
  decodeIdentity : string -> option Identity;
  serializeMessage : ChatMessage.t -> string;
  supportsXMTP : bool;
  supportsWaku : bool
}.

(** ** The world a method runs in *)

(** What the outside can observe of a run. *)
Inductive Event : Type :=
| HandlerCalled (handler : nat) (message : ChatMessage.t) (protocol : string)
| BroadcastCalled (recipientMagnetLink message : string)
| DriverSend (driver : Driver) (recipient : Identity) (message : string)
| ConsoleError (text : string)
| Slept (delay : Q).

(** The fields of a [ChatBroadcaster] and of its [ChatDatabase], the number
    of values already drawn from each sequence of the environment, and the
    events so far (oldest first).  A registered handler is known by the
    number under which it was registered. *)
Record World : Type := mkWorld {
  broadcaster : Broadcaster;
  myMagnetLink : string;
  messageHandlers : list nat;
  seenMessageUuids : gset string;
  db : Store;
  clock : nat;
  uuids : nat;
  randoms : nat;
  executes : nat;
  trace : list Event
}.

Definition setHandlers (f : list nat -> list nat) (w : World) : World :=
  mkWorld (broadcaster w) (myMagnetLink w) (f (messageHandlers w))
    (seenMessageUuids w) (db w) (clock w) (uuids w) (randoms w) (executes w) (trace w).

Definition setSeen (f : gset string -> gset string) (w : World) : World :=
  mkWorld (broadcaster w) (myMagnetLink w) (messageHandlers w)
    (f (seenMessageUuids w)) (db w) (clock w) (uuids w) (randoms w) (executes w) (trace w).

Definition setDb (f : Store -> Store) (w : World) : World :=
  mkWorld (broadcaster w) (myMagnetLink w) (messageHandlers w)
    (seenMessageUuids w) (f (db w)) (clock w) (uuids w) (randoms w) (executes w) (trace w).

Definition tickClock (w : World) : World :=
  mkWorld (broadcaster w) (myMagnetLink w) (messageHandlers w)
    (seenMessageUuids w) (db w) (S (clock w)) (uuids w) (randoms w) (executes w) (trace w).

Definition tickUuids (w : World) : World :=
  mkWorld (broadcaster w) (myMagnetLink w) (messageHandlers w)
    (seenMessageUuids w) (db w) (clock w) (S (uuids w)) (randoms w) (executes w) (trace w).

Definition tickRandoms (w : World) : World :=
  mkWorld (broadcaster w) (myMagnetLink w) (messageHandlers w)
    (seenMessageUuids w) (db w) (clock w) (uuids w) (S (randoms w)) (executes w) (trace w).

Definition tickExecutes (w : World) : World :=
  mkWorld (broadcaster w) (myMagnetLink w) (messageHandlers w)
    (seenMessageUuids w) (db w) (clock w) (uuids w) (randoms w) (S (executes w)) (trace w).

Definition emit (e : Event) (w : World) : World :=
  mkWorld (broadcaster w) (myMagnetLink w) (messageHandlers w)
    (seenMessageUuids w) (db w) (clock w) (uuids w) (randoms w) (executes w)
    (trace w ++ [e]).

(** ** The monad of asynchronous methods *)

Definition M (A : Type) : Type := World -> Result A * World.

Definition ret {A} (a : A) : M A := fun w => (Ok a, w).

Definition bind {A B} (m : M A) (k : A -> M B) : M B :=
  fun w =>
    match m w with
    | (Ok a, w') => k a w'
    | (Throw e, w') => (Throw e, w')
    end.

Definition throw {A} (e : Js.Exn) : M A := fun w => (Throw e, w).

(** [try { m } catch (error) { h error }] *)
Definition tryCatch {A} (m : M A) (h : Js.Exn -> M A) : M A :=
  fun w =>
    match m w with
    | (Ok a, w') => (Ok a, w')
    | (Throw e, w') => h e w'
    end.

Definition gets {A} (f : World -> A) : M A := fun w => (Ok (f w), w).

Definition modify (f : World -> World) : M unit := fun w => (Ok tt, f w).

Declare Scope async_scope.
Delimit Scope async_scope with async.
Notation "x <- m ;; k" := (bind m (fun x => k))
  (at level 100, m at next level, right associativity) : async_scope.
Notation "m ;;; k" := (bind m (fun _ => k))
  (at level 100, right associativity) : async_scope.
Local Open Scope async_scope.

(** [for (const x of xs) { await body x }] *)
Fixpoint forEach {A} (xs : list A) (body : A -> M unit) : M unit :=
  match xs with
  | [] => ret tt
  | x :: rest => body x ;;; forEach rest body
  end.

(** [for (const x of xs) { out.push(await f x) }] *)
Fixpoint collect {A B} (xs : list A) (f : A -> M B) : M (list B) :=
  match xs with
  | [] => ret []
  | x :: rest => y <- f x ;; ys <- collect rest f ;; ret (y :: ys)
  end.

Section Primitives.
Context (env : Env).

(** [Date.now()] *)
Definition now : M Z := fun w => (Ok (dateNow env (clock w)), tickClock w).

(** [crypto.randomUUID()] *)
Definition freshUuid : M string := fun w => (Ok (randomUUID env (uuids w)), tickUuids w).

(** [Math.random()], as the exact rational it denotes. *)
Definition random : M Q :=
  fun w => (Ok (Z.of_N (mathRandom env (randoms w) mod 2 ^ 53) # 2 ^ 53), tickRandoms w).

(** [console.error(text, ...)] *)
Definition consoleError (text : string) : M unit := modify (emit (ConsoleError text)).

(** [await new Promise(resolve => setTimeout(resolve, delay))] *)
Definition sleep (delay : Q) : M unit := modify (emit (Slept delay)).

End Primitives.

(** ** [database.ts]: class [ChatDatabase] *)

Module ChatDatabase.
Section WithEnv.
Context (env : Env).

(** [this.db.execute({ sql, args })].  A statement that raises leaves the
    store as it was. *)
Definition execute (stmt : Sql.Statement) : M unit :=
  fun w =>
    match sqliteFault env (executes w) with
    | Some e => (Throw e, tickExecutes w)
    | None => (Sql.outcome stmt (db w), setDb (Sql.exec stmt) (tickExecutes w))
    end.

(** [error.code === 'SQLITE_BUSY'] *)
Definition isBusy (error : Js.Exn) : bool :=
  bool_decide (Js.code_of error = Some "SQLITE_BUSY"%string).

(** [delayMs * Math.pow(2, i) + Math.random() * 50], each operation rounded
    to a double. *)
Definition backoff (delayMs : Z) (i : nat) (r : Q) : Q :=
  Binary64.add
    (Binary64.mul (inject_Z delayMs) (Binary64.round (inject_Z (2 ^ Z.of_nat i))))
    (Binary64.mul r 50).

(** The [for (let i = 0; i < maxRetries; i++)] loop of [executeWithRetry],
    entered at index [i] with [remaining = maxRetries - i] iterations left.
    When the loop runs out, [throw lastError] is reached. *)
Fixpoint retryLoop {T} (operation : M T) (maxRetries : nat) (delayMs : Z)
    (remaining i : nat) (lastError : Js.Exn) : M T :=
  match remaining with
  | O => throw lastError
  | S remaining' =>
      tryCatch operation (fun error =>
        if isBusy error && (Z.of_nat i <? Z.of_nat maxRetries - 1) then
          r <- random env ;;
          sleep (backoff delayMs i r) ;;;
          retryLoop operation maxRetries delayMs remaining' (S i) error
        else
          throw error)
  end.

Definition executeWithRetry {T} (operation : M T) (maxRetries : nat) (delayMs : Z)
  : M T :=
  retryLoop operation maxRetries delayMs maxRetries 0%nat Js.Undefined.

(** The default values of the parameters [maxRetries] and [delayMs]. *)
Definition maxRetriesDefault : nat := 5.
Definition delayMsDefault : Z := 100.

(** [await this.initPromise]: the tables were created when the object was
    constructed, and [Store] already has them. *)
Definition ensureInit : M unit := ret tt.

Definition saveMessage (message : Message.t) : M unit :=
  ensureInit ;;;
  executeWithRetry
    (execute
       (Sql.InsertOrIgnoreMessage
          (Message.uuid message)
          (Message.fromIdentity message)
          (Message.toIdentity message)
          (Message.content message)
          (Message.timestamp message)
          (Js.toInt (Message.isAcknowledgment message))
          (Js.orNullStr (Message.firstReceivedProtocol message))
          (Js.orNull (Message.firstReceivedAt message))))
    maxRetriesDefault delayMsDefault.

Definition updateMessageFirstReceipt (uuid protocol : string) (receivedAt : Z)
  : M unit :=
  executeWithRetry
    (execute (Sql.UpdateMessageFirstReceipt protocol receivedAt uuid))
    maxRetriesDefault delayMsDefault.

Definition saveMessageReceipt (receipt : MessageReceipt.t) : M unit :=
  executeWithRetry
    (execute
       (Sql.InsertMessageReceipt
          (MessageReceipt.messageUuid receipt)
          (MessageReceipt.protocol receipt)
          (Js.orNullStr (MessageReceipt.server receipt))
          (MessageReceipt.receivedAt receipt)
          (MessageReceipt.latencyMs receipt)))
    maxRetriesDefault delayMsDefault.

Definition updateChannelPreference (pref : ChannelPreference.t) : M unit :=
  executeWithRetry
    (execute
       (Sql.UpsertChannelPreference
          (ChannelPreference.identity pref)
          (ChannelPreference.protocol pref)
          (Js.toInt (ChannelPreference.isWorking pref))
          (Js.orNull (ChannelPreference.lastAckAt pref))
          (Js.orNull (ChannelPreference.avgLatencyMs pref))
          (Js.orNull (ChannelPreference.preferenceOrder pref))
          (Js.toInt (ChannelPreference.cannotUse pref))))
    maxRetriesDefault delayMsDefault.

Definition updateProtocolPerformance (protocol : string) (acked : bool)
    (latencyMs : option Z) : M unit :=
  t <- now env ;;
  let ackedInt := Js.toInt acked in
  executeWithRetry
    (execute
       (Sql.UpsertProtocolPerformance
          protocol
          ackedInt
          (Js.orNull latencyMs)
          t
          ackedInt
          (Js.orNull latencyMs)
          (Js.orNull latencyMs)
          (Js.orNull latencyMs)
          t))
    maxRetriesDefault delayMsDefault.

End WithEnv.
End ChatDatabase.

(** ** [broadcaster.ts]: method [Broadcaster.broadcast] *)

Module BroadcasterImpl.
Section WithEnv.
Context (env : Env).

(** Whether a send reads the clock for its payload, between the two
    readings that measure it.  [sendViaNostr] ([created_at]) and
    [sendViaWaku] ([timestamp]) do so inside their [try], when nothing threw
    before; [sendViaMQTT] ([timestamp]) does so whenever it has a client,
    which [broadcast] has checked; [sendViaXMTP] and [sendViaIROH] never. *)
Definition stampsPayload (d : Driver) (reply : Delivery) : bool :=
  match d with
  | XMTP | IROH => false
  | Nostr | Waku => d_stamped reply
  | MQTT => true
  end.

(** One of [sendViaXMTP], ..., [sendViaIROH].  Each reads the clock, talks
    to its network library, and resolves to a result that carries the
    elapsed time; none of them rejects.  What the network did is the
    environment's [transport], asked at the time the send started. *)
Definition sendVia (d : Driver) (recipient : Identity) (message : string)
  : M BroadcastResult.t :=
  modify (emit (DriverSend d recipient message)) ;;;
  at_ <- gets clock ;;
  startTime <- now env ;;
  let reply := transport env d recipient message at_ in
  (if stampsPayload d reply then _ <- now env ;; ret tt else ret tt) ;;;
  endTime <- now env ;;
  ret (BroadcastResult.mk (d_protocol reply) (d_success reply) (d_error reply)
         (Some (endTime - startTime))).

(** The [promises] array: one entry per protocol that is both enabled and
    initialised, in the order of the five [if] statements. *)
Definition activeDrivers (b : Broadcaster) : list Driver :=
  (if xmtpEnabled b && xmtpClient b then [XMTP] else []) ++
  (if nostrEnabled b && (0 <? nostrRelays b)%nat then [Nostr] else []) ++
  (if wakuEnabled b && wakuNode b then [Waku] else []) ++
  (if mqttEnabled b && (0 <? mqttClients b)%nat then [MQTT] else []) ++
  (if irohEnabled b && irohNode b then [IROH] else []).

(** [broadcast(recipientMagnetLink, message)].  The sends are started in
    the order of [promises] and [Promise.allSettled] keeps that order; as
    no send rejects, every result is pushed. *)
Definition broadcast (recipientMagnetLink message : string)
  : M (list BroadcastResult.t) :=
  modify (emit (BroadcastCalled recipientMagnetLink message)) ;;;
  match decodeIdentity env recipientMagnetLink with
  | None => throw (Js.Error None "Invalid recipient magnet link")
  | Some recipient =>
      b <- gets broadcaster ;;
      collect (activeDrivers b) (fun d => sendVia d recipient message)
  end.

End WithEnv.
End BroadcasterImpl.

(** ** [chat-broadcaster.ts]: class [ChatBroadcaster] *)

Module ChatBroadcaster.
Section WithEnv.
Context (env : Env).

(** [onMessage(handler)]: the handler registered under number [handler]. *)
Definition onMessage (handler : nat) : M unit :=
  modify (setHandlers (fun hs => hs ++ [handler])).

(** [await handler(message, protocol)].  Handlers belong to the caller (the
    command-line client); a call is recorded, and it returns or throws as
    the environment says.  Nothing catches what a handler throws. *)
Definition callHandler (message : ChatMessage.t) (protocol : string) (handler : nat)
  : M unit :=
  at_ <- gets (fun w => length (trace w)) ;;
  modify (emit (HandlerCalled handler message protocol)) ;;;
  match handlerFault env at_ handler message protocol with
  | Some e => throw e
  | None => ret tt
  end.

(** Modelled from the spec: [createAcknowledgment] of [message-types.ts]
    (not among the sources).  The spec gives the signature
    [CreateAcknowledgment(original, receivedVia, selfMagnet, prefs)], a random
    uuid, the content ["ACK: " + ackOfUuid] and a timestamp of [now()]; the
    acknowledgment carries [ackOfUuid], [receivedVia] and the preferences. *)
Definition createAcknowledgment (original : ChatMessage.t) (receivedVia : string)
    (selfMagnet : string) (prefs : list ChannelPreferenceInfo.t)
  : M ChatMessage.t :=
  u <- freshUuid env ;;
  t <- now env ;;
  ret (ChatMessage.mk u
         ("ACK: " +:+ ChatMessage.uuid original) t selfMagnet
         (Some (AckFields.mk (ChatMessage.uuid original) receivedVia (Some prefs)))).

Definition myPreferences : list ChannelPreferenceInfo.t :=
  [ ChannelPreferenceInfo.mk "nostr" 1 false;
    ChannelPreferenceInfo.mk "XMTP V3" 2 (negb (supportsXMTP env));
    ChannelPreferenceInfo.mk "MQTT" 3 false;
    ChannelPreferenceInfo.mk "IROH" 4 false;
    ChannelPreferenceInfo.mk "Waku" 5 (negb (supportsWaku env)) ].

(** The row [sendAcknowledgment] stores for the acknowledgment it sends. *)
Definition ackRow (me : string) (originalMessage ack : ChatMessage.t)
    (serialized : string) : Message.t :=
  Message.mk (ChatMessage.uuid ack) me (ChatMessage.fromMagnetLink originalMessage)
    serialized (ChatMessage.timestamp ack) true None None.

(** The [try { await this.broadcast(...) } catch (error) { console.error }]
    that ends [sendAcknowledgment]. *)
Definition broadcastAck (recipientMagnetLink serialized : string) : M unit :=
  tryCatch
    (_ <- BroadcasterImpl.broadcast env recipientMagnetLink serialized ;; ret tt)
    (fun error => consoleError "Failed to send acknowledgment:").

Definition sendAcknowledgment (originalMessage : ChatMessage.t) (receivedVia : string)
  : M unit :=
  me <- gets myMagnetLink ;;
  ack <- createAcknowledgment originalMessage receivedVia me myPreferences ;;
  let serialized := serializeMessage env ack in
  ChatDatabase.saveMessage env (ackRow me originalMessage ack serialized) ;;;
  broadcastAck (ChatMessage.fromMagnetLink originalMessage) serialized.

(** The row stored for a message received for the first time. *)
Definition inboundRow (me : string) (message : ChatMessage.t) (protocol : string)
    (firstReceivedAt : Z) : Message.t :=
  Message.mk (ChatMessage.uuid message) (ChatMessage.fromMagnetLink message) me
    (ChatMessage.content message) (ChatMessage.timestamp message)
    (isAcknowledgment message) (Some protocol) (Some firstReceivedAt).

(** The receipt built by [{ messageUuid, protocol, server, receivedAt:
    Date.now(), latencyMs: Date.now() - message.timestamp }]: the clock is
    read twice. *)
Definition makeReceipt (message : ChatMessage.t) (protocol : string)
    (server : option string) : M MessageReceipt.t :=
  receivedAt <- now env ;;
  t <- now env ;;
  ret (MessageReceipt.mk (ChatMessage.uuid message) protocol server receivedAt
         (t - ChatMessage.timestamp message)).

(** The preference learned from an acknowledgment: "this channel works for
    this identity".  Its protocol is [ackMessage.receivedVia]. *)
Definition learnedPreference (message : ChatMessage.t) (a : AckFields.t)
  : M ChannelPreference.t :=
  lastAckAt <- now env ;;
  t <- now env ;;
  ret (ChannelPreference.mk (ChatMessage.fromMagnetLink message)
         (AckFields.receivedVia a) true (Some lastAckAt)
         (Some (t - ChatMessage.timestamp message)) None false).

(** The preference a peer states in [message.channelPreferences]. *)
Definition statedPreference (message : ChatMessage.t)
    (pref : ChannelPreferenceInfo.t) : ChannelPreference.t :=
  ChannelPreference.mk (ChatMessage.fromMagnetLink message)
    (ChannelPreferenceInfo.protocol pref)
    (negb (ChannelPreferenceInfo.cannotUse pref))
    None None
    (Some (ChannelPreferenceInfo.preferenceOrder pref))
    (ChannelPreferenceInfo.cannotUse pref).

(** [if (message.channelPreferences) { for (const pref of ...) ... }] *)
Definition statedPreferences (a : AckFields.t) : list ChannelPreferenceInfo.t :=
  match AckFields.channelPreferences a with
  | Some prefs => prefs
  | None => []
  end.

Definition handleIncomingMessage (message : ChatMessage.t) (protocol : string)
    (server : option string) : M unit :=
  seen <- gets seenMessageUuids ;;
  if bool_decide (ChatMessage.uuid message ∈ seen) then
    (* Already seen this message, just record the receipt *)
    receipt <- makeReceipt message protocol server ;;
    ChatDatabase.saveMessageReceipt env receipt
  else
    modify (setSeen (fun s => s ∪ {[ChatMessage.uuid message]})) ;;;
    (* Save message to database *)
    me <- gets myMagnetLink ;;
    firstReceivedAt <- now env ;;
    ChatDatabase.saveMessage env (inboundRow me message protocol firstReceivedAt) ;;;
    (* Save receipt *)
    receipt <- makeReceipt message protocol server ;;
    ChatDatabase.saveMessageReceipt env receipt ;;;
    (* Update channel preferences if this is an acknowledgment *)
    match ChatMessage.ack message with
    | Some a =>
        learned <- learnedPreference message a ;;
        ChatDatabase.updateChannelPreference env learned ;;;
        forEach (statedPreferences a) (fun pref =>
          ChatDatabase.updateChannelPreference env (statedPreference message pref))
    | None => ret tt
    end ;;;
    (* Notify handlers *)
    handlers <- gets messageHandlers ;;
    forEach handlers (callHandler message protocol) ;;;
    (* Send acknowledgment (unless this IS an acknowledgment) *)
    if negb (isAcknowledgment message) then sendAcknowledgment message protocol
    else ret tt.

Definition sendMessage (recipientMagnetLink content : string)
  : M (list BroadcastResult.t) :=
  u <- freshUuid env ;;
  t <- now env ;;
  me <- gets myMagnetLink ;;
  let message := ChatMessage.mk u content t me None in
  let serialized := serializeMessage env message in
  (* Save to database *)
  ChatDatabase.saveMessage env
    (Message.mk u me recipientMagnetLink content t false None None) ;;;
  (* Broadcast across all protocols *)
  results <- BroadcasterImpl.broadcast env recipientMagnetLink serialized ;;
  (* Update protocol performance *)
  forEach results (fun result =>
    ChatDatabase.updateProtocolPerformance env
      (BroadcastResult.protocol result) (BroadcastResult.success result)
      (BroadcastResult.latencyMs result)) ;;;
  ret results.

End WithEnv.
End ChatBroadcaster.

(** ** The listener multiplexer as a machine of interleaved tasks

    [handleIncomingMessage] is an [async] method.  A call runs without
    interruption up to its first [await]; there it is suspended and other
    calls may start or continue before it is resumed.  A [Task] is such a
    suspended call: the constructor names the [await] it is stopped at and
    carries the values that were computed before it.  [arrive] is the code
    from the entry of the method to the first [await], [continue] the code
    from one [await] (whose awaited call completes first) to the next.  The
    awaited call (a method of the database, a handler, the guarded
    broadcast) is one step: it takes effect when the call is resumed.  A
    schedule that resumes a call right after the step before it gives the
    runs in which the effect is immediate. *)

Module Multiplexer.

Inductive Task : Type :=
| AwaitDuplicateReceipt (receipt : MessageReceipt.t)
| AwaitSaveMessage (message : ChatMessage.t) (protocol : string)
    (server : option string) (row : Message.t)
| AwaitSaveReceipt (message : ChatMessage.t) (protocol : string)
    (receipt : MessageReceipt.t)
| AwaitLearnedPreference (message : ChatMessage.t) (protocol : string)
    (a : AckFields.t) (learned : ChannelPreference.t)
| AwaitStatedPreference (message : ChatMessage.t) (protocol : string)
    (pref : ChannelPreferenceInfo.t) (rest : list ChannelPreferenceInfo.t)
| AwaitHandler (message : ChatMessage.t) (protocol : string)
    (handler : nat) (rest : list nat)
| AwaitAckSaved (originalMessage : ChatMessage.t) (row : Message.t)
    (serialized : string)
| AwaitAckBroadcast (recipientMagnetLink serialized : string)
| Settled (r : Result unit).

(** An event of the outside world: a driver delivers a deserialised message
    (which calls [handleIncomingMessage]), or the event loop resumes the
    i-th call that was started. *)
Inductive Step : Type :=
| Arrive (message : ChatMessage.t) (protocol : string) (server : option string)
| Resume (i : nat).

Section WithEnv.
Context (env : Env).

(** From the end of the handler loop to the [await] in
    [sendAcknowledgment], or to the end of the method. *)
Definition toAcknowledgment (message : ChatMessage.t) (protocol : string) : M Task :=
  if negb (isAcknowledgment message) then
    me <- gets myMagnetLink ;;
    ack <- ChatBroadcaster.createAcknowledgment env message protocol me
             (ChatBroadcaster.myPreferences env) ;;
    let serialized := serializeMessage env ack in
    ret (AwaitAckSaved message
           (ChatBroadcaster.ackRow me message ack serialized) serialized)
  else ret (Settled (Ok tt)).

Definition toHandlers (message : ChatMessage.t) (protocol : string)
    (handlers : list nat) : M Task :=
  match handlers with
  | handler :: rest => ret (AwaitHandler message protocol handler rest)
  | [] => toAcknowledgment message protocol
  end.

Definition toStatedPreferences (message : ChatMessage.t) (protocol : string)
    (prefs : list ChannelPreferenceInfo.t) : M Task :=
  match prefs with
  | pref :: rest => ret (AwaitStatedPreference message protocol pref rest)
  | [] => handlers <- gets messageHandlers ;; toHandlers message protocol handlers
  end.

Definition afterReceipt (message : ChatMessage.t) (protocol : string) : M Task :=
  match ChatMessage.ack message with
  | Some a =>
      learned <- ChatBroadcaster.learnedPreference env message a ;;
      ret (AwaitLearnedPreference message protocol a learned)
  | None => handlers <- gets messageHandlers ;; toHandlers message protocol handlers
  end.

Definition arrive (message : ChatMessage.t) (protocol : string)
    (server : option string) : M Task :=
  seen <- gets seenMessageUuids ;;
  if bool_decide (ChatMessage.uuid message ∈ seen) then
    receipt <- ChatBroadcaster.makeReceipt env message protocol server ;;
    ret (AwaitDuplicateReceipt receipt)
  else
    modify (setSeen (fun s => s ∪ {[ChatMessage.uuid message]})) ;;;
    me <- gets myMagnetLink ;;
    firstReceivedAt <- now env ;;
    ret (AwaitSaveMessage message protocol server
           (ChatBroadcaster.inboundRow me message protocol firstReceivedAt)).

Definition continue (t : Task) : M Task :=
  match t with
  | AwaitDuplicateReceipt receipt =>
      ChatDatabase.saveMessageReceipt env receipt ;;;
      ret (Settled (Ok tt))
  | AwaitSaveMessage message protocol server row =>
      ChatDatabase.saveMessage env row ;;;
      receipt <- ChatBroadcaster.makeReceipt env message protocol server ;;
      ret (AwaitSaveReceipt message protocol receipt)
  | AwaitSaveReceipt message protocol receipt =>
      ChatDatabase.saveMessageReceipt env receipt ;;;
      afterReceipt message protocol
  | AwaitLearnedPreference message protocol a learned =>
      ChatDatabase.updateChannelPreference env learned ;;;
      toStatedPreferences message protocol (ChatBroadcaster.statedPreferences a)
  | AwaitStatedPreference message protocol pref rest =>
      ChatDatabase.updateChannelPreference env
        (ChatBroadcaster.statedPreference message pref) ;;;
      toStatedPreferences message protocol rest
  | AwaitHandler message protocol handler rest =>
      ChatBroadcaster.callHandler env message protocol handler ;;;
      toHandlers message protocol rest
  | AwaitAckSaved originalMessage row serialized =>
      ChatDatabase.saveMessage env row ;;;
      ret (AwaitAckBroadcast (ChatMessage.fromMagnetLink originalMessage) serialized)
  | AwaitAckBroadcast recipientMagnetLink serialized =>
      ChatBroadcaster.broadcastAck env recipientMagnetLink serialized ;;;
      ret (Settled (Ok tt))
  | Settled r => ret (Settled r)
  end.

(** A call whose code throws settles as a rejected promise. *)
Definition settleThrow (r : Result Task * World) : Task * World :=
  match r with
  | (Ok t, w) => (t, w)
  | (Throw e, w) => (Settled (Throw e), w)
  end.

Definition start (message : ChatMessage.t) (protocol : string)
    (server : option string) (w : World) : Task * World :=
  settleThrow (arrive message protocol server w).

Definition resume (t : Task) (w : World) : Task * World :=
  settleThrow (continue t w).

(** The program state: the world and the calls started so far, in the order
    in which they were started. *)
Definition step (st : World * list Task) (s : Step) : World * list Task :=
  match s with
  | Arrive message protocol server =>
      let (t, w) := start message protocol server (fst st) in (w, snd st ++ [t])
  | Resume i =>
      match snd st !! i with
      | Some t => let (t', w) := resume t (fst st) in (w, <[i := t']> (snd st))
      | None => st
      end
  end.

Definition run (schedule : list Step) (st : World * list Task) : World * list Task :=
  fold_left step schedule st.

(** One call on its own: resumed again and again, nothing in between. *)
Fixpoint drain (fuel : nat) (t : Task) (w : World) : Task * World :=
  match fuel with
  | O => (t, w)
  | S fuel' =>
      match t with
      | Settled _ => (t, w)
      | _ => let (t', w') := resume t w in drain fuel' t' w'
      end
  end.

End WithEnv.

Definition settled (t : Task) : bool :=
  match t with
  | Settled _ => true
  | _ => false
  end.

Definition isArrival (s : Step) : bool :=
  match s with
  | Arrive _ _ _ => true
  | Resume _ => false
  end.

(** The schedule delivers only messages with uuid [u]. *)
Definition carries (u : string) (s : Step) : Prop :=
  match s with
  | Arrive message _ _ => ChatMessage.uuid message = u
  | Resume _ => True
  end.

End Multiplexer.

(** ** Observations on stores and traces *)

Fixpoint countIf {A} (p : A -> bool) (l : list A) : nat :=
  match l with
  | [] => 0%nat
  | x :: rest => ((if p x then 1 else 0) + countIf p rest)%nat
  end.

(** Number of rows of [messages] with uuid [u]. *)
Definition messageRows (u : string) (s : Store) : nat :=
  countIf (Sql.hasUuid u) (messages s).

Definition receiptFor (u : string) (r : MessageReceipts.row) : bool :=
  bool_decide (MessageReceipts.message_uuid r = u).

(** Number of rows of [message_receipts] with message_uuid [u]. *)
Definition receiptRows (u : string) (s : Store) : nat :=
  countIf (receiptFor u) (message_receipts s).

Definition isHandlerCall (e : Event) : bool :=
  match e with
  | HandlerCalled _ _ _ => true
  | _ => false
  end.

Definition isBroadcastCall (e : Event) : bool :=
  match e with
  | BroadcastCalled _ _ => true
  | _ => false
  end.

Definition isDriverSend (e : Event) : bool :=
  match e with
  | DriverSend _ _ _ => true
  | _ => false
  end.

(** The schema's [uuid TEXT UNIQUE]. *)
Definition uniqueUuids (s : Store) : Prop :=
  NoDup (map Messages.uuid (messages s)).

(** No [db.execute] ever raises for a reason of its own. *)
Definition Healthy (env : Env) : Prop := forall n, sqliteFault env n = None.

(** No handler ever throws. *)
Definition HandlersReturn (env : Env) : Prop :=
  forall n h message protocol, handlerFault env n h message protocol = None.

(** The row of [messages] that a receipt for [u] refers to is there. *)
Definition stored (u : string) (s : Store) : bool :=
  existsb (Sql.hasUuid u) (messages s).

(** ** The mutations of the evidence store *)

Inductive Mutation : Type :=
| SaveMessage (message : Message.t)
| UpdateMessageFirstReceipt (uuid protocol : string) (receivedAt : Z)
| SaveMessageReceipt (receipt : MessageReceipt.t)
| UpdateChannelPreference (pref : ChannelPreference.t)
| UpdateProtocolPerformance (protocol : string) (acked : bool) (latencyMs : option Z).

Definition mutate (env : Env) (mu : Mutation) : M unit :=
  match mu with
  | SaveMessage message => ChatDatabase.saveMessage env message
  | UpdateMessageFirstReceipt uuid protocol receivedAt =>
      ChatDatabase.updateMessageFirstReceipt env uuid protocol receivedAt
  | SaveMessageReceipt receipt => ChatDatabase.saveMessageReceipt env receipt
  | UpdateChannelPreference pref => ChatDatabase.updateChannelPreference env pref
  | UpdateProtocolPerformance protocol acked latencyMs =>
      ChatDatabase.updateProtocolPerformance env protocol acked latencyMs
  end.

(** The statement a mutation hands to [executeWithRetry] when it is called in
    world [w] (only [updateProtocolPerformance] does anything before: it
    reads the clock). *)
Definition statementOf (env : Env) (mu : Mutation) (w : World) : Sql.Statement :=
  match mu with
  | SaveMessage message =>
      Sql.InsertOrIgnoreMessage (Message.uuid message) (Message.fromIdentity message)
        (Message.toIdentity message) (Message.content message)
        (Message.timestamp message) (Js.toInt (Message.isAcknowledgment message))
        (Js.orNullStr (Message.firstReceivedProtocol message))
        (Js.orNull (Message.firstReceivedAt message))
  | UpdateMessageFirstReceipt uuid protocol receivedAt =>
      Sql.UpdateMessageFirstReceipt protocol receivedAt uuid
  | SaveMessageReceipt receipt =>
      Sql.InsertMessageReceipt (MessageReceipt.messageUuid receipt)
        (MessageReceipt.protocol receipt) (Js.orNullStr (MessageReceipt.server receipt))
        (MessageReceipt.receivedAt receipt) (MessageReceipt.latencyMs receipt)
  | UpdateChannelPreference pref =>
      Sql.UpsertChannelPreference (ChannelPreference.identity pref)
        (ChannelPreference.protocol pref) (Js.toInt (ChannelPreference.isWorking pref))
        (Js.orNull (ChannelPreference.lastAckAt pref))
        (Js.orNull (ChannelPreference.avgLatencyMs pref))
        (Js.orNull (ChannelPreference.preferenceOrder pref))
        (Js.toInt (ChannelPreference.cannotUse pref))
  | UpdateProtocolPerformance protocol acked latencyMs =>
      let t := dateNow env (clock w) in
      Sql.UpsertProtocolPerformance protocol (Js.toInt acked) (Js.orNull latencyMs) t
        (Js.toInt acked) (Js.orNull latencyMs) (Js.orNull latencyMs)
        (Js.orNull latencyMs) t
  end.

(** The base delay before retry [i + 1]: [100 * 2^i] milliseconds. *)
Definition baseDelay (i : nat) : Q := inject_Z (100 * 2 ^ Z.of_nat i).

(** ** Measures on suspended calls *)

Definition ackDue (message : ChatMessage.t) : nat :=
  if isAcknowledgment message then 0 else 1.

(** Resumes left before a suspended call settles, with [n] handlers
    registered and none of them throwing. *)
Definition resumesLeft (n : nat) (t : Multiplexer.Task) : nat :=
  match t with
  | Multiplexer.AwaitDuplicateReceipt _ => 1
  | Multiplexer.AwaitSaveMessage message _ _ _ =>
      match ChatMessage.ack message with
      | Some a => 3 + length (ChatBroadcaster.statedPreferences a) + n
      | None => 4 + n
      end
  | Multiplexer.AwaitSaveReceipt message _ _ =>
      match ChatMessage.ack message with
      | Some a => 2 + length (ChatBroadcaster.statedPreferences a) + n
      | None => 3 + n
      end
  | Multiplexer.AwaitLearnedPreference message _ a _ =>
      1 + length (ChatBroadcaster.statedPreferences a) + n + 2 * ackDue message
  | Multiplexer.AwaitStatedPreference message _ _ rest =>
      1 + length rest + n + 2 * ackDue message
  | Multiplexer.AwaitHandler message _ _ rest =>
      1 + length rest + 2 * ackDue message
  | Multiplexer.AwaitAckSaved _ _ _ => 2
  | Multiplexer.AwaitAckBroadcast _ _ => 1
  | Multiplexer.Settled _ => 0
  end%nat.

(** The n-th [db.execute] fails with [SQLITE_BUSY]. *)
Definition busyAt (env : Env) (n : nat) : Prop :=
  exists e, sqliteFault env n = Some e /\ ChatDatabase.isBusy e = true.

(** ** A magnet-link decoder and concrete worlds for the examples *)

Module Magnet.

Fixpoint splitOn (c : ascii) (s : string) : list string :=
  match s with
  | EmptyString => [EmptyString]
  | String a rest =>
      if Ascii.eqb a c then EmptyString :: splitOn c rest
      else
        match splitOn c rest with
        | x :: xs => String a x :: xs
        | [] => [String a EmptyString]
        end
  end.

Fixpoint stripPrefix (p s : string) : option string :=
  match p, s with
  | EmptyString, _ => Some s
  | String a p', String b s' => if Ascii.eqb a b then stripPrefix p' s' else None
  | String _ _, EmptyString => None
  end.

Definition param (s : string) : option (string * string) :=
  match splitOn "=" s with
  | [k; v] => Some (k, v)
  | _ => None
  end.

Fixpoint lookupParam (k : string) (ps : list (string * string)) : option string :=
  match ps with
  | [] => None
  | (k', v) :: rest => if String.eqb k k' then Some v else lookupParam k rest
  end.

(** Modelled from the spec: [decodeIdentity] of [identity.ts] (not among the
    sources), as far as the spec describes it: a link
    [magnet:?xt=urn:identity:v1&secp256k1pub=..&ed25519pub=..&eth=..] with
    the parameters in any order; unknown parameters are tolerated and a link
    that misses a required parameter is rejected.  Key lengths and hex digits
    are not checked here. *)
Definition decode (link : string) : option Identity :=
  match stripPrefix "magnet:?" link with
  | None => None
  | Some query =>
      let ps := omap param (splitOn "&" query) in
      match lookupParam "xt" ps, lookupParam "secp256k1pub" ps,
            lookupParam "ed25519pub" ps, lookupParam "eth" ps with
      | Some xt, Some s, Some e, Some a =>
          if String.eqb xt "urn:identity:v1" then Some (mkIdentity s e a) else None
      | _, _, _, _ => None
      end
  end.

End Magnet.

Module Example.

Definition alice : string :=
  "magnet:?xt=urn:identity:v1&secp256k1pub=04aa&ed25519pub=bb&eth=0xcc".

Definition bob : string :=
  "magnet:?xt=urn:identity:v1&secp256k1pub=04dd&ed25519pub=ee&eth=0xff".

(** The recipient of scenario S4: no [ed25519pub]. *)
Definition broken : string :=
  "magnet:?xt=urn:identity:v1&secp256k1pub=04aa&eth=0xcc".

(** The clock advances by one millisecond per reading, uuids are numbered,
    no statement fails, no handler throws and every driver delivers. *)
Definition env : Env :=
  mkEnv (fun n => 1000 + Z.of_nat n)
    (fun n => "uuid-" +:+ pretty n)
    (fun n => N.of_nat n)
    (fun _ => None)
    (fun _ _ _ _ => None)
    (fun d _ _ _ => mkDelivery "ok" true None true)
    Magnet.decode
    (fun m => "{uuid:" +:+ ChatMessage.uuid m +:+ "}")
    true true.

(** The store answers [SQLITE_BUSY] twice, then works. *)
Definition busyTwice : Env :=
  mkEnv (dateNow env) (randomUUID env) (mathRandom env)
    (fun n => if (n <? 2)%nat then Some (Js.Error (Some "SQLITE_BUSY") "database is locked") else None)
    (handlerFault env) (transport env) (decodeIdentity env) (serializeMessage env)
    true true.

(** The store answers [SQLITE_BUSY] every time. *)
Definition alwaysBusy : Env :=
  mkEnv (dateNow env) (randomUUID env) (mathRandom env)
    (fun _ => Some (Js.Error (Some "SQLITE_BUSY") "database is locked"))
    (handlerFault env) (transport env) (decodeIdentity env) (serializeMessage env)
    true true.

(** The store is busy once and then reports a constraint violation of its
    own. *)
Definition brokenOnce : Env :=
  mkEnv (dateNow env) (randomUUID env) (mathRandom env)
    (fun n =>
       match n with
       | 0%nat => Some (Js.Error (Some "SQLITE_BUSY") "database is locked")
       | 1%nat => Some (Js.Error (Some "SQLITE_CONSTRAINT") "constraint failed")
       | _ => None
       end)
    (handlerFault env) (transport env) (decodeIdentity env) (serializeMessage env)
    true true.

(** Handler 0 throws whatever it is called with. *)
Definition throwing : Env :=
  mkEnv (dateNow env) (randomUUID env) (mathRandom env) (sqliteFault env)
    (fun _ h _ _ =>
       match h with
       | 0%nat => Some (Js.Error None "handler failed")
       | _ => None
       end)
    (transport env) (decodeIdentity env) (serializeMessage env) true true.

(** [Math.random()] returns the largest double below 1. *)
Definition busyWithLargestJitter : Env :=
  mkEnv (dateNow env) (randomUUID env) (fun _ => (2 ^ 53 - 1)%N)
    (fun _ => Some (Js.Error (Some "SQLITE_BUSY") "database is locked"))
    (handlerFault env) (transport env) (decodeIdentity env) (serializeMessage env)
    true true.

Definition allDrivers : Broadcaster :=
  mkBroadcaster true true true true true true 3 true 3 true.

(** Bob's broadcaster right after start-up, with one handler registered. *)
Definition fresh : World :=
  mkWorld allDrivers bob [0%nat] ∅ emptyStore 0 0 0 0 [].

Definition hello : ChatMessage.t :=
  ChatMessage.mk "u-1" "hello" 990 alice None.

(** Same uuid as [hello], everything else different. *)
Definition forged : ChatMessage.t :=
  ChatMessage.mk "u-1" "something else" 5 broken
    (Some (AckFields.mk "u-0" "MQTT" None)).

(** An acknowledgment of a message that Alice received over nostr. *)
Definition ackFromAlice : ChatMessage.t :=
  ChatMessage.mk "u-2" "ACK: u-0" 990 alice
    (Some (AckFields.mk "u-0" "nostr" None)).

(** The same acknowledgment with Alice's stated preferences. *)
Definition ackWithPreferences : ChatMessage.t :=
  ChatMessage.mk "u-3" "ACK: u-0" 990 alice
    (Some (AckFields.mk "u-0" "nostr"
             (Some [ChannelPreferenceInfo.mk "nostr" 1 false;
                    ChannelPreferenceInfo.mk "MQTT" 3 false]))).

(** An acknowledgment as [sendAcknowledgment] builds it: Alice received
    u-0 over nostr, and she states her preferences for the five
    transports. *)
Definition ackAsSent : ChatMessage.t :=
  ChatMessage.mk "u-4" "ACK: u-0" 990 alice
    (Some (AckFields.mk "u-0" "nostr" (Some (ChatBroadcaster.myPreferences env)))).

(** A store in which MQTT already has an average latency of 100 ms. *)
Definition measured : World :=
  setDb (fun s =>
    mkStore (messages s) (message_receipts s) (channel_preferences s)
      (<["MQTT" := ProtocolPerformance.mk 4 3 (Some 100%Q) (Some 900)]>
         (protocol_performance s)) (sqlite_sequence s)) fresh.

(** Three copies of [hello] arrive over nostr, MQTT and IROH while the calls
    for the earlier copies are still running; the call for the MQTT copy is
    the first to finish. *)
Definition interleaved : list Multiplexer.Step :=
  [ Multiplexer.Arrive hello "nostr" (Some "wss://nos.lol");
    Multiplexer.Arrive hello "MQTT" (Some "mqtt://broker.emqx.io:1883");
    Multiplexer.Resume 1;
    Multiplexer.Resume 0;
    Multiplexer.Arrive hello "IROH" None;
    Multiplexer.Resume 0;
    Multiplexer.Resume 2;
    Multiplexer.Resume 0;
    Multiplexer.Resume 0;
    Multiplexer.Resume 0 ].

(** Bob's world after [ackFromAlice] came in over MQTT: the row learned for
    (Alice, nostr). *)
Definition learnt : World :=
  snd (ChatBroadcaster.handleIncomingMessage env ackFromAlice "MQTT" None fresh).

Definition learnedRow : ChannelPreferences.row :=
  ChannelPreferences.mk 1 1 (Some 1003) (Some 14) None 0.

End Example.

(** ** Worlds reached by the loops of the pipeline *)

Definition emitAll (es : list Event) (w : World) : World :=
  mkWorld (broadcaster w) (myMagnetLink w) (messageHandlers w)
    (seenMessageUuids w) (db w) (clock w) (uuids w) (randoms w) (executes w)
    (trace w ++ es).

(** The events of the loop [for (const handler of this.messageHandlers)]. *)
Definition handlerCalls (message : ChatMessage.t) (protocol : string)
    (handlers : list nat) : list Event :=
  map (fun handler => HandlerCalled handler message protocol) handlers.

(** The handler loop started after [at_] events: the handlers that get
    called (those before the first one that throws, and that one), and how
    the loop ends. *)
Fixpoint handlersRun (env : Env) (message : ChatMessage.t) (protocol : string)
    (at_ : nat) (handlers : list nat) : list nat * Result unit :=
  match handlers with
  | [] => ([], Ok tt)
  | handler :: rest =>
      match handlerFault env at_ handler message protocol with
      | Some e => ([handler], Throw e)
      | None =>
          let (called, r) := handlersRun env message protocol (S at_) rest in
          (handler :: called, r)
      end
  end.

Definition returned {A} (r : Result A) : bool :=
  match r with
  | Ok _ => true
  | Throw _ => false
  end.

(** The five transports, in the order in which [broadcast] looks at them. *)
Definition transports : list Driver := [XMTP; Nostr; Waku; MQTT; IROH].

(** A transport can be used: it is enabled in the options and [initialize]
    has set up its client (at least one relay or broker for Nostr and
    MQTT). *)
Definition ready (b : Broadcaster) (d : Driver) : bool :=
  match d with
  | XMTP => xmtpEnabled b && xmtpClient b
  | Nostr => nostrEnabled b && negb (Nat.eqb (nostrRelays b) 0)
  | Waku => wakuEnabled b && wakuNode b
  | MQTT => mqttEnabled b && negb (Nat.eqb (mqttClients b) 0)
  | IROH => irohEnabled b && irohNode b
  end.

(** The events of the sends that [broadcast] starts. *)
Definition driverSends (recipient : Identity) (message : string)
    (drivers : list Driver) : list Event :=
  map (fun d => DriverSend d recipient message) drivers.

(** The world after one send: it leaves an event and reads the clock twice,
    or three times when it stamps its payload. *)
Definition afterSend (env : Env) (recipient : Identity) (message : string)
    (w : World) (d : Driver) : World :=
  let started := tickClock (emit (DriverSend d recipient message) w) in
  if BroadcasterImpl.stampsPayload d (transport env d recipient message (clock w))
  then tickClock (tickClock started)
  else tickClock started.

(** The world after the sends of [broadcast]. *)
Definition afterSends (env : Env) (recipient : Identity) (message : string)
    (drivers : list Driver) (w : World) : World :=
  fold_left (afterSend env recipient message) drivers w.

(** The world after one successful [db.execute] of [stmt]. *)
Definition executed (stmt : Sql.Statement) (w : World) : World :=
  setDb (Sql.exec stmt) (tickExecutes w).

Definition preferenceStatement (pref : ChannelPreference.t) : Sql.Statement :=
  Sql.UpsertChannelPreference (ChannelPreference.identity pref)
    (ChannelPreference.protocol pref) (Js.toInt (ChannelPreference.isWorking pref))
    (Js.orNull (ChannelPreference.lastAckAt pref))
    (Js.orNull (ChannelPreference.avgLatencyMs pref))
    (Js.orNull (ChannelPreference.preferenceOrder pref))
    (Js.toInt (ChannelPreference.cannotUse pref)).

(** The world after the upserts of a list of preferences, in order. *)
Definition afterPreferences (prefs : list ChannelPreference.t) (w : World) : World :=
  fold_left (fun w pref => executed (preferenceStatement pref) w) prefs w.

(** The [channel_preferences] table after the same upserts. *)
Definition upsertAll (prefs : list ChannelPreference.t) (s : Store) : Store :=
  fold_left (fun s pref => Sql.exec (preferenceStatement pref) s) prefs s.

(** The world in which a first arrival has stored its message and its
    receipt, on a store that works. *)
Definition firstStored (env : Env) (message : ChatMessage.t) (protocol : string)
    (server : option string) (w : World) : World :=
  executed
    (Sql.InsertMessageReceipt (ChatMessage.uuid message) protocol (Js.orNullStr server)
       (dateNow env (S (clock w)))
       (dateNow env (S (S (clock w))) - ChatMessage.timestamp message))
    (tickClock
       (tickClock
          (executed
             (statementOf env
                (SaveMessage
                   (ChatBroadcaster.inboundRow (myMagnetLink w) message protocol
                      (dateNow env (clock w)))) w)
             (tickClock (setSeen (fun s => s ∪ {[ChatMessage.uuid message]}) w))))).

(** The preferences that a first arrival upserts, with the clock at
    [clock w] when the call starts: none for a message, the learned one and
    then the stated ones for an acknowledgment. *)
Definition preferencesOf (env : Env) (message : ChatMessage.t) (w : World)
  : list ChannelPreference.t :=
  match ChatMessage.ack message with
  | Some a =>
      ChannelPreference.mk (ChatMessage.fromMagnetLink message) (AckFields.receivedVia a)
        true (Some (dateNow env (3 + clock w)))
        (Some (dateNow env (4 + clock w) - ChatMessage.timestamp message)) None false
      :: map (ChatBroadcaster.statedPreference message) (ChatBroadcaster.statedPreferences a)
  | None => []
  end.

(** The preference of a list that is upserted last for a key. *)
Definition lastUpsert (key : string * string) (prefs : list ChannelPreference.t)
  : option ChannelPreference.t :=
  last (List.filter
          (fun pref =>
             bool_decide
               ((ChannelPreference.identity pref, ChannelPreference.protocol pref) = key))
          prefs).

(** The row holds what the upsert of [pref] binds: the flags, the two
    nullable columns after [|| null], and the order when one is bound. *)
Definition holds (pref : ChannelPreference.t) (row : ChannelPreferences.row) : Prop :=
  ChannelPreferences.is_working row = Js.toInt (ChannelPreference.isWorking pref) /\
  ChannelPreferences.last_ack_at row = Js.orNull (ChannelPreference.lastAckAt pref) /\
  ChannelPreferences.avg_latency_ms row = Js.orNull (ChannelPreference.avgLatencyMs pref) /\
  ChannelPreferences.cannot_use row = Js.toInt (ChannelPreference.cannotUse pref) /\
  (forall order,
     Js.orNull (ChannelPreference.preferenceOrder pref) = Some order ->
     ChannelPreferences.preference_order row = Some order).

(** The entry of an acknowledgment's [channelPreferences] that is upserted
    last for protocol [p]. *)
Definition lastStated (p : string) (infos : list ChannelPreferenceInfo.t)
  : option ChannelPreferenceInfo.t :=
  last (List.filter (fun info => bool_decide (ChannelPreferenceInfo.protocol info = p)) infos).

(** The acknowledgment that [sendAcknowledgment] builds in world [w]. *)
Definition ackBuilt (env : Env) (originalMessage : ChatMessage.t) (receivedVia : string)
    (w : World) : ChatMessage.t :=
  ChatMessage.mk (randomUUID env (uuids w))
    ("ACK: " +:+ ChatMessage.uuid originalMessage)
    (dateNow env (clock w)) (myMagnetLink w)
    (Some (AckFields.mk (ChatMessage.uuid originalMessage) receivedVia
             (Some (ChatBroadcaster.myPreferences env)))).

(** The events of [broadcastAck]: the call, then the sends, or the logged
    failure when the recipient does not decode. *)
Definition ackEvents (env : Env) (b : Broadcaster) (recipientMagnetLink serialized : string)
  : list Event :=
  BroadcastCalled recipientMagnetLink serialized ::
  match decodeIdentity env recipientMagnetLink with
  | Some recipient =>
      driverSends recipient serialized (BroadcasterImpl.activeDrivers b)
  | None => [ConsoleError "Failed to send acknowledgment:"]
  end.

(** The events a call added to the trace. *)
Definition added (before after : World) : list Event :=
  drop (length (trace before)) (trace after).

(** ** The rest of the method after each [await]

    [handleIncomingMessage] cut at its [await]s: what remains to be run when
    the call is suspended at [t]. *)

Section Rest.
Context (env : Env).

Definition restAck (message : ChatMessage.t) (protocol : string) : M unit :=
  if negb (isAcknowledgment message) then
    ChatBroadcaster.sendAcknowledgment env message protocol
  else ret tt.

Definition restHandlers (message : ChatMessage.t) (protocol : string)
    (handlers : list nat) : M unit :=
  (forEach handlers (ChatBroadcaster.callHandler env message protocol) ;;;
   restAck message protocol)%async.

Definition restPreferences (message : ChatMessage.t) (protocol : string)
    (prefs : list ChannelPreferenceInfo.t) : M unit :=
  (forEach prefs (fun pref =>
     ChatDatabase.updateChannelPreference env
       (ChatBroadcaster.statedPreference message pref)) ;;;
   handlers <- gets messageHandlers ;;
   restHandlers message protocol handlers)%async.

Definition restReceipt (message : ChatMessage.t) (protocol : string) : M unit :=
  match ChatMessage.ack message with
  | Some a =>
      (learned <- ChatBroadcaster.learnedPreference env message a ;;
       ChatDatabase.updateChannelPreference env learned ;;;
       restPreferences message protocol (ChatBroadcaster.statedPreferences a))%async
  | None =>
      (handlers <- gets messageHandlers ;;
       restHandlers message protocol handlers)%async
  end.

Definition rest (t : Multiplexer.Task) : M unit :=
  match t with
  | Multiplexer.AwaitDuplicateReceipt receipt =>
      ChatDatabase.saveMessageReceipt env receipt
  | Multiplexer.AwaitSaveMessage message protocol server row =>
      (ChatDatabase.saveMessage env row ;;;
       receipt <- ChatBroadcaster.makeReceipt env message protocol server ;;
       ChatDatabase.saveMessageReceipt env receipt ;;;
       restReceipt message protocol)%async
  | Multiplexer.AwaitSaveReceipt message protocol receipt =>
      (ChatDatabase.saveMessageReceipt env receipt ;;;
       restReceipt message protocol)%async
  | Multiplexer.AwaitLearnedPreference message protocol a learned =>
      (ChatDatabase.updateChannelPreference env learned ;;;
       restPreferences message protocol (ChatBroadcaster.statedPreferences a))%async
  | Multiplexer.AwaitStatedPreference message protocol pref prefs =>
      restPreferences message protocol (pref :: prefs)
  | Multiplexer.AwaitHandler message protocol handler handlers =>
      restHandlers message protocol (handler :: handlers)
  | Multiplexer.AwaitAckSaved originalMessage row serialized =>
      (ChatDatabase.saveMessage env row ;;;
       ChatBroadcaster.broadcastAck env
         (ChatMessage.fromMagnetLink originalMessage) serialized)%async
  | Multiplexer.AwaitAckBroadcast recipientMagnetLink serialized =>
      ChatBroadcaster.broadcastAck env recipientMagnetLink serialized
  | Multiplexer.Settled r => fun w => (r, w)
  end.

End Rest.
(** ** [database.ts]: the methods that read the store *)

(** An object built from a row that has an [id] column: the id and the
    other fields of the interface. *)
Module Stored.
Record t (A : Type) : Type := mk {
  id : Z;
  fields : A
}.
Arguments mk {A} id fields.
Arguments id {A} t.
Arguments fields {A} t.
End Stored.

(** The objects of interface [ProtocolPerformance] that
    [getProtocolPerformance] returns ([ProtocolPerformance.row] is the row
    of the table, which has the protocol as its key).  [avgLatencyMs] and
    [lastUsedAt] are [null] while the columns are NULL. *)
Module PerformanceInfo.
Record t : Type := mk {
  protocol : string;
  totalSent : Z;
  totalAcked : Z;
  avgLatencyMs : option Q;
  lastUsedAt : option Z
}.
End PerformanceInfo.

(** The SELECT statements of [database.ts], as functions of the store. *)
Module Select.

(** [ORDER BY]: the rows sorted by the given order.  SQLite leaves open in
    which order rows with equal keys come out; here they come out as merge
    sort leaves them, and nothing below depends on it. *)
Definition orderBy {A} (le : A -> A -> bool) (rows : list A) : list A :=
  merge_sort (fun x y => Is_true (le x y)) rows.

(** [LIMIT ?]: a negative limit is no limit. *)
Definition limitTo {A} (limit : Z) (rows : list A) : list A :=
  if limit <? 0 then rows else take (Z.to_nat limit) rows.

(** How SQLite compares two INTEGER columns that may be NULL: NULL comes
    before every number. *)
Definition compareNullable (x y : option Z) : comparison :=
  match x, y with
  | None, None => Eq
  | None, Some _ => Lt
  | Some _, None => Gt
  | Some a, Some b => a ?= b
  end.

(** The same for a column that holds REALs. *)
Definition compareNullableReal (x y : option Q) : comparison :=
  match x, y with
  | None, None => Eq
  | None, Some _ => Lt
  | Some _, None => Gt
  | Some a, Some b => (a ?= b)%Q
  end.

(** [ORDER BY k1 ASC, k2 ASC]: the second key decides among equal first
    keys. *)
Definition thenBy (c1 c2 : comparison) : comparison :=
  match c1 with
  | Eq => c2
  | _ => c1
  end.

Definition notAfter (c : comparison) : bool :=
  match c with
  | Gt => false
  | _ => true
  end.

(** [SELECT * FROM messages WHERE uuid = ?] *)
Definition messageByUuid (uuid : string) (s : Store) : list Messages.row :=
  List.filter (Sql.hasUuid uuid) (messages s).

(** [(from_identity = ? AND to_identity = ?) OR (from_identity = ? AND
    to_identity = ?)] with the arguments [identity1, identity2, identity2,
    identity1]. *)
Definition between (identity1 identity2 : string) (r : Messages.row) : bool :=
  (bool_decide (Messages.from_identity r = identity1)
   && bool_decide (Messages.to_identity r = identity2))
  || (bool_decide (Messages.from_identity r = identity2)
      && bool_decide (Messages.to_identity r = identity1)).

Definition newerFirst (r1 r2 : Messages.row) : bool :=
  Messages.timestamp r2 <=? Messages.timestamp r1.

(** [SELECT * FROM messages WHERE ... ORDER BY timestamp DESC LIMIT ?] *)
Definition conversation (identity1 identity2 : string) (limit : Z) (s : Store)
  : list Messages.row :=
  limitTo limit
    (orderBy newerFirst (List.filter (between identity1 identity2) (messages s))).

Definition earlierFirst (r1 r2 : MessageReceipts.row) : bool :=
  MessageReceipts.received_at r1 <=? MessageReceipts.received_at r2.

(** [SELECT * FROM message_receipts WHERE message_uuid = ? ORDER BY
    received_at ASC] *)
Definition receipts (messageUuid : string) (s : Store) : list MessageReceipts.row :=
  orderBy earlierFirst (List.filter (receiptFor messageUuid) (message_receipts s)).

Definition preferredFirst (r1 r2 : (string * string) * ChannelPreferences.row) : bool :=
  notAfter
    (thenBy
       (compareNullable (ChannelPreferences.preference_order (snd r1))
          (ChannelPreferences.preference_order (snd r2)))
       (compareNullable (ChannelPreferences.avg_latency_ms (snd r1))
          (ChannelPreferences.avg_latency_ms (snd r2)))).

(** [SELECT * FROM channel_preferences WHERE identity = ? ORDER BY
    preference_order ASC, avg_latency_ms ASC]; a row comes with its key
    (identity, protocol). *)
Definition channelPreferences (identity : string) (s : Store)
  : list ((string * string) * ChannelPreferences.row) :=
  orderBy preferredFirst
    (List.filter (fun kr => bool_decide (fst (fst kr) = identity))
       (map_to_list (channel_preferences s))).

Definition fasterFirst (r1 r2 : string * ProtocolPerformance.row) : bool :=
  notAfter
    (compareNullableReal (ProtocolPerformance.avg_latency_ms (snd r1))
       (ProtocolPerformance.avg_latency_ms (snd r2))).

(** [SELECT * FROM protocol_performance ORDER BY avg_latency_ms ASC] *)
Definition protocolPerformance (s : Store) : list (string * ProtocolPerformance.row) :=
  orderBy fasterFirst (map_to_list (protocol_performance s)).

End Select.

(** The methods [getMessage], [getConversation], [getMessageReceipts],
    [getChannelPreferences] and [getProtocolPerformance] of class
    [ChatDatabase]. *)
Module ChatDatabaseQueries.

(** [{ id: row.id, uuid: row.uuid, ..., isAcknowledgment:
    row.is_acknowledgment === 1, ... }] *)
Definition toMessage (row : Messages.row) : Stored.t Message.t :=
  Stored.mk (Messages.id row)
    (Message.mk (Messages.uuid row) (Messages.from_identity row)
       (Messages.to_identity row) (Messages.content row) (Messages.timestamp row)
       (Messages.is_acknowledgment row =? 1)
       (Messages.first_received_protocol row) (Messages.first_received_at row)).

Definition toReceipt (row : MessageReceipts.row) : Stored.t MessageReceipt.t :=
  Stored.mk (MessageReceipts.id row)
    (MessageReceipt.mk (MessageReceipts.message_uuid row) (MessageReceipts.protocol row)
       (MessageReceipts.server row) (MessageReceipts.received_at row)
       (MessageReceipts.latency_ms row)).

Definition toChannelPreference (kr : (string * string) * ChannelPreferences.row)
  : Stored.t ChannelPreference.t :=
  Stored.mk (ChannelPreferences.id (snd kr))
    (ChannelPreference.mk (fst (fst kr)) (snd (fst kr))
       (ChannelPreferences.is_working (snd kr) =? 1)
       (ChannelPreferences.last_ack_at (snd kr))
       (ChannelPreferences.avg_latency_ms (snd kr))
       (ChannelPreferences.preference_order (snd kr))
       (ChannelPreferences.cannot_use (snd kr) =? 1)).

Definition toPerformance (kr : string * ProtocolPerformance.row) : PerformanceInfo.t :=
  PerformanceInfo.mk (fst kr)
    (ProtocolPerformance.total_sent (snd kr))
    (ProtocolPerformance.total_acked (snd kr))
    (ProtocolPerformance.avg_latency_ms (snd kr))
    (ProtocolPerformance.last_used_at (snd kr)).

Section WithEnv.
Context (env : Env).

(** [await this.db.execute(...)] of a SELECT: the rows, or the error the
    statement raises.  It is one more [db.execute], it is not wrapped in
    [executeWithRetry], and it leaves the store as it is.  The error may
    come from the client as well as from SQLite: an INTEGER beyond the safe
    range makes the client throw a RangeError when it converts the row, and
    that too is the environment's [sqliteFault]. *)
Definition select {A} (q : Store -> A) : M A :=
  fun w =>
    match sqliteFault env (executes w) with
    | Some e => (Throw e, tickExecutes w)
    | None => (Ok (q (db w)), tickExecutes w)
    end.

Definition getMessage (uuid : string) : M (option (Stored.t Message.t)) :=
  rows <- select (Select.messageByUuid uuid) ;;
  match rows with                                   (* result.rows[0] *)
  | [] => ret None                                  (* if (!row) return undefined *)
  | row :: _ => ret (Some (toMessage row))
  end.

(** The default value of the parameter [limit]. *)
Definition limitDefault : Z := 50.

Definition getConversation (identity1 identity2 : string) (limit : Z)
  : M (list (Stored.t Message.t)) :=
  rows <- select (Select.conversation identity1 identity2 limit) ;;
  ret (reverse (map toMessage rows)).               (* Oldest first *)

Definition getMessageReceipts (messageUuid : string)
  : M (list (Stored.t MessageReceipt.t)) :=
  rows <- select (Select.receipts messageUuid) ;;
  ret (map toReceipt rows).

Definition getChannelPreferences (identity : string)
  : M (list (Stored.t ChannelPreference.t)) :=
  rows <- select (Select.channelPreferences identity) ;;
  ret (map toChannelPreference rows).

Definition getProtocolPerformance : M (list PerformanceInfo.t) :=
  rows <- select Select.protocolPerformance ;;
  ret (map toPerformance rows).

End WithEnv.
End ChatDatabaseQueries.

(** The five readers, by name. *)
Inductive Query : Type -> Type :=
| GetMessage (uuid : string) : Query (option (Stored.t Message.t))
| GetConversation (identity1 identity2 : string) (limit : Z)
    : Query (list (Stored.t Message.t))
| GetMessageReceipts (messageUuid : string) : Query (list (Stored.t MessageReceipt.t))
| GetChannelPreferences (identity : string) : Query (list (Stored.t ChannelPreference.t))
| GetProtocolPerformance : Query (list PerformanceInfo.t).

Definition ask (env : Env) {A} (q : Query A) : M A :=
  match q with
  | GetMessage uuid => ChatDatabaseQueries.getMessage env uuid
  | GetConversation identity1 identity2 limit =>
      ChatDatabaseQueries.getConversation env identity1 identity2 limit
  | GetMessageReceipts messageUuid => ChatDatabaseQueries.getMessageReceipts env messageUuid
  | GetChannelPreferences identity => ChatDatabaseQueries.getChannelPreferences env identity
  | GetProtocolPerformance => ChatDatabaseQueries.getProtocolPerformance env
  end.


(** [receipt.server || null] *)
Definition receiptAsBound (receipt : MessageReceipt.t) : MessageReceipt.t :=
  MessageReceipt.mk (MessageReceipt.messageUuid receipt) (MessageReceipt.protocol receipt)
    (Js.orNullStr (MessageReceipt.server receipt)) (MessageReceipt.receivedAt receipt)
    (MessageReceipt.latencyMs receipt).

(** A message read back, with the first receipt filled in. *)
Definition withFirstReceipt (protocol : string) (receivedAt : Z)
    (m : Stored.t Message.t) : Stored.t Message.t :=
  Stored.mk (Stored.id m)
    (Message.mk (Message.uuid (Stored.fields m)) (Message.fromIdentity (Stored.fields m))
       (Message.toIdentity (Stored.fields m)) (Message.content (Stored.fields m))
       (Message.timestamp (Stored.fields m)) (Message.isAcknowledgment (Stored.fields m))
       (Some protocol) (Some receivedAt)).

(** What [ORDER BY x ASC] promises for two values of a column that may be
    NULL, the first coming out before the second. *)
Definition nullableLe (x y : option Z) : Prop :=
  match x, y with
  | None, _ => True
  | Some _, None => False
  | Some a, Some b => a <= b
  end.

(** The same for a column that holds REALs. *)
Definition nullableLeReal (x y : option Q) : Prop :=
  match x, y with
  | None, _ => True
  | Some _, None => False
  | Some a, Some b => (a <= b)%Q
  end.

(** What [ORDER BY preference_order ASC, avg_latency_ms ASC] promises for
    two preferences, the first coming out before the second: no stated order
    before any stated order, a smaller order before a larger one, and among
    equal orders no latency before any latency and a smaller latency before
    a larger one. *)
Definition rankedBefore (p1 p2 : ChannelPreference.t) : Prop :=
  match ChannelPreference.preferenceOrder p1, ChannelPreference.preferenceOrder p2 with
  | None, None =>
      nullableLe (ChannelPreference.avgLatencyMs p1) (ChannelPreference.avgLatencyMs p2)
  | None, Some _ => True
  | Some _, None => False
  | Some a, Some b =>
      a < b \/
      (a = b /\
       nullableLe (ChannelPreference.avgLatencyMs p1) (ChannelPreference.avgLatencyMs p2))
  end.
(** ** What the methods may do to the store, whatever fails *)

(** The statements that [ChatBroadcaster] has the database execute, through
    [saveMessage], [saveMessageReceipt], [updateChannelPreference] and
    [updateProtocolPerformance]: the flags are bound as [b ? 1 : 0], and the
    two positions of [ackedInt] hold the same value. *)
Definition byBroadcaster (stmt : Sql.Statement) : Prop :=
  match stmt with
  | Sql.InsertOrIgnoreMessage _ _ _ _ _ _ _ _ => True
  | Sql.UpdateMessageFirstReceipt _ _ _ => False
  | Sql.InsertMessageReceipt _ _ _ _ _ => True
  | Sql.UpsertChannelPreference _ _ is_working _ _ _ cannot_use =>
      (is_working = 0 \/ is_working = 1) /\ (cannot_use = 0 \/ cannot_use = 1)
  | Sql.UpsertProtocolPerformance _ a2 _ _ a5 _ _ _ _ =>
      a2 = a5 /\ (a2 = 0 \/ a2 = 1)
  end.

(** The statements of the five mutations of [ChatDatabase]: the same, and
    the UPDATE of [updateMessageFirstReceipt]. *)
Definition byMutation (stmt : Sql.Statement) : Prop :=
  match stmt with
  | Sql.UpdateMessageFirstReceipt _ _ _ => True
  | _ => byBroadcaster stmt
  end.

(** [s'] is [s] after some statements, each of them [issued], have run to
    completion one after the other. *)
Inductive Evolves (issued : Sql.Statement -> Prop) : Store -> Store -> Prop :=
| evolves_same (s : Store) : Evolves issued s s
| evolves_exec (s s' : Store) (stmt : Sql.Statement) :
    Evolves issued s s' -> issued stmt -> Evolves issued s (Sql.exec stmt s').

(** In every row of [protocol_performance], something was sent, and no
    more was acknowledged than was sent. *)
Definition countersConsistent (s : Store) : Prop :=
  forall protocol row,
    protocol_performance s !! protocol = Some row ->
    1 <= ProtocolPerformance.total_sent row /\
    0 <= ProtocolPerformance.total_acked row <= ProtocolPerformance.total_sent row.

(** The flags of every row of [channel_preferences] are 0 or 1. *)
Definition flagsBoolean (s : Store) : Prop :=
  forall key row,
    channel_preferences s !! key = Some row ->
    (ChannelPreferences.is_working row = 0 \/ ChannelPreferences.is_working row = 1) /\
    (ChannelPreferences.cannot_use row = 0 \/ ChannelPreferences.cannot_use row = 1).

(** What a run of a method leaves of the world it started in: the store
    has gone through issued statements only; no uuid has left the seen set;
    the handlers, the identity and the clients are the same; the trace has
    only grown; and the environment was only read further. *)
Record Advances (issued : Sql.Statement -> Prop) (w w' : World) : Prop := mkAdvances {
  adv_db : Evolves issued (db w) (db w');
  adv_seen : seenMessageUuids w ⊆ seenMessageUuids w';
  adv_handlers : messageHandlers w' = messageHandlers w;
  adv_me : myMagnetLink w' = myMagnetLink w;
  adv_broadcaster : broadcaster w' = broadcaster w;
  adv_trace : trace w `prefix_of` trace w';
  adv_clock : (clock w <= clock w')%nat;
  adv_uuids : (uuids w <= uuids w')%nat;
  adv_randoms : (randoms w <= randoms w')%nat;
  adv_executes : (executes w <= executes w')%nat
}.

(** Every run of [m], from any world, with any outcome. *)
Definition Always {A} (R : World -> World -> Prop) (m : M A) : Prop :=
  forall w, R w (snd (m w)).

(** The mutations of a list, called one after the other, each one when the
    one before has settled, whatever its outcome. *)
Definition mutateAll (env : Env) (mus : list Mutation) (w : World) : World :=
  fold_left (fun w mu => snd (mutate env mu w)) mus w.

(** What makes a [ChatBroadcaster] run: a listener hands it a message, or
    the client sends one. *)
Inductive Call : Type :=
| Incoming (message : ChatMessage.t) (protocol : string) (server : option string)
| Send (recipientMagnetLink content : string).

Definition perform (env : Env) (c : Call) : M unit :=
  match c with
  | Incoming message protocol server =>
      ChatBroadcaster.handleIncomingMessage env message protocol server
  | Send recipientMagnetLink content =>
      _ <- ChatBroadcaster.sendMessage env recipientMagnetLink content ;; ret tt
  end.

(** Calls made one after the other, each one when the one before has
    settled, whatever its outcome. *)
Definition session (env : Env) (calls : list Call) (w : World) : World :=
  fold_left (fun w c => snd (perform env c w)) calls w.

(** ** Accounting of sends *)

(** The sum of [total_sent], and of [total_acked], over all protocols. *)
Definition sentInTotal (s : Store) : Z :=
  map_fold (fun _ row acc => ProtocolPerformance.total_sent row + acc) 0
    (protocol_performance s).

Definition ackedInTotal (s : Store) : Z :=
  map_fold (fun _ row acc => ProtocolPerformance.total_acked row + acc) 0
    (protocol_performance s).

(** The number of results that report success. *)
Definition successes (results : list BroadcastResult.t) : Z :=
  Z.of_nat (countIf BroadcastResult.success results).

(** ** Calls of the database in the middle of a method *)










(** ** Time spent waiting *)

(** The sum of the delays of a list, in milliseconds. *)
Definition totalDelay (delays : list Q) : Q := fold_right Qplus 0%Q delays.

(** What [k] sleeps of the retry loop add up to, jitter aside:
    100 + 200 + ... + 100 * 2^(k-1) = 100 * (2^k - 1). *)
Definition baseTotal (k : nat) : Q := inject_Z (100 * (2 ^ Z.of_nat k - 1)).
(** ** [history-stats.ts]: statistics read from a chat database *)

(** SQL aggregates over the rows of a table or of a group. *)
Module Aggregate.

(** [MIN(x)]: NULL over no rows. *)
Definition minimum (xs : list Z) : option Z :=
  match xs with
  | [] => None
  | x :: rest => Some (foldr Z.min x rest)
  end.

(** [MAX(x)]: NULL over no rows. *)
Definition maximum (xs : list Z) : option Z :=
  match xs with
  | [] => None
  | x :: rest => Some (foldr Z.max x rest)
  end.

Definition total (xs : list Z) : Z := foldr Z.add 0 xs.

(** [AVG(x)] over an INTEGER column: NULL over no rows, otherwise the sum
    divided by the count.  SQLite returns a double; it is the exact
    quotient here, and rounding either to the nearest integer gives the
    same while the sum stays below 2^52 in absolute value. *)
Definition average (xs : list Z) : option Q :=
  match xs with
  | [] => None
  | _ => Some (inject_Z (total xs) / inject_Z (Z.of_nat (length xs)))%Q
  end.

(** [COUNT(DISTINCT e)] *)
Definition countDistinct {A K} `{EqDecision K} (e : A -> K) (rows : list A) : Z :=
  Z.of_nat (length (remove_dups (map e rows))).

(** [GROUP BY e]: one group per value of [e].  SQLite leaves open in which
    order the groups come out when there is no ORDER BY; nothing below
    depends on it. *)
Definition groups {A K} `{EqDecision K} (e : A -> K) (rows : list A) : list K :=
  remove_dups (map e rows).

(** The rows of the group of [k]. *)
Definition group {A K} `{EqDecision K} (e : A -> K) (k : K) (rows : list A) : list A :=
  List.filter (fun r => bool_decide (e r = k)) rows.

End Aggregate.

Module HistoryStats.

(** The values of [protocolStats.servers]. *)
Module ServerStats.
Record t : Type := mk {
  delivered : Z;
  avgLatency : Z;
  minLatency : option Z;
  maxLatency : option Z
}.
End ServerStats.

(** Interface [ProtocolStats]. *)
Module ProtocolStats.
Record t : Type := mk {
  totalDelivered : Z;
  avgLatency : Z;
  minLatency : option Z;
  maxLatency : option Z;
  last1min : Z;
  last1hour : Z;
  last1day : Z;
  last1week : Z;
  servers : gmap string ServerStats.t
}.
End ProtocolStats.

(** The entries of [stats.topConversations]. *)
Module Conversation.
Record t : Type := mk {
  from : string;
  to : string;
  count : Z
}.
End Conversation.

(** [dateRange.earliest] starts as [Infinity]. *)
Inductive Earliest : Type :=
| Infinity
| Millis (ms : Z).

(** Interface [Stats]; [dateRange] is the pair of [earliest] and [latest]. *)
Module Stats.
Record t : Type := mk {
  totalMessages : Z;
  totalAcknowledgments : Z;
  messagesWithReceipts : Z;
  uniqueConversations : Z;
  earliest : Earliest;
  latest : Z;
  protocols : gmap string ProtocolStats.t;
  topConversations : list Conversation.t
}.
End Stats.

(** *** The five SELECT statements of [getStats] *)

Module MessageTotals.
Record row : Type := mk {
  total : Z;
  acks : Z;
  earliest : option Z;
  latest : option Z;
  conversations : Z
}.
End MessageTotals.

Definition isAck (r : Messages.row) : bool := Messages.is_acknowledgment r =? 1.

Definition notAck (r : Messages.row) : bool := Messages.is_acknowledgment r =? 0.

(** [from_identity || '-' || to_identity] *)
Definition conversationName (r : Messages.row) : string :=
  Messages.from_identity r +:+ "-" +:+ Messages.to_identity r.

(** [SELECT COUNT( * ) as total, COUNT(CASE WHEN is_acknowledgment = 1 THEN 1
    END) as acks, MIN(timestamp) as earliest, MAX(timestamp) as latest,
    COUNT(DISTINCT from_identity || '-' || to_identity) as conversations
    FROM messages]: an aggregate without GROUP BY gives one row, also over
    an empty table. *)
Definition messageTotals (s : Store) : list MessageTotals.row :=
  [MessageTotals.mk
     (Z.of_nat (length (messages s)))
     (Z.of_nat (countIf isAck (messages s)))
     (Aggregate.minimum (map Messages.timestamp (messages s)))
     (Aggregate.maximum (map Messages.timestamp (messages s)))
     (Aggregate.countDistinct conversationName (messages s))].

Module ProtocolRow.
Record row : Type := mk {
  protocol : string;
  delivered : Z;
  avg_latency : option Q;
  min_latency : option Z;
  max_latency : option Z;
  last_1min : Z;
  last_1hour : Z;
  last_1day : Z;
  last_1week : Z
}.
End ProtocolRow.

(** [received_at >= t] *)
Definition since (t : Z) (r : MessageReceipts.row) : bool :=
  t <=? MessageReceipts.received_at r.

(** [SUM(CASE WHEN c THEN 1 ELSE 0 END)] over a group, which has a row. *)
Definition sumWhen {A} (c : A -> bool) (rows : list A) : Z := Z.of_nat (countIf c rows).

Definition latencies (rows : list MessageReceipts.row) : list Z :=
  map MessageReceipts.latency_ms rows.

Definition protocolRow (oneMinAgo oneHourAgo oneDayAgo oneWeekAgo : Z)
    (rows : list MessageReceipts.row) (protocol : string) : ProtocolRow.row :=
  let members := Aggregate.group MessageReceipts.protocol protocol rows in
  ProtocolRow.mk protocol
    (Z.of_nat (length members))
    (Aggregate.average (latencies members))
    (Aggregate.minimum (latencies members))
    (Aggregate.maximum (latencies members))
    (sumWhen (since oneMinAgo) members)
    (sumWhen (since oneHourAgo) members)
    (sumWhen (since oneDayAgo) members)
    (sumWhen (since oneWeekAgo) members).

(** [SELECT protocol, COUNT( * ) as delivered, AVG(latency_ms), MIN(latency_ms),
    MAX(latency_ms), SUM(CASE WHEN received_at >= ... THEN 1 ELSE 0 END) ...
    FROM message_receipts GROUP BY protocol] *)
Definition perProtocol (oneMinAgo oneHourAgo oneDayAgo oneWeekAgo : Z) (s : Store)
  : list ProtocolRow.row :=
  map (protocolRow oneMinAgo oneHourAgo oneDayAgo oneWeekAgo (message_receipts s))
    (Aggregate.groups MessageReceipts.protocol (message_receipts s)).

Module ServerRow.
Record row : Type := mk {
  protocol : string;
  server : option string;
  delivered : Z;
  avg_latency : option Q;
  min_latency : option Z;
  max_latency : option Z
}.
End ServerRow.

(** [server IS NOT NULL] *)
Definition hasServer (r : MessageReceipts.row) : bool :=
  match MessageReceipts.server r with
  | Some _ => true
  | None => false
  end.

Definition serverKey (r : MessageReceipts.row) : string * option string :=
  (MessageReceipts.protocol r, MessageReceipts.server r).

Definition serverRow (rows : list MessageReceipts.row) (key : string * option string)
  : ServerRow.row :=
  let members := Aggregate.group serverKey key rows in
  ServerRow.mk (fst key) (snd key)
    (Z.of_nat (length members))
    (Aggregate.average (latencies members))
    (Aggregate.minimum (latencies members))
    (Aggregate.maximum (latencies members)).

(** [SELECT protocol, server, COUNT( * ) as delivered, AVG(latency_ms),
    MIN(latency_ms), MAX(latency_ms) FROM message_receipts WHERE server IS
    NOT NULL GROUP BY protocol, server] *)
Definition perServer (s : Store) : list ServerRow.row :=
  let rows := List.filter hasServer (message_receipts s) in
  map (serverRow rows) (Aggregate.groups serverKey rows).

(** [SELECT COUNT(DISTINCT message_uuid) as count FROM message_receipts] *)
Definition withReceipts (s : Store) : list Z :=
  [Aggregate.countDistinct MessageReceipts.message_uuid (message_receipts s)].

Module ConversationRow.
Record row : Type := mk {
  from_identity : string;
  to_identity : string;
  count : Z
}.
End ConversationRow.

Definition conversationKey (r : Messages.row) : string * string :=
  (Messages.from_identity r, Messages.to_identity r).

Definition conversationRow (rows : list Messages.row) (key : string * string)
  : ConversationRow.row :=
  ConversationRow.mk (fst key) (snd key)
    (Z.of_nat (length (Aggregate.group conversationKey key rows))).

Definition busierFirst (r1 r2 : ConversationRow.row) : bool :=
  ConversationRow.count r2 <=? ConversationRow.count r1.

(** [SELECT from_identity, to_identity, COUNT( * ) as count FROM messages
    WHERE is_acknowledgment = 0 GROUP BY from_identity, to_identity
    ORDER BY count DESC LIMIT 5] *)
Definition busiest (s : Store) : list ConversationRow.row :=
  let rows := List.filter notAck (messages s) in
  Select.limitTo 5
    (Select.orderBy busierFirst
       (map (conversationRow rows) (Aggregate.groups conversationKey rows))).

(** *** What [getStats] makes of the rows *)

(** [x as number || 0] on a column that may be NULL. *)
Definition orZero (x : option Z) : Z :=
  match x with
  | Some v => v
  | None => 0
  end.

(** [Math.round(x)] on a column that may be NULL: the nearest integer,
    halves going up, and [0] for [null]. *)
Definition mathRound (x : option Q) : Z :=
  match x with
  | Some q => Qfloor (q + (1 # 2))
  | None => 0
  end.

Definition toProtocolStats (row : ProtocolRow.row) : ProtocolStats.t :=
  ProtocolStats.mk
    (ProtocolRow.delivered row)
    (mathRound (ProtocolRow.avg_latency row))
    (ProtocolRow.min_latency row)
    (ProtocolRow.max_latency row)
    (ProtocolRow.last_1min row)
    (ProtocolRow.last_1hour row)
    (ProtocolRow.last_1day row)
    (ProtocolRow.last_1week row)
    ∅.

(** [stats.protocols.set(row.protocol, {...})] *)
Definition setProtocol (protocols : gmap string ProtocolStats.t) (row : ProtocolRow.row)
  : gmap string ProtocolStats.t :=
  <[ProtocolRow.protocol row := toProtocolStats row]> protocols.

Definition toServerStats (row : ServerRow.row) : ServerStats.t :=
  ServerStats.mk
    (ServerRow.delivered row)
    (mathRound (ServerRow.avg_latency row))
    (ServerRow.min_latency row)
    (ServerRow.max_latency row).

(** [protocolStats.servers.set(server, {...})] on the object held by the
    map of protocols. *)
Definition withServer (server : string) (entry : ServerStats.t)
    (protocolStats : ProtocolStats.t) : ProtocolStats.t :=
  ProtocolStats.mk
    (ProtocolStats.totalDelivered protocolStats)
    (ProtocolStats.avgLatency protocolStats)
    (ProtocolStats.minLatency protocolStats)
    (ProtocolStats.maxLatency protocolStats)
    (ProtocolStats.last1min protocolStats)
    (ProtocolStats.last1hour protocolStats)
    (ProtocolStats.last1day protocolStats)
    (ProtocolStats.last1week protocolStats)
    (<[server := entry]> (ProtocolStats.servers protocolStats)).

(** The body of the loop over the per-server rows: [if (protocolStats &&
    server)] skips a protocol that has no entry and a server that is the
    empty string. *)
Definition setServer (protocols : gmap string ProtocolStats.t) (row : ServerRow.row)
  : gmap string ProtocolStats.t :=
  match protocols !! ServerRow.protocol row, Js.orNullStr (ServerRow.server row) with
  | Some protocolStats, Some server =>
      <[ServerRow.protocol row := withServer server (toServerStats row) protocolStats]>
        protocols
  | _, _ => protocols
  end.

(** [(s as string).substring(0, 50) + '...']; the characters of a string are
    its bytes here, which for the ASCII text of a magnet link are its UTF-16
    units. *)
Definition abbreviate (s : string) : string := String.substring 0 50 s +:+ "...".

Definition toConversation (row : ConversationRow.row) : Conversation.t :=
  Conversation.mk
    (abbreviate (ConversationRow.from_identity row))
    (abbreviate (ConversationRow.to_identity row))
    (ConversationRow.count row).

Section WithEnv.
Context (env : Env).

(** [getStats(db)].  The statements go to [db.execute] directly, without
    [executeWithRetry]; nothing writes to the database between them. *)
Definition getStats : M Stats.t :=
  messagesResult <- ChatDatabaseQueries.select env messageTotals ;;
  let '(totalMessages, totalAcknowledgments, earliest, latest, uniqueConversations) :=
    match messagesResult with
    | msgRow :: _ =>                                  (* if (msgRow) *)
        (MessageTotals.total msgRow, MessageTotals.acks msgRow,
         Millis (orZero (MessageTotals.earliest msgRow)),
         orZero (MessageTotals.latest msgRow),
         MessageTotals.conversations msgRow)
    | [] => (0, 0, Infinity, 0, 0)
    end in
  now_ <- now env ;;
  let oneMinAgo := now_ - 60 * 1000 in
  let oneHourAgo := now_ - 60 * 60 * 1000 in
  let oneDayAgo := now_ - 24 * 60 * 60 * 1000 in
  let oneWeekAgo := now_ - 7 * 24 * 60 * 60 * 1000 in
  receiptsResult <-
    ChatDatabaseQueries.select env (perProtocol oneMinAgo oneHourAgo oneDayAgo oneWeekAgo) ;;
  let protocols := foldl setProtocol ∅ receiptsResult in
  serverStatsResult <- ChatDatabaseQueries.select env perServer ;;
  let protocols := foldl setServer protocols serverStatsResult in
  withReceiptsResult <- ChatDatabaseQueries.select env withReceipts ;;
  let messagesWithReceipts :=
    match withReceiptsResult with                     (* rows[0]?.count || 0 *)
    | count :: _ => count
    | [] => 0
    end in
  topConvResult <- ChatDatabaseQueries.select env busiest ;;
  ret (Stats.mk totalMessages totalAcknowledgments messagesWithReceipts
         uniqueConversations earliest latest protocols
         (map toConversation topConvResult)).

End WithEnv.

(** *** Durations as text *)

(** [formatDuration(ms)] of [history-stats.ts].  [Math.floor(x / n)] on
    integers is the quotient that rounds down; [%] is the remainder that
    takes the sign of the dividend. *)
Definition formatDuration (ms : Z) : string :=
  let seconds := ms / 1000 in
  let minutes := seconds / 60 in
  let hours := minutes / 60 in
  let days := hours / 24 in
  if 0 <? days then
    pretty days +:+ "d " +:+ pretty (Z.rem hours 24) +:+ "h "
      +:+ pretty (Z.rem minutes 60) +:+ "m"
  else if 0 <? hours then
    pretty hours +:+ "h " +:+ pretty (Z.rem minutes 60) +:+ "m "
      +:+ pretty (Z.rem seconds 60) +:+ "s"
  else if 0 <? minutes then
    pretty minutes +:+ "m " +:+ pretty (Z.rem seconds 60) +:+ "s"
  else pretty seconds +:+ "s".

(** [formatTimeAgo(ms)] of the detailed statistics viewer. *)
Definition formatTimeAgo (ms : Z) : string :=
  let seconds := ms / 1000 in
  let minutes := seconds / 60 in
  let hours := minutes / 60 in
  let days := hours / 24 in
  if 0 <? days then pretty days +:+ " day" +:+ (if 1 <? days then "s" else "")
  else if 0 <? hours then pretty hours +:+ " hour" +:+ (if 1 <? hours then "s" else "")
  else if 0 <? minutes then
    pretty minutes +:+ " minute" +:+ (if 1 <? minutes then "s" else "")
  else pretty seconds +:+ " second" +:+ (if 1 <? seconds then "s" else "").

End HistoryStats.

(** *** Counting receipts *)

(** Whether a row falls in some class, and whether it falls in class [k]. *)
Definition classified {A K} (class : A -> option K) (r : A) : bool :=
  match class r with
  | Some _ => true
  | None => false
  end.

Definition inClass {A K} `{EqDecision K} (class : A -> option K) (k : K) (r : A) : bool :=
  bool_decide (class r = Some k).

(** The receipts that came in on protocol [p]. *)
Definition fromProtocol (p : string) (r : MessageReceipts.row) : bool :=
  bool_decide (MessageReceipts.protocol r = p).

(** The receipts that came in on protocol [p] from server [srv]. *)
Definition fromServer (p srv : string) (r : MessageReceipts.row) : bool :=
  bool_decide (MessageReceipts.protocol r = p)
  && bool_decide (MessageReceipts.server r = Some srv).

(** The receipts whose server is neither NULL nor the empty string. *)
Definition namedServer (r : MessageReceipts.row) : bool :=
  match Js.orNullStr (MessageReceipts.server r) with
  | Some _ => true
  | None => false
  end.

(** [Σ totalDelivered] over the protocols of a [Stats]. *)
Definition deliveredInTotal (protocols : gmap string HistoryStats.ProtocolStats.t) : Z :=
  map_fold (fun _ entry acc => HistoryStats.ProtocolStats.totalDelivered entry + acc) 0
    protocols.

(** [Σ delivered] over the servers of a protocol. *)
Definition deliveredByServers (servers : gmap string HistoryStats.ServerStats.t) : Z :=
  map_fold (fun _ entry acc => HistoryStats.ServerStats.delivered entry + acc) 0 servers.

(** Two entries that differ at most in their [servers]. *)
Definition sameCounts (a b : HistoryStats.ProtocolStats.t) : Prop :=
  HistoryStats.ProtocolStats.totalDelivered a = HistoryStats.ProtocolStats.totalDelivered b /\
  HistoryStats.ProtocolStats.avgLatency a = HistoryStats.ProtocolStats.avgLatency b /\
  HistoryStats.ProtocolStats.minLatency a = HistoryStats.ProtocolStats.minLatency b /\
  HistoryStats.ProtocolStats.maxLatency a = HistoryStats.ProtocolStats.maxLatency b /\
  HistoryStats.ProtocolStats.last1min a = HistoryStats.ProtocolStats.last1min b /\
  HistoryStats.ProtocolStats.last1hour a = HistoryStats.ProtocolStats.last1hour b /\
  HistoryStats.ProtocolStats.last1day a = HistoryStats.ProtocolStats.last1day b /\
  HistoryStats.ProtocolStats.last1week a = HistoryStats.ProtocolStats.last1week b.

(** What the loop over the per-server rows makes of an entry: the counts
    are kept, and the servers named by a key are set. *)
Definition served (rows : list MessageReceipts.row) (keys : list (string * option string))
    (p : string) (a b : HistoryStats.ProtocolStats.t) : Prop :=
  sameCounts a b /\
  forall srv,
    HistoryStats.ProtocolStats.servers b !! srv
    = if decide (srv <> EmptyString /\ (p, Some srv) ∈ keys)
      then Some (HistoryStats.toServerStats (HistoryStats.serverRow rows (p, Some srv)))
      else HistoryStats.ProtocolStats.servers a !! srv.

(** What [getStats] resolves with when its five statements go through:
    the statistics of the store, for the time read from the clock. *)
Definition statsOf (env : Env) (w : World) : HistoryStats.Stats.t :=
  let s := db w in
  let now_ := dateNow env (clock w) in
  HistoryStats.Stats.mk
    (Z.of_nat (length (messages s)))
    (Z.of_nat (countIf HistoryStats.isAck (messages s)))
    (Aggregate.countDistinct MessageReceipts.message_uuid (message_receipts s))
    (Aggregate.countDistinct HistoryStats.conversationName (messages s))
    (HistoryStats.Millis (HistoryStats.orZero (Aggregate.minimum (map Messages.timestamp (messages s)))))
    (HistoryStats.orZero (Aggregate.maximum (map Messages.timestamp (messages s))))
    (foldl HistoryStats.setServer
       (foldl HistoryStats.setProtocol ∅
          (HistoryStats.perProtocol (now_ - 60 * 1000) (now_ - 60 * 60 * 1000)
             (now_ - 24 * 60 * 60 * 1000) (now_ - 7 * 24 * 60 * 60 * 1000) s))
       (HistoryStats.perServer s))
    (map HistoryStats.toConversation (HistoryStats.busiest s)).

(** Whether a string has the character ['-']. *)
Fixpoint hasDash (s : string) : bool :=
  match s with
  | EmptyString => false
  | String c rest => bool_decide (c = "-"%char) || hasDash rest
  end.

(** The messages, acknowledgments aside, that [a] sent to [b]. *)
Definition inConversation (a b : string) (r : Messages.row) : bool :=
  HistoryStats.notAck r && bool_decide (HistoryStats.conversationKey r = (a, b)).

(** [totalDelivered] of a protocol in a [Stats], [0] when it has no entry. *)
Definition deliveredOn (stats : HistoryStats.Stats.t) (p : string) : Z :=
  match HistoryStats.Stats.protocols stats !! p with
  | Some entry => HistoryStats.ProtocolStats.totalDelivered entry
  | None => 0
  end.

(** [delivered] of a server of a protocol in a [Stats], [0] when it has no
    entry. *)
Definition deliveredFrom (stats : HistoryStats.Stats.t) (p srv : string) : Z :=
  match HistoryStats.Stats.protocols stats !! p with
  | Some entry =>
      match HistoryStats.ProtocolStats.servers entry !! srv with
      | Some server => HistoryStats.ServerStats.delivered server
      | None => 0
      end
  | None => 0
  end.
(** ** The viewer of legacy databases: what it reports for one user *)

Module LegacyStats.

(** The figures under "Message Summary" and "Messages Received by
    Protocol". *)
Module MessageSummary.
Record t : Type := mk {
  totalMessages : Z;
  sentMessages : Z;
  ackMessages : Z;
  messagesByProtocol : gmap string Z
}.
End MessageSummary.

Definition isAck (m : Stored.t Message.t) : bool :=
  Message.isAcknowledgment (Stored.fields m).

(** [if (msg.firstReceivedProtocol) { messagesByProtocol[p] =
    (messagesByProtocol[p] || 0) + 1 }] *)
Definition tally (messagesByProtocol : gmap string Z) (msg : Stored.t Message.t)
  : gmap string Z :=
  match Js.orNullStr (Message.firstReceivedProtocol (Stored.fields msg)) with
  | Some p =>
      <[p := HistoryStats.orZero (Js.orNull (messagesByProtocol !! p)) + 1]>
        messagesByProtocol
  | None => messagesByProtocol
  end.

Definition summary (messages : list (Stored.t Message.t)) : MessageSummary.t :=
  MessageSummary.mk
    (Z.of_nat (length messages))
    (Z.of_nat (length (List.filter (fun m => negb (isAck m)) messages)))
    (Z.of_nat (length (List.filter isAck messages)))
    (foldl tally ∅ messages).

Section WithEnv.
Context (env : Env).

(** The body of the loop over the users in [main]: the rows of
    [getProtocolPerformance] and the summary of the messages of
    [getConversation('', '', 1000)], or nothing when there is no statistic
    yet ([continue]) or when a statement fails (the [catch] reports it with
    [console.error]).  What [console.log] prints is not part of the model. *)
Definition userReport : M (option (list PerformanceInfo.t * MessageSummary.t)) :=
  tryCatch
    (performance <- ChatDatabaseQueries.getProtocolPerformance env ;;
     if (length performance =? 0)%nat then ret None
     else
       messages <- ChatDatabaseQueries.getConversation env "" "" 1000 ;;
       ret (Some (performance, summary messages)))
    (fun error => consoleError "  Error reading database: " ;;; ret None).

End WithEnv.
End LegacyStats.

(** The protocol a message read back counts for, if any. *)
Definition firstProtocol (m : Stored.t Message.t) : option string :=
  Js.orNullStr (Message.firstReceivedProtocol (Stored.fields m)).

(** [Σ] of the counts of a tally. *)
Definition talliedInTotal (messagesByProtocol : gmap string Z) : Z :=
  map_fold (fun _ n acc => n + acc) 0 messagesByProtocol.

(** * Properties *)

(** ** Rounding to a double *)

Lemma nearestEven_le (x : Q) (m : Z) :
  (x <= inject_Z m)%Q -> Binary64.nearestEven x <= m.
Proof.
  intros Hx. unfold Binary64.nearestEven.
  pose proof (Qfloor_le x) as Hfloor.
  assert (Hf : Qfloor x <= m).
  { rewrite Zle_Qle. eapply Qle_trans; eassumption. }
  assert (Hup : (0 < x - inject_Z (Qfloor x))%Q -> Qfloor x + 1 <= m).
  { intros Hpos.
    assert (Hlt : (inject_Z (Qfloor x) < inject_Z m)%Q) by lra.
    rewrite <- Zlt_Qlt in Hlt. lia. }
  destruct (x - inject_Z (Qfloor x) ?= 1 # 2)%Q eqn:Hc.
  - apply Qeq_alt in Hc. destruct (Z.even (Qfloor x)); [exact Hf|].
    apply Hup. lra.
  - exact Hf.
  - apply Qgt_alt in Hc. apply Hup. lra.
Qed.

Lemma nearestEven_ge (x : Q) (m : Z) :
  (inject_Z m <= x)%Q -> m <= Binary64.nearestEven x.
Proof.
  intros Hx. unfold Binary64.nearestEven.
  assert (Hf : m <= Qfloor x).
  { rewrite <- (Qfloor_Z m). apply Qfloor_resp_le. exact Hx. }
  destruct (x - inject_Z (Qfloor x) ?= 1 # 2)%Q; [destruct (Z.even (Qfloor x))| |]; lia.
Qed.

Lemma pow2_nonpositive (e : Z) :
  e <= 0 -> (Binary64.pow2 e == / inject_Z (2 ^ (- e)))%Q.
Proof.
  intros He. unfold Binary64.pow2.
  destruct (Z.leb_spec 0 e) as [Hle|Hlt]; [|reflexivity].
  assert (e = 0) by lia. subst e. reflexivity.
Qed.

(** A number below [2^53] in magnitude has an exponent of at most 52, so
    its unit in the last place is at most 1. *)
Lemma exponent_small (q : Q) :
  ~ (q == 0)%Q -> (Qabs q < inject_Z (2 ^ 53))%Q -> Binary64.exponent q <= 52.
Proof.
  intros Hnz Hlt. unfold Binary64.exponent.
  set (n := Z.abs (Qnum q)). set (d := Z.pos (Qden q)).
  set (e := Z.log2 n - Z.log2 d).
  assert (Hn : 0 < n).
  { unfold n. destruct q as [a b]. unfold Qeq in Hnz. simpl in *. lia. }
  assert (Habs : (Qabs q == n # Qden q)%Q) by (destruct q; reflexivity).
  assert (Hbound : n < 2 ^ 53 * d).
  { rewrite Habs in Hlt. unfold Qlt in Hlt. simpl in Hlt. unfold d. lia. }
  destruct (Qle_bool (Binary64.pow2 e) (Qabs q)) eqn:Hle.
  - apply Qle_bool_iff in Hle.
    destruct (Z.le_gt_cases e 52) as [|Hbig]; [assumption|exfalso].
    unfold Binary64.pow2 in Hle.
    destruct (Z.leb_spec 0 e) as [He|He]; [|lia].
    assert (H53 : 2 ^ 53 <= 2 ^ e) by (apply Z.pow_le_mono_r; lia).
    rewrite Zle_Qle in H53. lra.
  - destruct (Z.le_gt_cases (e - 1) 52) as [|Hbig]; [assumption|exfalso].
    pose proof (Z.log2_spec n Hn) as [Hlow _].
    assert (Hd : 0 < d) by (unfold d; lia).
    pose proof (Z.log2_spec d Hd) as [_ Hhigh].
    pose proof (Z.log2_nonneg d) as Hd0.
    assert (Hsplit : 2 ^ Z.log2 n = 2 ^ (e - 1) * 2 ^ Z.succ (Z.log2 d)).
    { rewrite <- Z.pow_add_r by lia. f_equal. unfold e. lia. }
    assert (H53 : 2 ^ 53 <= 2 ^ (e - 1)) by (apply Z.pow_le_mono_r; lia).
    assert (0 < 2 ^ Z.succ (Z.log2 d)) by (apply Z.pow_pos_nonneg; lia).
    nia.
Qed.

(** Rounding does not cross an integer that is itself a double: a value
    between two integers below [2^53] in magnitude is rounded to a value
    between them. *)
Lemma round_between (lo hi : Z) (q : Q) :
  - 2 ^ 53 < lo -> hi < 2 ^ 53 ->
  (inject_Z lo <= q)%Q -> (q <= inject_Z hi)%Q ->
  (inject_Z lo <= Binary64.round q)%Q /\ (Binary64.round q <= inject_Z hi)%Q.
Proof.
  intros Hlo Hhi Hle Hge. unfold Binary64.round.
  destruct (Qeq_bool q 0) eqn:Hz.
  - apply Qeq_bool_iff in Hz. split; lra.
  - assert (Hnz : ~ (q == 0)%Q).
    { intros Heq. apply Qeq_bool_iff in Heq. congruence. }
    assert (Habs : (Qabs q < inject_Z (2 ^ 53))%Q).
    { apply Qabs_Qlt_condition. rewrite Zlt_Qlt in Hlo, Hhi.
      rewrite inject_Z_opp in Hlo. split; lra. }
    pose proof (exponent_small q Hnz Habs) as He.
    set (e := Binary64.exponent q) in *.
    set (N := 2 ^ (- (e - 52))).
    assert (HN : 0 < N) by (apply Z.pow_pos_nonneg; lia).
    assert (HNq : (0 < inject_Z N)%Q)
      by (change 0%Q with (inject_Z 0); rewrite <- Zlt_Qlt; exact HN).
    assert (Hulp : (Binary64.pow2 (e - 52) == / inject_Z N)%Q)
      by (apply pow2_nonpositive; lia).
    set (ulp := Binary64.pow2 (e - 52)) in *.
    assert (Hscaled : (q / ulp == q * inject_Z N)%Q).
    { unfold Qdiv. rewrite Hulp, Qinv_involutive. reflexivity. }
    set (k := Binary64.nearestEven (q / ulp)).
    assert (Hk1 : lo * N <= k).
    { apply nearestEven_ge. rewrite Hscaled, inject_Z_mult.
      apply Qmult_le_compat_r; [exact Hle|lra]. }
    assert (Hk2 : k <= hi * N).
    { apply nearestEven_le. rewrite Hscaled, inject_Z_mult.
      apply Qmult_le_compat_r; [exact Hge|lra]. }
    rewrite Qred_correct, Hulp.
    rewrite Zle_Qle, inject_Z_mult in Hk1, Hk2.
    split.
    + apply Qle_shift_div_l; [exact HNq|exact Hk1].
    + apply Qle_shift_div_r; [exact HNq|exact Hk2].
Qed.

(** A double in range that is an integer is rounded to itself. *)
Lemma round_integer (n : Z) :
  - 2 ^ 53 < n < 2 ^ 53 -> (Binary64.round (inject_Z n) == inject_Z n)%Q.
Proof.
  intros [Hlo Hhi].
  destruct (round_between n n (inject_Z n) Hlo Hhi) as [H1 H2]; try apply Qle_refl.
  apply Qle_antisym; assumption.
Qed.

(** ** Counting rows *)

Lemma countIf_app {A} (p : A -> bool) (l1 l2 : list A) :
  countIf p (l1 ++ l2) = (countIf p l1 + countIf p l2)%nat.
Proof.
  induction l1 as [|x l1 IH]; simpl; [reflexivity|].
  rewrite IH. lia.
Qed.

Lemma countIf_none {A} (p : A -> bool) (l : list A) :
  existsb p l = false -> countIf p l = 0%nat.
Proof.
  induction l as [|x l IH]; simpl; [reflexivity|].
  destruct (p x); simpl; [discriminate|exact IH].
Qed.

Lemma countIf_some {A} (p : A -> bool) (l : list A) :
  existsb p l = true -> (1 <= countIf p l)%nat.
Proof.
  induction l as [|x l IH]; simpl; [discriminate|].
  destruct (p x); simpl; [lia|exact IH].
Qed.

Lemma existsb_hasUuid (u : string) (rows : list Messages.row) :
  existsb (Sql.hasUuid u) rows = true <-> u ∈ map Messages.uuid rows.
Proof.
  induction rows as [|r rows IH]; simpl.
  - split; [discriminate|]. intros H. inversion H.
  - unfold Sql.hasUuid at 1.
    rewrite orb_true_iff, bool_decide_eq_true, IH, elem_of_cons. intuition congruence.
Qed.

Lemma unique_count (u : string) (rows : list Messages.row) :
  NoDup (map Messages.uuid rows) ->
  countIf (Sql.hasUuid u) rows = if existsb (Sql.hasUuid u) rows then 1%nat else 0%nat.
Proof.
  induction rows as [|r rows IH]; simpl; [reflexivity|].
  intros Hnd. apply NoDup_cons in Hnd as [Hnotin Hnd].
  unfold Sql.hasUuid at 1 3.
  destruct (bool_decide_reflect (Messages.uuid r = u)) as [Heq|Hne]; simpl.
  - subst u. rewrite countIf_none; [reflexivity|].
    destruct (existsb _ rows) eqn:E; [|reflexivity].
    apply existsb_hasUuid in E. contradiction.
  - apply IH, Hnd.
Qed.

Lemma insertOrIgnore_unique (r : Messages.row) (rows : list Messages.row) :
  NoDup (map Messages.uuid rows) ->
  NoDup (map Messages.uuid (Sql.insertOrIgnoreMessage r rows)).
Proof.
  intros Hnd. unfold Sql.insertOrIgnoreMessage.
  destruct (existsb _ rows) eqn:E; [exact Hnd|].
  rewrite map_app. simpl. apply NoDup_app. repeat split.
  - exact Hnd.
  - intros x Hx Hx'. apply list_elem_of_singleton in Hx'. subst x.
    apply existsb_hasUuid in Hx. congruence.
  - apply NoDup_singleton.
Qed.

Lemma insertOrIgnore_present (r : Messages.row) (rows : list Messages.row) :
  existsb (Sql.hasUuid (Messages.uuid r)) (Sql.insertOrIgnoreMessage r rows) = true.
Proof.
  unfold Sql.insertOrIgnoreMessage.
  destruct (existsb _ rows) eqn:E; [exact E|].
  rewrite existsb_app. simpl. unfold Sql.hasUuid at 2.
  rewrite bool_decide_eq_true_2 by reflexivity. apply orb_true_r.
Qed.

Lemma insertOrIgnore_other (u : string) (r : Messages.row) (rows : list Messages.row) :
  Messages.uuid r <> u ->
  countIf (Sql.hasUuid u) (Sql.insertOrIgnoreMessage r rows) = countIf (Sql.hasUuid u) rows.
Proof.
  intros Hne. unfold Sql.insertOrIgnoreMessage.
  destruct (existsb _ rows); [reflexivity|].
  rewrite countIf_app. simpl. unfold Sql.hasUuid at 2.
  rewrite bool_decide_eq_false_2 by exact Hne. lia.
Qed.

Lemma insertOrIgnore_grows (u : string) (r : Messages.row) (rows : list Messages.row) :
  (countIf (Sql.hasUuid u) rows <= countIf (Sql.hasUuid u) (Sql.insertOrIgnoreMessage r rows))%nat.
Proof.
  unfold Sql.insertOrIgnoreMessage.
  destruct (existsb _ rows); [lia|]. rewrite countIf_app. lia.
Qed.

Lemma insertOrIgnore_again (r r' : Messages.row) (rows : list Messages.row) :
  Messages.uuid r' = Messages.uuid r ->
  Sql.insertOrIgnoreMessage r' (Sql.insertOrIgnoreMessage r rows)
  = Sql.insertOrIgnoreMessage r rows.
Proof.
  intros Heq. unfold Sql.insertOrIgnoreMessage at 1.
  rewrite Heq, insertOrIgnore_present. reflexivity.
Qed.

(** ** The retry loop *)

Lemma random_range (env : Env) (w : World) (r : Q) (w' : World) :
  random env w = (Ok r, w') -> (0 <= r)%Q /\ (r < 1)%Q /\ trace w' = trace w
  /\ executes w' = executes w /\ db w' = db w.
Proof.
  unfold random. intros H. injection H as <- <-.
  pose proof (N.mod_upper_bound (mathRandom env (randoms w)) (2 ^ 53)) as Hub.
  assert (Hlt : (mathRandom env (randoms w) mod 2 ^ 53 < 2 ^ 53)%N) by (apply Hub; discriminate).
  clear Hub. set (k := (mathRandom env (randoms w) mod 2 ^ 53)%N) in *.
  repeat split.
  - unfold Qle. simpl. lia.
  - unfold Qlt. simpl. apply N2Z.inj_lt in Hlt. change (Z.of_N (2 ^ 53)) with (Z.pos (2 ^ 53)) in Hlt. lia.
Qed.

(** The delay before retry [i + 1] lies between the base delay and the
    base delay plus 50 ms, both included: the sum is rounded to a double,
    and for the largest values of [Math.random()] it is rounded up to the
    base delay plus 50. *)
Lemma backoff_range (i : nat) (r : Q) :
  (i <= 40)%nat -> (0 <= r)%Q -> (r < 1)%Q ->
  (baseDelay i <= ChatDatabase.backoff 100 i r)%Q
  /\ (ChatDatabase.backoff 100 i r <= baseDelay i + 50)%Q.
Proof.
  intros Hi H0 H1. unfold ChatDatabase.backoff, baseDelay, Binary64.add, Binary64.mul.
  set (P := 2 ^ Z.of_nat i).
  assert (HP : 0 < P <= 2 ^ 40).
  { unfold P. split; [apply Z.pow_pos_nonneg; lia|apply Z.pow_le_mono_r; lia]. }
  assert (H40 : 2 ^ 40 = 1099511627776) by reflexivity.
  assert (H53 : 2 ^ 53 = 9007199254740992) by reflexivity.
  destruct (round_between P P (inject_Z P)) as [Ha1 Ha2]; try lia; try apply Qle_refl.
  set (a := Binary64.round (inject_Z P)) in *.
  destruct (round_between (100 * P) (100 * P) (inject_Z 100 * a)) as [Hb1 Hb2]; try lia.
  { rewrite inject_Z_mult. apply Qmult_le_l; [reflexivity|exact Ha1]. }
  { rewrite inject_Z_mult. apply Qmult_le_l; [reflexivity|exact Ha2]. }
  set (b := Binary64.round (inject_Z 100 * a)) in *.
  destruct (round_between 0 50 (r * 50)) as [Hc1 Hc2]; try lia.
  { change (inject_Z 0) with 0%Q. apply Qmult_le_0_compat; [exact H0|discriminate]. }
  { change (inject_Z 50) with (1 * 50)%Q. apply Qmult_le_compat_r; [|discriminate].
    apply Qlt_le_weak, H1. }
  set (c := Binary64.round (r * 50)) in *.
  change (inject_Z 0) with 0%Q in Hc1. change (inject_Z 50) with 50%Q in Hc2.
  destruct (round_between (100 * P) (100 * P + 50) (b + c)) as [Hd1 Hd2]; try lia.
  { lra. }
  { rewrite inject_Z_plus. change (inject_Z 50) with 50%Q. lra. }
  split; [exact Hd1|].
  rewrite inject_Z_plus in Hd2. exact Hd2.
Qed.

(** The bound is reached: with the largest double below 1 for
    [Math.random()], the first delay is 150 ms and the fourth 850 ms. *)
Example backoff_reaches_bound :
  ChatDatabase.backoff 100 0 ((2 ^ 53 - 1) # 2 ^ 53) = 150%Q /\
  ChatDatabase.backoff 100 3 ((2 ^ 53 - 1) # 2 ^ 53) = 850%Q.
Proof. vm_compute. split; reflexivity. Qed.

(** The error of a violated constraint is not a busy error. *)
Lemma violation_not_busy (stmt : Sql.Statement) (s : Store) (e : Js.Exn) :
  Sql.violation stmt s = Some e -> ChatDatabase.isBusy e = false.
Proof.
  destruct stmt; simpl; try discriminate.
  destruct (existsb _ _); [discriminate|]. intros [= <-]. reflexivity.
Qed.

(** A statement that violates a constraint leaves the store as it was. *)
Lemma violation_rolls_back (stmt : Sql.Statement) (s : Store) (e : Js.Exn) :
  Sql.violation stmt s = Some e -> Sql.exec stmt s = s.
Proof.
  destruct stmt; simpl; try discriminate.
  destruct (existsb _ _); [discriminate|reflexivity].
Qed.

Lemma retryLoop_policy (env : Env) (stmt : Sql.Statement) :
  forall (remaining i : nat) (lastError : Js.Exn) (w : World) (r : Result unit) (w' : World),
    (i + remaining = 5)%nat -> (1 <= remaining)%nat ->
    ChatDatabase.retryLoop env (ChatDatabase.execute env stmt) 5 100
      remaining i lastError w = (r, w') ->
    exists (attempts : nat) (delays : list Q),
      (1 <= attempts <= remaining)%nat /\
      executes w' = (executes w + attempts)%nat /\
      (forall j, (j < attempts - 1)%nat -> busyAt env (executes w + j)) /\
      trace w' = trace w ++ map Slept delays /\
      length delays = (attempts - 1)%nat /\
      (forall j d, delays !! j = Some d ->
         (baseDelay (i + j) <= d)%Q /\ (d <= baseDelay (i + j) + 50)%Q) /\
      match sqliteFault env (executes w + attempts - 1) with
      | None => r = Sql.outcome stmt (db w) /\ db w' = Sql.exec stmt (db w)
      | Some e =>
          r = Throw e /\ db w' = db w /\
          (ChatDatabase.isBusy e = false \/ (i + attempts = 5)%nat)
      end.
Proof.
  induction remaining as [|remaining IH]; intros i lastError w r w' Hsum Hpos Hrun; [lia|].
  cbn [ChatDatabase.retryLoop] in Hrun. unfold tryCatch, ChatDatabase.execute in Hrun.
  destruct (sqliteFault env (executes w)) as [e|] eqn:Hfault.
  - destruct (ChatDatabase.isBusy e && (Z.of_nat i <? Z.of_nat 5 - 1)) eqn:Hretry.
    + apply andb_true_iff in Hretry as [Hbusy Hlt]. apply Z.ltb_lt in Hlt.
      unfold bind at 1 in Hrun.
      destruct (random env (tickExecutes w)) as [[q|x] w1] eqn:Hrandom;
        [|unfold random in Hrandom; discriminate].
      apply random_range in Hrandom as (Hr0 & Hr1 & Htr & Hex & Hdb).
      unfold bind at 1 in Hrun. unfold sleep, modify in Hrun.
      set (d := ChatDatabase.backoff 100 i q) in *.
      apply IH in Hrun as (k & ds & Hk & Hexec & Hbusies & Htrace & Hlen & Hds & Hout);
        [|lia|lia].
      assert (Hex1 : executes (emit (Slept d) w1) = S (executes w))
        by (simpl; rewrite Hex; reflexivity).
      exists (S k), (d :: ds).
      split; [lia|]. split; [rewrite Hexec, Hex1; lia|].
      split.
      { intros j Hj. destruct j as [|j].
        - rewrite Nat.add_0_r. exists e. split; assumption.
        - replace (executes w + S j)%nat with (executes (emit (Slept d) w1) + j)%nat
            by (rewrite Hex1; lia).
          apply Hbusies. lia. }
      split.
      { rewrite Htrace. simpl. rewrite Htr. simpl. rewrite <- app_assoc. reflexivity. }
      split; [simpl; rewrite Hlen; lia|].
      split.
      { intros j d0 H. destruct j as [|j]; simpl in H.
        - injection H as <-. rewrite Nat.add_0_r. apply backoff_range; [lia|assumption..].
        - replace (i + S j)%nat with (S i + j)%nat by lia. apply (Hds j d0 H). }
      replace (executes w + S k - 1)%nat with (executes (emit (Slept d) w1) + k - 1)%nat
        by (rewrite Hex1; lia).
      destruct (sqliteFault env (executes (emit (Slept d) w1) + k - 1)) as [e'|].
      * destruct Hout as (Hf & Hd & Hlast). split; [exact Hf|]. split.
        -- rewrite Hd. simpl. rewrite Hdb. reflexivity.
        -- destruct Hlast as [Hnb|Hfive]; [left; exact Hnb|right; lia].
      * destruct Hout as (Hf & Hd). simpl in Hf, Hd. rewrite Hdb in Hf, Hd.
        split; [exact Hf|exact Hd].
    + unfold throw in Hrun. injection Hrun as <- <-.
      exists 1%nat, []. simpl.
      split; [lia|]. split; [lia|]. split; [intros j Hj; lia|].
      split; [rewrite app_nil_r; reflexivity|]. split; [reflexivity|].
      split; [intros j d H; rewrite lookup_nil in H; discriminate|].
      replace (executes w + 1 - 1)%nat with (executes w) by lia. rewrite Hfault.
      split; [reflexivity|]. split; [reflexivity|].
      apply andb_false_iff in Hretry as [Hnb|Hlast]; [left; exact Hnb|right].
      apply Z.ltb_ge in Hlast. lia.
  - assert (Hsettled : (r, w') = (Sql.outcome stmt (db w),
                                  setDb (Sql.exec stmt) (tickExecutes w))).
    { rewrite <- Hrun. unfold Sql.outcome.
      destruct (Sql.violation stmt (db w)) as [e|] eqn:Hv; [|reflexivity].
      rewrite (violation_not_busy _ _ _ Hv). reflexivity. }
    injection Hsettled as -> ->.
    exists 1%nat, []. simpl.
    split; [lia|]. split; [lia|]. split; [intros j Hj; lia|].
    split; [rewrite app_nil_r; reflexivity|]. split; [reflexivity|].
    split; [intros j d H; rewrite lookup_nil in H; discriminate|].
    replace (executes w + 1 - 1)%nat with (executes w) by lia. rewrite Hfault.
    split; reflexivity.
Qed.

Lemma clock_read_frame (env : Env) (w : World) :
  executes (tickClock w) = executes w /\ trace (tickClock w) = trace w
  /\ db (tickClock w) = db w.
Proof. repeat split. Qed.

(** Every mutation is [executeWithRetry] with the default arguments applied to
    one [execute] of its statement. *)
Lemma mutate_unfold (env : Env) (mu : Mutation) (w : World) :
  mutate env mu w
  = ChatDatabase.retryLoop env (ChatDatabase.execute env (statementOf env mu w))
      5 100 5 0 Js.Undefined
      (match mu with UpdateProtocolPerformance _ _ _ => tickClock w | _ => w end).
Proof. destruct mu; reflexivity. Qed.

(** C7.  Every mutation of the evidence store ([saveMessage],
    [updateMessageFirstReceipt], [saveMessageReceipt],
    [updateChannelPreference], [updateProtocolPerformance]) makes between one
    and five attempts; every attempt but the last one failed with
    [SQLITE_BUSY]; before retry [j + 1] it sleeps [100 * 2^j] ms plus a
    jitter between 0 and 50 ms, both included; and the outcome is that of
    the last attempt.  An attempt that the store lets through settles as
    the statement does: it takes effect, or it violates the foreign key of
    the receipts, which is thrown at once and changes nothing.  A failure
    of the store is re-thrown with the store untouched, and it is
    re-thrown either because it is not a busy error (at once, on whichever
    attempt it occurs) or because it is the fifth attempt. *)
Theorem mutation_retry_policy (env : Env) (mu : Mutation) (w : World) :
  exists (attempts : nat) (delays : list Q),
    let r := fst (mutate env mu w) in
    let w' := snd (mutate env mu w) in
    (1 <= attempts <= 5)%nat /\
    executes w' = (executes w + attempts)%nat /\
    (forall j, (j < attempts - 1)%nat -> busyAt env (executes w + j)) /\
    trace w' = trace w ++ map Slept delays /\
    length delays = (attempts - 1)%nat /\
    (forall j d, delays !! j = Some d ->
       (baseDelay j <= d)%Q /\ (d <= baseDelay j + 50)%Q) /\
    match sqliteFault env (executes w + attempts - 1) with
    | None =>
        match Sql.violation (statementOf env mu w) (db w) with
        | None => r = Ok tt /\ db w' = Sql.exec (statementOf env mu w) (db w)
        | Some e => r = Throw e /\ db w' = db w /\ ChatDatabase.isBusy e = false
        end
    | Some e =>
        r = Throw e /\ db w' = db w /\
        (ChatDatabase.isBusy e = false \/ attempts = 5%nat)
    end.
Proof.
  rewrite mutate_unfold.
  set (w0 := match mu with UpdateProtocolPerformance _ _ _ => tickClock w | _ => w end).
  assert (Hframe : executes w0 = executes w /\ trace w0 = trace w /\ db w0 = db w)
    by (destruct mu; repeat split).
  destruct Hframe as (Hex & Htr & Hdb).
  destruct (ChatDatabase.retryLoop env _ 5 100 5 0 Js.Undefined w0) as [r w'] eqn:Hrun.
  apply retryLoop_policy in Hrun as (k & ds & Hk & Hexec & Hbusies & Htrace & Hlen & Hds & Hout);
    [|reflexivity|lia].
  rewrite Hex in *. rewrite Htr in *. rewrite Hdb in *.
  exists k, ds. simpl.
  split; [exact Hk|]. split; [exact Hexec|]. split; [exact Hbusies|].
  split; [exact Htrace|]. split; [exact Hlen|]. split; [exact Hds|].
  destruct (sqliteFault env (executes w + k - 1)).
  - destruct Hout as (? & ? & [?|?]); auto.
  - destruct Hout as (Hr & Hd). unfold Sql.outcome in Hr.
    destruct (Sql.violation (statementOf env mu w) (db w)) as [e|] eqn:Hv.
    + split; [exact Hr|]. split; [|exact (violation_not_busy _ _ _ Hv)].
      rewrite Hd. apply (violation_rolls_back _ _ _ Hv).
    + split; [exact Hr|exact Hd].
Qed.

(** Two busy answers, then success: three attempts, two sleeps, the row is
    stored. *)
Example retry_after_busy :
  let out :=
    ChatDatabase.saveMessage Example.busyTwice
      (Message.mk "u-1" Example.alice Example.bob "hello" 990 false None None)
      Example.fresh in
  fst out = Ok tt /\ executes (snd out) = 3%nat /\
  length (trace (snd out)) = 2%nat /\ messageRows "u-1" (db (snd out)) = 1%nat.
Proof. vm_compute. repeat split; reflexivity. Qed.

(** Busy every time: the fifth failure is thrown to the caller, after four
    sleeps, and nothing is stored. *)
Example retry_exhausted :
  let out :=
    ChatDatabase.saveMessage Example.alwaysBusy
      (Message.mk "u-1" Example.alice Example.bob "hello" 990 false None None)
      Example.fresh in
  fst out = Throw (Js.Error (Some "SQLITE_BUSY") "database is locked") /\
  executes (snd out) = 5%nat /\ length (trace (snd out)) = 4%nat /\
  db (snd out) = db Example.fresh.
Proof. vm_compute. repeat split; reflexivity. Qed.

(** An error that is not a busy error is thrown at once. *)
Example retry_not_for_other_errors :
  let out :=
    ChatDatabase.saveMessage Example.brokenOnce
      (Message.mk "u-1" Example.alice Example.bob "hello" 990 false None None)
      Example.fresh in
  fst out = Throw (Js.Error (Some "SQLITE_CONSTRAINT") "constraint failed") /\
  executes (snd out) = 2%nat /\ length (trace (snd out)) = 1%nat.
Proof. vm_compute. repeat split; reflexivity. Qed.

(** A receipt for a message that is not stored: the foreign key is
    violated, the error is thrown at the first attempt, and nothing is
    stored. *)
Example receipt_without_message :
  let out :=
    ChatDatabase.saveMessageReceipt Example.env
      (MessageReceipt.mk "u-1" "nostr" None 1001 11) Example.fresh in
  fst out = Throw Sql.foreignKeyError /\
  executes (snd out) = 1%nat /\ trace (snd out) = [] /\ db (snd out) = db Example.fresh.
Proof. vm_compute. repeat split; reflexivity. Qed.

(** ** A store that never raises *)

Section HealthyStore.
Context (env : Env) (Hhealthy : Healthy env).

Lemma execute_healthy (stmt : Sql.Statement) (w : World) :
  ChatDatabase.execute env stmt w
  = (Sql.outcome stmt (db w), setDb (Sql.exec stmt) (tickExecutes w)).
Proof. unfold ChatDatabase.execute. rewrite Hhealthy. reflexivity. Qed.

Lemma executeWithRetry_healthy (stmt : Sql.Statement) (w : World) :
  ChatDatabase.executeWithRetry env (ChatDatabase.execute env stmt)
    ChatDatabase.maxRetriesDefault ChatDatabase.delayMsDefault w
  = (Sql.outcome stmt (db w), setDb (Sql.exec stmt) (tickExecutes w)).
Proof.
  unfold ChatDatabase.executeWithRetry, ChatDatabase.maxRetriesDefault.
  cbn [ChatDatabase.retryLoop]. unfold tryCatch. rewrite execute_healthy.
  unfold Sql.outcome.
  destruct (Sql.violation stmt (db w)) as [e|] eqn:Hv; [|reflexivity].
  rewrite (violation_not_busy _ _ _ Hv). reflexivity.
Qed.

Lemma mutate_healthy (mu : Mutation) (w : World) :
  mutate env mu w
  = (Sql.outcome (statementOf env mu w) (db w),
     setDb (Sql.exec (statementOf env mu w))
       (tickExecutes
          (match mu with UpdateProtocolPerformance _ _ _ => tickClock w | _ => w end))).
Proof.
  destruct mu; simpl;
    unfold ChatDatabase.saveMessage, ChatDatabase.updateMessageFirstReceipt,
      ChatDatabase.saveMessageReceipt, ChatDatabase.updateChannelPreference,
      ChatDatabase.updateProtocolPerformance, ChatDatabase.ensureInit, bind, ret, now;
    rewrite executeWithRetry_healthy; reflexivity.
Qed.

Lemma saveMessage_healthy (message : Message.t) (w : World) :
  ChatDatabase.saveMessage env message w
  = (Ok tt, setDb (Sql.exec (statementOf env (SaveMessage message) w)) (tickExecutes w)).
Proof. exact (mutate_healthy (SaveMessage message) w). Qed.

Lemma saveMessageReceipt_healthy (receipt : MessageReceipt.t) (w : World) :
  ChatDatabase.saveMessageReceipt env receipt w
  = (Sql.outcome (statementOf env (SaveMessageReceipt receipt) w) (db w),
     setDb (Sql.exec (statementOf env (SaveMessageReceipt receipt) w)) (tickExecutes w)).
Proof. exact (mutate_healthy (SaveMessageReceipt receipt) w). Qed.

Lemma updateChannelPreference_healthy (pref : ChannelPreference.t) (w : World) :
  ChatDatabase.updateChannelPreference env pref w
  = (Ok tt,
     setDb (Sql.exec (statementOf env (UpdateChannelPreference pref) w)) (tickExecutes w)).
Proof. exact (mutate_healthy (UpdateChannelPreference pref) w). Qed.

Lemma updateProtocolPerformance_healthy (protocol : string) (acked : bool)
    (latencyMs : option Z) (w : World) :
  ChatDatabase.updateProtocolPerformance env protocol acked latencyMs w
  = (Ok tt,
     setDb (Sql.exec (statementOf env (UpdateProtocolPerformance protocol acked latencyMs) w))
       (tickExecutes (tickClock w))).
Proof. exact (mutate_healthy (UpdateProtocolPerformance protocol acked latencyMs) w). Qed.

End HealthyStore.

(** ** [saveMessage] *)

Lemma exec_unique (stmt : Sql.Statement) (s : Store) :
  uniqueUuids s -> uniqueUuids (Sql.exec stmt s).
Proof.
  unfold uniqueUuids. intros Hu. destruct stmt; simpl; try exact Hu.
  - apply insertOrIgnore_unique, Hu.
  - rewrite map_map.
    erewrite map_ext; [exact Hu|].
    intros r. unfold Sql.updateFirstReceipt. destruct (_ && _); reflexivity.
  - destruct (existsb _ _); exact Hu.
Qed.

(** The foreign key of a receipt: the receipt is stored when the message
    it refers to is, and refused otherwise. *)
Lemma receipt_outcome (u p : string) (srv : option string) (at_ lat : Z) (s : Store) :
  Sql.outcome (Sql.InsertMessageReceipt u p srv at_ lat) s
  = if stored u s then Ok tt else Throw Sql.foreignKeyError.
Proof. unfold Sql.outcome, stored. simpl. destruct (existsb _ _); reflexivity. Qed.

Lemma receipt_stored (u p : string) (srv : option string) (at_ lat : Z) (s : Store) :
  stored u s = true ->
  Sql.exec (Sql.InsertMessageReceipt u p srv at_ lat) s
  = mkStore (messages s)
      (message_receipts s ++ [MessageReceipts.mk (Sql.nextReceiptId s) u p srv at_ lat])
      (channel_preferences s) (protocol_performance s)
      (SqliteSequence.mk (SqliteSequence.messages (sqlite_sequence s)) (Sql.nextReceiptId s)
         (SqliteSequence.channel_preferences (sqlite_sequence s))).
Proof. unfold stored. intros H. simpl. rewrite H. reflexivity. Qed.

Lemma receipt_refused (u p : string) (srv : option string) (at_ lat : Z) (s : Store) :
  stored u s = false -> Sql.exec (Sql.InsertMessageReceipt u p srv at_ lat) s = s.
Proof. unfold stored. intros H. simpl. rewrite H. reflexivity. Qed.

(** Once a message is stored it stays stored. *)
Lemma exec_stored (u : string) (stmt : Sql.Statement) (s : Store) :
  stored u s = true -> stored u (Sql.exec stmt s) = true.
Proof.
  unfold stored. intros H. destruct stmt; simpl; try exact H.
  - unfold Sql.insertOrIgnoreMessage.
    match goal with |- context [if ?c then _ else _] => destruct c end; [exact H|].
    rewrite existsb_app, H. reflexivity.
  - rewrite existsb_exists in *. destruct H as (r & Hin & Hr).
    exists (Sql.updateFirstReceipt protocol receivedAt uuid r). split.
    + apply in_map, Hin.
    + unfold Sql.updateFirstReceipt. destruct (_ && _); exact Hr.
  - match goal with |- context [if ?c then _ else _] => destruct c end; exact H.
Qed.

Lemma saveMessage_grows (env : Env) (u : string) (message : Message.t) (w : World)
    (s : Store) :
  (messageRows u s
   <= messageRows u (Sql.exec (statementOf env (SaveMessage message) w) s))%nat.
Proof. unfold messageRows. simpl. apply insertOrIgnore_grows. Qed.

Lemma saveMessage_stores (env : Env) (message : Message.t) (w : World) (s : Store) :
  stored (Message.uuid message) (Sql.exec (statementOf env (SaveMessage message) w) s) = true.
Proof. unfold stored. simpl. apply (insertOrIgnore_present (Messages.mk _ _ _ _ _ _ _ _ _)). Qed.

Lemma saveMessage_messages (env : Env) (message : Message.t) (w : World) :
  Healthy env ->
  fst (ChatDatabase.saveMessage env message w) = Ok tt /\
  exists r,
    Messages.uuid r = Message.uuid message /\
    messages (db (snd (ChatDatabase.saveMessage env message w)))
    = Sql.insertOrIgnoreMessage r (messages (db w)).
Proof.
  intros H. rewrite saveMessage_healthy by exact H. split; [reflexivity|].
  simpl. eexists. split; [|reflexivity]. reflexivity.
Qed.

Lemma saveMessage_repeat (env : Env) (u : string) (others : list Message.t) :
  Healthy env ->
  Forall (fun m => Message.uuid m = u) others ->
  forall w,
    existsb (Sql.hasUuid u) (messages (db w)) = true ->
    fst (forEach others (ChatDatabase.saveMessage env) w) = Ok tt /\
    messages (db (snd (forEach others (ChatDatabase.saveMessage env) w))) = messages (db w).
Proof.
  intros H Hall. induction Hall as [|m others Hm Hall IH]; intros w Hw.
  - split; reflexivity.
  - cbn [forEach]. unfold bind.
    destruct (saveMessage_messages env m w H) as (Hok & r & Hr & Hrows).
    destruct (ChatDatabase.saveMessage env m w) as [res w1]. simpl in Hok, Hrows.
    subst res.
    assert (Hsame : messages (db w1) = messages (db w)).
    { rewrite Hrows. unfold Sql.insertOrIgnoreMessage. rewrite Hr, Hm, Hw. reflexivity. }
    destruct (IH w1) as (Hok' & Hrows'); [rewrite Hsame; exact Hw|].
    split; [exact Hok'|]. rewrite Hrows'. exact Hsame.
Qed.

(** C8.  [saveMessage] is idempotent on the uuid: with a working store whose
    [messages] table satisfies its UNIQUE constraint, one invocation for uuid
    [u] followed by any number of further invocations with messages of the
    same uuid leaves exactly one row with uuid [u], and after the first
    invocation the [messages] table never changes again (after any number [k]
    of the later invocations it is what it was after the first). *)
Theorem saveMessage_idempotent (env : Env) (u : string) (first : Message.t)
    (others : list Message.t) (w : World) :
  Healthy env -> uniqueUuids (db w) -> Message.uuid first = u ->
  Forall (fun m => Message.uuid m = u) others ->
  let once := ChatDatabase.saveMessage env first w in
  let again := fun k => forEach (take k others) (ChatDatabase.saveMessage env) (snd once) in
  fst once = Ok tt /\
  messageRows u (db (snd once)) = 1%nat /\
  forall k,
    fst (again k) = Ok tt /\
    messages (db (snd (again k))) = messages (db (snd once)) /\
    messageRows u (db (snd (again k))) = 1%nat.
Proof.
  intros H Hu Hfirst Hall once again.
  destruct (saveMessage_messages env first w H) as (Hok & r & Hr & Hrows).
  fold once in Hok, Hrows.
  assert (Hpresent : existsb (Sql.hasUuid u) (messages (db (snd once))) = true).
  { rewrite Hrows, <- Hfirst, <- Hr. apply insertOrIgnore_present. }
  assert (Hone : messageRows u (db (snd once)) = 1%nat).
  { unfold messageRows. rewrite unique_count, Hpresent; [reflexivity|].
    rewrite Hrows. apply insertOrIgnore_unique, Hu. }
  split; [exact Hok|]. split; [exact Hone|].
  intros k. unfold again.
  destruct (saveMessage_repeat env u (take k others) H) with (w := snd once)
    as (Hok' & Hsame); [apply Forall_take, Hall|exact Hpresent|].
  split; [exact Hok'|]. split; [exact Hsame|].
  unfold messageRows in *. rewrite Hsame. exact Hone.
Qed.

Lemma saveMessage_idempotent_witness :
  let three := [Message.mk "u-1" Example.alice Example.bob "b" 2 false None None;
                Message.mk "u-1" Example.bob Example.alice "c" 3 true None None] in
  messageRows "u-1"
    (db (snd (forEach (take 2 three) (ChatDatabase.saveMessage Example.env)
                (snd (ChatDatabase.saveMessage Example.env
                        (Message.mk "u-1" Example.alice Example.bob "a" 1 false None None)
                        Example.fresh))))) = 1%nat.
Proof.
  intros three.
  refine (proj2 (proj2 (proj2 (proj2
    (saveMessage_idempotent Example.env "u-1"
       (Message.mk "u-1" Example.alice Example.bob "a" 1 false None None)
       three Example.fresh _ _ _ _)) 2%nat))).
  - intros n. reflexivity.
  - unfold uniqueUuids. simpl. apply NoDup_nil. exact I.
  - reflexivity.
  - repeat constructor.
Defined.

(** ** [updateProtocolPerformance] *)

(** What the upsert does with a latency that JavaScript takes as supplied
    (anything but [undefined] and [0]): [total_sent] grows by one,
    [total_acked] by the flag, and the average becomes the latency, or half
    the sum of the old average and the latency. *)
Lemma updateProtocolPerformance_rule (env : Env) (protocol : string) (acked : bool)
    (latency : Z) (w : World) :
  Healthy env -> latency <> 0 ->
  let w' := snd (ChatDatabase.updateProtocolPerformance env protocol acked (Some latency) w) in
  protocol_performance (db w') !! protocol
  = Some
      match protocol_performance (db w) !! protocol with
      | None =>
          ProtocolPerformance.mk 1 (Js.toInt acked) (Some (inject_Z latency))
            (Some (dateNow env (clock w)))
      | Some r =>
          ProtocolPerformance.mk
            (ProtocolPerformance.total_sent r + 1)
            (ProtocolPerformance.total_acked r + Js.toInt acked)
            (match ProtocolPerformance.avg_latency_ms r with
             | None => Some (inject_Z latency)
             | Some prior =>
                 Some (Binary64.div (Binary64.add prior (inject_Z latency)) 2)
             end)
            (Some (dateNow env (clock w)))
      end.
Proof.
  intros H Hnz w'. unfold w'. rewrite updateProtocolPerformance_healthy by exact H.
  destruct latency as [|l|l]; [congruence| |]; simpl; rewrite lookup_insert_eq;
    (destruct (protocol_performance (db w) !! protocol) as [r|]; simpl; [|reflexivity]);
    destruct (ProtocolPerformance.avg_latency_ms r); reflexivity.
Qed.

Lemma updateProtocolPerformance_without_latency (env : Env) (protocol : string)
    (acked : bool) (r : ProtocolPerformance.row) (w : World) :
  Healthy env -> protocol_performance (db w) !! protocol = Some r ->
  let w' := snd (ChatDatabase.updateProtocolPerformance env protocol acked None w) in
  protocol_performance (db w') !! protocol
  = Some (ProtocolPerformance.mk
            (ProtocolPerformance.total_sent r + 1)
            (ProtocolPerformance.total_acked r + Js.toInt acked)
            (ProtocolPerformance.avg_latency_ms r)
            (Some (dateNow env (clock w)))).
Proof.
  intros H Hr w'. unfold w'. rewrite updateProtocolPerformance_healthy by exact H.
  simpl. rewrite lookup_insert_eq, Hr. reflexivity.
Qed.

(** The quotient is not truncated: the parameter is bound as a REAL, so an
    average of 100 and a latency of 51 give 75.5. *)
Example average_keeps_the_half :
  protocol_performance
    (db (snd (ChatDatabase.updateProtocolPerformance Example.env "MQTT" true (Some 51)
                Example.measured))) !! "MQTT"
  = Some (ProtocolPerformance.mk 5 4 (Some (151 # 2)) (Some 1000)).
Proof. vm_compute. reflexivity. Qed.

(** C5.  The code at a supplied latency of 0: MQTT has an average of 100 ms;
    after [updateProtocolPerformance("MQTT", true, 0)] the counters have
    moved but the average is still 100, not ⌊(100 + 0) / 2⌋ = 50; and on a
    protocol without a row the average stays NULL instead of becoming 0.
    [latencyMs || null] turns the 0 into "no latency supplied". *)
Theorem updateProtocolPerformance_zero_latency :
  let after :=
    db (snd (ChatDatabase.updateProtocolPerformance Example.env "MQTT" true (Some 0)
               Example.measured)) in
  let first :=
    db (snd (ChatDatabase.updateProtocolPerformance Example.env "IROH" false (Some 0)
               Example.measured)) in
  protocol_performance (db Example.measured) !! "MQTT"
    = Some (ProtocolPerformance.mk 4 3 (Some 100%Q) (Some 900)) /\
  protocol_performance after !! "MQTT"
    = Some (ProtocolPerformance.mk 5 4 (Some 100%Q) (Some 1000)) /\
  (100 + 0) / 2 = 50 /\
  protocol_performance first !! "IROH"
    = Some (ProtocolPerformance.mk 1 0 None (Some 1000)).
Proof. vm_compute. repeat split; reflexivity. Qed.

(** ** [updateChannelPreference] *)

(** What the upsert leaves in a row that was there: [is_working],
    [last_ack_at], [avg_latency_ms] and [cannot_use] are those bound to the
    statement, that is the argument after [|| null]; [preference_order] is
    the bound one or, when that is NULL, the old one; the row id is kept;
    all other rows are untouched.  The upsert that [handleIncomingMessage]
    makes for an entry of an acknowledgment's [channelPreferences] binds
    NULL for [last_ack_at] and [avg_latency_ms]. *)
Lemma updateChannelPreference_writes (env : Env) (pref : ChannelPreference.t)
    (old : ChannelPreferences.row) (w : World) :
  Healthy env ->
  channel_preferences (db w)
    !! (ChannelPreference.identity pref, ChannelPreference.protocol pref) = Some old ->
  let table :=
    channel_preferences (db (snd (ChatDatabase.updateChannelPreference env pref w))) in
  exists new,
    table !! (ChannelPreference.identity pref, ChannelPreference.protocol pref) = Some new /\
    ChannelPreferences.is_working new = Js.toInt (ChannelPreference.isWorking pref) /\
    ChannelPreferences.last_ack_at new = Js.orNull (ChannelPreference.lastAckAt pref) /\
    ChannelPreferences.avg_latency_ms new = Js.orNull (ChannelPreference.avgLatencyMs pref) /\
    ChannelPreferences.cannot_use new = Js.toInt (ChannelPreference.cannotUse pref) /\
    ChannelPreferences.preference_order new
    = Sql.coalesce (Js.orNull (ChannelPreference.preferenceOrder pref))
        (ChannelPreferences.preference_order old) /\
    ChannelPreferences.id new = ChannelPreferences.id old /\
    (forall key,
       key <> (ChannelPreference.identity pref, ChannelPreference.protocol pref) ->
       table !! key = channel_preferences (db w) !! key) /\
    (forall message info, pref = ChatBroadcaster.statedPreference message info ->
       ChannelPreferences.last_ack_at new = None /\
       ChannelPreferences.avg_latency_ms new = None).
Proof.
  intros H Hold table. unfold table.
  rewrite updateChannelPreference_healthy by exact H. simpl.
  rewrite lookup_insert_eq, Hold. eexists. split; [reflexivity|]. simpl.
  split; [reflexivity|]. split; [reflexivity|]. split; [reflexivity|]. split; [reflexivity|].
  split; [reflexivity|]. split; [reflexivity|].
  split; [intros key Hkey; apply lookup_insert_ne; congruence|].
  intros message info ->. split; reflexivity.
Qed.

(** C9.  The code at a supplied 0.  The row of (Alice, nostr) holds an
    average latency of 14 ms and the order 2.  An upsert that supplies
    [avgLatencyMs: 0] and [preferenceOrder: 0] writes NULL for the average,
    not 0, and keeps the order 2, not 0: [|| null] takes the supplied 0 for
    a missing value.  [handleIncomingMessage] supplies such a 0 when an
    acknowledgment is handled in the millisecond of its timestamp: the
    latency it has learned is stored as NULL. *)
Theorem updateChannelPreference_zero_is_null :
  let learned :=
    ChannelPreference.mk Example.alice "nostr" true (Some 1003) (Some 14) (Some 2) false in
  let again :=
    ChannelPreference.mk Example.alice "nostr" true (Some 2000) (Some 0) (Some 0) false in
  let w1 := snd (ChatDatabase.updateChannelPreference Example.env learned Example.fresh) in
  let w2 := snd (ChatDatabase.updateChannelPreference Example.env again w1) in
  let sameMillisecond :=
    ChatMessage.mk "u-2" "ACK: u-0" 1004 Example.alice
      (Some (AckFields.mk "u-0" "nostr" None)) in
  let w3 :=
    snd (ChatBroadcaster.handleIncomingMessage Example.env sameMillisecond "nostr" None
           Example.fresh) in
  channel_preferences (db w1) !! (Example.alice, "nostr"%string)
    = Some (ChannelPreferences.mk 1 1 (Some 1003) (Some 14) (Some 2) 0) /\
  channel_preferences (db w2) !! (Example.alice, "nostr"%string)
    = Some (ChannelPreferences.mk 1 1 (Some 2000) None (Some 2) 0) /\
  channel_preferences (db w3) !! (Example.alice, "nostr"%string)
    = Some (ChannelPreferences.mk 1 1 (Some 1003) None None 0).
Proof. vm_compute. repeat split; reflexivity. Qed.

(** ** The loops of the pipeline *)

Lemma emitAll_nil (w : World) : emitAll [] w = w.
Proof. destruct w. unfold emitAll. simpl. rewrite app_nil_r. reflexivity. Qed.

Lemma emitAll_emit (e : Event) (es : list Event) (w : World) :
  emitAll es (emit e w) = emitAll (e :: es) w.
Proof. unfold emitAll, emit. simpl. rewrite <- app_assoc. reflexivity. Qed.

(** The handler loop calls the handlers in order and stops at the first
    that throws. *)
Lemma forEach_callHandler (env : Env) (message : ChatMessage.t) (protocol : string)
    (handlers : list nat) :
  forall w,
    forEach handlers (ChatBroadcaster.callHandler env message protocol) w
    = (snd (handlersRun env message protocol (length (trace w)) handlers),
       emitAll
         (handlerCalls message protocol
            (fst (handlersRun env message protocol (length (trace w)) handlers))) w).
Proof.
  induction handlers as [|h handlers IH]; intros w.
  - simpl. rewrite emitAll_nil. reflexivity.
  - cbn [forEach handlersRun]. unfold bind at 1.
    unfold ChatBroadcaster.callHandler at 1. unfold bind, gets, modify, throw, ret.
    destruct (handlerFault env (length (trace w)) h message protocol) as [e|].
    + simpl. rewrite <- emitAll_emit, emitAll_nil. reflexivity.
    + rewrite IH. cbn [trace emit]. rewrite length_app, Nat.add_1_r.
      destruct (handlersRun env message protocol (S (length (trace w))) handlers)
        as [called r].
      cbn [fst snd handlerCalls map]. rewrite emitAll_emit. reflexivity.
Qed.

Lemma handlersRun_returns (env : Env) (message : ChatMessage.t) (protocol : string)
    (handlers : list nat) :
  HandlersReturn env ->
  forall at_, handlersRun env message protocol at_ handlers = (handlers, Ok tt).
Proof.
  intros H. induction handlers as [|h handlers IH]; intros at_; [reflexivity|].
  cbn [handlersRun]. rewrite H, IH. reflexivity.
Qed.

(** The handlers that were called are the first ones registered; when the
    loop returns they are all of them; when it throws, the last one called
    is the one that threw. *)
Lemma handlersRun_called (env : Env) (message : ChatMessage.t) (protocol : string)
    (handlers : list nat) :
  forall at_,
    let ran := handlersRun env message protocol at_ handlers in
    fst ran `prefix_of` handlers /\
    match snd ran with
    | Ok _ => fst ran = handlers
    | Throw e =>
        exists h, last (fst ran) = Some h /\
          handlerFault env (at_ + length (fst ran) - 1) h message protocol = Some e
    end.
Proof.
  induction handlers as [|h handlers IH]; intros at_; cbn [handlersRun].
  - split; reflexivity.
  - destruct (handlerFault env at_ h message protocol) as [e|] eqn:Hf.
    + cbn [fst snd]. split; [exists handlers; reflexivity|].
      exists h. split; [reflexivity|]. cbn [length].
      replace (at_ + 1 - 1)%nat with at_ by lia. exact Hf.
    + specialize (IH (S at_)). cbv zeta in IH.
      destruct (handlersRun env message protocol (S at_) handlers) as [called r].
      cbn [fst snd] in *. destruct IH as [Hp Hr].
      split; [apply prefix_cons, Hp|].
      destruct r as [[]|e]; [rewrite Hr; reflexivity|].
      destruct Hr as (h' & Hlast & Hfault).
      destruct called as [|c called]; [discriminate|].
      exists h'. split; [exact Hlast|].
      cbn [length] in *. replace (at_ + S (S (length called)) - 1)%nat
        with (S at_ + S (length called) - 1)%nat by lia. exact Hfault.
Qed.

Lemma afterSends_cons (env : Env) (recipient : Identity) (message : string) (d : Driver)
    (drivers : list Driver) (w : World) :
  afterSends env recipient message (d :: drivers) w
  = afterSends env recipient message drivers (afterSend env recipient message w d).
Proof. reflexivity. Qed.

Lemma afterPreferences_cons (pref : ChannelPreference.t) (prefs : list ChannelPreference.t)
    (w : World) :
  afterPreferences (pref :: prefs) w
  = afterPreferences prefs (executed (preferenceStatement pref) w).
Proof. reflexivity. Qed.

Lemma upsertAll_cons (pref : ChannelPreference.t) (prefs : list ChannelPreference.t)
    (s : Store) :
  upsertAll (pref :: prefs) s = upsertAll prefs (Sql.exec (preferenceStatement pref) s).
Proof. reflexivity. Qed.

Lemma afterSend_frame (env : Env) (recipient : Identity) (message : string) (d : Driver)
    (w : World) :
  let w' := afterSend env recipient message w d in
  trace w' = trace w ++ [DriverSend d recipient message] /\
  db w' = db w /\ seenMessageUuids w' = seenMessageUuids w /\
  messageHandlers w' = messageHandlers w /\ myMagnetLink w' = myMagnetLink w /\
  broadcaster w' = broadcaster w /\ executes w' = executes w /\ uuids w' = uuids w /\
  (clock w + 2 <= clock w' <= clock w + 3)%nat.
Proof.
  unfold afterSend. destruct (BroadcasterImpl.stampsPayload _ _); simpl; repeat split; lia.
Qed.

(** What the sends of [broadcast] leave unchanged, and what they add. *)
Lemma afterSends_frame (env : Env) (recipient : Identity) (message : string)
    (drivers : list Driver) :
  forall w,
    trace (afterSends env recipient message drivers w)
      = trace w ++ driverSends recipient message drivers /\
    db (afterSends env recipient message drivers w) = db w /\
    seenMessageUuids (afterSends env recipient message drivers w) = seenMessageUuids w /\
    messageHandlers (afterSends env recipient message drivers w) = messageHandlers w /\
    myMagnetLink (afterSends env recipient message drivers w) = myMagnetLink w /\
    broadcaster (afterSends env recipient message drivers w) = broadcaster w /\
    executes (afterSends env recipient message drivers w) = executes w /\
    uuids (afterSends env recipient message drivers w) = uuids w /\
    (clock w + 2 * length drivers <= clock (afterSends env recipient message drivers w)
     <= clock w + 3 * length drivers)%nat.
Proof.
  induction drivers as [|d drivers IH]; intros w.
  - simpl. rewrite app_nil_r. repeat split; lia.
  - rewrite afterSends_cons.
    destruct (afterSend_frame env recipient message d w)
      as (Ht0 & Hd0 & Hs0 & Hh0 & Hm0 & Hb0 & He0 & Hu0 & Hc0).
    destruct (IH (afterSend env recipient message w d))
      as (Ht & Hd & Hs & Hh & Hm & Hb & He & Hu & Hc).
    rewrite Ht, Hd, Hs, Hh, Hm, Hb, He, Hu, Ht0, Hd0, Hs0, Hh0, Hm0, Hb0, He0, Hu0.
    simpl. rewrite <- app_assoc. repeat split; simpl in *; lia.
Qed.

Lemma sendVia_run (env : Env) (d : Driver) (recipient : Identity) (message : string)
    (w : World) :
  exists result,
    BroadcasterImpl.sendVia env d recipient message w
    = (Ok result, afterSend env recipient message w d).
Proof.
  unfold BroadcasterImpl.sendVia, afterSend, bind, modify, gets, now, ret.
  cbn [clock emit tickClock].
  destruct (BroadcasterImpl.stampsPayload d (transport env d recipient message (clock w)));
    eexists; reflexivity.
Qed.

Lemma collect_sendVia (env : Env) (recipient : Identity) (message : string)
    (drivers : list Driver) :
  forall w, exists results,
    collect drivers (fun d => BroadcasterImpl.sendVia env d recipient message) w
    = (Ok results, afterSends env recipient message drivers w)
    /\ length results = length drivers.
Proof.
  induction drivers as [|d drivers IH]; intros w.
  - exists []. split; reflexivity.
  - cbn [collect]. unfold bind at 1.
    destruct (sendVia_run env d recipient message w) as (result & ->).
    destruct (IH (afterSend env recipient message w d)) as (results & Hrun & Hlen).
    unfold bind, ret. rewrite afterSends_cons, Hrun.
    eexists. split; [reflexivity|]. simpl. rewrite Hlen. reflexivity.
Qed.

(** [broadcast] starts a send on every transport that can be used, and on
    no other. *)
Lemma activeDrivers_ready (b : Broadcaster) :
  BroadcasterImpl.activeDrivers b = List.filter (ready b) transports.
Proof.
  unfold BroadcasterImpl.activeDrivers, transports, ready. simpl.
  destruct (xmtpEnabled b), (xmtpClient b), (nostrEnabled b), (nostrRelays b),
    (wakuEnabled b), (wakuNode b), (mqttEnabled b), (mqttClients b),
    (irohEnabled b), (irohNode b); reflexivity.
Qed.

(** [broadcast] with a recipient that does not decode: the error is raised
    before any driver is asked, and nothing else happens. *)
Lemma broadcast_invalid (env : Env) (recipientMagnetLink message : string) (w : World) :
  decodeIdentity env recipientMagnetLink = None ->
  BroadcasterImpl.broadcast env recipientMagnetLink message w
  = (Throw (Js.Error None "Invalid recipient magnet link"),
     emit (BroadcastCalled recipientMagnetLink message) w).
Proof.
  intros Hd. unfold BroadcasterImpl.broadcast, bind, modify. rewrite Hd. reflexivity.
Qed.

(** [broadcast] with a recipient that decodes: one send per enabled and
    initialised driver, one result per send. *)
Lemma broadcast_valid (env : Env) (recipientMagnetLink message : string)
    (recipient : Identity) (w : World) :
  decodeIdentity env recipientMagnetLink = Some recipient ->
  exists results,
    BroadcasterImpl.broadcast env recipientMagnetLink message w
    = (Ok results,
       afterSends env recipient message (BroadcasterImpl.activeDrivers (broadcaster w))
         (emit (BroadcastCalled recipientMagnetLink message) w))
    /\ length results = length (BroadcasterImpl.activeDrivers (broadcaster w)).
Proof.
  intros Hd. unfold BroadcasterImpl.broadcast, bind at 1, modify. rewrite Hd.
  unfold bind, gets.
  apply (collect_sendVia env recipient message
           (BroadcasterImpl.activeDrivers (broadcaster w))
           (emit (BroadcastCalled recipientMagnetLink message) w)).
Qed.

(** The guarded broadcast of an acknowledgment never throws. *)
Lemma broadcastAck_total (env : Env) (recipientMagnetLink serialized : string) (w : World) :
  exists w',
    ChatBroadcaster.broadcastAck env recipientMagnetLink serialized w = (Ok tt, w') /\
    trace w' = trace w ++ ackEvents env (broadcaster w) recipientMagnetLink serialized /\
    db w' = db w /\
    seenMessageUuids w' = seenMessageUuids w /\
    messageHandlers w' = messageHandlers w /\
    myMagnetLink w' = myMagnetLink w /\
    broadcaster w' = broadcaster w /\
    executes w' = executes w /\
    uuids w' = uuids w.
Proof.
  unfold ChatBroadcaster.broadcastAck, tryCatch, bind at 1, ackEvents.
  destruct (decodeIdentity env recipientMagnetLink) as [recipient|] eqn:Hd.
  - destruct (broadcast_valid env recipientMagnetLink serialized recipient w Hd)
      as (results & Hrun & _).
    rewrite Hrun. unfold ret. eexists. split; [reflexivity|].
    destruct (afterSends_frame env recipient serialized
                (BroadcasterImpl.activeDrivers (broadcaster w))
                (emit (BroadcastCalled recipientMagnetLink serialized) w))
      as (Ht & Hdb & Hs & Hh & Hm & Hb & He & Hu & _).
    rewrite Ht, Hdb, Hs, Hh, Hm, Hb, He, Hu. simpl. rewrite <- app_assoc.
    repeat split.
  - rewrite broadcast_invalid by exact Hd. unfold consoleError, modify.
    eexists. split; [reflexivity|]. simpl. rewrite <- app_assoc. repeat split.
Qed.

Lemma afterPreferences_frame (prefs : list ChannelPreference.t) :
  forall w,
    db (afterPreferences prefs w) = upsertAll prefs (db w) /\
    trace (afterPreferences prefs w) = trace w /\
    seenMessageUuids (afterPreferences prefs w) = seenMessageUuids w /\
    messageHandlers (afterPreferences prefs w) = messageHandlers w /\
    myMagnetLink (afterPreferences prefs w) = myMagnetLink w /\
    broadcaster (afterPreferences prefs w) = broadcaster w /\
    clock (afterPreferences prefs w) = clock w /\
    uuids (afterPreferences prefs w) = uuids w /\
    executes (afterPreferences prefs w) = (executes w + length prefs)%nat.
Proof.
  induction prefs as [|pref prefs IH]; intros w.
  - simpl. repeat split; lia.
  - rewrite afterPreferences_cons, upsertAll_cons.
    destruct (IH (executed (preferenceStatement pref) w))
      as (Hd & Ht & Hs & Hh & Hm & Hb & Hc & Hu & He).
    rewrite Hd, Ht, Hs, Hh, Hm, Hb, Hc, Hu, He. simpl. repeat split; lia.
Qed.

Lemma forEach_statedPreference (env : Env) (message : ChatMessage.t)
    (infos : list ChannelPreferenceInfo.t) :
  Healthy env ->
  forall w,
    forEach infos (fun pref =>
      ChatDatabase.updateChannelPreference env
        (ChatBroadcaster.statedPreference message pref)) w
    = (Ok tt, afterPreferences (map (ChatBroadcaster.statedPreference message) infos) w).
Proof.
  intros H. induction infos as [|info infos IH]; intros w; [reflexivity|].
  cbn [forEach]. unfold bind. rewrite updateChannelPreference_healthy by exact H.
  rewrite IH. reflexivity.
Qed.

(** ** One call of [handleIncomingMessage] *)

(** Run the glue of the monad; the methods of the database, the loops and
    the guarded broadcast stay folded and are rewritten with their lemmas. *)
Ltac run :=
  cbv beta iota zeta delta
    [bind ret gets modify now freshUuid
     ChatBroadcaster.makeReceipt ChatBroadcaster.learnedPreference
     ChatBroadcaster.createAcknowledgment ChatBroadcaster.sendAcknowledgment
     ChatBroadcaster.handleIncomingMessage].

Section OneCall.
Context (env : Env) (Hhealthy : Healthy env).

Lemma saveMessageReceipt_stored (receipt : MessageReceipt.t) (w : World) :
  stored (MessageReceipt.messageUuid receipt) (db w) = true ->
  ChatDatabase.saveMessageReceipt env receipt w
  = (Ok tt,
     setDb (Sql.exec (statementOf env (SaveMessageReceipt receipt) w)) (tickExecutes w)).
Proof.
  intros Hs. rewrite saveMessageReceipt_healthy by exact Hhealthy.
  cbn [statementOf]. rewrite receipt_outcome, Hs. reflexivity.
Qed.

(** A duplicate: the receipt is stored, unless the foreign key refuses it,
    and the call settles as the INSERT does. *)
Lemma handle_duplicate (message : ChatMessage.t) (protocol : string)
    (server : option string) (w : World) :
  ChatMessage.uuid message ∈ seenMessageUuids w ->
  let stmt :=
    Sql.InsertMessageReceipt (ChatMessage.uuid message) protocol
      (Js.orNullStr server) (dateNow env (clock w))
      (dateNow env (S (clock w)) - ChatMessage.timestamp message) in
  ChatBroadcaster.handleIncomingMessage env message protocol server w
  = (Sql.outcome stmt (db w), executed stmt (tickClock (tickClock w))).
Proof.
  intros Hseen stmt. run.
  rewrite bool_decide_eq_true_2 by exact Hseen.
  rewrite saveMessageReceipt_healthy by exact Hhealthy. reflexivity.
Qed.

(** A first arrival: the message and its receipt are stored, and the rest
    of the method runs from there. *)
Lemma handle_first (message : ChatMessage.t) (protocol : string)
    (server : option string) (w : World) :
  ChatMessage.uuid message ∉ seenMessageUuids w ->
  ChatBroadcaster.handleIncomingMessage env message protocol server w
  = restReceipt env message protocol (firstStored env message protocol server w).
Proof.
  intros Hnew. run.
  rewrite bool_decide_eq_false_2 by exact Hnew.
  rewrite saveMessage_healthy by exact Hhealthy. run.
  rewrite saveMessageReceipt_stored
    by exact (saveMessage_stores env (ChatBroadcaster.inboundRow _ _ _ _) _ _).
  match goal with
  | |- context [setDb (Sql.exec (statementOf env (SaveMessageReceipt ?r) ?w1)) ?w2] =>
      change (setDb (Sql.exec (statementOf env (SaveMessageReceipt r) w1)) w2)
        with (firstStored env message protocol server w)
  end.
  generalize (firstStored env message protocol server w). intros w2.
  unfold restReceipt, restPreferences, restHandlers, restAck.
  destruct (ChatMessage.ack message) as [a|]; run.
  - match goal with
    | |- context [ChatDatabase.updateChannelPreference env ?x ?w0] =>
        destruct (ChatDatabase.updateChannelPreference env x w0) as [[[]|e] w3];
          [|reflexivity]
    end.
    match goal with
    | |- context [forEach ?xs ?body ?w0] =>
        destruct (forEach xs body w0) as [[[]|e] w4]; [|reflexivity]
    end.
    reflexivity.
  - reflexivity.
Qed.

Lemma firstStored_frame (message : ChatMessage.t) (protocol : string)
    (server : option string) (w : World) :
  let w' := firstStored env message protocol server w in
  trace w' = trace w /\
  seenMessageUuids w' = seenMessageUuids w ∪ {[ChatMessage.uuid message]} /\
  messageHandlers w' = messageHandlers w /\ myMagnetLink w' = myMagnetLink w /\
  broadcaster w' = broadcaster w /\ uuids w' = uuids w /\ clock w' = (3 + clock w)%nat /\
  channel_preferences (db w') = channel_preferences (db w) /\
  protocol_performance (db w') = protocol_performance (db w) /\
  stored (ChatMessage.uuid message) (db w') = true /\
  (1 <= messageRows (ChatMessage.uuid message) (db w'))%nat /\
  receiptRows (ChatMessage.uuid message) (db w')
  = S (receiptRows (ChatMessage.uuid message) (db w)).
Proof.
  unfold firstStored, executed.
  cbn [trace seenMessageUuids messageHandlers myMagnetLink broadcaster uuids clock db
       setDb setSeen tickClock tickExecutes].
  set (s1 := Sql.exec (statementOf env (SaveMessage _) w) (db w)).
  assert (Hs1 : stored (ChatMessage.uuid message) s1 = true)
    by exact (saveMessage_stores env (ChatBroadcaster.inboundRow _ _ _ _) _ _).
  rewrite receipt_stored by exact Hs1.
  cbn [channel_preferences protocol_performance messages message_receipts].
  repeat split.
  - exact Hs1.
  - unfold messageRows. apply countIf_some. exact Hs1.
  - unfold receiptRows. cbn [message_receipts]. rewrite countIf_app. simpl.
    unfold receiptFor at 2. simpl. rewrite bool_decide_eq_true_2 by reflexivity. lia.
Qed.

(** The acknowledgment of a message that is not one: its row is saved and
    it is handed to [broadcast], whose failure is caught. *)
Lemma restAck_message (message : ChatMessage.t) (protocol : string) (w : World) :
  isAcknowledgment message = false ->
  let ack := ackBuilt env message protocol w in
  let serialized := serializeMessage env ack in
  exists w',
    restAck env message protocol w = (Ok tt, w') /\
    db w'
    = Sql.exec
        (statementOf env
           (SaveMessage (ChatBroadcaster.ackRow (myMagnetLink w) message ack serialized)) w)
        (db w) /\
    trace w'
    = trace w ++ ackEvents env (broadcaster w) (ChatMessage.fromMagnetLink message) serialized /\
    seenMessageUuids w' = seenMessageUuids w /\
    messageHandlers w' = messageHandlers w /\
    myMagnetLink w' = myMagnetLink w /\
    broadcaster w' = broadcaster w.
Proof.
  intros Hack ack serialized. unfold restAck. rewrite Hack. cbn [negb]. run.
  rewrite saveMessage_healthy by exact Hhealthy. run.
  match goal with
  | |- context [ChatBroadcaster.broadcastAck env ?r ?s ?w0] =>
      destruct (broadcastAck_total env r s w0)
        as (w' & Hrun & Ht & Hd & Hs & Hh & Hm & Hb & He & Hu)
  end.
  exists w'. split; [exact Hrun|].
  rewrite Hs, Hd, Ht, Hh, Hm, Hb. repeat split.
Qed.

Lemma restAck_acknowledgment (message : ChatMessage.t) (protocol : string) (w : World) :
  isAcknowledgment message = true -> restAck env message protocol w = (Ok tt, w).
Proof. intros Hack. unfold restAck. rewrite Hack. reflexivity. Qed.

(** From the handler loop on: the handlers are called up to the first that
    throws; if none does, the acknowledgment follows. *)
Lemma restHandlers_run (message : ChatMessage.t) (protocol : string)
    (handlers : list nat) (w : World) :
  let ran := handlersRun env message protocol (length (trace w)) handlers in
  let called := emitAll (handlerCalls message protocol (fst ran)) w in
  restHandlers env message protocol handlers w
  = match snd ran with
    | Ok _ => restAck env message protocol called
    | Throw e => (Throw e, called)
    end.
Proof.
  intros ran called. unfold restHandlers, bind. rewrite forEach_callHandler.
  fold ran. fold called. destruct (snd ran) as [[]|e]; reflexivity.
Qed.

Lemma restPreferences_run (message : ChatMessage.t) (protocol : string)
    (prefs : list ChannelPreferenceInfo.t) (w : World) :
  restPreferences env message protocol prefs w
  = restHandlers env message protocol (messageHandlers w)
      (afterPreferences (map (ChatBroadcaster.statedPreference message) prefs) w).
Proof.
  unfold restPreferences, bind. rewrite forEach_statedPreference by exact Hhealthy.
  unfold gets.
  destruct (afterPreferences_frame (map (ChatBroadcaster.statedPreference message) prefs) w)
    as (_ & _ & _ & Hh & _).
  rewrite Hh. reflexivity.
Qed.

(** The preference that a first-seen acknowledgment teaches, built in the
    world in which its receipt has just been stored. *)
Lemma restReceipt_acknowledgment (message : ChatMessage.t) (protocol : string)
    (a : AckFields.t) (w : World) :
  ChatMessage.ack message = Some a ->
  let learned :=
    ChannelPreference.mk (ChatMessage.fromMagnetLink message) (AckFields.receivedVia a)
      true (Some (dateNow env (clock w)))
      (Some (dateNow env (S (clock w)) - ChatMessage.timestamp message)) None false in
  restReceipt env message protocol w
  = restHandlers env message protocol (messageHandlers w)
      (afterPreferences
         (learned ::
          map (ChatBroadcaster.statedPreference message) (ChatBroadcaster.statedPreferences a))
         (tickClock (tickClock w))).
Proof.
  intros Hack learned. unfold restReceipt. rewrite Hack. run.
  rewrite updateChannelPreference_healthy by exact Hhealthy.
  rewrite restPreferences_run. reflexivity.
Qed.

Lemma restReceipt_message (message : ChatMessage.t) (protocol : string) (w : World) :
  ChatMessage.ack message = None ->
  restReceipt env message protocol w
  = restHandlers env message protocol (messageHandlers w) w.
Proof. intros Hack. unfold restReceipt. rewrite Hack. reflexivity. Qed.

(** What the handler loop and what follows it add to the trace, and what
    they leave alone. *)
Lemma restHandlers_frame (message : ChatMessage.t) (protocol : string)
    (handlers : list nat) (w : World) :
  let ran := handlersRun env message protocol (length (trace w)) handlers in
  let out := restHandlers env message protocol handlers w in
  let due := negb (isAcknowledgment message) && returned (snd ran) in
  let ack :=
    ackBuilt env message protocol (emitAll (handlerCalls message protocol handlers) w) in
  fst out = snd ran /\
  trace (snd out)
  = trace w ++ handlerCalls message protocol (fst ran)
      ++ (if due then
            ackEvents env (broadcaster w) (ChatMessage.fromMagnetLink message)
              (serializeMessage env ack)
          else []) /\
  seenMessageUuids (snd out) = seenMessageUuids w /\
  messageHandlers (snd out) = messageHandlers w /\
  myMagnetLink (snd out) = myMagnetLink w /\
  broadcaster (snd out) = broadcaster w /\
  message_receipts (db (snd out)) = message_receipts (db w) /\
  channel_preferences (db (snd out)) = channel_preferences (db w) /\
  protocol_performance (db (snd out)) = protocol_performance (db w) /\
  (forall u, stored u (db w) = true -> stored u (db (snd out)) = true) /\
  (forall u, (messageRows u (db w) <= messageRows u (db (snd out)))%nat) /\
  (isAcknowledgment message = true -> db (snd out) = db w).
Proof.
  intros ran out due ack. unfold out. rewrite restHandlers_run. fold ran.
  pose proof (handlersRun_called env message protocol handlers (length (trace w))) as Hc.
  cbv zeta in Hc. fold ran in Hc. destruct Hc as [_ Hc].
  unfold due. destruct (snd ran) as [[]|e] eqn:Hr; cbn [returned].
  - rewrite andb_true_r. rewrite Hc in *.
    destruct (isAcknowledgment message) eqn:Hack; cbn [negb].
    + rewrite restAck_acknowledgment by exact Hack. cbn [fst snd].
      rewrite app_nil_r. repeat split; auto.
    + destruct (restAck_message message protocol
                  (emitAll (handlerCalls message protocol handlers) w) Hack)
        as (w' & Hrun & Hd & Ht & Hs & Hh & Hm & Hb).
      rewrite Hrun. cbn [fst snd]. rewrite Ht, Hs, Hh, Hm, Hb, Hd.
      cbn [trace seenMessageUuids messageHandlers myMagnetLink broadcaster db emitAll].
      rewrite <- app_assoc.
      split; [reflexivity|]. split; [reflexivity|]. split; [reflexivity|].
      split; [reflexivity|]. split; [reflexivity|]. split; [reflexivity|].
      split; [reflexivity|]. split; [reflexivity|]. split; [reflexivity|].
      split; [intros u Hu; apply exec_stored; exact Hu|].
      split; [intros u; apply saveMessage_grows|discriminate].
  - rewrite andb_false_r. cbn [fst snd]. simpl. rewrite app_nil_r. repeat split; auto.
Qed.

End OneCall.

(** What the upserts of preferences leave alone. *)
Lemma upsertAll_frame (prefs : list ChannelPreference.t) (s : Store) :
  messages (upsertAll prefs s) = messages s /\
  message_receipts (upsertAll prefs s) = message_receipts s /\
  protocol_performance (upsertAll prefs s) = protocol_performance s.
Proof.
  revert s. induction prefs as [|pref prefs IH]; intros s; [repeat split|].
  rewrite upsertAll_cons. destruct (IH (Sql.exec (preferenceStatement pref) s)) as (-> & -> & ->).
  repeat split.
Qed.

Lemma upsertAll_receipts (prefs : list ChannelPreference.t) (s : Store) :
  message_receipts (upsertAll prefs s) = message_receipts s.
Proof. apply upsertAll_frame. Qed.

(** A first arrival on a working store reaches the handler loop with its
    message, its receipt and its preferences stored, and nothing in the
    trace. *)
Lemma handle_first_loop (env : Env) (message : ChatMessage.t) (protocol : string)
    (server : option string) (w : World) :
  Healthy env ->
  ChatMessage.uuid message ∉ seenMessageUuids w ->
  exists W,
    ChatBroadcaster.handleIncomingMessage env message protocol server w
    = restHandlers env message protocol (messageHandlers w) W /\
    db W
    = upsertAll (preferencesOf env message w)
        (db (firstStored env message protocol server w)) /\
    trace W = trace w /\
    seenMessageUuids W = seenMessageUuids w ∪ {[ChatMessage.uuid message]} /\
    messageHandlers W = messageHandlers w /\
    myMagnetLink W = myMagnetLink w /\
    broadcaster W = broadcaster w /\
    uuids W = uuids w.
Proof.
  intros H Hnew. rewrite (handle_first env H) by exact Hnew.
  destruct (firstStored_frame env message protocol server w)
    as (Ht & Hs & Hh & Hm & Hb & Hu & Hc & _).
  unfold preferencesOf.
  destruct (ChatMessage.ack message) as [a|] eqn:Hack.
  - rewrite (restReceipt_acknowledgment env H message protocol a) by exact Hack.
    eexists. split; [rewrite Hh; reflexivity|].
    match goal with
    | |- context [afterPreferences ?ps ?w0] =>
        destruct (afterPreferences_frame ps w0) as (Hd' & Ht' & Hs' & Hh' & Hm' & Hb' & _ & Hu' & _)
    end.
    rewrite Hd', Ht', Hs', Hh', Hm', Hb', Hu'.
    cbn [db trace seenMessageUuids messageHandlers myMagnetLink broadcaster uuids tickClock].
    rewrite Hc, Ht, Hs, Hh, Hm, Hb, Hu. repeat split.
  - rewrite (restReceipt_message env message protocol) by exact Hack.
    eexists. split; [rewrite Hh; reflexivity|].
    rewrite Ht, Hs, Hh, Hm, Hb, Hu. repeat split.
Qed.

(** A call on a working store, for a uuid that is new or whose message is
    stored: it adds one receipt row, for the transport it was called with,
    and it leaves the message stored and the uuid in the seen set, whether
    it returns or a handler throws. *)
Lemma handle_adds_receipt (env : Env) (message : ChatMessage.t) (protocol : string)
    (server : option string) (w : World) :
  Healthy env ->
  ChatMessage.uuid message ∉ seenMessageUuids w
  \/ stored (ChatMessage.uuid message) (db w) = true ->
  let w' := snd (ChatBroadcaster.handleIncomingMessage env message protocol server w) in
  (exists row,
     message_receipts (db w') = message_receipts (db w) ++ [row] /\
     MessageReceipts.message_uuid row = ChatMessage.uuid message /\
     MessageReceipts.protocol row = protocol /\
     MessageReceipts.server row = Js.orNullStr server) /\
  stored (ChatMessage.uuid message) (db w') = true /\
  ChatMessage.uuid message ∈ seenMessageUuids w'.
Proof.
  intros H Hready w'. unfold w'. clear w'.
  destruct (decide (ChatMessage.uuid message ∈ seenMessageUuids w)) as [Hseen|Hnew].
  - assert (Hs : stored (ChatMessage.uuid message) (db w) = true)
      by (destruct Hready as [Hn|Hs]; [contradiction|exact Hs]).
    rewrite (handle_duplicate env H) by exact Hseen.
    cbn [snd]. unfold executed.
    cbn [db setDb tickExecutes tickClock seenMessageUuids].
    split; [|split; [apply exec_stored; exact Hs|exact Hseen]].
    rewrite receipt_stored by exact Hs. cbn [message_receipts].
    eexists. split; [reflexivity|]. repeat split.
  - destruct (handle_first_loop env message protocol server w H Hnew)
      as (W & Hrun & Hdb & _ & Hseen & _).
    rewrite Hrun.
    pose proof (restHandlers_frame env H message protocol (messageHandlers w) W) as Hf.
    cbv zeta in Hf.
    destruct Hf as (_ & _ & Hs & _ & _ & _ & Hr & _ & _ & Hst & _).
    rewrite Hr, Hs, Hseen, Hdb, upsertAll_receipts.
    assert (Hs1 : stored (ChatMessage.uuid message)
                    (Sql.exec
                       (statementOf env
                          (SaveMessage
                             (ChatBroadcaster.inboundRow (myMagnetLink w) message protocol
                                (dateNow env (clock w)))) w) (db w)) = true)
      by exact (saveMessage_stores env (ChatBroadcaster.inboundRow _ _ _ _) _ _).
    split; [|split].
    + unfold firstStored, executed.
      cbn [db setDb tickExecutes tickClock setSeen].
      rewrite receipt_stored by exact Hs1. cbn [message_receipts].
      eexists. split; [reflexivity|]. repeat split.
    + apply Hst. rewrite Hdb. unfold stored.
      destruct (upsertAll_frame (preferencesOf env message w)
                  (db (firstStored env message protocol server w))) as (-> & _).
      destruct (firstStored_frame env message protocol server w)
        as (_ & _ & _ & _ & _ & _ & _ & _ & _ & Hstored & _).
      exact Hstored.
    + apply elem_of_union_r, elem_of_singleton. reflexivity.
Qed.

(** ** De-duplication of one message *)

(** C6.  The code at a duplicate arrival.  Bob has a handler registered;
    the message u-1 arrives over nostr and then once more over MQTT.  The
    second call stores the second receipt and returns; the trace is the one
    the first call left, so no event of any kind reaches any handler.  The
    class has [onMessage] only: there is no [onReceipt] to register a
    receipt handler with, although the command-line client calls one. *)
Theorem duplicate_arrival_emits_nothing :
  let w1 :=
    snd (ChatBroadcaster.handleIncomingMessage Example.env Example.hello "nostr"
           (Some "wss://relay.damus.io"%string) Example.fresh) in
  let out :=
    ChatBroadcaster.handleIncomingMessage Example.env Example.hello "MQTT"
      (Some "mqtt://broker.hivemq.com:1883"%string) w1 in
  messageHandlers w1 = [0%nat] /\
  "u-1"%string ∈ seenMessageUuids w1 /\
  fst out = Ok tt /\
  receiptRows "u-1" (db w1) = 1%nat /\
  receiptRows "u-1" (db (snd out)) = 2%nat /\
  added w1 (snd out) = [].
Proof.
  intros w1 out.
  split; [reflexivity|]. split.
  - apply (bool_decide_unpack _). vm_compute. exact I.
  - vm_compute. repeat split; reflexivity.
Qed.

(** C10.  De-duplication looks at the uuid only.  A message is handled on
    a working store, its uuid new or its row in the store.  A second arrival
    with the same uuid is then a duplicate whatever its sender, type,
    content or timestamp: the call returns normally, appends one receipt row
    (for that uuid and the transport of the second arrival), and leaves the
    [messages] table, the preferences, the aggregates, the seen set and the
    trace as they were, so nothing of the second message is stored, no
    handler is called and no acknowledgment is broadcast. *)
Theorem dedup_by_uuid_alone (env : Env) (first second : ChatMessage.t)
    (p1 p2 : string) (s1 s2 : option string) (w : World) :
  Healthy env ->
  ChatMessage.uuid first ∉ seenMessageUuids w
  \/ stored (ChatMessage.uuid first) (db w) = true ->
  ChatMessage.uuid second = ChatMessage.uuid first ->
  let w1 := snd (ChatBroadcaster.handleIncomingMessage env first p1 s1 w) in
  let out := ChatBroadcaster.handleIncomingMessage env second p2 s2 w1 in
  fst out = Ok tt /\
  messages (db (snd out)) = messages (db w1) /\
  channel_preferences (db (snd out)) = channel_preferences (db w1) /\
  protocol_performance (db (snd out)) = protocol_performance (db w1) /\
  message_receipts (db (snd out))
  = message_receipts (db w1) ++
    [MessageReceipts.mk (Sql.nextReceiptId (db w1))
       (ChatMessage.uuid second) p2 (Js.orNullStr s2) (dateNow env (clock w1))
       (dateNow env (S (clock w1)) - ChatMessage.timestamp second)] /\
  trace (snd out) = trace w1 /\
  seenMessageUuids (snd out) = seenMessageUuids w1.
Proof.
  intros H Hready Hsame w1 out.
  destruct (handle_adds_receipt env first p1 s1 w H Hready) as (_ & Hstored & Hseen).
  fold w1 in Hstored, Hseen. rewrite <- Hsame in Hstored, Hseen.
  unfold out. rewrite (handle_duplicate env H second p2 s2 w1 Hseen).
  cbn [fst snd]. rewrite receipt_outcome, Hstored.
  unfold executed. cbn [db setDb tickExecutes tickClock trace seenMessageUuids].
  rewrite receipt_stored by exact Hstored.
  repeat split.
Qed.

Lemma dedup_by_uuid_alone_witness :
  let w1 :=
    snd (ChatBroadcaster.handleIncomingMessage Example.env Example.hello "nostr" None
           Example.fresh) in
  let out :=
    ChatBroadcaster.handleIncomingMessage Example.env Example.forged "MQTT" None w1 in
  ChatMessage.content Example.forged <> ChatMessage.content Example.hello /\
  fst out = Ok tt /\
  messages (db (snd out)) = messages (db w1) /\
  trace (snd out) = trace w1.
Proof.
  intros w1 out. split; [discriminate|].
  destruct (dedup_by_uuid_alone Example.env Example.hello Example.forged
              "nostr" "MQTT" None None Example.fresh)
    as (Hok & Hm & _ & _ & _ & Ht & _).
  - intros n. reflexivity.
  - left. apply (bool_decide_unpack _). vm_compute. exact I.
  - reflexivity.
  - split; [exact Hok|]. split; [exact Hm|exact Ht].
Defined.

(** ** The automatic acknowledgment *)

Lemma countIf_filter {A} (p : A -> bool) (l : list A) :
  countIf p l = length (List.filter p l).
Proof.
  induction l as [|x l IH]; simpl; [reflexivity|].
  destruct (p x); simpl; rewrite IH; reflexivity.
Qed.

Lemma filter_handlerCalls (p : Event -> bool) (message : ChatMessage.t)
    (protocol : string) (handlers : list nat) :
  (forall h, p (HandlerCalled h message protocol) = false) ->
  List.filter p (handlerCalls message protocol handlers) = [].
Proof.
  intros Hp. induction handlers as [|h handlers IH]; simpl; [reflexivity|].
  rewrite Hp. exact IH.
Qed.

Lemma filter_handlerCalls_in (message : ChatMessage.t) (protocol : string)
    (handlers : list nat) :
  List.filter isHandlerCall (handlerCalls message protocol handlers)
  = handlerCalls message protocol handlers.
Proof.
  induction handlers as [|h handlers IH]; simpl; [reflexivity|].
  rewrite IH. reflexivity.
Qed.

Lemma filter_driverSends_out (p : Event -> bool) (recipient : Identity)
    (message : string) (drivers : list Driver) :
  (forall d, p (DriverSend d recipient message) = false) ->
  List.filter p (driverSends recipient message drivers) = [].
Proof.
  intros Hp. induction drivers as [|d drivers IH]; simpl; [reflexivity|].
  rewrite Hp. exact IH.
Qed.

Lemma filter_driverSends_in (recipient : Identity) (message : string)
    (drivers : list Driver) :
  List.filter isDriverSend (driverSends recipient message drivers)
  = driverSends recipient message drivers.
Proof.
  induction drivers as [|d drivers IH]; simpl; [reflexivity|].
  rewrite IH. reflexivity.
Qed.

Lemma added_app (w w' : World) (es : list Event) :
  trace w' = trace w ++ es -> added w w' = es.
Proof. intros H. unfold added. rewrite H. apply drop_app_length. Qed.

(** The events of the guarded broadcast, sorted by kind. *)
Lemma ackEvents_kinds (env : Env) (b : Broadcaster) (recipientMagnetLink serialized : string) :
  List.filter isBroadcastCall (ackEvents env b recipientMagnetLink serialized)
  = [BroadcastCalled recipientMagnetLink serialized] /\
  List.filter isHandlerCall (ackEvents env b recipientMagnetLink serialized) = [] /\
  List.filter isDriverSend (ackEvents env b recipientMagnetLink serialized)
  = match decodeIdentity env recipientMagnetLink with
    | Some recipient =>
        map (fun d => DriverSend d recipient serialized) (List.filter (ready b) transports)
    | None => []
    end.
Proof.
  unfold ackEvents. simpl. rewrite activeDrivers_ready.
  destruct (decodeIdentity env recipientMagnetLink) as [recipient|].
  - rewrite !filter_driverSends_out by reflexivity. rewrite filter_driverSends_in.
    repeat split.
  - repeat split.
Qed.

(** C2, as the code has it.  On a working store, a call of
    [handleIncomingMessage] issues an acknowledgment (calls [broadcast])
    exactly once if the uuid was not seen before, the message is not an
    acknowledgment and every registered handler returned, and not at all
    otherwise; in particular an acknowledgment is never acknowledged, and a
    handler that throws makes the call reject with its error after the
    handlers up to it were called, with no acknowledgment.  A first arrival
    settles as the handler loop does, with its message and receipt stored.
    The acknowledgment has [ackOfUuid] = the uuid of the message and
    [receivedVia] = the transport of arrival, it goes to the sender of the
    message, and one send is started on each of XMTP, Nostr, Waku, MQTT and
    IROH that is enabled and has its client set up, in this order, whatever
    the transport of arrival.  When the sender's magnet link does not
    decode, the failure of [broadcast] is caught: no driver is asked, the
    error is logged last, and the call still returns normally. *)
Theorem auto_acknowledgment (env : Env) (message : ChatMessage.t) (protocol : string)
    (server : option string) (w : World) :
  Healthy env ->
  let out := ChatBroadcaster.handleIncomingMessage env message protocol server w in
  let events := added w (snd out) in
  let firstSeen := negb (bool_decide (ChatMessage.uuid message ∈ seenMessageUuids w)) in
  let ran :=
    handlersRun env message protocol (length (trace w)) (messageHandlers w) in
  let due := firstSeen && negb (isAcknowledgment message) && returned (snd ran) in
  countIf isBroadcastCall events = (if due then 1 else 0)%nat /\
  (firstSeen = true ->
   fst out = snd ran /\
   List.filter isHandlerCall events = handlerCalls message protocol (fst ran) /\
   (1 <= messageRows (ChatMessage.uuid message) (db (snd out)))%nat /\
   receiptRows (ChatMessage.uuid message) (db (snd out))
   = S (receiptRows (ChatMessage.uuid message) (db w))) /\
  (due = true ->
   exists ack,
     ChatMessage.ack ack
     = Some (AckFields.mk (ChatMessage.uuid message) protocol
               (Some (ChatBroadcaster.myPreferences env))) /\
     ChatMessage.fromMagnetLink ack = myMagnetLink w /\
     List.filter isBroadcastCall events
     = [BroadcastCalled (ChatMessage.fromMagnetLink message) (serializeMessage env ack)] /\
     match decodeIdentity env (ChatMessage.fromMagnetLink message) with
     | Some recipient =>
         List.filter isDriverSend events
         = map (fun d => DriverSend d recipient (serializeMessage env ack))
             (List.filter (ready (broadcaster w)) transports)
     | None =>
         List.filter isDriverSend events = [] /\
         last events = Some (ConsoleError "Failed to send acknowledgment:")
     end).
Proof.
  intros H out events firstSeen ran due. unfold events, out, due, firstSeen.
  destruct (decide (ChatMessage.uuid message ∈ seenMessageUuids w)) as [Hseen|Hnew].
  - rewrite bool_decide_eq_true_2 by exact Hseen.
    rewrite (handle_duplicate env H message protocol server w Hseen).
    cbn [fst snd negb andb].
    split; [|split; discriminate].
    rewrite (added_app _ _ []); [reflexivity|]. simpl. rewrite app_nil_r. reflexivity.
  - rewrite bool_decide_eq_false_2 by exact Hnew. cbn [negb andb].
    destruct (handle_first_loop env message protocol server w H Hnew)
      as (W & Hrun & Hdb & Ht & Hs & Hh & Hm & Hb & Hu).
    rewrite Hrun.
    destruct (restHandlers_frame env H message protocol (messageHandlers w) W)
      as (Hres & Htr & _ & _ & _ & _ & Hrec & _ & _ & Hst & Hrows & _).
    rewrite Ht in Hres, Htr. fold ran in Hres, Htr. rewrite Hb in Htr.
    set (ack := ackBuilt env message protocol
                  (emitAll (handlerCalls message protocol (messageHandlers w)) W)) in *.
    destruct (ackEvents_kinds env (broadcaster w) (ChatMessage.fromMagnetLink message)
                (serializeMessage env ack)) as (Kb & Kh & Kd).
    rewrite (added_app _ _ _ Htr).
    destruct (firstStored_frame env message protocol server w)
      as (_ & _ & _ & _ & _ & _ & _ & _ & _ & Hstored & Hone & Hreceipts).
    destruct (upsertAll_frame (preferencesOf env message w)
                (db (firstStored env message protocol server w))) as (Hm1 & Hr1 & _).
    split; [|split].
    + rewrite countIf_filter, !List.filter_app, filter_handlerCalls by reflexivity.
      destruct (negb (isAcknowledgment message) && returned (snd ran));
        [rewrite Kb|]; reflexivity.
    + intros _. split; [exact Hres|]. split; [|split].
      * rewrite !List.filter_app, filter_handlerCalls_in.
        destruct (negb (isAcknowledgment message) && returned (snd ran));
          [rewrite Kh|]; rewrite app_nil_r; reflexivity.
      * etransitivity; [|apply Hrows]. unfold messageRows. rewrite Hdb, Hm1. exact Hone.
      * unfold receiptRows. rewrite Hrec, Hdb, Hr1. exact Hreceipts.
    + intros Hdue. rewrite Hdue. exists ack.
      split; [reflexivity|]. split; [unfold ack; cbn [ackBuilt ChatMessage.fromMagnetLink emitAll myMagnetLink]; exact Hm|].
      split; [rewrite !List.filter_app, filter_handlerCalls, Kb by reflexivity; reflexivity|].
      rewrite !List.filter_app, filter_handlerCalls, Kd by reflexivity.
      destruct (decodeIdentity env (ChatMessage.fromMagnetLink message)) eqn:Hd;
        [reflexivity|].
      split; [reflexivity|].
      rewrite last_app. unfold ackEvents. rewrite Hd. reflexivity.
Qed.

(** Alice's message reaches Bob over nostr; all five transports of Bob can
    be used.  One acknowledgment is issued, and it is sent over XMTP,
    Nostr, Waku, MQTT and IROH. *)
Lemma auto_acknowledgment_witness :
  let out :=
    ChatBroadcaster.handleIncomingMessage Example.env Example.hello "nostr" None
      Example.fresh in
  let events := added Example.fresh (snd out) in
  let recipient := mkIdentity "04aa" "bb" "0xcc" in
  countIf isBroadcastCall events = 1%nat /\
  exists ack,
    ChatMessage.ack ack
    = Some (AckFields.mk "u-1" "nostr" (Some (ChatBroadcaster.myPreferences Example.env))) /\
    List.filter isDriverSend events
    = [DriverSend XMTP recipient (serializeMessage Example.env ack);
       DriverSend Nostr recipient (serializeMessage Example.env ack);
       DriverSend Waku recipient (serializeMessage Example.env ack);
       DriverSend MQTT recipient (serializeMessage Example.env ack);
       DriverSend IROH recipient (serializeMessage Example.env ack)].
Proof.
  intros out events recipient.
  destruct (auto_acknowledgment Example.env Example.hello "nostr" None Example.fresh)
    as (Hcount & _ & Hdue).
  - intros n. reflexivity.
  - split; [exact Hcount|].
    destruct Hdue as (ack & Hack & _ & _ & Hsends); [reflexivity|].
    exists ack. split; [exact Hack|exact Hsends].
Defined.

(** C2, as stated, fails: Bob's handler throws.  Alice's message is not an
    acknowledgment and its uuid was never seen, yet the call rejects with
    the handler's error and no acknowledgment is issued. *)
Lemma throwing_handler_prevents_acknowledgment :
  let out :=
    ChatBroadcaster.handleIncomingMessage Example.throwing Example.hello "nostr" None
      Example.fresh in
  isAcknowledgment Example.hello = false /\
  ("u-1"%string ∉ seenMessageUuids Example.fresh) /\
  messageRows "u-1" (db (snd out)) = 1%nat /\
  fst out = Throw (Js.Error None "handler failed") /\
  countIf isBroadcastCall (added Example.fresh (snd out)) = 0%nat.
Proof.
  intros out. split; [reflexivity|]. split.
  - apply (bool_decide_unpack _). vm_compute. exact I.
  - vm_compute. repeat split; reflexivity.
Qed.

(** ** What an acknowledgment teaches *)

Lemma upsertAll_other (key : string * string) (prefs : list ChannelPreference.t) :
  Forall (fun pref =>
            (ChannelPreference.identity pref, ChannelPreference.protocol pref) <> key) prefs ->
  forall s,
    channel_preferences (upsertAll prefs s) !! key = channel_preferences s !! key.
Proof.
  induction 1 as [|pref prefs Hne Hall IH]; intros s; [reflexivity|].
  rewrite upsertAll_cons, IH. simpl. apply lookup_insert_ne. exact Hne.
Qed.

Lemma upsertAll_snoc (prefs : list ChannelPreference.t) (pref : ChannelPreference.t)
    (s : Store) :
  upsertAll (prefs ++ [pref]) s = Sql.exec (preferenceStatement pref) (upsertAll prefs s).
Proof. unfold upsertAll. rewrite fold_left_app. reflexivity. Qed.

(** One upsert: the row of its key holds what it binds. *)
Lemma upsert_holds (pref : ChannelPreference.t) (s : Store) :
  exists row,
    channel_preferences (Sql.exec (preferenceStatement pref) s)
      !! (ChannelPreference.identity pref, ChannelPreference.protocol pref) = Some row /\
    holds pref row.
Proof.
  simpl. rewrite lookup_insert_eq. eexists. split; [reflexivity|].
  unfold holds, Sql.upsertChannelPreference.
  destruct (channel_preferences s !! _) as [old|]; simpl; repeat split;
    try (intros order ->; reflexivity); auto.
Qed.

(** Upserts in a row: the row of a key holds what the last upsert for this
    key binds, and a key without an upsert keeps its row. *)
Lemma upsertAll_last (key : string * string) (prefs : list ChannelPreference.t) (s : Store) :
  match lastUpsert key prefs with
  | Some pref =>
      exists row, channel_preferences (upsertAll prefs s) !! key = Some row /\ holds pref row
  | None => channel_preferences (upsertAll prefs s) !! key = channel_preferences s !! key
  end.
Proof.
  induction prefs as [|pref prefs IH] using rev_ind; [reflexivity|].
  unfold lastUpsert in *. rewrite List.filter_app, upsertAll_snoc. cbn [List.filter].
  destruct (bool_decide_reflect
              ((ChannelPreference.identity pref, ChannelPreference.protocol pref) = key))
    as [Heq|Hne].
  - rewrite last_snoc. subst key. apply upsert_holds.
  - rewrite app_nil_r.
    assert (Hsame : channel_preferences
                      (Sql.exec (preferenceStatement pref) (upsertAll prefs s)) !! key
                    = channel_preferences (upsertAll prefs s) !! key)
      by (simpl; apply lookup_insert_ne; exact Hne).
    rewrite Hsame. exact IH.
Qed.

Lemma last_cons_nonempty {A} (x : A) (l : list A) : l <> [] -> last (x :: l) = last l.
Proof. destruct l; [congruence|reflexivity]. Qed.

Lemma last_None_nil {A} (l : list A) : last l = None -> l = [].
Proof.
  destruct l as [|x l] using rev_ind; [reflexivity|]. rewrite last_snoc. discriminate.
Qed.

(** The upserts of an acknowledgment seen for a key of its sender: the
    stated preference that comes last for the protocol, if there is one. *)
Lemma filter_stated (message : ChatMessage.t) (p : string)
    (infos : list ChannelPreferenceInfo.t) :
  List.filter
    (fun pref =>
       bool_decide
         ((ChannelPreference.identity pref, ChannelPreference.protocol pref)
          = (ChatMessage.fromMagnetLink message, p)))
    (map (ChatBroadcaster.statedPreference message) infos)
  = map (ChatBroadcaster.statedPreference message)
      (List.filter (fun info => bool_decide (ChannelPreferenceInfo.protocol info = p)) infos).
Proof.
  induction infos as [|info infos IH]; [reflexivity|]. cbn [map List.filter].
  cbn [ChatBroadcaster.statedPreference ChannelPreference.identity ChannelPreference.protocol].
  destruct (bool_decide_reflect (ChannelPreferenceInfo.protocol info = p)) as [->|Hne].
  - rewrite bool_decide_eq_true_2 by reflexivity. cbn [map]. rewrite IH. reflexivity.
  - rewrite bool_decide_eq_false_2 by congruence. exact IH.
Qed.

Lemma last_map {A B} (f : A -> B) (l : list A) : last (map f l) = option_map f (last l).
Proof.
  destruct l as [|x l] using rev_ind; [reflexivity|].
  rewrite map_app. simpl. rewrite !last_snoc. reflexivity.
Qed.

(** C3, as the code has it.  For a first-seen acknowledgment on a working
    store, whatever transport it arrives on and whatever the handlers do,
    the table of preferences ends up as follows.  A protocol that the
    acknowledgment's [channelPreferences] name holds the peer's statement,
    from the entry that comes last for it: is_working = not cannotUse,
    last_ack_at and avg_latency_ms NULL, cannot_use as stated, and the
    stated order (when it is not 0); this includes the protocol
    [ackMessage.receivedVia] when it is named, as it is in every
    acknowledgment that [sendAcknowledgment] builds, so that what was
    learned is overwritten.  Otherwise the row of (sender, receivedVia),
    the transport named inside the acknowledgment, holds what was learned:
    is_working = 1, last_ack_at = now, avg_latency_ms = now - timestamp,
    cannot_use = 0 (the two clock values not being 0), with the order it
    had.  Every other row is as it was: the transport of arrival plays no
    part. *)
Theorem learned_preference_keyed_by_receivedVia (env : Env) (message : ChatMessage.t)
    (protocol : string) (server : option string) (a : AckFields.t) (w : World) :
  Healthy env ->
  ChatMessage.uuid message ∉ seenMessageUuids w ->
  ChatMessage.ack message = Some a ->
  let sender := ChatMessage.fromMagnetLink message in
  let lastAckAt := dateNow env (3 + clock w) in
  let latency := dateNow env (4 + clock w) - ChatMessage.timestamp message in
  let before := channel_preferences (db w) in
  let after :=
    channel_preferences
      (db (snd (ChatBroadcaster.handleIncomingMessage env message protocol server w))) in
  (forall p,
     match lastStated p (ChatBroadcaster.statedPreferences a) with
     | Some info =>
         exists row,
           after !! (sender, p) = Some row /\
           ChannelPreferences.is_working row
           = Js.toInt (negb (ChannelPreferenceInfo.cannotUse info)) /\
           ChannelPreferences.last_ack_at row = None /\
           ChannelPreferences.avg_latency_ms row = None /\
           ChannelPreferences.cannot_use row
           = Js.toInt (ChannelPreferenceInfo.cannotUse info) /\
           (ChannelPreferenceInfo.preferenceOrder info <> 0 ->
            ChannelPreferences.preference_order row
            = Some (ChannelPreferenceInfo.preferenceOrder info))
     | None =>
         if bool_decide (p = AckFields.receivedVia a) then
           lastAckAt <> 0 -> latency <> 0 ->
           exists row,
             after !! (sender, p) = Some row /\
             ChannelPreferences.is_working row = 1 /\
             ChannelPreferences.last_ack_at row = Some lastAckAt /\
             ChannelPreferences.avg_latency_ms row = Some latency /\
             ChannelPreferences.cannot_use row = 0 /\
             ChannelPreferences.preference_order row
             = match before !! (sender, p) with
               | Some old => ChannelPreferences.preference_order old
               | None => None
               end
         else after !! (sender, p) = before !! (sender, p)
     end) /\
  (forall identity p,
     identity <> sender -> after !! (identity, p) = before !! (identity, p)).
Proof.
  intros H Hnew Hack sender lastAckAt latency before after.
  destruct (handle_first_loop env message protocol server w H Hnew)
    as (W & Hrun & Hdb & _).
  destruct (restHandlers_frame env H message protocol (messageHandlers w) W)
    as (_ & _ & _ & _ & _ & _ & _ & Hprefs & _).
  assert (Hafter : after
                   = channel_preferences
                       (upsertAll (preferencesOf env message w)
                          (db (firstStored env message protocol server w)))).
  { unfold after. rewrite Hrun, Hprefs, Hdb. reflexivity. }
  destruct (firstStored_frame env message protocol server w)
    as (_ & _ & _ & _ & _ & _ & _ & Hstart & _).
  set (s0 := db (firstStored env message protocol server w)) in *.
  unfold preferencesOf in Hafter. rewrite Hack in Hafter.
  fold sender lastAckAt latency in Hafter.
  set (learned := ChannelPreference.mk sender (AckFields.receivedVia a) true
                    (Some lastAckAt) (Some latency) None false) in *.
  set (stated := map (ChatBroadcaster.statedPreference message)
                   (ChatBroadcaster.statedPreferences a)) in *.
  rewrite Hafter. split.
  - intros p.
    pose proof (filter_stated message p (ChatBroadcaster.statedPreferences a)) as Hfilter.
    fold sender stated in Hfilter.
    unfold lastStated.
    destruct (last (List.filter _ (ChatBroadcaster.statedPreferences a))) as [info|] eqn:Hlast.
    + pose proof (upsertAll_last (sender, p) (learned :: stated) s0) as Hl.
      assert (Hupsert : lastUpsert (sender, p) (learned :: stated)
                        = Some (ChatBroadcaster.statedPreference message info)).
      { unfold lastUpsert. cbn [List.filter].
        assert (Hstated : last (List.filter
                                  (fun pref =>
                                     bool_decide
                                       ((ChannelPreference.identity pref,
                                         ChannelPreference.protocol pref) = (sender, p)))
                                  stated)
                          = Some (ChatBroadcaster.statedPreference message info))
          by (rewrite Hfilter, last_map, Hlast; reflexivity).
        destruct (bool_decide _); [|exact Hstated].
        rewrite last_cons_nonempty; [exact Hstated|].
        intros Hnil. rewrite Hnil in Hstated. discriminate. }
      rewrite Hupsert in Hl. destruct Hl as (row & Hrow & Hw & Hl1 & Hl2 & Hc & Ho).
      exists row. split; [exact Hrow|]. split; [exact Hw|]. split; [exact Hl1|].
      split; [exact Hl2|]. split; [exact Hc|].
      intros Hnz. apply Ho. simpl.
      destruct (ChannelPreferenceInfo.preferenceOrder info); [congruence|reflexivity..].
    + apply last_None_nil in Hlast.
      assert (Hnone : Forall (fun pref =>
                                (ChannelPreference.identity pref, ChannelPreference.protocol pref)
                                <> (sender, p)) stated).
      { apply Forall_forall. intros pref Hin Hkey.
        assert (Hin' : pref ∈ List.filter
                         (fun pref =>
                            bool_decide
                              ((ChannelPreference.identity pref,
                                ChannelPreference.protocol pref) = (sender, p))) stated).
        { apply list_elem_of_In, filter_In. split; [apply list_elem_of_In, Hin|].
          apply bool_decide_eq_true_2, Hkey. }
        rewrite Hfilter, Hlast in Hin'. inversion Hin'. }
      rewrite upsertAll_cons, (upsertAll_other _ _ Hnone).
      destruct (bool_decide_reflect (p = AckFields.receivedVia a)) as [->|Hne].
      * intros Hnz1 Hnz2. simpl. rewrite lookup_insert_eq, Hstart. fold before.
        eexists. split; [reflexivity|].
        destruct lastAckAt; [congruence| |]; destruct latency; try congruence;
          (destruct (before !! (sender, AckFields.receivedVia a)); repeat split).
      * simpl. rewrite lookup_insert_ne by congruence. rewrite Hstart. reflexivity.
  - intros identity p Hne.
    rewrite upsertAll_other; [rewrite Hstart; reflexivity|].
    constructor.
    + unfold learned. cbn [ChannelPreference.identity ChannelPreference.protocol].
      intros [= Hi _]. apply Hne. symmetry. exact Hi.
    + apply Forall_map, Forall_forall. intros info _.
      cbn [ChatBroadcaster.statedPreference ChannelPreference.identity
           ChannelPreference.protocol].
      intros [= Hi _]. apply Hne. symmetry. exact Hi.
Qed.

(** Alice's acknowledgment, built as [sendAcknowledgment] builds it with
    [receivedVia] = nostr and the five transports listed, reaches Bob over
    MQTT: the row of (Alice, nostr) holds her statement, and the latency
    that was learned for it is gone. *)
Lemma learned_preference_keyed_by_receivedVia_witness :
  let after :=
    channel_preferences
      (db (snd (ChatBroadcaster.handleIncomingMessage Example.env Example.ackAsSent
                  "MQTT" None Example.fresh))) in
  exists row,
    after !! (Example.alice, "nostr"%string) = Some row /\
    ChannelPreferences.is_working row = 1 /\
    ChannelPreferences.last_ack_at row = None /\
    ChannelPreferences.avg_latency_ms row = None /\
    ChannelPreferences.cannot_use row = 0 /\
    ChannelPreferences.preference_order row = Some 1.
Proof.
  intros after.
  destruct (learned_preference_keyed_by_receivedVia Example.env Example.ackAsSent
              "MQTT" None
              (AckFields.mk "u-0" "nostr" (Some (ChatBroadcaster.myPreferences Example.env)))
              Example.fresh) as (Hrows & _).
  - intros n. reflexivity.
  - apply (bool_decide_unpack _). vm_compute. exact I.
  - reflexivity.
  - destruct (Hrows "nostr"%string) as (row & Hrow & Hw & Hl & Ha & Hc & Ho).
    exists row. split; [exact Hrow|]. split; [exact Hw|]. split; [exact Hl|].
    split; [exact Ha|]. split; [exact Hc|]. apply Ho. discriminate.
Defined.

(** C3, as stated, fails: an acknowledgment that says [receivedVia = nostr]
    arrives over MQTT.  No row for (Alice, MQTT) exists afterwards; the row
    that was written is the one for (Alice, nostr). *)
Lemma learned_preference_not_keyed_by_arrival :
  let after :=
    db (snd (ChatBroadcaster.handleIncomingMessage Example.env Example.ackFromAlice
               "MQTT" None Example.fresh)) in
  channel_preferences after !! (Example.alice, "MQTT"%string) = None /\
  channel_preferences after !! (Example.alice, "nostr"%string)
  = Some (ChannelPreferences.mk 1 1 (Some 1003) (Some 14) None 0).
Proof. vm_compute. split; reflexivity. Qed.

(** ** Sending to a recipient that does not decode *)

(** C4, as the code has it.  With a working store and a recipient magnet
    link that [decodeIdentity] rejects, [sendMessage] throws the single error
    'Invalid recipient magnet link'; its only event is the call of
    [broadcast], so no driver send was attempted; receipts, preferences and
    aggregates are unchanged; and the [messages] table has been through the
    INSERT OR IGNORE of the outgoing message, which [sendMessage] stores
    before [broadcast] decodes the recipient.  [broadcast] itself leaves the
    store alone. *)
Theorem sendMessage_invalid_recipient (env : Env) (recipientMagnetLink content : string)
    (w : World) :
  Healthy env ->
  decodeIdentity env recipientMagnetLink = None ->
  let out := ChatBroadcaster.sendMessage env recipientMagnetLink content w in
  let outgoing :=
    Message.mk (randomUUID env (uuids w)) (myMagnetLink w) recipientMagnetLink content
      (dateNow env (clock w)) false None None in
  fst out = Throw (Js.Error None "Invalid recipient magnet link") /\
  List.filter isDriverSend (added w (snd out)) = [] /\
  countIf isBroadcastCall (added w (snd out)) = 1%nat /\
  db (snd out) = Sql.exec (statementOf env (SaveMessage outgoing) w) (db w) /\
  message_receipts (db (snd out)) = message_receipts (db w) /\
  channel_preferences (db (snd out)) = channel_preferences (db w) /\
  protocol_performance (db (snd out)) = protocol_performance (db w) /\
  (forall message w0,
     db (snd (BroadcasterImpl.broadcast env recipientMagnetLink message w0)) = db w0).
Proof.
  intros H Hd out outgoing. unfold out, ChatBroadcaster.sendMessage.
  run. rewrite saveMessage_healthy by exact H. run.
  rewrite broadcast_invalid by exact Hd.
  cbn [fst snd]. split; [reflexivity|].
  rewrite (added_app w _ [BroadcastCalled recipientMagnetLink
                            (serializeMessage env
                               (ChatMessage.mk (randomUUID env (uuids w)) content
                                  (dateNow env (clock w)) (myMagnetLink w) None))])
    by reflexivity.
  repeat split.
  intros message w0. rewrite broadcast_invalid by exact Hd. reflexivity.
Qed.

Lemma sendMessage_invalid_recipient_witness :
  fst (ChatBroadcaster.sendMessage Example.env Example.broken "hi" Example.fresh)
  = Throw (Js.Error None "Invalid recipient magnet link") /\
  List.filter isDriverSend
    (added Example.fresh
       (snd (ChatBroadcaster.sendMessage Example.env Example.broken "hi" Example.fresh)))
  = [].
Proof.
  destruct (sendMessage_invalid_recipient Example.env Example.broken "hi" Example.fresh)
    as (Hthrow & Hsends & _).
  - intros n. reflexivity.
  - vm_compute. reflexivity.
  - split; [exact Hthrow|exact Hsends].
Defined.

(** C4, as stated, fails: the recipient of scenario S4 has no [ed25519pub].
    [sendMessage] throws and asks no driver, but the store is not what it
    was: it holds a row for the message that could not be sent. *)
Lemma sendMessage_invalid_recipient_touches_store :
  let out := ChatBroadcaster.sendMessage Example.env Example.broken "hi" Example.fresh in
  decodeIdentity Example.env Example.broken = None /\
  fst out = Throw (Js.Error None "Invalid recipient magnet link") /\
  messages (db Example.fresh) = [] /\
  messages (db (snd out))
  = [Messages.mk 1 "uuid-0" Example.bob Example.broken "hi" 1000 0 None None] /\
  db (snd out) <> db Example.fresh.
Proof.
  intros out.
  assert (Hrows : messages (db (snd out))
                  = [Messages.mk 1 "uuid-0" Example.bob Example.broken "hi" 1000 0 None None])
    by (vm_compute; reflexivity).
  split; [vm_compute; reflexivity|]. split; [vm_compute; reflexivity|].
  split; [reflexivity|]. split; [exact Hrows|].
  intros Heq. rewrite Heq in Hrows. discriminate.
Qed.

(** ** Interleaved calls of [handleIncomingMessage] *)

Lemma resumesLeft_zero (n : nat) (t : Multiplexer.Task) :
  resumesLeft n t = 0%nat -> Multiplexer.settled t = true.
Proof.
  destruct t; simpl; try lia; try reflexivity;
    destruct (ChatMessage.ack message); lia.
Qed.

(** C1.  The code under an interleaving.  Three copies of the message u-1
    arrive over nostr, MQTT and IROH.  The call for the MQTT copy is resumed
    while the call for the nostr copy still waits for its [saveMessage]:
    u-1 is in the seen set by then, so the MQTT copy is taken for a
    duplicate and its receipt is inserted at once; the message is not
    stored yet, the foreign key of [message_receipts] refuses the INSERT,
    and the call rejects.  When all three calls have settled the store
    holds one message row for u-1 and two receipts, those of nostr and
    IROH, not three: the delivery over MQTT has left nothing. *)
Theorem interleaved_duplicate_loses_receipt :
  let final := Multiplexer.run Example.env Example.interleaved (Example.fresh, []) in
  countIf Multiplexer.isArrival Example.interleaved = 3%nat /\
  Forall (Multiplexer.carries "u-1") Example.interleaved /\
  snd final
  = [Multiplexer.Settled (Ok tt);
     Multiplexer.Settled (Throw Sql.foreignKeyError);
     Multiplexer.Settled (Ok tt)] /\
  messageRows "u-1" (db (fst final)) = 1%nat /\
  receiptRows "u-1" (db (fst final)) = 2%nat /\
  map MessageReceipts.protocol (message_receipts (db (fst final)))
  = ["nostr"%string; "IROH"%string].
Proof.
  intros final. split; [reflexivity|]. split; [repeat constructor|].
  vm_compute. repeat split; reflexivity.
Qed.

(** ** A call left alone computes the method *)

Section Alone.
Context (env : Env).

Lemma retryLoop_handlers (stmt : Sql.Statement) (maxRetries : nat) (delayMs : Z) :
  forall (remaining i : nat) (lastError : Js.Exn) (w : World),
    messageHandlers
      (snd (ChatDatabase.retryLoop env (ChatDatabase.execute env stmt)
              maxRetries delayMs remaining i lastError w))
    = messageHandlers w.
Proof.
  induction remaining as [|remaining IH]; intros i lastError w; [reflexivity|].
  cbn [ChatDatabase.retryLoop]. unfold tryCatch, ChatDatabase.execute.
  destruct (sqliteFault env (executes w)) as [e|].
  - destruct (ChatDatabase.isBusy e && _); [|reflexivity].
    run. unfold random, sleep, modify. rewrite IH. reflexivity.
  - unfold Sql.outcome.
    destruct (Sql.violation stmt (db w)) as [e|] eqn:Hv; [|reflexivity].
    rewrite (violation_not_busy _ _ _ Hv). reflexivity.
Qed.

Lemma mutate_handlers (mu : Mutation) (w : World) :
  messageHandlers (snd (mutate env mu w)) = messageHandlers w.
Proof.
  rewrite mutate_unfold, retryLoop_handlers. destruct mu; reflexivity.
Qed.

Lemma drain_settled (fuel : nat) (r : Result unit) (w : World) :
  Multiplexer.drain env fuel (Multiplexer.Settled r) w = (Multiplexer.Settled r, w).
Proof. destruct fuel; reflexivity. Qed.

(** The method is its first segment followed by the rest. *)
Lemma handle_as_rest (message : ChatMessage.t) (protocol : string)
    (server : option string) (w : World) :
  ChatBroadcaster.handleIncomingMessage env message protocol server w
  = rest env (fst (Multiplexer.start env message protocol server w))
      (snd (Multiplexer.start env message protocol server w)).
Proof.
  unfold Multiplexer.start, Multiplexer.arrive. run.
  destruct (bool_decide (ChatMessage.uuid message ∈ seenMessageUuids w)); run;
    cbn [Multiplexer.settleThrow fst snd rest]; [reflexivity|].
  run.
  match goal with
  | |- context [ChatDatabase.saveMessage env ?row ?w0] =>
      destruct (ChatDatabase.saveMessage env row w0) as [[[]|e] w1]; [|reflexivity]
  end.
  match goal with
  | |- context [ChatDatabase.saveMessageReceipt env ?r ?w0] =>
      destruct (ChatDatabase.saveMessageReceipt env r w0) as [[[]|e] w2]; [|reflexivity]
  end.
  unfold restReceipt, restPreferences, restHandlers, restAck.
  destruct (ChatMessage.ack message) as [a|]; run.
  - match goal with
    | |- context [ChatDatabase.updateChannelPreference env ?x ?w0] =>
        destruct (ChatDatabase.updateChannelPreference env x w0) as [[[]|e] w3];
          [|reflexivity]
    end.
    match goal with
    | |- context [forEach ?xs ?body ?w0] =>
        destruct (forEach xs body w0) as [[[]|e] w4]; [|reflexivity]
    end.
    reflexivity.
  - reflexivity.
Qed.

(** Call a method of the database: either it throws, and the call settles
    as rejected, or it returns and the handlers are the same as before. *)
Ltac db_call mu :=
  let Hh := fresh "Hh" in
  pose proof (mutate_handlers mu) as Hh; cbn [mutate] in Hh;
  match goal with
  | |- context [ChatDatabase.saveMessage env ?x ?w0] =>
      specialize (Hh w0); destruct (ChatDatabase.saveMessage env x w0) as [[[]|?] ?]
  | |- context [ChatDatabase.saveMessageReceipt env ?x ?w0] =>
      specialize (Hh w0); destruct (ChatDatabase.saveMessageReceipt env x w0) as [[[]|?] ?]
  | |- context [ChatDatabase.updateChannelPreference env ?x ?w0] =>
      specialize (Hh w0); destruct (ChatDatabase.updateChannelPreference env x w0) as [[[]|?] ?]
  end;
  cbn [Multiplexer.settleThrow fst snd] in *;
  [|rewrite ?drain_settled; reflexivity].

Lemma drain_rest (fuel : nat) :
  forall (t : Multiplexer.Task) (w : World),
    (resumesLeft (length (messageHandlers w)) t <= fuel)%nat ->
    Multiplexer.drain env fuel t w
    = (Multiplexer.Settled (fst (rest env t w)), snd (rest env t w)).
Proof.
  induction fuel as [|fuel IH]; intros t w Hle.
  - assert (Hs : Multiplexer.settled t = true)
      by (apply (resumesLeft_zero (length (messageHandlers w))); lia).
    destruct t; try discriminate. reflexivity.
  - destruct t as [receipt|m p srv row|m p receipt|m p a learned|m p pref prefs|m p h hs
                  |m row serialized|recipient serialized|r];
      cbn [Multiplexer.drain]; unfold Multiplexer.resume;
      cbn [Multiplexer.continue rest].
    + (* duplicate receipt *)
      run. db_call (SaveMessageReceipt receipt).
      rewrite drain_settled. reflexivity.
    + (* message row *)
      run. db_call (SaveMessage row).
      rewrite IH; [reflexivity|].
      cbn [messageHandlers tickClock resumesLeft] in *. rewrite Hh.
      destruct (ChatMessage.ack m); lia.
    + (* first receipt *)
      run. db_call (SaveMessageReceipt receipt).
      unfold Multiplexer.afterReceipt, restReceipt.
      cbn [resumesLeft] in Hle.
      destruct (ChatMessage.ack m) as [a|] eqn:Hack; run.
      * cbn [Multiplexer.settleThrow fst snd].
        rewrite IH; [reflexivity|].
        cbn [messageHandlers tickClock resumesLeft]. rewrite Hh.
        unfold ackDue, isAcknowledgment. rewrite Hack. lia.
      * destruct (messageHandlers w0) as [|h hs] eqn:Hhs;
          cbn [Multiplexer.toHandlers]; unfold restHandlers; cbn [forEach]; run.
        -- unfold Multiplexer.toAcknowledgment, restAck, isAcknowledgment. rewrite Hack.
           cbn [negb]. run. cbn [Multiplexer.settleThrow fst snd].
           rewrite IH; [reflexivity|]. cbn [resumesLeft]. lia.
        -- cbn [Multiplexer.settleThrow fst snd].
           rewrite IH; [reflexivity|].
           cbn [resumesLeft]. rewrite <- Hh in Hle. cbn [length] in Hle.
           unfold ackDue, isAcknowledgment. rewrite Hack. lia.
    + (* learned preference *)
      run. db_call (UpdateChannelPreference learned).
      cbn [resumesLeft] in Hle. unfold restPreferences.
      destruct (ChatBroadcaster.statedPreferences a) as [|pref prefs];
        cbn [Multiplexer.toStatedPreferences forEach]; run.
      * destruct (messageHandlers w0) as [|h hs] eqn:Hhs;
          cbn [Multiplexer.toHandlers]; unfold restHandlers; cbn [forEach]; run.
        -- unfold Multiplexer.toAcknowledgment, restAck.
           destruct (isAcknowledgment m) eqn:Hack; cbn [negb]; run;
             cbn [Multiplexer.settleThrow fst snd].
           ++ rewrite drain_settled. reflexivity.
           ++ rewrite IH; [reflexivity|]. cbn [resumesLeft].
              unfold ackDue in Hle. rewrite Hack in Hle. lia.
        -- cbn [Multiplexer.settleThrow fst snd].
           rewrite IH; [unfold rest, restHandlers; cbn [forEach]; run; reflexivity|].
           cbn [resumesLeft]. rewrite <- Hh in Hle. cbn [length] in Hle. lia.
      * cbn [Multiplexer.settleThrow fst snd].
        rewrite IH; [unfold rest, restPreferences; cbn [forEach]; run; reflexivity|].
        cbn [resumesLeft]. rewrite Hh. cbn [length] in Hle. lia.
    + (* stated preference *)
      unfold restPreferences. cbn [forEach]. run.
      db_call (UpdateChannelPreference (ChatBroadcaster.statedPreference m pref)).
      cbn [resumesLeft] in Hle.
      destruct prefs as [|pref' prefs];
        cbn [Multiplexer.toStatedPreferences forEach]; run.
      * destruct (messageHandlers w0) as [|h hs] eqn:Hhs;
          cbn [Multiplexer.toHandlers]; unfold restHandlers; cbn [forEach]; run.
        -- unfold Multiplexer.toAcknowledgment, restAck.
           destruct (isAcknowledgment m) eqn:Hack; cbn [negb]; run;
             cbn [Multiplexer.settleThrow fst snd].
           ++ rewrite drain_settled. reflexivity.
           ++ rewrite IH; [reflexivity|]. cbn [resumesLeft].
              unfold ackDue in Hle. rewrite Hack in Hle. lia.
        -- cbn [Multiplexer.settleThrow fst snd].
           rewrite IH; [unfold rest, restHandlers; cbn [forEach]; run; reflexivity|].
           cbn [resumesLeft]. rewrite <- Hh in Hle. cbn [length] in Hle. lia.
      * cbn [Multiplexer.settleThrow fst snd].
        rewrite IH; [unfold rest, restPreferences; cbn [forEach]; run; reflexivity|].
        cbn [resumesLeft]. rewrite Hh. cbn [length] in Hle. lia.
    + (* handler *)
      unfold restHandlers. cbn [forEach]. unfold bind.
      assert (Hh : messageHandlers (snd (ChatBroadcaster.callHandler env m p h w))
                   = messageHandlers w).
      { unfold ChatBroadcaster.callHandler. run.
        destruct (handlerFault env _ h m p); reflexivity. }
      destruct (ChatBroadcaster.callHandler env m p h w) as [[[]|e] w0];
        cbn [Multiplexer.settleThrow fst snd] in *;
        [|rewrite drain_settled; reflexivity].
      cbn [resumesLeft] in Hle.
      destruct hs as [|h' hs]; cbn [Multiplexer.toHandlers forEach]; run.
      * unfold Multiplexer.toAcknowledgment, restAck.
        destruct (isAcknowledgment m) eqn:Hack; cbn [negb]; run;
          cbn [Multiplexer.settleThrow fst snd].
        -- rewrite drain_settled. reflexivity.
        -- rewrite IH; [reflexivity|]. cbn [resumesLeft].
           unfold ackDue in Hle. rewrite Hack in Hle. lia.
      * cbn [Multiplexer.settleThrow fst snd].
        rewrite IH;
          [unfold rest, restHandlers; cbn [forEach]; run; reflexivity|].
        cbn [resumesLeft]. cbn [length] in Hle. lia.
    + (* acknowledgment row *)
      run. db_call (SaveMessage row).
      rewrite IH; [reflexivity|]. cbn [resumesLeft] in *. lia.
    + (* acknowledgment broadcast *)
      run.
      destruct (broadcastAck_total env recipient serialized w) as (w' & Hrun & _).
      rewrite Hrun. cbn [Multiplexer.settleThrow fst snd].
      rewrite drain_settled. reflexivity.
    + reflexivity.
Qed.

End Alone.

(** The task machine agrees with the method: a call of
    [handleIncomingMessage] that is started and then resumed on its own
    until it settles ends with the result and in the world of the method
    run as a whole, whether or not the store raises errors or a handler
    throws. *)
Lemma alone_is_handleIncomingMessage (env : Env) (message : ChatMessage.t)
    (protocol : string) (server : option string) (w : World) :
  let started := Multiplexer.start env message protocol server w in
  let out := ChatBroadcaster.handleIncomingMessage env message protocol server w in
  Multiplexer.drain env
    (resumesLeft (length (messageHandlers (snd started))) (fst started))
    (fst started) (snd started)
  = (Multiplexer.Settled (fst out), snd out).
Proof.
  intros started out. unfold out. rewrite handle_as_rest. fold started.
  apply drain_rest. lia.
Qed.
(** * The readers of the evidence store *)

Lemma select_healthy (env : Env) {A} (q : Store -> A) (w : World) :
  Healthy env ->
  ChatDatabaseQueries.select env q w = (Ok (q (db w)), tickExecutes w).
Proof. intros H. unfold ChatDatabaseQueries.select. rewrite H. reflexivity. Qed.

(** Every reader is one [select] followed by a conversion of the rows. *)
Lemma ask_select (env : Env) {A} (q : Query A) :
  exists (B : Type) (rows : Store -> B) (convert : B -> A),
    forall w,
      ask env q w
      = match ChatDatabaseQueries.select env rows w with
        | (Ok r, w') => (Ok (convert r), w')
        | (Throw e, w') => (Throw e, w')
        end.
Proof.
  destruct q; simpl;
    unfold ChatDatabaseQueries.getMessage, ChatDatabaseQueries.getConversation,
      ChatDatabaseQueries.getMessageReceipts, ChatDatabaseQueries.getChannelPreferences,
      ChatDatabaseQueries.getProtocolPerformance, bind, ret.
  - exists _, (Select.messageByUuid uuid),
      (fun rows => match rows with [] => None | row :: _ => Some (ChatDatabaseQueries.toMessage row) end).
    intros w. destruct (ChatDatabaseQueries.select env _ w) as [[rows|e] w']; [|reflexivity].
    destruct rows; reflexivity.
  - exists _, (Select.conversation identity1 identity2 limit),
      (fun rows => reverse (map ChatDatabaseQueries.toMessage rows)).
    intros w. destruct (ChatDatabaseQueries.select env _ w) as [[rows|e] w']; reflexivity.
  - exists _, (Select.receipts messageUuid), (map ChatDatabaseQueries.toReceipt).
    intros w. destruct (ChatDatabaseQueries.select env _ w) as [[rows|e] w']; reflexivity.
  - exists _, (Select.channelPreferences identity), (map ChatDatabaseQueries.toChannelPreference).
    intros w. destruct (ChatDatabaseQueries.select env _ w) as [[rows|e] w']; reflexivity.
  - exists _, Select.protocolPerformance, (map ChatDatabaseQueries.toPerformance).
    intros w. destruct (ChatDatabaseQueries.select env _ w) as [[rows|e] w']; reflexivity.
Qed.

(** X1.  A reader makes exactly one [db.execute] and is not retried: when
    the statement raises an error, [SQLITE_BUSY] included, the reader
    rejects with that error at once, without sleeping; when it does not, the
    reader resolves.  Either way the store, the trace, the seen set and the
    handlers are what they were. *)
Theorem reader_single_attempt (env : Env) {A} (q : Query A) (w : World) :
  let out := ask env q w in
  executes (snd out) = S (executes w) /\
  db (snd out) = db w /\
  trace (snd out) = trace w /\
  seenMessageUuids (snd out) = seenMessageUuids w /\
  messageHandlers (snd out) = messageHandlers w /\
  match sqliteFault env (executes w) with
  | Some e => fst out = Throw e
  | None => exists a, fst out = Ok a
  end.
Proof.
  intros out. unfold out.
  destruct (ask_select env q) as (B & rows & convert & Hask). rewrite Hask.
  unfold ChatDatabaseQueries.select.
  destruct (sqliteFault env (executes w)) as [e|]; simpl; repeat split.
  eexists. reflexivity.
Qed.

(** ** [getMessage] *)

Lemma getMessage_healthy (env : Env) (uuid : string) (w : World) :
  Healthy env ->
  fst (ChatDatabaseQueries.getMessage env uuid w)
  = Ok (option_map ChatDatabaseQueries.toMessage
          (head (List.filter (Sql.hasUuid uuid) (messages (db w))))).
Proof.
  intros H. unfold ChatDatabaseQueries.getMessage, bind.
  rewrite select_healthy by exact H. unfold Select.messageByUuid.
  destruct (List.filter _ _); reflexivity.
Qed.





(** ** [updateMessageFirstReceipt] *)

Lemma updateFirstReceipt_uuid (protocol : string) (receivedAt : Z) (uuid : string)
    (r : Messages.row) :
  Messages.uuid (Sql.updateFirstReceipt protocol receivedAt uuid r) = Messages.uuid r.
Proof. unfold Sql.updateFirstReceipt. destruct (_ && _); reflexivity. Qed.

Lemma filter_map_updateFirstReceipt (protocol : string) (receivedAt : Z) (uuid u : string)
    (rows : list Messages.row) :
  List.filter (Sql.hasUuid u) (map (Sql.updateFirstReceipt protocol receivedAt uuid) rows)
  = map (Sql.updateFirstReceipt protocol receivedAt uuid) (List.filter (Sql.hasUuid u) rows).
Proof.
  induction rows as [|r rows IH]; [reflexivity|].
  cbn [map List.filter].
  replace (Sql.hasUuid u (Sql.updateFirstReceipt protocol receivedAt uuid r))
    with (Sql.hasUuid u r)
    by (unfold Sql.hasUuid; rewrite updateFirstReceipt_uuid; reflexivity).
  destruct (Sql.hasUuid u r); cbn [map]; rewrite IH; reflexivity.
Qed.

Lemma head_filter_hasUuid (u : string) (rows : list Messages.row) (r : Messages.row) :
  head (List.filter (Sql.hasUuid u) rows) = Some r -> Messages.uuid r = u.
Proof.
  intros Hh.
  assert (Hin : List.In r (List.filter (Sql.hasUuid u) rows)).
  { destruct (List.filter _ rows); [discriminate|]. injection Hh as ->. left. reflexivity. }
  apply List.filter_In in Hin as [_ Hu]. unfold Sql.hasUuid in Hu.
  apply bool_decide_eq_true in Hu. exact Hu.
Qed.

Lemma updateFirstReceipt_again (p p' : string) (t t' : Z) (uuid : string) (r : Messages.row) :
  Sql.updateFirstReceipt p' t' uuid (Sql.updateFirstReceipt p t uuid r)
  = Sql.updateFirstReceipt p t uuid r.
Proof.
  unfold Sql.updateFirstReceipt at 2 3.
  destruct (Sql.hasUuid uuid r && bool_decide (Messages.first_received_protocol r = None)) eqn:E.
  - unfold Sql.updateFirstReceipt. cbn [Messages.first_received_protocol].
    rewrite (bool_decide_eq_false_2 (Some p = None)) by discriminate.
    rewrite andb_false_r. reflexivity.
  - unfold Sql.updateFirstReceipt. rewrite E. reflexivity.
Qed.

(** X3.  [updateMessageFirstReceipt] fills in the first receipt once.  On a
    working store, reading any uuid back afterwards gives what it gave
    before, except that the message with the updated uuid has
    [firstReceivedProtocol] and [firstReceivedAt] set to the arguments if its
    protocol was null; if it was not null, nothing changes.  No row is
    created for a uuid that is not stored, and a second call for the same
    uuid, whatever its arguments, changes nothing any more. *)
Theorem updateMessageFirstReceipt_first_wins (env : Env) (uuid protocol : string)
    (receivedAt : Z) (w : World) :
  Healthy env ->
  let w1 := snd (ChatDatabase.updateMessageFirstReceipt env uuid protocol receivedAt w) in
  (forall u,
     fst (ChatDatabaseQueries.getMessage env u w1)
     = match fst (ChatDatabaseQueries.getMessage env u w) with
       | Ok (Some m) =>
           Ok (Some
                 (if bool_decide (u = uuid)
                     && bool_decide (Message.firstReceivedProtocol (Stored.fields m) = None)
                  then withFirstReceipt protocol receivedAt m
                  else m))
       | other => other
       end) /\
  length (messages (db w1)) = length (messages (db w)) /\
  forall protocol' receivedAt',
    messages (db (snd (ChatDatabase.updateMessageFirstReceipt env uuid protocol' receivedAt' w1)))
    = messages (db w1).
Proof.
  intros H w1. unfold w1.
  change (ChatDatabase.updateMessageFirstReceipt env uuid protocol receivedAt w)
    with (mutate env (UpdateMessageFirstReceipt uuid protocol receivedAt) w).
  rewrite mutate_healthy by exact H. simpl.
  split; [|split].
  - intros u. rewrite !getMessage_healthy by exact H. simpl.
    rewrite filter_map_updateFirstReceipt.
    destruct (List.filter (Sql.hasUuid u) (messages (db w))) as [|r rest] eqn:E;
      [reflexivity|]. simpl.
    assert (Hu : Messages.uuid r = u) by (apply (head_filter_hasUuid u (messages (db w))); rewrite E; reflexivity).
    f_equal. f_equal.
    unfold Sql.updateFirstReceipt, Sql.hasUuid, ChatDatabaseQueries.toMessage,
      withFirstReceipt.
    subst u. cbn [Stored.fields Stored.id Message.firstReceivedProtocol].
    destruct (bool_decide (Messages.uuid r = uuid)); cbn [andb]; [|reflexivity].
    destruct (Messages.first_received_protocol r) eqn:Hp.
    + rewrite bool_decide_eq_false_2 by discriminate. cbn [andb].
      rewrite Hp. reflexivity.
    + rewrite bool_decide_eq_true_2 by reflexivity. cbn [andb]. reflexivity.
  - apply length_map.
  - intros p' t'.
    change (ChatDatabase.updateMessageFirstReceipt env uuid p' t' ?w0)
      with (mutate env (UpdateMessageFirstReceipt uuid p' t') w0).
    rewrite mutate_healthy by exact H. simpl.
    rewrite map_map. apply map_ext. intros r. apply updateFirstReceipt_again.
Qed.

Lemma updateMessageFirstReceipt_first_wins_witness :
  let w0 :=
    snd (ChatDatabase.saveMessage Example.env
           (Message.mk "u-1" Example.alice Example.bob "hello" 990 false None None)
           Example.fresh) in
  let w1 := snd (ChatDatabase.updateMessageFirstReceipt Example.env "u-1" "nostr" 1001 w0) in
  let w2 := snd (ChatDatabase.updateMessageFirstReceipt Example.env "u-1" "MQTT" 1002 w1) in
  fst (ChatDatabaseQueries.getMessage Example.env "u-1" w1)
  = Ok (Some (Stored.mk 1
                (Message.mk "u-1" Example.alice Example.bob "hello" 990 false
                   (Some "nostr"%string) (Some 1001)))) /\
  messages (db w2) = messages (db w1).
Proof.
  intros w0 w1 w2.
  destruct (updateMessageFirstReceipt_first_wins Example.env "u-1" "nostr" 1001 w0)
    as (Hread & _ & Hagain).
  - intros n. reflexivity.
  - split; [exact (Hread "u-1"%string)|exact (Hagain "MQTT"%string 1002)].
Defined.

(** ** Ordered results *)

Lemma orderBy_Permutation {A} (le : A -> A -> bool) (l : list A) :
  Select.orderBy le l ≡ₚ l.
Proof. apply merge_sort_Permutation. Qed.

Lemma StronglySorted_weaken {A} (R1 R2 : relation A) (l : list A) :
  (forall x y, R1 x y -> R2 x y) -> StronglySorted R1 l -> StronglySorted R2 l.
Proof.
  intros Himpl. induction 1 as [|x l Hs IH Hall]; constructor; [exact IH|].
  eapply Forall_impl; [exact Hall|]. intros y. apply Himpl.
Qed.

Lemma orderBy_StronglySorted {A} (le : A -> A -> bool) (l : list A) :
  (forall x y, le x y = true \/ le y x = true) ->
  (forall x y z, le x y = true -> le y z = true -> le x z = true) ->
  StronglySorted (fun x y => le x y = true) (Select.orderBy le l).
Proof.
  intros Htotal Htrans.
  apply (StronglySorted_weaken (fun x y => Is_true (le x y))).
  { intros x y. apply Is_true_true. }
  apply StronglySorted_merge_sort.
  - intros x y z Hxy Hyz. apply Is_true_true. apply Is_true_true in Hxy, Hyz.
    exact (Htrans x y z Hxy Hyz).
  - intros x y. destruct (Htotal x y) as [Hxy|Hyx]; [left|right]; apply Is_true_true; assumption.
Qed.

Lemma StronglySorted_map {A B} (f : A -> B) (R : relation B) (l : list A) :
  StronglySorted (fun x y => R (f x) (f y)) l -> StronglySorted R (map f l).
Proof.
  induction 1 as [|x l Hs IH Hall]; simpl; constructor; [exact IH|].
  apply Forall_map. exact Hall.
Qed.

Lemma filter_Forall {A} (p : A -> bool) (l : list A) :
  Forall (fun x => p x = true) (List.filter p l).
Proof.
  apply Forall_forall. intros x Hx. apply list_elem_of_In, List.filter_In in Hx as [_ Hp].
  exact Hp.
Qed.

(** ** [getMessageReceipts] *)

Lemma earlierFirst_total (r1 r2 : MessageReceipts.row) :
  Select.earlierFirst r1 r2 = true \/ Select.earlierFirst r2 r1 = true.
Proof. unfold Select.earlierFirst. rewrite !Z.leb_le. lia. Qed.

Lemma earlierFirst_trans (r1 r2 r3 : MessageReceipts.row) :
  Select.earlierFirst r1 r2 = true -> Select.earlierFirst r2 r3 = true ->
  Select.earlierFirst r1 r3 = true.
Proof. unfold Select.earlierFirst. rewrite !Z.leb_le. lia. Qed.

Lemma getMessageReceipts_healthy (env : Env) (u : string) (w : World) :
  Healthy env ->
  fst (ChatDatabaseQueries.getMessageReceipts env u w)
  = Ok (map ChatDatabaseQueries.toReceipt (Select.receipts u (db w))).
Proof.
  intros H. unfold ChatDatabaseQueries.getMessageReceipts, bind.
  rewrite select_healthy by exact H. reflexivity.
Qed.

(** X4.  [getMessageReceipts(u)] on a working store returns the receipts
    stored for [u], each one once and no other (as many as there are rows
    for [u]), ordered by [receivedAt], earliest first.
    [saveMessageReceipt(receipt)] resolves when the message of the receipt
    is stored, and then the answer for the uuid of the receipt has exactly
    one more entry, the receipt under the row id that AUTOINCREMENT hands
    out (an empty [server] reads back as null), and the answer for any
    other uuid has the same entries as before: receipts pile up, one per
    call, and are never merged.  When the message is not stored the call
    rejects with the error of the foreign key and every answer is what it
    was. *)
Theorem getMessageReceipts_complete_in_order (env : Env) (u : string) (w : World) :
  Healthy env ->
  exists l,
    fst (ChatDatabaseQueries.getMessageReceipts env u w) = Ok l /\
    l ≡ₚ map ChatDatabaseQueries.toReceipt
           (List.filter (receiptFor u) (message_receipts (db w))) /\
    length l = receiptRows u (db w) /\
    Forall (fun r => MessageReceipt.messageUuid (Stored.fields r) = u) l /\
    StronglySorted
      (fun r1 r2 => MessageReceipt.receivedAt (Stored.fields r1)
                    <= MessageReceipt.receivedAt (Stored.fields r2)) l /\
    forall receipt,
      let saved := ChatDatabase.saveMessageReceipt env receipt w in
      let referenced := stored (MessageReceipt.messageUuid receipt) (db w) in
      fst saved = (if referenced then Ok tt else Throw Sql.foreignKeyError) /\
      exists l1,
        fst (ChatDatabaseQueries.getMessageReceipts env u (snd saved)) = Ok l1 /\
        l1 ≡ₚ (if referenced && bool_decide (MessageReceipt.messageUuid receipt = u)
               then l ++ [Stored.mk (Sql.nextReceiptId (db w)) (receiptAsBound receipt)]
               else l).
Proof.
  intros H. rewrite getMessageReceipts_healthy by exact H.
  eexists. split; [reflexivity|].
  assert (Hperm : map ChatDatabaseQueries.toReceipt (Select.receipts u (db w))
                  ≡ₚ map ChatDatabaseQueries.toReceipt
                       (List.filter (receiptFor u) (message_receipts (db w)))).
  { apply fmap_Permutation. apply orderBy_Permutation. }
  split; [exact Hperm|]. split; [|split; [|split]].
  - rewrite Hperm, length_map. unfold receiptRows. rewrite countIf_filter. reflexivity.
  - rewrite Hperm. apply Forall_map.
    eapply Forall_impl; [apply filter_Forall|].
    intros r Hr. unfold receiptFor in Hr. apply bool_decide_eq_true in Hr. exact Hr.
  - apply StronglySorted_map. simpl.
    eapply StronglySorted_weaken;
      [|apply (orderBy_StronglySorted Select.earlierFirst _ earlierFirst_total earlierFirst_trans)].
    intros r1 r2 Hr. unfold Select.earlierFirst in Hr. apply Z.leb_le in Hr. exact Hr.
  - intros receipt saved referenced. unfold saved, referenced.
    rewrite saveMessageReceipt_healthy by exact H.
    cbn [statementOf fst snd]. rewrite receipt_outcome. split; [reflexivity|].
    rewrite getMessageReceipts_healthy by exact H.
    eexists. split; [reflexivity|]. cbn [db setDb tickExecutes].
    unfold Select.receipts.
    destruct (stored (MessageReceipt.messageUuid receipt) (db w)) eqn:Hs; cbn [andb].
    + rewrite receipt_stored by exact Hs. cbn [message_receipts].
      rewrite orderBy_Permutation, List.filter_app. simpl.
      unfold receiptFor at 2. simpl.
      destruct (bool_decide (MessageReceipt.messageUuid receipt = u)).
      * rewrite map_app. simpl. apply Permutation_app; [|reflexivity].
        symmetry. apply fmap_Permutation, orderBy_Permutation.
      * rewrite app_nil_r. symmetry. apply fmap_Permutation, orderBy_Permutation.
    + rewrite receipt_refused by exact Hs. reflexivity.
Qed.

Lemma getMessageReceipts_complete_in_order_witness :
  exists l,
    fst (ChatDatabaseQueries.getMessageReceipts Example.env "u-1"
           (snd (ChatBroadcaster.handleIncomingMessage Example.env Example.hello "nostr"
                   None Example.fresh))) = Ok l /\
    length l = 1%nat.
Proof.
  destruct (getMessageReceipts_complete_in_order Example.env "u-1"
              (snd (ChatBroadcaster.handleIncomingMessage Example.env Example.hello "nostr"
                      None Example.fresh)))
    as (l & Hl & _ & Hlen & _).
  - intros n. reflexivity.
  - exists l. split; [exact Hl|]. rewrite Hlen. vm_compute. reflexivity.
Defined.

(** ** [getConversation] *)

Lemma StronglySorted_reverse {A} (R : relation A) (l : list A) :
  StronglySorted R l -> StronglySorted (flip R) (reverse l).
Proof.
  induction 1 as [|x l Hs IH Hall]; [constructor|].
  rewrite reverse_cons. apply StronglySorted_app. split; [|split].
  - intros x1 x2 H1 H2. apply list_elem_of_singleton in H2. subst x2.
    rewrite elem_of_reverse in H1. rewrite Forall_forall in Hall. exact (Hall x1 H1).
  - exact IH.
  - repeat constructor.
Qed.

Lemma newerFirst_total (r1 r2 : Messages.row) :
  Select.newerFirst r1 r2 = true \/ Select.newerFirst r2 r1 = true.
Proof. unfold Select.newerFirst. rewrite !Z.leb_le. lia. Qed.

Lemma newerFirst_trans (r1 r2 r3 : Messages.row) :
  Select.newerFirst r1 r2 = true -> Select.newerFirst r2 r3 = true ->
  Select.newerFirst r1 r3 = true.
Proof. unfold Select.newerFirst. rewrite !Z.leb_le. lia. Qed.

(** What [LIMIT] keeps is the front of the rows, and what it drops comes
    after. *)
Lemma limitTo_split {A} (limit : Z) (rows : list A) :
  exists dropped,
    rows = Select.limitTo limit rows ++ dropped /\
    length (Select.limitTo limit rows)
    = (if limit <? 0 then length rows else Nat.min (Z.to_nat limit) (length rows)).
Proof.
  unfold Select.limitTo. destruct (limit <? 0).
  - exists []. rewrite app_nil_r. split; reflexivity.
  - exists (drop (Z.to_nat limit) rows). rewrite take_drop, length_take. split; reflexivity.
Qed.

Lemma getConversation_healthy (env : Env) (identity1 identity2 : string) (limit : Z)
    (w : World) :
  Healthy env ->
  fst (ChatDatabaseQueries.getConversation env identity1 identity2 limit w)
  = Ok (reverse (map ChatDatabaseQueries.toMessage
                   (Select.conversation identity1 identity2 limit (db w)))).
Proof.
  intros H. unfold ChatDatabaseQueries.getConversation, bind.
  rewrite select_healthy by exact H. reflexivity.
Qed.

(** X5.  [getConversation(identity1, identity2, limit)] on a working store
    returns messages exchanged between the two identities, in either
    direction, and nothing else; at most [limit] of them (all of them when
    there are fewer, or when the limit is negative); oldest first; and they
    are the most recent ones: a stored message between the two that is not
    returned is no newer than any message that is.  In particular the call
    [getConversation('', '', 1000)] of the legacy statistics returns only
    messages whose sender and recipient are both the empty string. *)
Theorem getConversation_latest_oldest_first (env : Env) (identity1 identity2 : string)
    (limit : Z) (w : World) :
  Healthy env ->
  exists l,
    fst (ChatDatabaseQueries.getConversation env identity1 identity2 limit w) = Ok l /\
    Forall (fun m =>
              (Message.fromIdentity (Stored.fields m) = identity1
               /\ Message.toIdentity (Stored.fields m) = identity2)
              \/ (Message.fromIdentity (Stored.fields m) = identity2
                  /\ Message.toIdentity (Stored.fields m) = identity1)) l /\
    length l
    = (let stored := countIf (Select.between identity1 identity2) (messages (db w)) in
       if limit <? 0 then stored else Nat.min (Z.to_nat limit) stored) /\
    StronglySorted
      (fun m1 m2 => Message.timestamp (Stored.fields m1)
                    <= Message.timestamp (Stored.fields m2)) l /\
    forall row,
      row ∈ messages (db w) -> Select.between identity1 identity2 row = true ->
      ChatDatabaseQueries.toMessage row ∈ l
      \/ Forall (fun m => Messages.timestamp row <= Message.timestamp (Stored.fields m)) l.
Proof.
  intros H. rewrite getConversation_healthy by exact H.
  eexists. split; [reflexivity|].
  unfold Select.conversation.
  set (rows := List.filter (Select.between identity1 identity2) (messages (db w))).
  set (sorted := Select.orderBy Select.newerFirst rows).
  destruct (limitTo_split limit sorted) as (dropped & Hsplit & Hlen).
  set (kept := Select.limitTo limit sorted) in *.
  assert (Hperm : sorted ≡ₚ rows) by apply orderBy_Permutation.
  assert (Hsorted : StronglySorted (fun x y => Select.newerFirst x y = true) sorted)
    by (apply orderBy_StronglySorted; [apply newerFirst_total|apply newerFirst_trans]).
  assert (Hrows : Forall (fun r => Select.between identity1 identity2 r = true) rows)
    by apply filter_Forall.
  assert (Hkept : Forall (fun r => Select.between identity1 identity2 r = true) kept).
  { rewrite <- Hperm, Hsplit in Hrows. apply Forall_app in Hrows as [Hk _]. exact Hk. }
  split; [|split; [|split]].
  - apply Forall_reverse, Forall_map. eapply Forall_impl; [exact Hkept|].
    intros r Hr. unfold Select.between in Hr. simpl.
    apply orb_true_iff in Hr as [Hr|Hr]; apply andb_true_iff in Hr as [H1 H2];
      apply bool_decide_eq_true in H1, H2; [left|right]; split; assumption.
  - rewrite length_reverse, length_map, Hlen. cbv zeta.
    rewrite countIf_filter. fold rows. rewrite (Permutation_length Hperm). reflexivity.
  - change (fun m1 m2 : Stored.t Message.t =>
              Message.timestamp (Stored.fields m1) <= Message.timestamp (Stored.fields m2))
      with (flip (fun m1 m2 : Stored.t Message.t =>
                    Message.timestamp (Stored.fields m2) <= Message.timestamp (Stored.fields m1))).
    apply StronglySorted_reverse, StronglySorted_map. simpl.
    rewrite Hsplit in Hsorted. apply StronglySorted_app_1_l in Hsorted.
    eapply StronglySorted_weaken; [|exact Hsorted].
    intros r1 r2 Hr. unfold Select.newerFirst in Hr. apply Z.leb_le in Hr. exact Hr.
  - intros row Hin Hbetween.
    assert (Hrow : row ∈ kept ++ dropped).
    { rewrite <- Hsplit, Hperm. unfold rows.
      apply list_elem_of_In, List.filter_In. split; [apply list_elem_of_In, Hin|exact Hbetween]. }
    apply elem_of_app in Hrow as [Hk|Hd].
    + left. apply elem_of_reverse. apply (list_elem_of_fmap_2 ChatDatabaseQueries.toMessage).
      exact Hk.
    + right. apply Forall_reverse, Forall_map. apply Forall_forall. intros x Hx. simpl.
      rewrite Hsplit in Hsorted.
      pose proof (StronglySorted_app_1_elem_of _ _ _ x row Hsorted Hx Hd) as Hle.
      unfold Select.newerFirst in Hle. apply Z.leb_le in Hle. exact Hle.
Qed.

Lemma getConversation_latest_oldest_first_witness :
  exists l,
    fst (ChatDatabaseQueries.getConversation Example.env Example.alice Example.bob 1
           (snd (ChatBroadcaster.handleIncomingMessage Example.env Example.hello "nostr"
                   None Example.fresh))) = Ok l /\
    length l = 1%nat.
Proof.
  destruct (getConversation_latest_oldest_first Example.env Example.alice Example.bob 1
              (snd (ChatBroadcaster.handleIncomingMessage Example.env Example.hello "nostr"
                      None Example.fresh)))
    as (l & Hl & _ & Hlen & _).
  - intros n. reflexivity.
  - exists l. split; [exact Hl|]. rewrite Hlen. vm_compute. reflexivity.
Defined.

(** ** [getChannelPreferences] and [getProtocolPerformance] *)

Lemma compareNullable_le (x y : option Z) :
  Select.notAfter (Select.compareNullable x y) = true <-> nullableLe x y.
Proof.
  destruct x as [a|], y as [b|]; simpl; try tauto.
  - destruct (Z.compare_spec a b); simpl; split; intros; try lia; try reflexivity;
      discriminate.
  - split; [discriminate|tauto].
Qed.

Lemma nullableLe_total (x y : option Z) : nullableLe x y \/ nullableLe y x.
Proof. destruct x, y; simpl; try tauto. lia. Qed.

Lemma nullableLe_trans (x y z : option Z) :
  nullableLe x y -> nullableLe y z -> nullableLe x z.
Proof. destruct x, y, z; simpl; try tauto. lia. Qed.

Lemma compareNullableReal_le (x y : option Q) :
  Select.notAfter (Select.compareNullableReal x y) = true <-> nullableLeReal x y.
Proof.
  destruct x as [a|], y as [b|]; simpl; try tauto.
  - destruct (a ?= b)%Q eqn:Hc; simpl.
    + apply Qeq_alt in Hc. split; [intros _; lra|reflexivity].
    + apply Qlt_alt in Hc. split; [intros _; lra|reflexivity].
    + apply Qgt_alt in Hc. split; [discriminate|lra].
  - split; [discriminate|tauto].
Qed.

Lemma nullableLeReal_total (x y : option Q) : nullableLeReal x y \/ nullableLeReal y x.
Proof. destruct x, y; simpl; try tauto. lra. Qed.

Lemma nullableLeReal_trans (x y z : option Q) :
  nullableLeReal x y -> nullableLeReal y z -> nullableLeReal x z.
Proof. destruct x, y, z; simpl; try tauto. lra. Qed.

Lemma preferredFirst_ranked (r1 r2 : (string * string) * ChannelPreferences.row) :
  Select.preferredFirst r1 r2 = true
  <-> rankedBefore (Stored.fields (ChatDatabaseQueries.toChannelPreference r1))
        (Stored.fields (ChatDatabaseQueries.toChannelPreference r2)).
Proof.
  unfold Select.preferredFirst, rankedBefore. simpl.
  destruct (ChannelPreferences.preference_order (snd r1)) as [a|],
           (ChannelPreferences.preference_order (snd r2)) as [b|]; simpl.
  - destruct (Z.compare_spec a b) as [Heq|Hlt|Hgt]; simpl.
    + rewrite compareNullable_le. split; [intros Hle; right; split; assumption|].
      intros [Hlt|[_ Hle]]; [lia|exact Hle].
    + split; [intros _; left; exact Hlt|reflexivity].
    + split; [discriminate|]. intros [Hlt|[Heq _]]; lia.
  - split; [discriminate|tauto].
  - split; [tauto|reflexivity].
  - apply compareNullable_le.
Qed.

Lemma rankedBefore_total (p1 p2 : ChannelPreference.t) :
  rankedBefore p1 p2 \/ rankedBefore p2 p1.
Proof.
  unfold rankedBefore.
  destruct (ChannelPreference.preferenceOrder p1) as [a|],
           (ChannelPreference.preferenceOrder p2) as [b|]; try tauto.
  - destruct (nullableLe_total (ChannelPreference.avgLatencyMs p1)
                (ChannelPreference.avgLatencyMs p2));
      destruct (Z.lt_total a b) as [?|[?|?]]; try tauto; try (right; right; split; [lia|assumption]).
  - apply nullableLe_total.
Qed.

Lemma rankedBefore_trans (p1 p2 p3 : ChannelPreference.t) :
  rankedBefore p1 p2 -> rankedBefore p2 p3 -> rankedBefore p1 p3.
Proof.
  unfold rankedBefore.
  destruct (ChannelPreference.preferenceOrder p1) as [a|],
           (ChannelPreference.preferenceOrder p2) as [b|],
           (ChannelPreference.preferenceOrder p3) as [c|]; try tauto.
  - intros [H1|[H1 L1]] [H2|[H2 L2]]; try (left; lia).
    right. split; [lia|]. eapply nullableLe_trans; eassumption.
  - apply nullableLe_trans.
Qed.

(** The protocols of the rows of one identity are pairwise different,
    because the keys of the table are. *)
Lemma protocols_of_identity_NoDup (identity : string)
    (rows : list ((string * string) * ChannelPreferences.row)) :
  NoDup (map fst rows) ->
  NoDup (map (fun kr => snd (fst kr))
           (List.filter (fun kr => bool_decide (fst (fst kr) = identity)) rows)).
Proof.
  induction rows as [|kr rows IH]; simpl; intros Hnd; [constructor|].
  apply NoDup_cons in Hnd as [Hnotin Hnd].
  destruct (bool_decide_reflect (fst (fst kr) = identity)) as [Hid|Hid]; [|apply IH, Hnd].
  simpl. apply NoDup_cons. split; [|apply IH, Hnd].
  intros Hin. apply list_elem_of_fmap in Hin as (kr' & Hp & Hin').
  apply list_elem_of_In, List.filter_In in Hin' as [Hin' Hid'].
  apply bool_decide_eq_true in Hid'.
  apply Hnotin. apply list_elem_of_fmap. exists kr'. split; [|apply list_elem_of_In, Hin'].
  destruct kr as [[i p] r], kr' as [[i' p'] r']. simpl in *. congruence.
Qed.

Lemma getChannelPreferences_healthy (env : Env) (identity : string) (w : World) :
  Healthy env ->
  fst (ChatDatabaseQueries.getChannelPreferences env identity w)
  = Ok (map ChatDatabaseQueries.toChannelPreference
          (Select.channelPreferences identity (db w))).
Proof.
  intros H. unfold ChatDatabaseQueries.getChannelPreferences, bind.
  rewrite select_healthy by exact H. reflexivity.
Qed.

Lemma channelPreferences_elem (identity : string) (s : Store)
    (kr : (string * string) * ChannelPreferences.row) :
  kr ∈ Select.channelPreferences identity s
  <-> channel_preferences s !! fst kr = Some (snd kr) /\ fst (fst kr) = identity.
Proof.
  unfold Select.channelPreferences. rewrite orderBy_Permutation.
  rewrite list_elem_of_In, List.filter_In, <- list_elem_of_In, bool_decide_eq_true.
  destruct kr as [k r]. rewrite elem_of_map_to_list. reflexivity.
Qed.

(** X6.  [getChannelPreferences(identity)] on a working store returns one
    entry for every protocol that has a row for the identity, built from
    that row, and nothing else: no two entries name the same protocol and
    every entry is for the identity asked.  The entries are ordered by
    stated preference order, then by average latency, an absent value
    before any present one: the channels whose order the peer never stated
    come first.  After [updateChannelPreference(pref)] the answer for the
    identity of [pref] has an entry for its protocol with [isWorking] and
    [cannotUse] as given, [lastAckAt] and [avgLatencyMs] as bound, and the
    given preference order or, if none was given, the one stored before. *)
Theorem getChannelPreferences_one_per_protocol (env : Env) (identity : string)
    (w : World) :
  Healthy env ->
  exists l,
    fst (ChatDatabaseQueries.getChannelPreferences env identity w) = Ok l /\
    (forall protocol row,
       channel_preferences (db w) !! (identity, protocol) = Some row ->
       ChatDatabaseQueries.toChannelPreference ((identity, protocol), row) ∈ l) /\
    Forall (fun p =>
              ChannelPreference.identity (Stored.fields p) = identity /\
              exists row,
                channel_preferences (db w)
                  !! (identity, ChannelPreference.protocol (Stored.fields p)) = Some row /\
                p = ChatDatabaseQueries.toChannelPreference
                      ((identity, ChannelPreference.protocol (Stored.fields p)), row)) l /\
    NoDup (map (fun p => ChannelPreference.protocol (Stored.fields p)) l) /\
    StronglySorted (fun p1 p2 => rankedBefore (Stored.fields p1) (Stored.fields p2)) l /\
    forall pref,
      ChannelPreference.identity pref = identity ->
      let w1 := snd (ChatDatabase.updateChannelPreference env pref w) in
      exists l1 entry,
        fst (ChatDatabaseQueries.getChannelPreferences env identity w1) = Ok l1 /\
        entry ∈ l1 /\
        ChannelPreference.protocol (Stored.fields entry) = ChannelPreference.protocol pref /\
        ChannelPreference.isWorking (Stored.fields entry) = ChannelPreference.isWorking pref /\
        ChannelPreference.cannotUse (Stored.fields entry) = ChannelPreference.cannotUse pref /\
        ChannelPreference.lastAckAt (Stored.fields entry)
        = Js.orNull (ChannelPreference.lastAckAt pref) /\
        ChannelPreference.avgLatencyMs (Stored.fields entry)
        = Js.orNull (ChannelPreference.avgLatencyMs pref) /\
        ChannelPreference.preferenceOrder (Stored.fields entry)
        = Sql.coalesce (Js.orNull (ChannelPreference.preferenceOrder pref))
            (match channel_preferences (db w) !! (identity, ChannelPreference.protocol pref) with
             | Some old => ChannelPreferences.preference_order old
             | None => None
             end).
Proof.
  intros H. rewrite getChannelPreferences_healthy by exact H.
  eexists. split; [reflexivity|]. split; [|split; [|split; [|split]]].
  - intros protocol row Hrow.
    apply (list_elem_of_fmap_2 ChatDatabaseQueries.toChannelPreference).
    apply channelPreferences_elem. split; [exact Hrow|reflexivity].
  - apply Forall_map, Forall_forall. intros [[i p] row] Hin.
    apply channelPreferences_elem in Hin as [Hrow Hid]. simpl in *. subst i.
    split; [reflexivity|]. exists row. split; [exact Hrow|reflexivity].
  - rewrite map_map. simpl.
    unfold Select.channelPreferences.
    rewrite (fmap_Permutation _ _ _ (orderBy_Permutation _ _)).
    apply protocols_of_identity_NoDup, NoDup_fst_map_to_list.
  - apply StronglySorted_map.
    eapply StronglySorted_weaken;
      [|apply (orderBy_StronglySorted Select.preferredFirst)].
    + intros r1 r2 Hr. apply preferredFirst_ranked. exact Hr.
    + intros r1 r2.
      destruct (rankedBefore_total
                  (Stored.fields (ChatDatabaseQueries.toChannelPreference r1))
                  (Stored.fields (ChatDatabaseQueries.toChannelPreference r2)));
        [left|right]; apply preferredFirst_ranked; assumption.
    + intros r1 r2 r3 H12 H23. apply preferredFirst_ranked.
      apply preferredFirst_ranked in H12, H23. eapply rankedBefore_trans; eassumption.
  - intros pref Hid w1. unfold w1.
    rewrite updateChannelPreference_healthy by exact H.
    rewrite getChannelPreferences_healthy by exact H. simpl.
    set (new :=
           Sql.upsertChannelPreference (Js.toInt (ChannelPreference.isWorking pref))
             (Js.orNull (ChannelPreference.lastAckAt pref))
             (Js.orNull (ChannelPreference.avgLatencyMs pref))
             (Js.orNull (ChannelPreference.preferenceOrder pref))
             (Js.toInt (ChannelPreference.cannotUse pref))
             (Sql.nextPreferenceId (db w))
             (channel_preferences (db w)
                !! (ChannelPreference.identity pref, ChannelPreference.protocol pref))).
    eexists.
    exists (ChatDatabaseQueries.toChannelPreference
              ((ChannelPreference.identity pref, ChannelPreference.protocol pref), new)).
    split; [reflexivity|]. split.
    { apply (list_elem_of_fmap_2 ChatDatabaseQueries.toChannelPreference).
      apply channelPreferences_elem. simpl. split; [|exact Hid].
      apply lookup_insert_eq. }
    unfold new.
    rewrite Hid. simpl.
    destruct (channel_preferences (db w) !! (identity, ChannelPreference.protocol pref))
      as [old|]; simpl;
      (split; [reflexivity|]);
      (split; [destruct (ChannelPreference.isWorking pref); reflexivity|]);
      (split; [destruct (ChannelPreference.cannotUse pref); reflexivity|]);
      repeat split.
    destruct (Js.orNull (ChannelPreference.preferenceOrder pref)); reflexivity.
Qed.

Lemma getChannelPreferences_one_per_protocol_witness :
  exists l,
    fst (ChatDatabaseQueries.getChannelPreferences Example.env Example.alice
           (snd (ChatBroadcaster.handleIncomingMessage Example.env
                   Example.ackWithPreferences "IROH" None Example.fresh))) = Ok l /\
    NoDup (map (fun p => ChannelPreference.protocol (Stored.fields p)) l).
Proof.
  destruct (getChannelPreferences_one_per_protocol Example.env Example.alice
              (snd (ChatBroadcaster.handleIncomingMessage Example.env
                      Example.ackWithPreferences "IROH" None Example.fresh)))
    as (l & Hl & _ & _ & Hnd & _).
  - intros n. reflexivity.
  - exists l. split; [exact Hl|exact Hnd].
Defined.

Lemma getProtocolPerformance_healthy (env : Env) (w : World) :
  Healthy env ->
  fst (ChatDatabaseQueries.getProtocolPerformance env w)
  = Ok (map ChatDatabaseQueries.toPerformance (Select.protocolPerformance (db w))).
Proof.
  intros H. unfold ChatDatabaseQueries.getProtocolPerformance, bind.
  rewrite select_healthy by exact H. reflexivity.
Qed.

Lemma protocolPerformance_elem (s : Store) (kr : string * ProtocolPerformance.row) :
  kr ∈ Select.protocolPerformance s <-> protocol_performance s !! fst kr = Some (snd kr).
Proof.
  unfold Select.protocolPerformance. rewrite orderBy_Permutation.
  destruct kr as [k r]. apply elem_of_map_to_list.
Qed.

(** X7.  [getProtocolPerformance()] on a working store returns one entry
    for every protocol that has a row, with the counters, the average and
    the time of last use of that row, and nothing else; no two entries name
    the same protocol.  The entries are ordered by average latency, and the
    protocols whose latency was never recorded come first.  After
    [updateProtocolPerformance(protocol, acked, latencyMs)] the entry of the
    protocol has [totalSent] one higher than before (1 if there was none),
    [totalAcked] higher by one exactly when [acked], and [lastUsedAt] equal
    to the time of the call. *)
Theorem getProtocolPerformance_one_per_protocol (env : Env) (w : World) :
  Healthy env ->
  exists l,
    fst (ChatDatabaseQueries.getProtocolPerformance env w) = Ok l /\
    (forall protocol row,
       protocol_performance (db w) !! protocol = Some row ->
       ChatDatabaseQueries.toPerformance (protocol, row) ∈ l) /\
    Forall (fun entry =>
              exists row,
                protocol_performance (db w) !! PerformanceInfo.protocol entry = Some row /\
                entry = ChatDatabaseQueries.toPerformance
                          (PerformanceInfo.protocol entry, row)) l /\
    NoDup (map PerformanceInfo.protocol l) /\
    StronglySorted
      (fun e1 e2 => nullableLeReal (PerformanceInfo.avgLatencyMs e1)
                      (PerformanceInfo.avgLatencyMs e2)) l /\
    forall protocol acked latencyMs,
      let w1 :=
        snd (ChatDatabase.updateProtocolPerformance env protocol acked latencyMs w) in
      exists l1 entry,
        fst (ChatDatabaseQueries.getProtocolPerformance env w1) = Ok l1 /\
        entry ∈ l1 /\
        PerformanceInfo.protocol entry = protocol /\
        PerformanceInfo.lastUsedAt entry = Some (dateNow env (clock w)) /\
        match protocol_performance (db w) !! protocol with
        | Some old =>
            PerformanceInfo.totalSent entry = ProtocolPerformance.total_sent old + 1 /\
            PerformanceInfo.totalAcked entry
            = ProtocolPerformance.total_acked old + (if acked then 1 else 0)
        | None =>
            PerformanceInfo.totalSent entry = 1 /\
            PerformanceInfo.totalAcked entry = (if acked then 1 else 0)
        end.
Proof.
  intros H. rewrite getProtocolPerformance_healthy by exact H.
  eexists. split; [reflexivity|]. split; [|split; [|split; [|split]]].
  - intros protocol row Hrow.
    apply (list_elem_of_fmap_2 ChatDatabaseQueries.toPerformance).
    apply protocolPerformance_elem. exact Hrow.
  - apply Forall_map, Forall_forall. intros [p row] Hin.
    apply protocolPerformance_elem in Hin. simpl in *.
    exists row. split; [exact Hin|reflexivity].
  - rewrite map_map. simpl. unfold Select.protocolPerformance.
    rewrite (fmap_Permutation _ _ _ (orderBy_Permutation _ _)).
    apply NoDup_fst_map_to_list.
  - apply StronglySorted_map.
    eapply StronglySorted_weaken;
      [|apply (orderBy_StronglySorted Select.fasterFirst)].
    + intros r1 r2 Hr. apply compareNullableReal_le. exact Hr.
    + intros r1 r2. unfold Select.fasterFirst. rewrite !compareNullableReal_le.
      apply nullableLeReal_total.
    + intros r1 r2 r3. unfold Select.fasterFirst. rewrite !compareNullableReal_le.
      apply nullableLeReal_trans.
  - intros protocol acked latencyMs w1. unfold w1.
    rewrite updateProtocolPerformance_healthy by exact H.
    rewrite getProtocolPerformance_healthy by exact H. simpl.
    set (new :=
           Sql.upsertProtocolPerformance (Js.toInt acked) (Js.orNull latencyMs)
             (dateNow env (clock w)) (Js.toInt acked) (Js.orNull latencyMs)
             (Js.orNull latencyMs) (Js.orNull latencyMs) (dateNow env (clock w))
             (protocol_performance (db w) !! protocol)).
    eexists. exists (ChatDatabaseQueries.toPerformance (protocol, new)).
    split; [reflexivity|]. split.
    { apply (list_elem_of_fmap_2 ChatDatabaseQueries.toPerformance).
      apply protocolPerformance_elem. simpl. apply lookup_insert_eq. }
    split; [reflexivity|]. unfold new.
    destruct (protocol_performance (db w) !! protocol) as [old|]; simpl;
      destruct acked; repeat split.
Qed.

Lemma getProtocolPerformance_one_per_protocol_witness :
  exists l,
    fst (ChatDatabaseQueries.getProtocolPerformance Example.env Example.measured) = Ok l /\
    NoDup (map PerformanceInfo.protocol l).
Proof.
  destruct (getProtocolPerformance_one_per_protocol Example.env Example.measured)
    as (l & Hl & _ & _ & Hnd & _).
  - intros n. reflexivity.
  - exists l. split; [exact Hl|exact Hnd].
Defined.
(** * Invariants of the store under every method *)

(** ** Statements that run to completion *)

Lemma Evolves_trans (issued : Sql.Statement -> Prop) (s1 s2 s3 : Store) :
  Evolves issued s1 s2 -> Evolves issued s2 s3 -> Evolves issued s1 s3.
Proof.
  intros H12 H23. induction H23 as [|s2 s3 stmt H23 IH Hstmt]; [exact H12|].
  apply evolves_exec; [apply IH, H12|exact Hstmt].
Qed.

Lemma Evolves_weaken (issued issued' : Sql.Statement -> Prop) (s s' : Store) :
  (forall stmt, issued stmt -> issued' stmt) ->
  Evolves issued s s' -> Evolves issued' s s'.
Proof.
  intros Himpl H. induction H as [|s s' stmt H IH Hstmt]; [constructor|].
  apply evolves_exec; [exact IH|apply Himpl, Hstmt].
Qed.

Lemma byBroadcaster_byMutation (stmt : Sql.Statement) :
  byBroadcaster stmt -> byMutation stmt.
Proof. destruct stmt; simpl; tauto. Qed.

Lemma exec_receipts_prefix (stmt : Sql.Statement) (s : Store) :
  message_receipts s `prefix_of` message_receipts (Sql.exec stmt s).
Proof.
  destruct stmt; simpl; try reflexivity.
  destruct (existsb _ _); [apply prefix_app_r|]; reflexivity.
Qed.

Lemma insertOrIgnore_prefix (r : Messages.row) (rows : list Messages.row) :
  rows `prefix_of` Sql.insertOrIgnoreMessage r rows.
Proof.
  unfold Sql.insertOrIgnoreMessage. destruct (existsb _ rows); [reflexivity|].
  apply prefix_app_r. reflexivity.
Qed.

Lemma exec_uuids_prefix (stmt : Sql.Statement) (s : Store) :
  map Messages.uuid (messages s) `prefix_of` map Messages.uuid (messages (Sql.exec stmt s)).
Proof.
  destruct stmt; simpl; try reflexivity.
  - destruct (insertOrIgnore_prefix
                (Messages.mk (Sql.nextMessageId s) uuid from_identity to_identity content
                   timestamp is_acknowledgment first_received_protocol first_received_at)
                (messages s)) as [k Hk].
    rewrite Hk. rewrite map_app. apply prefix_app_r. reflexivity.
  - rewrite map_map. erewrite map_ext; [reflexivity|].
    intros r. simpl. symmetry. apply updateFirstReceipt_uuid.
  - destruct (existsb _ _); reflexivity.
Qed.

Lemma exec_rows_prefix (stmt : Sql.Statement) (s : Store) :
  byBroadcaster stmt -> messages s `prefix_of` messages (Sql.exec stmt s).
Proof.
  destruct stmt; simpl; intros Hb; try reflexivity; try contradiction.
  - apply insertOrIgnore_prefix.
  - destruct (existsb _ _); reflexivity.
Qed.

Lemma exec_counters (stmt : Sql.Statement) (s : Store) :
  byMutation stmt -> countersConsistent s -> countersConsistent (Sql.exec stmt s).
Proof.
  unfold countersConsistent.
  destruct stmt; simpl; intros Hb Hc; try exact Hc.
  { destruct (existsb _ _); exact Hc. }
  destruct Hb as [-> Hflag]. intros protocol row.
  destruct (decide (protocol = a1)) as [->|Hne].
  - rewrite lookup_insert_eq. intros [= <-].
    destruct (protocol_performance s !! a1) as [old|] eqn:Hold; simpl.
    + destruct (Hc a1 old Hold). lia.
    + lia.
  - rewrite lookup_insert_ne by congruence. apply Hc.
Qed.

Lemma exec_flags (stmt : Sql.Statement) (s : Store) :
  byMutation stmt -> flagsBoolean s -> flagsBoolean (Sql.exec stmt s).
Proof.
  unfold flagsBoolean.
  destruct stmt; simpl; intros Hb Hf; try exact Hf.
  { destruct (existsb _ _); exact Hf. }
  intros key row.
  destruct (decide (key = (identity, protocol))) as [->|Hne].
  - rewrite lookup_insert_eq. intros [= <-].
    destruct (channel_preferences s !! (identity, protocol)); simpl; exact Hb.
  - rewrite lookup_insert_ne by congruence. apply Hf.
Qed.

Lemma exec_keys (stmt : Sql.Statement) (s : Store) :
  dom (channel_preferences s) ⊆ dom (channel_preferences (Sql.exec stmt s)) /\
  dom (protocol_performance s) ⊆ dom (protocol_performance (Sql.exec stmt s)).
Proof.
  destruct stmt; simpl; split; try reflexivity;
    try (destruct (existsb _ _); reflexivity);
    rewrite dom_insert; apply union_subseteq_r.
Qed.

(** What holds of a store holds of every store it evolves into. *)
Lemma Evolves_keeps (s s' : Store) :
  Evolves byMutation s s' ->
  message_receipts s `prefix_of` message_receipts s' /\
  map Messages.uuid (messages s) `prefix_of` map Messages.uuid (messages s') /\
  dom (channel_preferences s) ⊆ dom (channel_preferences s') /\
  dom (protocol_performance s) ⊆ dom (protocol_performance s') /\
  (uniqueUuids s -> uniqueUuids s') /\
  (countersConsistent s -> countersConsistent s') /\
  (flagsBoolean s -> flagsBoolean s').
Proof.
  induction 1 as [|s s' stmt H IH Hstmt].
  - split; [reflexivity|]. split; [reflexivity|]. split; [reflexivity|].
    split; [reflexivity|]. split; [exact (fun Hs => Hs)|].
    split; exact (fun Hs => Hs).
  - destruct IH as (Hr & Hu & Hk1 & Hk2 & Huniq & Hc & Hf).
    destruct (exec_keys stmt s') as [Hk1' Hk2'].
    split; [etransitivity; [exact Hr|apply exec_receipts_prefix]|].
    split; [etransitivity; [exact Hu|apply exec_uuids_prefix]|].
    split; [etransitivity; [exact Hk1|exact Hk1']|].
    split; [etransitivity; [exact Hk2|exact Hk2']|].
    split; [intros Hs; apply exec_unique, Huniq, Hs|].
    split; [intros Hs; apply exec_counters; [exact Hstmt|apply Hc, Hs]|].
    intros Hs. apply exec_flags; [exact Hstmt|apply Hf, Hs].
Qed.

Lemma Evolves_keeps_rows (s s' : Store) :
  Evolves byBroadcaster s s' -> messages s `prefix_of` messages s'.
Proof.
  induction 1 as [|s s' stmt H IH Hstmt]; [reflexivity|].
  etransitivity; [exact IH|apply exec_rows_prefix, Hstmt].
Qed.

(** ** Runs of the methods *)

Section Advance.
Context (env : Env) (issued : Sql.Statement -> Prop).
Hypothesis Hissued : forall stmt, byBroadcaster stmt -> issued stmt.

Lemma Advances_refl (w : World) : Advances issued w w.
Proof. constructor; try reflexivity. constructor. Qed.

Lemma Advances_trans (w1 w2 w3 : World) :
  Advances issued w1 w2 -> Advances issued w2 w3 -> Advances issued w1 w3.
Proof.
  intros [D1 S1 H1 M1 B1 T1 C1 U1 R1 E1] [D2 S2 H2 M2 B2 T2 C2 U2 R2 E2].
  constructor; try (etransitivity; eassumption); try congruence.
  eapply Evolves_trans; eassumption.
Qed.

(** A step that leaves the store, the seen set and the trace alone. *)
Lemma Advances_read (w w' : World) :
  db w' = db w -> seenMessageUuids w' = seenMessageUuids w ->
  messageHandlers w' = messageHandlers w -> myMagnetLink w' = myMagnetLink w ->
  broadcaster w' = broadcaster w -> trace w' = trace w ->
  (clock w <= clock w')%nat -> (uuids w <= uuids w')%nat ->
  (randoms w <= randoms w')%nat -> (executes w <= executes w')%nat ->
  Advances issued w w'.
Proof.
  intros Hd Hs Hh Hm Hb Ht Hc Hu Hr He.
  constructor; try assumption.
  - rewrite Hd. constructor.
  - rewrite Hs. reflexivity.
  - rewrite Ht. reflexivity.
Qed.

Lemma Advances_emit (e : Event) (w : World) : Advances issued w (emit e w).
Proof.
  constructor; simpl; try reflexivity; [constructor|].
  apply prefix_app_r. reflexivity.
Qed.

Lemma always_ret {A} (a : A) : Always (Advances issued) (ret a).
Proof. intros w. apply Advances_refl. Qed.

Lemma always_throw {A} (e : Js.Exn) : Always (Advances issued) (@throw A e).
Proof. intros w. apply Advances_refl. Qed.

Lemma always_gets {A} (f : World -> A) : Always (Advances issued) (gets f).
Proof. intros w. apply Advances_refl. Qed.

Lemma always_bind {A B} (m : M A) (k : A -> M B) :
  Always (Advances issued) m -> (forall a, Always (Advances issued) (k a)) ->
  Always (Advances issued) (bind m k).
Proof.
  intros Hm Hk w. unfold bind. specialize (Hm w).
  destruct (m w) as [[a|e] w1]; simpl in *; [|exact Hm].
  eapply Advances_trans; [exact Hm|apply Hk].
Qed.

Lemma always_tryCatch {A} (m : M A) (h : Js.Exn -> M A) :
  Always (Advances issued) m -> (forall e, Always (Advances issued) (h e)) ->
  Always (Advances issued) (tryCatch m h).
Proof.
  intros Hm Hh w. unfold tryCatch. specialize (Hm w).
  destruct (m w) as [[a|e] w1]; simpl in *; [exact Hm|].
  eapply Advances_trans; [exact Hm|apply Hh].
Qed.

Lemma always_forEach {A} (xs : list A) (body : A -> M unit) :
  (forall x, Always (Advances issued) (body x)) ->
  Always (Advances issued) (forEach xs body).
Proof.
  intros Hbody. induction xs as [|x xs IH]; simpl; [apply always_ret|].
  apply always_bind; [apply Hbody|intros _; exact IH].
Qed.

Lemma always_collect {A B} (xs : list A) (f : A -> M B) :
  (forall x, Always (Advances issued) (f x)) ->
  Always (Advances issued) (collect xs f).
Proof.
  intros Hf. induction xs as [|x xs IH]; simpl; [apply always_ret|].
  apply always_bind; [apply Hf|intros y].
  apply always_bind; [exact IH|intros ys; apply always_ret].
Qed.

Lemma always_now : Always (Advances issued) (now env).
Proof. intros w. apply Advances_read; simpl; try reflexivity; lia. Qed.

Lemma always_freshUuid : Always (Advances issued) (freshUuid env).
Proof. intros w. apply Advances_read; simpl; try reflexivity; lia. Qed.

Lemma always_random : Always (Advances issued) (random env).
Proof. intros w. apply Advances_read; simpl; try reflexivity; lia. Qed.

Lemma always_emit (e : Event) : Always (Advances issued) (modify (emit e)).
Proof. intros w. apply Advances_emit. Qed.

Lemma always_sleep (delay : Q) : Always (Advances issued) (sleep delay).
Proof. apply always_emit. Qed.

Lemma always_consoleError (text : string) : Always (Advances issued) (consoleError text).
Proof. apply always_emit. Qed.

Lemma always_markSeen (u : string) :
  Always (Advances issued) (modify (setSeen (fun s => s ∪ {[u]}))).
Proof.
  intros w. constructor; simpl; try reflexivity; [constructor|].
  apply union_subseteq_l.
Qed.

Lemma always_execute (stmt : Sql.Statement) :
  issued stmt -> Always (Advances issued) (ChatDatabase.execute env stmt).
Proof.
  intros Hstmt w. unfold ChatDatabase.execute.
  destruct (sqliteFault env (executes w)); simpl.
  - apply Advances_read; simpl; try reflexivity; lia.
  - constructor; simpl; try reflexivity; try lia.
    apply evolves_exec; [constructor|exact Hstmt].
Qed.

Lemma always_retryLoop {T} (operation : M T) (maxRetries : nat) (delayMs : Z) :
  Always (Advances issued) operation ->
  forall remaining i lastError,
    Always (Advances issued)
      (ChatDatabase.retryLoop env operation maxRetries delayMs remaining i lastError).
Proof.
  intros Hop. induction remaining as [|remaining IH]; intros i lastError; simpl.
  - apply always_throw.
  - apply always_tryCatch; [exact Hop|]. intros e.
    destruct (_ && _); [|apply always_throw].
    apply always_bind; [apply always_random|intros r].
    apply always_bind; [apply always_sleep|intros _]. apply IH.
Qed.

Lemma always_executeWithRetry (stmt : Sql.Statement) :
  issued stmt ->
  Always (Advances issued)
    (ChatDatabase.executeWithRetry env (ChatDatabase.execute env stmt)
       ChatDatabase.maxRetriesDefault ChatDatabase.delayMsDefault).
Proof. intros Hstmt. apply always_retryLoop, always_execute, Hstmt. Qed.

Lemma toInt_flag (b : bool) : Js.toInt b = 0 \/ Js.toInt b = 1.
Proof. destruct b; simpl; tauto. Qed.

Lemma always_saveMessage (message : Message.t) :
  Always (Advances issued) (ChatDatabase.saveMessage env message).
Proof.
  unfold ChatDatabase.saveMessage, ChatDatabase.ensureInit.
  apply always_bind; [apply always_ret|intros _].
  apply always_executeWithRetry, Hissued. exact I.
Qed.

Lemma always_saveMessageReceipt (receipt : MessageReceipt.t) :
  Always (Advances issued) (ChatDatabase.saveMessageReceipt env receipt).
Proof. apply always_executeWithRetry, Hissued. exact I. Qed.

Lemma always_updateChannelPreference (pref : ChannelPreference.t) :
  Always (Advances issued) (ChatDatabase.updateChannelPreference env pref).
Proof. apply always_executeWithRetry, Hissued. split; apply toInt_flag. Qed.

Lemma always_updateProtocolPerformance (protocol : string) (acked : bool)
    (latencyMs : option Z) :
  Always (Advances issued) (ChatDatabase.updateProtocolPerformance env protocol acked latencyMs).
Proof.
  unfold ChatDatabase.updateProtocolPerformance.
  apply always_bind; [apply always_now|intros t].
  apply always_executeWithRetry, Hissued. split; [reflexivity|apply toInt_flag].
Qed.

Lemma always_sendVia (d : Driver) (recipient : Identity) (message : string) :
  Always (Advances issued) (BroadcasterImpl.sendVia env d recipient message).
Proof.
  unfold BroadcasterImpl.sendVia.
  apply always_bind; [apply always_emit|intros _].
  apply always_bind; [apply always_gets|intros at_].
  apply always_bind; [apply always_now|intros startTime].
  apply always_bind.
  { destruct (BroadcasterImpl.stampsPayload _ _); [|apply always_ret].
    apply always_bind; [apply always_now|intros t; apply always_ret]. }
  intros _.
  apply always_bind; [apply always_now|intros endTime]. apply always_ret.
Qed.

Lemma always_broadcast (recipientMagnetLink message : string) :
  Always (Advances issued) (BroadcasterImpl.broadcast env recipientMagnetLink message).
Proof.
  unfold BroadcasterImpl.broadcast.
  apply always_bind; [apply always_emit|intros _].
  destruct (decodeIdentity env recipientMagnetLink) as [recipient|]; [|apply always_throw].
  apply always_bind; [apply always_gets|intros b].
  apply always_collect. intros d. apply always_sendVia.
Qed.

Lemma always_sendAcknowledgment (originalMessage : ChatMessage.t) (receivedVia : string) :
  Always (Advances issued) (ChatBroadcaster.sendAcknowledgment env originalMessage receivedVia).
Proof.
  unfold ChatBroadcaster.sendAcknowledgment, ChatBroadcaster.createAcknowledgment,
    ChatBroadcaster.broadcastAck.
  apply always_bind; [apply always_gets|intros me].
  apply always_bind.
  { apply always_bind; [apply always_freshUuid|intros u].
    apply always_bind; [apply always_now|intros t]. apply always_ret. }
  intros ack.
  apply always_bind; [apply always_saveMessage|intros _].
  apply always_tryCatch; [|intros e; apply always_consoleError].
  apply always_bind; [apply always_broadcast|intros results; apply always_ret].
Qed.

Lemma always_callHandler (message : ChatMessage.t) (protocol : string) (handler : nat) :
  Always (Advances issued) (ChatBroadcaster.callHandler env message protocol handler).
Proof.
  unfold ChatBroadcaster.callHandler.
  apply always_bind; [apply always_gets|intros at_].
  apply always_bind; [apply always_emit|intros _].
  destruct (handlerFault env at_ handler message protocol);
    [apply always_throw|apply always_ret].
Qed.

Lemma always_makeReceipt (message : ChatMessage.t) (protocol : string)
    (server : option string) :
  Always (Advances issued) (ChatBroadcaster.makeReceipt env message protocol server).
Proof.
  unfold ChatBroadcaster.makeReceipt.
  apply always_bind; [apply always_now|intros receivedAt].
  apply always_bind; [apply always_now|intros t]. apply always_ret.
Qed.

Lemma always_handleIncomingMessage (message : ChatMessage.t) (protocol : string)
    (server : option string) :
  Always (Advances issued)
    (ChatBroadcaster.handleIncomingMessage env message protocol server).
Proof.
  unfold ChatBroadcaster.handleIncomingMessage.
  apply always_bind; [apply always_gets|intros seen].
  destruct (bool_decide (ChatMessage.uuid message ∈ seen)).
  { apply always_bind; [apply always_makeReceipt|intros receipt].
    apply always_saveMessageReceipt. }
  apply always_bind; [apply always_markSeen|intros _].
  apply always_bind; [apply always_gets|intros me].
  apply always_bind; [apply always_now|intros firstReceivedAt].
  apply always_bind; [apply always_saveMessage|intros _].
  apply always_bind; [apply always_makeReceipt|intros receipt].
  apply always_bind; [apply always_saveMessageReceipt|intros _].
  apply always_bind.
  { destruct (ChatMessage.ack message) as [a|]; [|apply always_ret].
    apply always_bind.
    { unfold ChatBroadcaster.learnedPreference.
      apply always_bind; [apply always_now|intros lastAckAt].
      apply always_bind; [apply always_now|intros t]. apply always_ret. }
    intros learned.
    apply always_bind; [apply always_updateChannelPreference|intros _].
    apply always_forEach. intros pref. apply always_updateChannelPreference. }
  intros _.
  apply always_bind; [apply always_gets|intros handlers].
  apply always_bind.
  { apply always_forEach. intros handler. apply always_callHandler. }
  intros _.
  destruct (negb (isAcknowledgment message)); [apply always_sendAcknowledgment|apply always_ret].
Qed.

Lemma always_sendMessage (recipientMagnetLink content : string) :
  Always (Advances issued) (ChatBroadcaster.sendMessage env recipientMagnetLink content).
Proof.
  unfold ChatBroadcaster.sendMessage.
  apply always_bind; [apply always_freshUuid|intros u].
  apply always_bind; [apply always_now|intros t].
  apply always_bind; [apply always_gets|intros me].
  apply always_bind; [apply always_saveMessage|intros _].
  apply always_bind; [apply always_broadcast|intros results].
  apply always_bind; [|intros _; apply always_ret].
  apply always_forEach. intros result. apply always_updateProtocolPerformance.
Qed.

End Advance.

Lemma always_mutate (env : Env) (mu : Mutation) :
  Always (Advances byMutation) (mutate env mu).
Proof.
  destruct mu; simpl.
  - apply always_saveMessage, byBroadcaster_byMutation.
  - apply always_executeWithRetry. exact I.
  - apply always_saveMessageReceipt, byBroadcaster_byMutation.
  - apply always_updateChannelPreference, byBroadcaster_byMutation.
  - apply always_updateProtocolPerformance, byBroadcaster_byMutation.
Qed.

(** ** The invariants *)

(** X8.  The five mutations of [ChatDatabase] keep the store's invariants,
    whatever the database answers (errors, busy replies and violated
    constraints included) and
    however many mutations follow one another: receipts are only appended
    (the table before is a prefix of the table after); the uuids of the
    stored messages are only appended, so no message is lost or reordered;
    no channel preference and no protocol aggregate disappears; if the uuids
    were unique they still are; if every aggregate had
    1 <= total_sent and 0 <= total_acked <= total_sent it still has; and if
    the flags of the preferences were 0 or 1 they still are. *)
Theorem mutations_keep_invariants (env : Env) (mus : list Mutation) (w : World) :
  let w' := mutateAll env mus w in
  message_receipts (db w) `prefix_of` message_receipts (db w') /\
  map Messages.uuid (messages (db w)) `prefix_of` map Messages.uuid (messages (db w')) /\
  dom (channel_preferences (db w)) ⊆ dom (channel_preferences (db w')) /\
  dom (protocol_performance (db w)) ⊆ dom (protocol_performance (db w')) /\
  (uniqueUuids (db w) -> uniqueUuids (db w')) /\
  (countersConsistent (db w) -> countersConsistent (db w')) /\
  (flagsBoolean (db w) -> flagsBoolean (db w')).
Proof.
  intros w'. apply Evolves_keeps. unfold w', mutateAll. clear w'.
  assert (Hgen : forall w0, Evolves byMutation (db w) (db w0) ->
            Evolves byMutation (db w)
              (db (fold_left (fun w mu => snd (mutate env mu w)) mus w0))).
  { induction mus as [|mu mus IH]; intros w0 H0; [exact H0|].
    simpl. apply IH. eapply Evolves_trans; [exact H0|].
    apply (adv_db _ _ _ (always_mutate env mu w0)). }
  apply Hgen. constructor.
Qed.

Lemma always_perform (env : Env) (c : Call) :
  Always (Advances byBroadcaster) (perform env c).
Proof.
  destruct c; simpl.
  - apply always_handleIncomingMessage. exact (fun stmt H => H).
  - apply always_bind; [|intros results; apply always_ret].
    apply always_sendMessage. exact (fun stmt H => H).
Qed.

Lemma session_advances (env : Env) (calls : list Call) (w : World) :
  Advances byBroadcaster w (session env calls w).
Proof.
  unfold session.
  assert (Hgen : forall w0, Advances byBroadcaster w w0 ->
            Advances byBroadcaster w
              (fold_left (fun w c => snd (perform env c w)) calls w0)).
  { induction calls as [|c calls IH]; intros w0 H0; [exact H0|].
    simpl. apply IH. eapply Advances_trans; [exact H0|apply always_perform]. }
  apply Hgen, Advances_refl.
Qed.

(** X9.  [ChatBroadcaster] never loses evidence.  Take any number of
    deliveries ([handleIncomingMessage]) and sends ([sendMessage]), one after
    the other, with any outcomes: statements that fail, handlers that
    throw, recipients that do not decode, drivers that fail.  Then the rows
    of [messages] before are,
    unchanged, the first rows after; the same holds for [message_receipts];
    no preference and no aggregate has disappeared; a uuid that was seen is
    still seen; the registered handlers are the same; the trace has only
    been added to; and the invariants of the store (unique uuids, consistent
    counters, flags 0 or 1) have been kept. *)
Theorem broadcaster_keeps_evidence (env : Env) (calls : list Call) (w : World) :
  let w' := session env calls w in
  messages (db w) `prefix_of` messages (db w') /\
  message_receipts (db w) `prefix_of` message_receipts (db w') /\
  dom (channel_preferences (db w)) ⊆ dom (channel_preferences (db w')) /\
  dom (protocol_performance (db w)) ⊆ dom (protocol_performance (db w')) /\
  seenMessageUuids w ⊆ seenMessageUuids w' /\
  messageHandlers w' = messageHandlers w /\
  trace w `prefix_of` trace w' /\
  (uniqueUuids (db w) -> uniqueUuids (db w')) /\
  (countersConsistent (db w) -> countersConsistent (db w')) /\
  (flagsBoolean (db w) -> flagsBoolean (db w')).
Proof.
  intros w'. destruct (session_advances env calls w) as [Hdb Hseen Hh _ _ Ht _ _ _ _].
  fold w' in Hdb, Hseen, Hh, Ht.
  destruct (Evolves_keeps _ _ (Evolves_weaken _ _ _ _ byBroadcaster_byMutation Hdb))
    as (Hr & _ & Hk1 & Hk2 & Hu & Hc & Hf).
  split; [apply Evolves_keeps_rows, Hdb|].
  repeat (split; [assumption|]). assumption.
Qed.

(** ** Interleaved calls *)

Section AdvanceInterleaved.
Context (env : Env).

Let issued := byBroadcaster.
Let Hissued : forall stmt, byBroadcaster stmt -> issued stmt := fun stmt H => H.

Lemma always_toAcknowledgment (message : ChatMessage.t) (protocol : string) :
  Always (Advances issued) (Multiplexer.toAcknowledgment env message protocol).
Proof.
  unfold Multiplexer.toAcknowledgment, ChatBroadcaster.createAcknowledgment.
  destruct (negb (isAcknowledgment message)); [|apply always_ret].
  apply always_bind; [apply always_gets|intros me].
  apply always_bind; [|intros ack; apply always_ret].
  apply always_bind; [apply always_freshUuid|intros u].
  apply always_bind; [apply always_now|intros t]. apply always_ret.
Qed.

Lemma always_toHandlers (message : ChatMessage.t) (protocol : string)
    (handlers : list nat) :
  Always (Advances issued) (Multiplexer.toHandlers env message protocol handlers).
Proof.
  destruct handlers; simpl; [apply always_toAcknowledgment|apply always_ret].
Qed.

Lemma always_toStatedPreferences (message : ChatMessage.t) (protocol : string)
    (prefs : list ChannelPreferenceInfo.t) :
  Always (Advances issued) (Multiplexer.toStatedPreferences env message protocol prefs).
Proof.
  destruct prefs; simpl; [|apply always_ret].
  apply always_bind; [apply always_gets|intros handlers; apply always_toHandlers].
Qed.

Lemma always_afterReceipt (message : ChatMessage.t) (protocol : string) :
  Always (Advances issued) (Multiplexer.afterReceipt env message protocol).
Proof.
  unfold Multiplexer.afterReceipt, ChatBroadcaster.learnedPreference.
  destruct (ChatMessage.ack message) as [a|].
  - apply always_bind; [|intros learned; apply always_ret].
    apply always_bind; [apply always_now|intros lastAckAt].
    apply always_bind; [apply always_now|intros t]. apply always_ret.
  - apply always_bind; [apply always_gets|intros handlers; apply always_toHandlers].
Qed.

Lemma always_arrive (message : ChatMessage.t) (protocol : string)
    (server : option string) :
  Always (Advances issued) (Multiplexer.arrive env message protocol server).
Proof.
  unfold Multiplexer.arrive.
  apply always_bind; [apply always_gets|intros seen].
  destruct (bool_decide (ChatMessage.uuid message ∈ seen)).
  - apply always_bind; [apply always_makeReceipt|intros receipt; apply always_ret].
  - apply always_bind; [apply always_markSeen|intros _].
    apply always_bind; [apply always_gets|intros me].
    apply always_bind; [apply always_now|intros firstReceivedAt]. apply always_ret.
Qed.

Lemma always_continue (t : Multiplexer.Task) :
  Always (Advances issued) (Multiplexer.continue env t).
Proof.
  destruct t; simpl.
  - apply always_bind; [apply always_saveMessageReceipt, Hissued|intros _; apply always_ret].
  - apply always_bind; [apply always_saveMessage, Hissued|intros _].
    apply always_bind; [apply always_makeReceipt|intros receipt; apply always_ret].
  - apply always_bind; [apply always_saveMessageReceipt, Hissued|intros _].
    apply always_afterReceipt.
  - apply always_bind; [apply always_updateChannelPreference, Hissued|intros _].
    apply always_toStatedPreferences.
  - apply always_bind; [apply always_updateChannelPreference, Hissued|intros _].
    apply always_toStatedPreferences.
  - apply always_bind; [apply always_callHandler|intros _]. apply always_toHandlers.
  - apply always_bind; [apply always_saveMessage, Hissued|intros _; apply always_ret].
  - apply always_bind; [|intros _; apply always_ret].
    unfold ChatBroadcaster.broadcastAck.
    apply always_tryCatch; [|intros e; apply always_consoleError].
    apply always_bind; [apply always_broadcast|intros results; apply always_ret].
  - apply always_ret.
Qed.

Lemma settleThrow_world (r : Result Multiplexer.Task * World) :
  snd (Multiplexer.settleThrow r) = snd r.
Proof. destruct r as [[t|e] w]; reflexivity. Qed.

Lemma step_advances (st : World * list Multiplexer.Task) (s : Multiplexer.Step) :
  Advances issued (fst st) (fst (Multiplexer.step env st s)).
Proof.
  destruct s as [message protocol server|i]; simpl.
  - pose proof (always_arrive message protocol server (fst st)) as Ha.
    unfold Multiplexer.start.
    rewrite <- settleThrow_world in Ha.
    destruct (Multiplexer.settleThrow _) as [t w1]. exact Ha.
  - destruct (snd st !! i) as [t|]; [|apply Advances_refl].
    pose proof (always_continue t (fst st)) as Hc.
    unfold Multiplexer.resume.
    rewrite <- settleThrow_world in Hc.
    destruct (Multiplexer.settleThrow _) as [t' w1]. exact Hc.
Qed.

Lemma run_advances (schedule : list Multiplexer.Step) (st : World * list Multiplexer.Task) :
  Advances issued (fst st) (fst (Multiplexer.run env schedule st)).
Proof.
  unfold Multiplexer.run.
  assert (Hgen : forall st0, Advances issued (fst st) (fst st0) ->
            Advances issued (fst st) (fst (fold_left (Multiplexer.step env) schedule st0))).
  { induction schedule as [|s schedule IH]; intros st0 H0; [exact H0|].
    simpl. apply IH. eapply Advances_trans; [exact H0|apply step_advances]. }
  apply Hgen, Advances_refl.
Qed.

End AdvanceInterleaved.

(** X10.  The same under concurrency.  Let deliveries arrive and suspended
    calls of [handleIncomingMessage] be resumed in any order whatever (any
    schedule, started with any calls already pending), with any outcomes of
    the statements, of the handlers and of the sends.  The rows of
    [messages] and of
    [message_receipts] before are, unchanged, the first rows after; no
    preference and no aggregate has disappeared; a uuid that was seen is
    still seen; the handlers are the same; the trace has only been added
    to; and unique uuids, consistent counters and 0/1 flags are kept. *)
Theorem interleaving_keeps_evidence (env : Env) (schedule : list Multiplexer.Step)
    (w : World) (pending : list Multiplexer.Task) :
  let w' := fst (Multiplexer.run env schedule (w, pending)) in
  messages (db w) `prefix_of` messages (db w') /\
  message_receipts (db w) `prefix_of` message_receipts (db w') /\
  dom (channel_preferences (db w)) ⊆ dom (channel_preferences (db w')) /\
  dom (protocol_performance (db w)) ⊆ dom (protocol_performance (db w')) /\
  seenMessageUuids w ⊆ seenMessageUuids w' /\
  messageHandlers w' = messageHandlers w /\
  trace w `prefix_of` trace w' /\
  (uniqueUuids (db w) -> uniqueUuids (db w')) /\
  (countersConsistent (db w) -> countersConsistent (db w')) /\
  (flagsBoolean (db w) -> flagsBoolean (db w')).
Proof.
  intros w'.
  destruct (run_advances env schedule (w, pending)) as [Hdb Hseen Hh _ _ Ht _ _ _ _].
  simpl in Hdb, Hseen, Hh, Ht. fold w' in Hdb, Hseen, Hh, Ht.
  destruct (Evolves_keeps _ _ (Evolves_weaken _ _ _ _ byBroadcaster_byMutation Hdb))
    as (Hr & _ & Hk1 & Hk2 & Hu & Hc & Hf).
  split; [apply Evolves_keeps_rows, Hdb|].
  repeat (split; [assumption|]). assumption.
Qed.
(** * Sending *)

(** ** The aggregates count every send *)

Lemma total_after_upsert (f : ProtocolPerformance.row -> Z) (protocol : string)
    (new : ProtocolPerformance.row) (m : gmap string ProtocolPerformance.row) :
  map_fold (fun _ row acc => f row + acc) 0 (<[protocol := new]> m)
  = map_fold (fun _ row acc => f row + acc) 0 m
    + f new - match m !! protocol with Some old => f old | None => 0 end.
Proof.
  assert (Hcomm : forall (m' : gmap string ProtocolPerformance.row) (j1 j2 : string)
                    (z1 z2 : ProtocolPerformance.row) (y : Z),
             j1 <> j2 -> m' !! j1 = Some z1 -> m' !! j2 = Some z2 ->
             f z1 + (f z2 + y) = f z2 + (f z1 + y))
    by (intros; lia).
  destruct (m !! protocol) as [old|] eqn:Hold.
  - rewrite <- insert_delete_eq.
    rewrite map_fold_insert_L; [|apply Hcomm|apply lookup_delete_eq].
    rewrite (map_fold_delete_L _ _ protocol old m); [lia|apply Hcomm|exact Hold].
  - rewrite map_fold_insert_L; [lia|apply Hcomm|exact Hold].
Qed.

Lemma updateProtocolPerformance_totals (env : Env) (protocol : string) (acked : bool)
    (latencyMs : option Z) (w : World) :
  Healthy env ->
  let w' := snd (ChatDatabase.updateProtocolPerformance env protocol acked latencyMs w) in
  fst (ChatDatabase.updateProtocolPerformance env protocol acked latencyMs w) = Ok tt /\
  sentInTotal (db w') = sentInTotal (db w) + 1 /\
  ackedInTotal (db w') = ackedInTotal (db w) + Js.toInt acked /\
  messages (db w') = messages (db w) /\
  message_receipts (db w') = message_receipts (db w) /\
  channel_preferences (db w') = channel_preferences (db w) /\
  trace w' = trace w /\
  seenMessageUuids w' = seenMessageUuids w /\
  messageHandlers w' = messageHandlers w.
Proof.
  intros H w'. unfold w'. rewrite updateProtocolPerformance_healthy by exact H.
  split; [reflexivity|]. unfold sentInTotal, ackedInTotal. simpl.
  rewrite !total_after_upsert.
  destruct (protocol_performance (db w) !! protocol) as [old|]; simpl;
    repeat split; lia.
Qed.

Lemma forEach_updateProtocolPerformance (env : Env) (results : list BroadcastResult.t) :
  Healthy env ->
  forall w,
    let run :=
      forEach results (fun result =>
        ChatDatabase.updateProtocolPerformance env (BroadcastResult.protocol result)
          (BroadcastResult.success result) (BroadcastResult.latencyMs result)) w in
    fst run = Ok tt /\
    sentInTotal (db (snd run)) = sentInTotal (db w) + Z.of_nat (length results) /\
    ackedInTotal (db (snd run)) = ackedInTotal (db w) + successes results /\
    messages (db (snd run)) = messages (db w) /\
    message_receipts (db (snd run)) = message_receipts (db w) /\
    channel_preferences (db (snd run)) = channel_preferences (db w) /\
    trace (snd run) = trace w /\
    seenMessageUuids (snd run) = seenMessageUuids w /\
    messageHandlers (snd run) = messageHandlers w.
Proof.
  intros H. induction results as [|result results IH]; intros w.
  - simpl. unfold successes. simpl. repeat split; lia.
  - cbn [forEach]. unfold bind.
    destruct (updateProtocolPerformance_totals env (BroadcastResult.protocol result)
                (BroadcastResult.success result) (BroadcastResult.latencyMs result) w H)
      as (Hok & Hs & Ha & Hm & Hr & Hp & Ht & Hseen & Hh).
    destruct (ChatDatabase.updateProtocolPerformance env _ _ _ w) as [r w1].
    simpl in Hok, Hs, Ha, Hm, Hr, Hp, Ht, Hseen, Hh. subst r.
    destruct (IH w1) as (Hok' & Hs' & Ha' & Hm' & Hr' & Hp' & Ht' & Hseen' & Hh').
    cbv zeta. split; [exact Hok'|].
    rewrite Hs', Ha', Hm', Hr', Hp', Ht', Hseen', Hh', Hs, Ha.
    unfold successes in *. cbn [countIf length].
    destruct (BroadcastResult.success result); simpl Js.toInt; repeat split; try assumption; lia.
Qed.

(** X11.  A send that goes through.  On a working store, with a recipient
    that decodes, [sendMessage] resolves with one result per enabled and
    initialised driver; each of these drivers was asked exactly once, in the
    order XMTP, Nostr, Waku, MQTT, IROH, after one call of [broadcast]; the
    outgoing message went through the INSERT OR IGNORE of [saveMessage];
    receipts and preferences are untouched, and the uuid of the outgoing
    message is not put into the seen set; and every result was accounted
    once: summed over all protocols, [total_sent] grew by the number of
    results and [total_acked] by the number of successful ones. *)
Theorem sendMessage_accounts_every_send (env : Env) (recipientMagnetLink content : string)
    (recipient : Identity) (w : World) :
  Healthy env ->
  decodeIdentity env recipientMagnetLink = Some recipient ->
  let out := ChatBroadcaster.sendMessage env recipientMagnetLink content w in
  let drivers := BroadcasterImpl.activeDrivers (broadcaster w) in
  let outgoing := ChatMessage.mk (randomUUID env (uuids w)) content
                    (dateNow env (clock w)) (myMagnetLink w) None in
  exists results,
    fst out = Ok results /\
    length results = length drivers /\
    List.filter isDriverSend (added w (snd out))
    = driverSends recipient (serializeMessage env outgoing) drivers /\
    List.filter isBroadcastCall (added w (snd out))
    = [BroadcastCalled recipientMagnetLink (serializeMessage env outgoing)] /\
    messages (db (snd out))
    = Sql.insertOrIgnoreMessage
        (Messages.mk (Sql.nextMessageId (db w)) (randomUUID env (uuids w))
           (myMagnetLink w) recipientMagnetLink content (dateNow env (clock w)) 0 None None)
        (messages (db w)) /\
    message_receipts (db (snd out)) = message_receipts (db w) /\
    channel_preferences (db (snd out)) = channel_preferences (db w) /\
    seenMessageUuids (snd out) = seenMessageUuids w /\
    sentInTotal (db (snd out)) = sentInTotal (db w) + Z.of_nat (length results) /\
    ackedInTotal (db (snd out)) = ackedInTotal (db w) + successes results /\
    drivers = List.filter (ready (broadcaster w)) transports.
Proof.
  intros H Hd out drivers outgoing. unfold out, ChatBroadcaster.sendMessage.
  run. rewrite saveMessage_healthy by exact H. run.
  match goal with
  | |- context [BroadcasterImpl.broadcast env ?r ?s ?w0] =>
      destruct (broadcast_valid env r s recipient w0 Hd) as (results & Hrun & Hlen);
      rewrite Hrun;
      destruct (afterSends_frame env recipient s
                  (BroadcasterImpl.activeDrivers (broadcaster w0))
                  (emit (BroadcastCalled r s) w0))
        as (Ht & Hdb & Hseen & Hh & Hm & Hb & He & Hu & Hc)
  end.
  match goal with
  | |- context [forEach results ?body ?w0] =>
      destruct (forEach_updateProtocolPerformance env results H w0)
        as (Hok & Hs & Ha & Hmsg & Hr & Hp & Ht' & Hseen' & _)
  end.
  match type of Hok with
  | fst ?run = _ => destruct run as [r w2]
  end.
  cbn [fst snd] in Hok, Hs, Ha, Hmsg, Hr, Hp, Ht', Hseen'. subst r.
  exists results. cbn [fst snd].
  split; [reflexivity|]. split; [exact Hlen|].
  rewrite (added_app w w2
             (BroadcastCalled recipientMagnetLink (serializeMessage env outgoing)
              :: driverSends recipient (serializeMessage env outgoing) drivers)).
  2:{ rewrite Ht', Ht. simpl. rewrite <- app_assoc. reflexivity. }
  split; [simpl; apply filter_driverSends_in|].
  split; [simpl; f_equal; apply filter_driverSends_out; reflexivity|].
  rewrite Hmsg, Hr, Hp, Hseen', Hs, Ha, Hdb, Hseen. simpl.
  repeat split. apply activeDrivers_ready.
Qed.

Lemma sendMessage_accounts_every_send_witness :
  exists results,
    fst (ChatBroadcaster.sendMessage Example.env Example.alice "hi" Example.fresh)
    = Ok results /\
    length results = 5%nat /\
    sentInTotal
      (db (snd (ChatBroadcaster.sendMessage Example.env Example.alice "hi" Example.fresh)))
    = sentInTotal (db Example.fresh) + 5.
Proof.
  destruct (sendMessage_accounts_every_send Example.env Example.alice "hi"
              (mkIdentity "04aa" "bb" "0xcc") Example.fresh)
    as (results & Hok & Hlen & _ & _ & _ & _ & _ & _ & Hsent & _ & _).
  - intros n. reflexivity.
  - vm_compute. reflexivity.
  - exists results. split; [exact Hok|]. split; [exact Hlen|].
    rewrite Hsent, Hlen. reflexivity.
Defined.
(** * When the store fails *)

(** ** One call of the database, whatever it answers *)





(** A statement that the store lets through at the first attempt. *)
Lemma mutate_first_attempt (env : Env) (mu : Mutation) (w : World) :
  sqliteFault env (executes w) = None ->
  mutate env mu w
  = (Sql.outcome (statementOf env mu w) (db w),
     setDb (Sql.exec (statementOf env mu w))
       (tickExecutes
          (match mu with UpdateProtocolPerformance _ _ _ => tickClock w | _ => w end))).
Proof.
  intros Hnone. rewrite mutate_unfold. cbn [ChatDatabase.retryLoop].
  unfold tryCatch, ChatDatabase.execute.
  replace (executes (match mu with UpdateProtocolPerformance _ _ _ => tickClock w | _ => w end))
    with (executes w) by (destruct mu; reflexivity).
  rewrite Hnone.
  replace (db (match mu with UpdateProtocolPerformance _ _ _ => tickClock w | _ => w end))
    with (db w) by (destruct mu; reflexivity).
  unfold Sql.outcome.
  destruct (Sql.violation (statementOf env mu w) (db w)) as [e|] eqn:Hv; [|reflexivity].
  rewrite (violation_not_busy _ _ _ Hv). reflexivity.
Qed.

(** A statement that fails with an error other than [SQLITE_BUSY]. *)
Lemma mutate_fails_at_once (env : Env) (mu : Mutation) (e : Js.Exn) (w : World) :
  sqliteFault env (executes w) = Some e -> ChatDatabase.isBusy e = false ->
  mutate env mu w
  = (Throw e,
     tickExecutes
       (match mu with UpdateProtocolPerformance _ _ _ => tickClock w | _ => w end)).
Proof.
  intros Hsome Hbusy. rewrite mutate_unfold. cbn [ChatDatabase.retryLoop].
  unfold tryCatch, ChatDatabase.execute.
  replace (executes (match mu with UpdateProtocolPerformance _ _ _ => tickClock w | _ => w end))
    with (executes w) by (destruct mu; reflexivity).
  rewrite Hsome, Hbusy. reflexivity.
Qed.

(** ** A failure at the first receipt *)

(** X12.  A message whose first [saveMessage] fails is lost for good.  Let
    a message with a new uuid arrive while the store answers its INSERT with
    an error that is not [SQLITE_BUSY].  [handleIncomingMessage] rejects with
    that error; nothing was stored, no handler was called and nothing was
    sent; but the uuid is in the seen set all the same, because it is put
    there before the message is saved.  So when the same message is
    delivered again, over any transport, with the store working again, it is
    taken for a duplicate and only its receipt is inserted: as the message
    has no row, the foreign key refuses the receipt and the call rejects
    with that error; nothing is stored, no handler is called and no
    acknowledgment is sent.  (Had the message a row from an earlier run of
    the program, the second call would resolve and store its receipt; the
    handlers and the acknowledgment would still be left out.) *)
Theorem failed_first_save_loses_message (env : Env) (message : ChatMessage.t)
    (protocol protocol' : string) (server server' : option string) (e : Js.Exn)
    (w : World) :
  ChatMessage.uuid message ∉ seenMessageUuids w ->
  sqliteFault env (executes w) = Some e -> ChatDatabase.isBusy e = false ->
  sqliteFault env (S (executes w)) = None ->
  let out1 := ChatBroadcaster.handleIncomingMessage env message protocol server w in
  let out2 :=
    ChatBroadcaster.handleIncomingMessage env message protocol' server' (snd out1) in
  let known := stored (ChatMessage.uuid message) (db w) in
  fst out1 = Throw e /\
  db (snd out1) = db w /\
  added w (snd out1) = [] /\
  ChatMessage.uuid message ∈ seenMessageUuids (snd out1) /\
  fst out2 = (if known then Ok tt else Throw Sql.foreignKeyError) /\
  messages (db (snd out2)) = messages (db w) /\
  receiptRows (ChatMessage.uuid message) (db (snd out2))
  = (if known then S (receiptRows (ChatMessage.uuid message) (db w))
     else receiptRows (ChatMessage.uuid message) (db w)) /\
  (known = false -> db (snd out2) = db w) /\
  added w (snd out2) = [].
Proof.
  intros Hnew Hfault Hbusy Hnext out1 out2 known.
  assert (H1 : out1
               = (Throw e,
                  tickExecutes
                    (tickClock (setSeen (fun s => s ∪ {[ChatMessage.uuid message]}) w)))).
  { unfold out1. run. rewrite bool_decide_eq_false_2 by exact Hnew.
    match goal with
    | |- context [ChatDatabase.saveMessage env ?row ?w0] =>
        change (ChatDatabase.saveMessage env row w0) with (mutate env (SaveMessage row) w0);
        rewrite (mutate_fails_at_once env (SaveMessage row) e w0 Hfault Hbusy)
    end.
    reflexivity. }
  set (stmt := Sql.InsertMessageReceipt (ChatMessage.uuid message) protocol'
                 (Js.orNullStr server') (dateNow env (S (clock w)))
                 (dateNow env (S (S (clock w))) - ChatMessage.timestamp message)).
  assert (H2 : out2
               = (Sql.outcome stmt (db w),
                  executed stmt (tickClock (tickClock (snd out1))))).
  { unfold out2. rewrite H1. cbn [snd]. run.
    rewrite bool_decide_eq_true_2
      by (cbn [seenMessageUuids setSeen tickClock tickExecutes];
          apply elem_of_union_r, elem_of_singleton; reflexivity).
    match goal with
    | |- context [ChatDatabase.saveMessageReceipt env ?r ?w0] =>
        change (ChatDatabase.saveMessageReceipt env r w0)
          with (mutate env (SaveMessageReceipt r) w0);
        rewrite (mutate_first_attempt env (SaveMessageReceipt r) w0 Hnext)
    end.
    reflexivity. }
  rewrite H2, H1. cbn [fst snd].
  split; [reflexivity|]. split; [reflexivity|].
  split; [unfold added; simpl; apply drop_all|].
  split; [simpl; apply elem_of_union_r, elem_of_singleton; reflexivity|].
  unfold stmt at 1. rewrite receipt_outcome. fold known.
  split; [reflexivity|].
  unfold executed, stmt. cbn [db setDb tickExecutes tickClock setSeen].
  destruct known eqn:Hknown.
  - rewrite receipt_stored by exact Hknown. cbn [messages message_receipts].
    split; [reflexivity|]. split; [|split; [discriminate|unfold added; simpl; apply drop_all]].
    unfold receiptRows. cbn [message_receipts]. rewrite countIf_app. simpl.
    unfold receiptFor at 2. simpl. rewrite bool_decide_eq_true_2 by reflexivity. lia.
  - rewrite receipt_refused by exact Hknown.
    split; [reflexivity|]. split; [reflexivity|].
    split; [reflexivity|unfold added; simpl; apply drop_all].
Qed.

Lemma failed_first_save_loses_message_witness :
  let constraintOnce :=
    mkEnv (dateNow Example.env) (randomUUID Example.env) (mathRandom Example.env)
      (fun n => match n with
                | O => Some (Js.Error (Some "SQLITE_IOERR") "disk I/O error")
                | _ => None
                end)
      (handlerFault Example.env) (transport Example.env) (decodeIdentity Example.env)
      (serializeMessage Example.env) true true in
  let out1 :=
    ChatBroadcaster.handleIncomingMessage constraintOnce Example.hello "nostr" None
      Example.fresh in
  let out2 :=
    ChatBroadcaster.handleIncomingMessage constraintOnce Example.hello "MQTT" None
      (snd out1) in
  fst out2 = Throw Sql.foreignKeyError /\ db (snd out2) = db Example.fresh /\
  added Example.fresh (snd out2) = [].
Proof.
  intros constraintOnce out1 out2.
  destruct (failed_first_save_loses_message constraintOnce Example.hello "nostr" "MQTT"
              None None (Js.Error (Some "SQLITE_IOERR") "disk I/O error")
              Example.fresh)
    as (_ & _ & _ & _ & Hout & _ & _ & Hdb & Hadded).
  - apply (bool_decide_unpack _). vm_compute. exact I.
  - reflexivity.
  - reflexivity.
  - reflexivity.
  - split; [exact Hout|]. split; [apply Hdb; reflexivity|exact Hadded].
Defined.

(** ** A delivery, whatever the store answers *)









Section Delivery.
Context (env : Env).









End Delivery.



(** * The time a mutation may wait *)

(** Evaluate the closed integers of a goal about delays. *)
Ltac evaluate_delays :=
  repeat match goal with
  | H : context [inject_Z ?z] |- _ =>
      let v := eval vm_compute in (inject_Z z) in change (inject_Z z) with v in H
  | |- context [inject_Z ?z] =>
      let v := eval vm_compute in (inject_Z z) in change (inject_Z z) with v
  end.

Lemma totalDelay_bounds (delays : list Q) :
  (length delays <= 4)%nat ->
  (forall j d, delays !! j = Some d ->
     (baseDelay j <= d)%Q /\ (d <= baseDelay j + 50)%Q) ->
  (baseTotal (length delays) <= totalDelay delays)%Q /\
  (totalDelay delays <= baseTotal (length delays) + inject_Z (50 * Z.of_nat (length delays)))%Q.
Proof.
  intros Hlen Hds.
  destruct delays as [|d0 [|d1 [|d2 [|d3 [|d4 rest]]]]]; simpl in Hlen; try lia;
    unfold totalDelay, baseTotal; simpl.
  - split; apply Qle_refl.
  - destruct (Hds 0%nat d0 eq_refl) as [L0 U0]. unfold baseDelay in *. clear Hds. evaluate_delays.
    split; lra.
  - destruct (Hds 0%nat d0 eq_refl) as [L0 U0]. destruct (Hds 1%nat d1 eq_refl) as [L1 U1].
    unfold baseDelay in *. clear Hds. evaluate_delays.
    split; lra.
  - destruct (Hds 0%nat d0 eq_refl) as [L0 U0]. destruct (Hds 1%nat d1 eq_refl) as [L1 U1].
    destruct (Hds 2%nat d2 eq_refl) as [L2 U2].
    unfold baseDelay in *. clear Hds. evaluate_delays.
    split; lra.
  - destruct (Hds 0%nat d0 eq_refl) as [L0 U0]. destruct (Hds 1%nat d1 eq_refl) as [L1 U1].
    destruct (Hds 2%nat d2 eq_refl) as [L2 U2]. destruct (Hds 3%nat d3 eq_refl) as [L3 U3].
    unfold baseDelay in *. clear Hds. evaluate_delays.
    split; lra.
Qed.

(** The store is busy every time and [Math.random()] returns the largest
    double below 1: the four sleeps are 150, 250, 450 and 850 ms, 1700 ms in
    all. *)
Example backoff_total_reached :
  let out :=
    ChatDatabase.saveMessage Example.busyWithLargestJitter
      (Message.mk "u-1" Example.alice Example.bob "hello" 990 false None None)
      Example.fresh in
  trace (snd out) = map Slept [150; 250; 450; 850]%Q /\
  totalDelay [150; 250; 450; 850]%Q = 1700%Q.
Proof. vm_compute. split; reflexivity. Qed.

(** X14.  How long a mutation may wait.  Whatever the database answers, a
    mutation sleeps between its attempts and at no other time; it sleeps at
    most four times; [k] sleeps add up to at least 100 * (2^k - 1) ms and to
    at most 50 * k ms more than that; so a mutation never waits for more
    than 1700 ms in total, and it does not wait at all when the store lets
    its statement through at the first attempt. *)
Theorem mutation_total_backoff (env : Env) (mu : Mutation) (w : World) :
  exists delays,
    trace (snd (mutate env mu w)) = trace w ++ map Slept delays /\
    (length delays <= 4)%nat /\
    (baseTotal (length delays) <= totalDelay delays)%Q /\
    (totalDelay delays
     <= baseTotal (length delays) + inject_Z (50 * Z.of_nat (length delays)))%Q /\
    (totalDelay delays <= 1700)%Q /\
    (sqliteFault env (executes w) = None -> delays = []).
Proof.
  rewrite mutate_unfold.
  set (w0 := match mu with UpdateProtocolPerformance _ _ _ => tickClock w | _ => w end).
  assert (Hframe : executes w0 = executes w /\ trace w0 = trace w)
    by (destruct mu; split; reflexivity).
  destruct Hframe as [Hex Htr].
  destruct (ChatDatabase.retryLoop env _ 5 100 5 0 Js.Undefined w0) as [r w'] eqn:Hrun.
  apply retryLoop_policy in Hrun as (k & ds & Hk & Hexec & Hbusies & Htrace & Hlen & Hds & Hout);
    [|reflexivity|lia].
  exists ds. cbn [snd]. rewrite Htrace, Htr.
  assert (Hlen4 : (length ds <= 4)%nat) by lia.
  destruct (totalDelay_bounds ds Hlen4 Hds) as (Hlow & Hhigh).
  split; [reflexivity|]. split; [exact Hlen4|]. split; [exact Hlow|]. split; [exact Hhigh|].
  split.
  - destruct ds as [|d0 [|d1 [|d2 [|d3 [|d4 rest]]]]]; simpl in Hlen4; try lia;
      unfold baseTotal, totalDelay in *; cbn [fold_right length] in *;
      clear Hds; evaluate_delays; lra.
  - intros Hnone. rewrite Hex in Hbusies.
    destruct ds as [|d ds]; [reflexivity|]. cbn [length] in Hlen.
    destruct (Hbusies 0%nat ltac:(lia)) as (e & He & _).
    rewrite Nat.add_0_r, Hnone in He. discriminate.
Qed.
(** * [history-stats.ts]: what [getStats] reports *)

Import HistoryStats.

(** ** On a working store *)

Lemma getStats_healthy (env : Env) (w : World) :
  Healthy env -> fst (getStats env w) = Ok (statsOf env w).
Proof.
  intros H. unfold getStats, bind, now.
  rewrite select_healthy by exact H. cbn [messageTotals].
  rewrite select_healthy by exact H.
  rewrite select_healthy by exact H.
  rewrite select_healthy by exact H.
  rewrite select_healthy by exact H.
  reflexivity.
Qed.

(** ** Groups *)

Lemma groups_elem {A K} `{EqDecision K} (e : A -> K) (rows : list A) (k : K) :
  k ∈ Aggregate.groups e rows <-> exists r, r ∈ rows /\ e r = k.
Proof.
  unfold Aggregate.groups. rewrite elem_of_remove_dups, list_elem_of_fmap.
  split; intros (r & H1 & H2); exists r; split; auto.
Qed.

Lemma group_length {A K} `{EqDecision K} (e : A -> K) (rows : list A) (k : K) :
  length (Aggregate.group e k rows) = countIf (fun r => bool_decide (e r = k)) rows.
Proof. unfold Aggregate.group. symmetry. apply countIf_filter. Qed.

Lemma countIf_elem {A} (p : A -> bool) (l : list A) (x : A) :
  x ∈ l -> p x = true -> (1 <= countIf p l)%nat.
Proof.
  intros Hx Hp. apply countIf_some. apply existsb_exists. exists x.
  split; [apply list_elem_of_In; exact Hx|exact Hp].
Qed.

Lemma countIf_positive {A} (p : A -> bool) (l : list A) :
  (1 <= countIf p l)%nat -> exists x, x ∈ l /\ p x = true.
Proof.
  induction l as [|x l IH]; simpl; [lia|].
  destruct (p x) eqn:Hp.
  - intros _. exists x. split; [left|exact Hp].
  - intros H. destruct (IH H) as (y & Hy & Hpy). exists y. split; [right; exact Hy|exact Hpy].
Qed.

Lemma countIf_le {A} (p q : A -> bool) (l : list A) :
  (forall x, p x = true -> q x = true) -> (countIf p l <= countIf q l)%nat.
Proof.
  intros Himpl. induction l as [|x l IH]; simpl; [lia|].
  destruct (p x) eqn:Hp; [rewrite (Himpl x Hp); lia|destruct (q x); lia].
Qed.

Lemma countIf_length {A} (p : A -> bool) (l : list A) : (countIf p l <= length l)%nat.
Proof. rewrite countIf_filter. apply List.filter_length_le. Qed.

(** ** Minimum, maximum and rounded average *)

Lemma minimum_bound (xs : list Z) (lo : Z) :
  Aggregate.minimum xs = Some lo -> lo ∈ xs /\ Forall (fun x => lo <= x) xs.
Proof.
  destruct xs as [|x rest]; simpl; [discriminate|]. intros [= <-].
  revert x. induction rest as [|y rest IH]; intros x; simpl.
  - split; [left|]. repeat constructor. lia.
  - destruct (IH y) as [Hin Hall].
    assert (Hle : Forall (fun z => Z.min y (foldr Z.min x rest) <= z) (x :: y :: rest)).
    { clear Hin. revert Hall. generalize (foldr Z.min y rest). intros m Hall.
      assert (Hx : foldr Z.min x rest <= x).
      { clear. induction rest as [|z rest IH]; simpl; lia. }
      assert (Hrest : Forall (fun z => foldr Z.min x rest <= z) rest).
      { clear. induction rest as [|z rest IH]; simpl; constructor; [lia|].
        eapply Forall_impl; [exact IH|]. simpl. intros; lia. }
      constructor; [lia|]. constructor; [lia|].
      eapply Forall_impl; [exact Hrest|]. simpl. intros; lia. }
    split; [|exact Hle].
    destruct (Z.min_spec y (foldr Z.min x rest)) as [[_ ->]|[_ ->]].
    + right. left.
    + assert (Hmem : foldr Z.min x rest ∈ x :: rest).
      { clear. induction rest as [|z rest IH]; simpl; [left|].
        destruct (Z.min_spec z (foldr Z.min x rest)) as [[_ ->]|[_ ->]].
        - right. left.
        - apply elem_of_cons in IH as [->|IH]; [left|right; right; exact IH]. }
      apply elem_of_cons in Hmem as [->|Hmem]; [left|right; right; exact Hmem].
Qed.

Lemma maximum_bound (xs : list Z) (hi : Z) :
  Aggregate.maximum xs = Some hi -> hi ∈ xs /\ Forall (fun x => x <= hi) xs.
Proof.
  destruct xs as [|x rest]; cbn [Aggregate.maximum]; [discriminate|]. intros [= <-].
  assert (Hx : x <= foldr Z.max x rest).
  { clear. induction rest as [|z rest IH]; cbn [foldr]; lia. }
  assert (Hrest : Forall (fun z => z <= foldr Z.max x rest) rest).
  { clear. induction rest as [|z rest IH]; cbn [foldr]; constructor; [lia|].
    eapply Forall_impl; [exact IH|]. cbn beta. intros; lia. }
  split; [|constructor; assumption].
  clear. induction rest as [|z rest IH]; cbn [foldr]; [left|].
  destruct (Z.max_spec z (foldr Z.max x rest)) as [[_ ->]|[_ ->]].
  - apply elem_of_cons in IH as [->|IH]; [left|right; right; exact IH].
  - right. left.
Qed.

Lemma total_bounds (xs : list Z) (lo hi : Z) :
  Forall (fun x => lo <= x <= hi) xs ->
  lo * Z.of_nat (length xs) <= Aggregate.total xs <= hi * Z.of_nat (length xs).
Proof.
  unfold Aggregate.total. induction 1 as [|x xs Hx Hall IH]; simpl length; simpl foldr; [lia|].
  rewrite Nat2Z.inj_succ. lia.
Qed.

(** The mean of integers between [lo] and [hi], rounded, is between them. *)
Lemma mathRound_average_bounds (xs : list Z) (lo hi : Z) :
  xs <> [] -> Forall (fun x => lo <= x <= hi) xs ->
  lo <= mathRound (Aggregate.average xs) <= hi.
Proof.
  intros Hne Hall. pose proof (total_bounds xs lo hi Hall) as [Hlo Hhi].
  destruct xs as [|x rest]; [congruence|].
  unfold Aggregate.average, mathRound.
  set (n := Z.of_nat (length (x :: rest))) in *.
  set (t := Aggregate.total (x :: rest)) in *.
  assert (Hn : 0 < n) by (unfold n; simpl length; lia).
  assert (HnQ : (0 < inject_Z n)%Q) by (change 0%Q with (inject_Z 0); rewrite <- Zlt_Qlt; exact Hn).
  assert (Hq1 : (inject_Z lo <= inject_Z t / inject_Z n)%Q).
  { apply Qle_shift_div_l; [exact HnQ|]. rewrite <- inject_Z_mult, <- Zle_Qle. exact Hlo. }
  assert (Hq2 : (inject_Z t / inject_Z n <= inject_Z hi)%Q).
  { apply Qle_shift_div_r; [exact HnQ|]. rewrite <- inject_Z_mult, <- Zle_Qle. exact Hhi. }
  split.
  - rewrite <- (Qfloor_Z lo). apply Qfloor_resp_le. lra.
  - assert (Hlt : (inject_Z t / inject_Z n + (1 # 2) < inject_Z (Z.succ hi))%Q).
    { unfold Z.succ. rewrite inject_Z_plus. change (inject_Z 1) with 1%Q. lra. }
    destruct (Z_le_gt_dec (Qfloor (inject_Z t / inject_Z n + (1 # 2))) hi) as [Hle|Hgt];
      [exact Hle|].
    exfalso. assert (Hge : Z.succ hi <= Qfloor (inject_Z t / inject_Z n + (1 # 2))) by lia.
    rewrite Zle_Qle in Hge.
    pose proof (Qfloor_le (inject_Z t / inject_Z n + (1 # 2))) as Hfl.
    apply (Qlt_irrefl (inject_Z (Z.succ hi))).
    eapply Qle_lt_trans; [|exact Hlt]. eapply Qle_trans; [exact Hge|exact Hfl].
Qed.

(** ** The map of protocols *)

Lemma foldl_setProtocol_lookup (t1 t2 t3 t4 : Z) (rows : list MessageReceipts.row)
    (keys : list string) (m : gmap string ProtocolStats.t) (p : string) :
  foldl setProtocol m (map (protocolRow t1 t2 t3 t4 rows) keys) !! p
  = if decide (p ∈ keys) then Some (toProtocolStats (protocolRow t1 t2 t3 t4 rows p))
    else m !! p.
Proof.
  revert m. induction keys as [|k keys IH]; intros m; cbn [map foldl].
  - destruct (decide (p ∈ [])) as [H|_]; [inversion H|reflexivity].
  - rewrite IH. unfold setProtocol at 1. cbn [protocolRow ProtocolRow.protocol].
    destruct (decide (p ∈ keys)) as [Hin|Hnot].
    + rewrite decide_True by (right; exact Hin). reflexivity.
    + destruct (decide (p = k)) as [->|Hne].
      * rewrite decide_True by left. rewrite lookup_insert_eq. reflexivity.
      * rewrite decide_False by (intros H; apply elem_of_cons in H as [H|H]; auto).
        rewrite lookup_insert_ne by congruence. reflexivity.
Qed.

Lemma sameCounts_trans (a b c : ProtocolStats.t) :
  sameCounts a b -> sameCounts b c -> sameCounts a c.
Proof. unfold sameCounts. intros H1 H2. intuition congruence. Qed.

Lemma setServer_lookup (rows : list MessageReceipts.row) (k : string * option string)
    (m : gmap string ProtocolStats.t) (p : string) :
  match m !! p, setServer m (serverRow rows k) !! p with
  | Some a, Some b => served rows [k] p a b
  | None, None => True
  | _, _ => False
  end.
Proof.
  assert (Hkeep : forall a, m !! p = Some a -> served rows [] p a a).
  { intros a _. split; [unfold sameCounts; repeat split|]. intros srv.
    rewrite decide_False; [reflexivity|]. intros [_ H]. inversion H. }
  assert (Hweak : forall a b, served rows [] p a b ->
            (forall srv, srv <> EmptyString -> k <> (p, Some srv)) -> served rows [k] p a b).
  { intros a b [Hsame Hsrv] Hk. split; [exact Hsame|]. intros srv. rewrite Hsrv.
    rewrite decide_False by (intros [_ H]; inversion H).
    rewrite decide_False; [reflexivity|]. intros [H1 H2].
    apply list_elem_of_singleton in H2. apply (Hk srv H1). congruence. }
  destruct k as [q srv0]. unfold setServer.
  cbn [serverRow ServerRow.protocol ServerRow.server fst snd].
  destruct (m !! q) as [c|] eqn:Hq.
  2:{ destruct (m !! p) as [a|] eqn:Hp; [|exact I]. apply Hweak; [apply Hkeep; reflexivity|].
      intros srv _ [= -> _]. congruence. }
  destruct (Js.orNullStr srv0) as [s0|] eqn:Hs0.
  2:{ destruct (m !! p) as [a|] eqn:Hp; [|exact I]. apply Hweak; [apply Hkeep; reflexivity|].
      intros srv Hne [= _ ->]. destruct srv; [congruence|discriminate]. }
  assert (Hsrv0 : srv0 = Some s0 /\ s0 <> EmptyString).
  { destruct srv0 as [[|c0 s1]|]; simpl in Hs0; try discriminate.
    injection Hs0 as <-. split; [reflexivity|discriminate]. }
  destruct Hsrv0 as [-> Hne0].
  destruct (decide (p = q)) as [->|Hpq].
  - rewrite Hq, lookup_insert_eq. split; [unfold sameCounts; repeat split|].
    intros srv. cbn [withServer ProtocolStats.servers].
    destruct (decide (srv = s0)) as [->|Hne].
    + rewrite lookup_insert_eq. rewrite decide_True by (split; [exact Hne0|left]). reflexivity.
    + rewrite lookup_insert_ne by congruence. rewrite decide_False; [reflexivity|].
      intros [_ H]. apply list_elem_of_singleton in H. congruence.
  - rewrite lookup_insert_ne by congruence.
    destruct (m !! p) as [a|] eqn:Hp; [|exact I]. apply Hweak; [apply Hkeep; reflexivity|].
    intros srv _ [= -> _]. congruence.
Qed.

Lemma foldl_setServer_lookup (rows : list MessageReceipts.row)
    (keys : list (string * option string)) (m : gmap string ProtocolStats.t) (p : string) :
  match m !! p, foldl setServer m (map (serverRow rows) keys) !! p with
  | Some a, Some b => served rows keys p a b
  | None, None => True
  | _, _ => False
  end.
Proof.
  revert m. induction keys as [|k keys IH]; intros m; cbn [map foldl].
  - destruct (m !! p) as [a|]; [|exact I]. split; [unfold sameCounts; repeat split|].
    intros srv. rewrite decide_False; [reflexivity|]. intros [_ H]. inversion H.
  - specialize (IH (setServer m (serverRow rows k))).
    pose proof (setServer_lookup rows k m p) as Hstep.
    destruct (m !! p) as [a|]; destruct (setServer m (serverRow rows k) !! p) as [b|];
      try contradiction;
      destruct (foldl setServer (setServer m (serverRow rows k)) (map (serverRow rows) keys) !! p)
        as [c|]; try contradiction; try exact I.
    destruct Hstep as [Hsame1 Hsrv1], IH as [Hsame2 Hsrv2].
    split; [eapply sameCounts_trans; eassumption|].
    intros srv. rewrite Hsrv2, Hsrv1.
    destruct (decide (srv <> EmptyString /\ (p, Some srv) ∈ keys)) as [[H1 H2]|Hn].
    + rewrite decide_True by (split; [exact H1|right; exact H2]). reflexivity.
    + destruct (decide (srv <> EmptyString /\ (p, Some srv) ∈ [k])) as [[H1 H2]|Hn1].
      * apply list_elem_of_singleton in H2. subst k.
        rewrite decide_True by (split; [exact H1|left]). reflexivity.
      * rewrite decide_False; [reflexivity|]. intros [H1 H2].
        apply elem_of_cons in H2 as [H2|H2].
        -- apply Hn1. split; [exact H1|]. rewrite H2. left.
        -- apply Hn. split; assumption.
Qed.

(** ** Sums of counts *)

Lemma countIf_ext {A} (p q : A -> bool) (l : list A) :
  (forall x, x ∈ l -> p x = q x) -> countIf p l = countIf q l.
Proof.
  induction l as [|x l IH]; intros H; simpl; [reflexivity|].
  rewrite (H x) by left. rewrite IH; [reflexivity|]. intros y Hy. apply H. right. exact Hy.
Qed.

Lemma countIf_filter_and {A} (p q : A -> bool) (l : list A) :
  countIf p (List.filter q l) = countIf (fun x => q x && p x) l.
Proof.
  induction l as [|x l IH]; simpl; [reflexivity|].
  destruct (q x); simpl; rewrite IH; reflexivity.
Qed.

Lemma classified_none {A K} `{EqDecision K} (class : A -> option K) (rows : list A) :
  (forall k, countIf (inClass class k) rows = 0%nat) -> countIf (classified class) rows = 0%nat.
Proof.
  induction rows as [|r rows IH]; intros H; simpl; [reflexivity|].
  unfold classified at 1. destruct (class r) as [k|] eqn:Hr.
  - specialize (H k). simpl in H. unfold inClass at 1 in H.
    rewrite bool_decide_eq_true_2 in H by exact Hr. discriminate.
  - simpl. apply IH. intros k. specialize (H k). simpl in H. lia.
Qed.

Lemma classified_split {A K} `{EqDecision K} (class : A -> option K) (i : K) (rows : list A) :
  countIf (classified class) rows
  = (countIf (inClass class i) rows
     + countIf (classified class) (List.filter (fun r => negb (inClass class i r)) rows))%nat.
Proof.
  induction rows as [|r rows IH]; simpl; [reflexivity|].
  unfold inClass at 1 3, classified at 1.
  destruct (class r) as [k|] eqn:Hr.
  - destruct (decide (k = i)) as [->|Hne].
    + rewrite !bool_decide_eq_true_2 by reflexivity. simpl. rewrite IH. lia.
    + rewrite !bool_decide_eq_false_2 by congruence. simpl.
      unfold classified at 2. rewrite Hr. rewrite IH. lia.
  - rewrite !bool_decide_eq_false_2 by congruence. simpl.
    unfold classified at 2. rewrite Hr. rewrite IH. lia.
Qed.

Lemma inClass_filter_other {A K} `{EqDecision K} (class : A -> option K) (i k : K)
    (rows : list A) :
  countIf (inClass class k) (List.filter (fun r => negb (inClass class i r)) rows)
  = if decide (k = i) then 0%nat else countIf (inClass class k) rows.
Proof.
  rewrite countIf_filter_and. destruct (decide (k = i)) as [->|Hne].
  - apply countIf_none. apply not_true_is_false. intros H.
    apply existsb_exists in H as (r & _ & Hr). destruct (inClass class i r); discriminate.
  - apply countIf_ext. intros r _. unfold inClass.
    destruct (decide (class r = Some k)) as [Hk|Hk].
    + rewrite (bool_decide_eq_true_2 _ Hk).
      rewrite bool_decide_eq_false_2 by congruence. reflexivity.
    + rewrite (bool_decide_eq_false_2 _ Hk). apply andb_false_r.
Qed.

(** A map that gives every class of rows its count sums up to the number
    of rows that have a class. *)
Lemma sum_of_counts {A V K} `{Countable K} (h : V -> Z) (class : A -> option K)
    (m : gmap K V) (rows : list A) :
  (forall k v, m !! k = Some v -> h v = Z.of_nat (countIf (inClass class k) rows)) ->
  (forall k, m !! k = None -> countIf (inClass class k) rows = 0%nat) ->
  map_fold (fun _ v acc => h v + acc) 0 m = Z.of_nat (countIf (classified class) rows).
Proof.
  revert rows. induction m as [|i x m Hi IH] using map_ind; intros rows Hsome Hnone.
  - rewrite map_fold_empty. rewrite classified_none; [reflexivity|].
    intros k. apply Hnone. apply lookup_empty.
  - rewrite map_fold_insert_L; [|intros; lia|exact Hi].
    rewrite (IH (List.filter (fun r => negb (inClass class i r)) rows)).
    + rewrite (classified_split class i rows), (Hsome i x) by apply lookup_insert_eq. lia.
    + intros k v Hk. assert (Hne : k <> i) by congruence.
      rewrite inClass_filter_other, decide_False by exact Hne.
      apply Hsome. rewrite lookup_insert_ne by congruence. exact Hk.
    + intros k Hk. rewrite inClass_filter_other.
      destruct (decide (k = i)) as [->|Hne]; [reflexivity|].
      apply Hnone. rewrite lookup_insert_ne by congruence. exact Hk.
Qed.

(** ** The entries of [stats.protocols] *)

Lemma group_protocol (rows : list MessageReceipts.row) (p : string) :
  Aggregate.group MessageReceipts.protocol p rows = List.filter (fromProtocol p) rows.
Proof. reflexivity. Qed.

Lemma groups_protocol (rows : list MessageReceipts.row) (p : string) :
  p ∈ Aggregate.groups MessageReceipts.protocol rows <-> (1 <= countIf (fromProtocol p) rows)%nat.
Proof.
  rewrite groups_elem. split.
  - intros (r & Hr & Hp). apply (countIf_elem _ _ r Hr). apply bool_decide_eq_true_2. exact Hp.
  - intros H. apply countIf_positive in H as (r & Hr & Hp). exists r.
    split; [exact Hr|]. apply bool_decide_eq_true in Hp. exact Hp.
Qed.

Lemma group_server (rows : list MessageReceipts.row) (p srv : string) :
  length (Aggregate.group serverKey (p, Some srv) (List.filter hasServer rows))
  = countIf (fromServer p srv) rows.
Proof.
  rewrite group_length, countIf_filter_and. apply countIf_ext. intros r _.
  unfold hasServer, serverKey, fromServer.
  destruct (decide (MessageReceipts.protocol r = p)) as [Hp|Hp];
    destruct (decide (MessageReceipts.server r = Some srv)) as [Hs|Hs].
  - rewrite Hs. rewrite !bool_decide_eq_true_2 by congruence. reflexivity.
  - rewrite (bool_decide_eq_true_2 _ Hp), (bool_decide_eq_false_2 _ Hs).
    rewrite bool_decide_eq_false_2 by congruence. apply andb_false_r.
  - rewrite (bool_decide_eq_false_2 _ Hp). rewrite bool_decide_eq_false_2 by congruence.
    apply andb_false_r.
  - rewrite (bool_decide_eq_false_2 _ Hp). rewrite bool_decide_eq_false_2 by congruence.
    apply andb_false_r.
Qed.

Lemma groups_server (rows : list MessageReceipts.row) (p srv : string) :
  (p, Some srv) ∈ Aggregate.groups serverKey (List.filter hasServer rows)
  <-> (1 <= countIf (fromServer p srv) rows)%nat.
Proof.
  rewrite <- group_server, group_length, groups_elem. split.
  - intros (r & Hr & Hk). apply (countIf_elem _ _ r Hr). apply bool_decide_eq_true_2. exact Hk.
  - intros H. apply countIf_positive in H as (r & Hr & Hk). exists r.
    split; [exact Hr|]. apply bool_decide_eq_true in Hk. exact Hk.
Qed.

Lemma statsOf_protocols (env : Env) (w : World) (p : string) :
  let receipts := message_receipts (db w) in
  let now_ := dateNow env (clock w) in
  match Stats.protocols (statsOf env w) !! p with
  | None => countIf (fromProtocol p) receipts = 0%nat
  | Some entry =>
      (1 <= countIf (fromProtocol p) receipts)%nat /\
      sameCounts
        (toProtocolStats
           (protocolRow (now_ - 60 * 1000) (now_ - 60 * 60 * 1000)
              (now_ - 24 * 60 * 60 * 1000) (now_ - 7 * 24 * 60 * 60 * 1000) receipts p))
        entry /\
      forall srv,
        ProtocolStats.servers entry !! srv
        = if decide (srv <> EmptyString /\ (1 <= countIf (fromServer p srv) receipts)%nat)
          then Some (toServerStats (serverRow (List.filter hasServer receipts) (p, Some srv)))
          else None
  end.
Proof.
  intros receipts now_. unfold statsOf. cbn [Stats.protocols]. fold receipts now_.
  unfold perProtocol, perServer. fold receipts.
  match goal with
  | |- context [foldl setServer ?m0 (map (serverRow ?rows0) ?keys0)] =>
      pose proof (foldl_setServer_lookup rows0 keys0 m0 p) as Hfold;
      destruct (foldl setServer m0 (map (serverRow rows0) keys0) !! p) as [entry|]
  end; rewrite foldl_setProtocol_lookup, lookup_empty in Hfold;
    destruct (decide (p ∈ Aggregate.groups MessageReceipts.protocol receipts)) as [Hin|Hnot];
    try contradiction.
  - destruct Hfold as [Hsame Hsrv]. split; [apply groups_protocol; exact Hin|].
    split; [exact Hsame|]. intros srv. rewrite Hsrv. cbn [toProtocolStats ProtocolStats.servers].
    rewrite lookup_empty.
    destruct (decide (srv <> EmptyString /\ (1 <= countIf (fromServer p srv) receipts)%nat))
      as [[H1 H2]|Hn].
    + rewrite decide_True; [reflexivity|]. split; [exact H1|apply groups_server; exact H2].
    + rewrite decide_False; [reflexivity|]. intros [H1 H2]. apply Hn.
      split; [exact H1|apply groups_server; exact H2].
  - rewrite groups_protocol in Hnot. lia.
Qed.

Lemma latency_summary (members : list MessageReceipts.row) :
  members <> [] ->
  exists lo hi,
    Aggregate.minimum (latencies members) = Some lo /\
    Aggregate.maximum (latencies members) = Some hi /\
    lo <= mathRound (Aggregate.average (latencies members)) <= hi /\
    forall r, r ∈ members -> lo <= MessageReceipts.latency_ms r <= hi.
Proof.
  intros Hne.
  destruct (Aggregate.minimum (latencies members)) as [lo|] eqn:Hlo;
    [|destruct members; [congruence|discriminate]].
  destruct (Aggregate.maximum (latencies members)) as [hi|] eqn:Hhi;
    [|destruct members; [congruence|discriminate]].
  apply minimum_bound in Hlo as [_ Hlo]. apply maximum_bound in Hhi as [_ Hhi].
  assert (Hall : Forall (fun x => lo <= x <= hi) (latencies members)).
  { apply Forall_forall. intros x Hx. rewrite Forall_forall in Hlo, Hhi.
    split; [apply Hlo|apply Hhi]; exact Hx. }
  exists lo, hi. split; [reflexivity|]. split; [reflexivity|]. split.
  - apply mathRound_average_bounds; [|exact Hall].
    destruct members; [congruence|discriminate].
  - intros r Hr. rewrite Forall_forall in Hall. apply Hall.
    unfold latencies. apply list_elem_of_fmap. exists r. split; [reflexivity|exact Hr].
Qed.

Lemma filter_nonempty {A} (p : A -> bool) (l : list A) :
  (1 <= countIf p l)%nat -> List.filter p l <> [].
Proof. rewrite countIf_filter. destruct (List.filter p l); simpl; [lia|discriminate]. Qed.

Lemma since_earlier (t1 t2 : Z) (r : MessageReceipts.row) :
  t2 <= t1 -> since t1 r = true -> since t2 r = true.
Proof. unfold since. intros H H1. apply Z.leb_le in H1. apply Z.leb_le. lia. Qed.

(** X15.  The per-protocol table of [getStats].  On a working store,
    [stats.protocols] has an entry exactly for the protocols that have a
    receipt; [totalDelivered] is the number of receipts of the protocol,
    and over all protocols these add up to the number of rows of
    [message_receipts]; [last1min], [last1hour], [last1day] and [last1week]
    count the receipts whose [received_at] is at most that long before the
    time of the call (receipts dated after it included), so each is at most
    the next and the last at most [totalDelivered]; and [minLatency] and
    [maxLatency] are numbers that bound every latency of the protocol and
    the rounded average [avgLatency]. *)
Theorem getStats_delivery_counts (env : Env) (w : World) :
  Healthy env ->
  exists stats,
    fst (getStats env w) = Ok stats /\
    let receipts := message_receipts (db w) in
    let now_ := dateNow env (clock w) in
    deliveredInTotal (Stats.protocols stats) = Z.of_nat (length receipts) /\
    (forall p, Stats.protocols stats !! p = None <-> countIf (fromProtocol p) receipts = 0%nat) /\
    forall p entry,
      Stats.protocols stats !! p = Some entry ->
      ProtocolStats.totalDelivered entry = Z.of_nat (countIf (fromProtocol p) receipts) /\
      ProtocolStats.last1min entry
      = Z.of_nat (countIf (fun r => fromProtocol p r && since (now_ - 60 * 1000) r) receipts) /\
      ProtocolStats.last1hour entry
      = Z.of_nat (countIf (fun r => fromProtocol p r && since (now_ - 60 * 60 * 1000) r)
                    receipts) /\
      ProtocolStats.last1day entry
      = Z.of_nat (countIf (fun r => fromProtocol p r && since (now_ - 24 * 60 * 60 * 1000) r)
                    receipts) /\
      ProtocolStats.last1week entry
      = Z.of_nat (countIf (fun r => fromProtocol p r
                                    && since (now_ - 7 * 24 * 60 * 60 * 1000) r) receipts) /\
      0 <= ProtocolStats.last1min entry <= ProtocolStats.last1hour entry /\
      ProtocolStats.last1hour entry <= ProtocolStats.last1day entry /\
      ProtocolStats.last1day entry <= ProtocolStats.last1week entry /\
      ProtocolStats.last1week entry <= ProtocolStats.totalDelivered entry /\
      1 <= ProtocolStats.totalDelivered entry /\
      exists lo hi,
        ProtocolStats.minLatency entry = Some lo /\
        ProtocolStats.maxLatency entry = Some hi /\
        lo <= ProtocolStats.avgLatency entry <= hi /\
        forall r, r ∈ receipts -> MessageReceipts.protocol r = p ->
                  lo <= MessageReceipts.latency_ms r <= hi.
Proof.
  intros H. exists (statsOf env w). split; [apply getStats_healthy; exact H|].
  intros receipts now_.
  assert (Hentry : forall p entry,
            Stats.protocols (statsOf env w) !! p = Some entry ->
            (1 <= countIf (fromProtocol p) receipts)%nat /\
            sameCounts
              (toProtocolStats
                 (protocolRow (now_ - 60 * 1000) (now_ - 60 * 60 * 1000)
                    (now_ - 24 * 60 * 60 * 1000) (now_ - 7 * 24 * 60 * 60 * 1000) receipts p))
              entry).
  { intros p entry Hp. pose proof (statsOf_protocols env w p) as Hc. cbv zeta in Hc.
    rewrite Hp in Hc. destruct Hc as (H1 & H2 & _). split; assumption. }
  split; [|split].
  - unfold deliveredInTotal.
    rewrite (sum_of_counts ProtocolStats.totalDelivered
               (fun r => Some (MessageReceipts.protocol r)) _ receipts).
    + f_equal. generalize receipts. clear. intros l.
      induction l as [|r l IH]; simpl; [reflexivity|]. f_equal. exact IH.
    + intros p entry Hp. destruct (Hentry p entry Hp) as (_ & Hsame & _).
      rewrite <- Hsame. cbn [toProtocolStats protocolRow ProtocolStats.totalDelivered
                              ProtocolRow.delivered].
      rewrite group_length. f_equal. apply countIf_ext. intros r _. unfold inClass.
      apply bool_decide_ext. split; congruence.
    + intros p Hp. pose proof (statsOf_protocols env w p) as Hc. cbv zeta in Hc.
      rewrite Hp in Hc. rewrite <- Hc. apply countIf_ext. intros r _. unfold inClass, fromProtocol.
      apply bool_decide_ext. split; congruence.
  - intros p. pose proof (statsOf_protocols env w p) as Hc. cbv zeta in Hc.
    destruct (Stats.protocols (statsOf env w) !! p) as [entry|].
    + destruct Hc as (H1 & _). fold receipts in H1. split; [discriminate|lia].
    + split; [intros _; exact Hc|reflexivity].
  - intros p entry Hp. destruct (Hentry p entry Hp) as (Hpos & Hsame).
    destruct Hsame as (Htotal & Havg & Hmin & Hmax & H1 & H2 & H3 & H4).
    cbn [toProtocolStats protocolRow ProtocolStats.totalDelivered ProtocolRow.delivered
         ProtocolStats.avgLatency ProtocolRow.avg_latency ProtocolStats.minLatency
         ProtocolRow.min_latency ProtocolStats.maxLatency ProtocolRow.max_latency
         ProtocolStats.last1min ProtocolRow.last_1min ProtocolStats.last1hour
         ProtocolRow.last_1hour ProtocolStats.last1day ProtocolRow.last_1day
         ProtocolStats.last1week ProtocolRow.last_1week] in *.
    rewrite group_protocol in *. unfold sumWhen in *.
    rewrite countIf_filter_and in H1, H2, H3, H4.
    rewrite <- countIf_filter in Htotal.
    rewrite <- Htotal, <- H1, <- H2, <- H3, <- H4.
    split; [reflexivity|]. split; [reflexivity|]. split; [reflexivity|].
    split; [reflexivity|]. split; [reflexivity|].
    assert (Hstep : forall t1 t2, t2 <= t1 ->
              (countIf (fun r => fromProtocol p r && since t1 r) receipts
               <= countIf (fun r => fromProtocol p r && since t2 r) receipts)%nat).
    { intros t1 t2 Ht. apply countIf_le. intros r Hr. apply andb_true_iff in Hr as [Hr1 Hr2].
      rewrite Hr1. simpl. eapply since_earlier; eassumption. }
    assert (Hlast : forall t, (countIf (fun r => fromProtocol p r && since t r) receipts
                               <= countIf (fromProtocol p) receipts)%nat).
    { intros t. apply countIf_le. intros r Hr. apply andb_true_iff in Hr as [Hr1 _]. exact Hr1. }
    split; [split; [lia|apply inj_le, Hstep; lia]|].
    split; [apply inj_le, Hstep; lia|]. split; [apply inj_le, Hstep; lia|].
    split; [apply inj_le, Hlast|]. split; [lia|].
    destruct (latency_summary (List.filter (fromProtocol p) receipts)
                (filter_nonempty _ _ Hpos)) as (lo & hi & Hlo & Hhi & Hbetween & Hall).
    exists lo, hi. rewrite <- Hmin, <- Hmax, <- Havg.
    split; [exact Hlo|]. split; [exact Hhi|]. split; [exact Hbetween|].
    intros r Hr Hrp. apply Hall. apply list_elem_of_In, List.filter_In.
    split; [apply list_elem_of_In; exact Hr|]. apply bool_decide_eq_true_2. exact Hrp.
Qed.

Lemma getStats_delivery_counts_witness :
  exists stats,
    fst (getStats Example.env
           (snd (ChatBroadcaster.handleIncomingMessage Example.env Example.hello "nostr"
                   None Example.fresh))) = Ok stats /\
    deliveredInTotal (Stats.protocols stats) = 1.
Proof.
  destruct (getStats_delivery_counts Example.env
              (snd (ChatBroadcaster.handleIncomingMessage Example.env Example.hello "nostr"
                      None Example.fresh)))
    as (stats & Hok & Hrest).
  - intros n. reflexivity.
  - cbv zeta in Hrest. destruct Hrest as (Hsum & _).
    exists stats. split; [exact Hok|]. rewrite Hsum. vm_compute. reflexivity.
Defined.

(** ** The servers of a protocol *)

(** The server under which [getStats] files a receipt of protocol [p]. *)
Lemma serverClass_inClass (p srv : string) (r : MessageReceipts.row) :
  inClass (fun r => if fromProtocol p r then Js.orNullStr (MessageReceipts.server r) else None)
    srv r
  = bool_decide (srv <> EmptyString) && fromServer p srv r.
Proof.
  unfold inClass, fromServer. destruct (fromProtocol p r) eqn:Hp.
  - unfold fromProtocol in Hp. rewrite Hp. cbn [andb].
    destruct (MessageReceipts.server r) as [[|c s]|]; cbn [Js.orNullStr].
    + rewrite bool_decide_eq_false_2 by discriminate.
      destruct srv as [|c' s'].
      * rewrite (bool_decide_eq_false_2 (EmptyString <> EmptyString)) by congruence. reflexivity.
      * rewrite (bool_decide_eq_false_2 (Some EmptyString = _)) by discriminate.
        apply eq_sym, andb_false_r.
    + destruct (decide (String c s = srv)) as [<-|Hne].
      * rewrite !bool_decide_eq_true_2; [reflexivity|discriminate|reflexivity].
      * rewrite !(bool_decide_eq_false_2 (Some _ = Some _)) by congruence.
        apply eq_sym, andb_false_r.
    + rewrite !(bool_decide_eq_false_2 (None = Some _)) by discriminate.
      apply eq_sym, andb_false_r.
  - unfold fromProtocol in Hp. rewrite Hp. rewrite bool_decide_eq_false_2 by discriminate.
    apply eq_sym, andb_false_r.
Qed.

Lemma serverClass_classified (p : string) (r : MessageReceipts.row) :
  classified (fun r => if fromProtocol p r then Js.orNullStr (MessageReceipts.server r) else None)
    r
  = fromProtocol p r && namedServer r.
Proof. unfold classified, namedServer. destruct (fromProtocol p r); reflexivity. Qed.

(** X16.  The per-server breakdown of [getStats].  On a working store, the
    servers of a protocol's entry are the non-empty server names that a
    receipt of the protocol carries; an entry's [delivered] is the number
    of receipts of that protocol and server, and its [minLatency] and
    [maxLatency] bound those receipts' latencies and the rounded average.
    Receipts with no server or with the empty string for a server are in no
    entry, so the servers of a protocol add up to the number of its
    receipts that name a server, which is at most [totalDelivered]. *)
Theorem getStats_server_breakdown (env : Env) (w : World) :
  Healthy env ->
  exists stats,
    fst (getStats env w) = Ok stats /\
    let receipts := message_receipts (db w) in
    forall p entry,
      Stats.protocols stats !! p = Some entry ->
      deliveredByServers (ProtocolStats.servers entry)
      = Z.of_nat (countIf (fun r => fromProtocol p r && namedServer r) receipts) /\
      deliveredByServers (ProtocolStats.servers entry) <= ProtocolStats.totalDelivered entry /\
      (forall srv,
         ProtocolStats.servers entry !! srv = None
         <-> srv = EmptyString \/ countIf (fromServer p srv) receipts = 0%nat) /\
      forall srv e,
        ProtocolStats.servers entry !! srv = Some e ->
        ServerStats.delivered e = Z.of_nat (countIf (fromServer p srv) receipts) /\
        1 <= ServerStats.delivered e /\
        exists lo hi,
          ServerStats.minLatency e = Some lo /\
          ServerStats.maxLatency e = Some hi /\
          lo <= ServerStats.avgLatency e <= hi /\
          forall r, r ∈ receipts -> MessageReceipts.protocol r = p ->
                    MessageReceipts.server r = Some srv ->
                    lo <= MessageReceipts.latency_ms r <= hi.
Proof.
  intros H. exists (statsOf env w). split; [apply getStats_healthy; exact H|].
  intros receipts p entry Hp.
  pose proof (statsOf_protocols env w p) as Hc. cbv zeta in Hc. rewrite Hp in Hc.
  fold receipts in Hc. destruct Hc as (Hpos & Hsame & Hsrv).
  destruct Hsame as (Htotal & _).
  cbn [toProtocolStats protocolRow ProtocolStats.totalDelivered ProtocolRow.delivered]
    in Htotal.
  rewrite group_length in Htotal. change (fun r => bool_decide (MessageReceipts.protocol r = p))
    with (fromProtocol p) in Htotal.
  assert (Hentry : forall srv e,
            ProtocolStats.servers entry !! srv = Some e ->
            srv <> EmptyString /\ (1 <= countIf (fromServer p srv) receipts)%nat /\
            e = toServerStats (serverRow (List.filter hasServer receipts) (p, Some srv))).
  { intros srv e He. rewrite Hsrv in He.
    destruct (decide (srv <> EmptyString /\ (1 <= countIf (fromServer p srv) receipts)%nat))
      as [[H1 H2]|_]; [|discriminate].
    injection He as <-. repeat split; assumption. }
  assert (Hsum : deliveredByServers (ProtocolStats.servers entry)
                 = Z.of_nat (countIf (fun r => fromProtocol p r && namedServer r) receipts)).
  { unfold deliveredByServers.
    rewrite (sum_of_counts ServerStats.delivered
               (fun r => if fromProtocol p r then Js.orNullStr (MessageReceipts.server r)
                         else None) _ receipts).
    - f_equal. apply countIf_ext. intros r _. apply serverClass_classified.
    - intros srv e He. destruct (Hentry srv e He) as (Hne & _ & ->).
      cbn [toServerStats serverRow ServerStats.delivered ServerRow.delivered].
      rewrite group_server. f_equal. apply countIf_ext. intros r _.
      rewrite serverClass_inClass. rewrite bool_decide_eq_true_2 by exact Hne. reflexivity.
    - intros srv He. rewrite Hsrv in He.
      destruct (decide (srv <> EmptyString /\ (1 <= countIf (fromServer p srv) receipts)%nat))
        as [_|Hn]; [discriminate|].
      rewrite (countIf_ext _ (fun r => bool_decide (srv <> EmptyString) && fromServer p srv r))
        by (intros r _; apply serverClass_inClass).
      destruct (decide (srv = EmptyString)) as [->|Hne].
      + apply countIf_none. apply not_true_is_false. intros Hex.
        apply existsb_exists in Hex as (r & _ & Hr).
        rewrite bool_decide_eq_false_2 in Hr by congruence. discriminate.
      + rewrite (countIf_ext _ (fromServer p srv))
          by (intros r _; rewrite bool_decide_eq_true_2 by exact Hne; reflexivity).
        destruct (countIf (fromServer p srv) receipts) as [|n]; [reflexivity|].
        exfalso. apply Hn. split; [exact Hne|lia]. }
  split; [exact Hsum|]. split; [|split].
  - rewrite Hsum, <- Htotal. apply inj_le, countIf_le.
    intros r Hr. apply andb_true_iff in Hr as [Hr _]. exact Hr.
  - intros srv. rewrite Hsrv.
    destruct (decide (srv <> EmptyString /\ (1 <= countIf (fromServer p srv) receipts)%nat))
      as [[H1 H2]|Hn].
    + split; [discriminate|]. intros [H0|H0]; [congruence|lia].
    + split; [|reflexivity]. intros _.
      destruct (decide (srv = EmptyString)) as [->|Hne]; [left; reflexivity|right].
      destruct (countIf (fromServer p srv) receipts) as [|n]; [reflexivity|].
      exfalso. apply Hn. split; [exact Hne|lia].
  - intros srv e He. destruct (Hentry srv e He) as (Hne & Hcount & ->).
    cbn [toServerStats serverRow ServerStats.delivered ServerRow.delivered
         ServerStats.minLatency ServerRow.min_latency ServerStats.maxLatency
         ServerRow.max_latency ServerStats.avgLatency ServerRow.avg_latency].
    rewrite group_server. split; [reflexivity|]. split; [lia|].
    assert (Hmembers : Aggregate.group serverKey (p, Some srv) (List.filter hasServer receipts)
                       <> []).
    { intros Hnil. apply (f_equal (@length _)) in Hnil. rewrite group_server in Hnil.
      simpl in Hnil. lia. }
    destruct (latency_summary _ Hmembers) as (lo & hi & Hlo & Hhi & Hbetween & Hall).
    exists lo, hi. split; [exact Hlo|]. split; [exact Hhi|]. split; [exact Hbetween|].
    intros r Hr Hrp Hrs. apply Hall. unfold Aggregate.group.
    apply list_elem_of_In, List.filter_In. split.
    + apply List.filter_In. split; [apply list_elem_of_In; exact Hr|].
      unfold hasServer. rewrite Hrs. reflexivity.
    + apply bool_decide_eq_true_2. unfold serverKey. congruence.
Qed.

Lemma getStats_server_breakdown_witness :
  exists stats,
    fst (getStats Example.env
           (snd (ChatBroadcaster.handleIncomingMessage Example.env Example.hello "nostr"
                   (Some "wss://relay.damus.io") Example.fresh))) = Ok stats /\
    forall entry,
      Stats.protocols stats !! "nostr" = Some entry ->
      deliveredByServers (ProtocolStats.servers entry) = 1.
Proof.
  destruct (getStats_server_breakdown Example.env
              (snd (ChatBroadcaster.handleIncomingMessage Example.env Example.hello "nostr"
                      (Some "wss://relay.damus.io") Example.fresh)))
    as (stats & Hok & Hall).
  - intros n. reflexivity.
  - exists stats. split; [exact Hok|]. intros entry He.
    destruct (Hall "nostr" entry He) as (Hsum & _). rewrite Hsum. vm_compute. reflexivity.
Defined.

(** ** Totals and the date range *)

Lemma distinct_le {A B} `{EqDecision A} `{EqDecision B} (f : A -> B) (l : list A) :
  (length (remove_dups (map f l)) <= length (remove_dups l))%nat.
Proof.
  rewrite <- (length_map f (remove_dups l)). apply submseteq_length.
  apply NoDup_submseteq; [apply NoDup_remove_dups|].
  intros y Hy. apply elem_of_remove_dups, list_elem_of_fmap in Hy as (x & -> & Hx).
  apply list_elem_of_fmap. exists x. split; [reflexivity|]. apply elem_of_remove_dups. exact Hx.
Qed.

Lemma distinct_injective {A B} `{EqDecision A} `{EqDecision B} (f : A -> B) (l : list A) :
  (forall x y, x ∈ l -> y ∈ l -> f x = f y -> x = y) ->
  length (remove_dups (map f l)) = length (remove_dups l).
Proof.
  intros Hinj. apply Nat.le_antisymm; [apply distinct_le|].
  assert (Hperm : map f (remove_dups l) ⊆+ remove_dups (map f l)).
  { apply NoDup_submseteq.
    - apply NoDup_fmap_2_strong; [|apply NoDup_remove_dups].
      intros x y Hx Hy. apply Hinj; apply elem_of_remove_dups; assumption.
    - intros y Hy. apply list_elem_of_fmap in Hy as (x & -> & Hx).
      apply elem_of_remove_dups, list_elem_of_fmap. exists x. split; [reflexivity|].
      apply elem_of_remove_dups. exact Hx. }
  apply submseteq_length in Hperm. rewrite length_map in Hperm. exact Hperm.
Qed.

Lemma distinct_le_length {A} `{EqDecision A} (l : list A) :
  (length (remove_dups l) <= length l)%nat.
Proof.
  apply submseteq_length, NoDup_submseteq; [apply NoDup_remove_dups|].
  intros x. apply elem_of_remove_dups.
Qed.

(** Where the first ['-'] of a name is tells the sender from the recipient. *)
Lemma name_injective (a b c d : string) :
  hasDash a = false -> hasDash c = false ->
  a +:+ "-" +:+ b = c +:+ "-" +:+ d -> a = c /\ b = d.
Proof.
  revert c. induction a as [|x a IH]; intros c Ha Hc Heq.
  - destruct c as [|y c]; cbn in Heq.
    + injection Heq as Heq. split; [reflexivity|exact Heq].
    + injection Heq as Hy _. subst y. cbn [hasDash] in Hc.
      rewrite bool_decide_eq_true_2 in Hc by reflexivity. discriminate.
  - destruct c as [|y c]; cbn in Heq.
    + injection Heq as Hx _. subst x. cbn [hasDash] in Ha.
      rewrite bool_decide_eq_true_2 in Ha by reflexivity. discriminate.
    + injection Heq as Hx Heq. subst y. cbn [hasDash] in Ha, Hc.
      apply orb_false_iff in Ha as [_ Ha]. apply orb_false_iff in Hc as [_ Hc].
      destruct (IH c Ha Hc Heq) as [-> ->]. split; reflexivity.
Qed.

Lemma conversationName_key (rows : list Messages.row) :
  map conversationName rows
  = map (fun key : string * string => fst key +:+ "-" +:+ snd key) (map conversationKey rows).
Proof. rewrite map_map. reflexivity. Qed.

(** X17.  The totals of [getStats].  On a working store: [totalMessages]
    is the number of rows of [messages] and [totalAcknowledgments], the
    number of them with [is_acknowledgment = 1], is at most that;
    [dateRange.earliest] is never left at [Infinity]: both ends are [0] for
    an empty table, and otherwise they bound every timestamp;
    [uniqueConversations] counts sender-recipient pairs, each direction on
    its own, through the text [from-to], so it is at most the number of
    distinct pairs and equal to it when no sender has a ['-'];
    [messagesWithReceipts] is the number of distinct uuids in
    [message_receipts], at most the number of receipts, and at most
    [totalMessages] when every receipt belongs to a stored message. *)
Theorem getStats_message_totals (env : Env) (w : World) :
  Healthy env ->
  exists stats earliest,
    fst (getStats env w) = Ok stats /\
    let rows := messages (db w) in
    let receipts := message_receipts (db w) in
    Stats.earliest stats = Millis earliest /\
    Stats.totalMessages stats = Z.of_nat (length rows) /\
    Stats.totalAcknowledgments stats = Z.of_nat (countIf isAck rows) /\
    Stats.totalAcknowledgments stats <= Stats.totalMessages stats /\
    (rows = [] -> earliest = 0 /\ Stats.latest stats = 0) /\
    (forall r, r ∈ rows -> earliest <= Messages.timestamp r <= Stats.latest stats) /\
    earliest <= Stats.latest stats /\
    Stats.uniqueConversations stats
    <= Z.of_nat (length (remove_dups (map conversationKey rows))) /\
    ((forall r, r ∈ rows -> hasDash (Messages.from_identity r) = false) ->
     Stats.uniqueConversations stats
     = Z.of_nat (length (remove_dups (map conversationKey rows)))) /\
    Stats.messagesWithReceipts stats
    = Z.of_nat (length (remove_dups (map MessageReceipts.message_uuid receipts))) /\
    Stats.messagesWithReceipts stats <= Z.of_nat (length receipts) /\
    ((forall r, r ∈ receipts ->
                exists m, m ∈ rows /\ Messages.uuid m = MessageReceipts.message_uuid r) ->
     Stats.messagesWithReceipts stats <= Stats.totalMessages stats).
Proof.
  intros H. exists (statsOf env w).
  exists (orZero (Aggregate.minimum (map Messages.timestamp (messages (db w))))).
  split; [apply getStats_healthy; exact H|]. intros rows receipts.
  unfold statsOf. cbn [Stats.earliest Stats.totalMessages Stats.totalAcknowledgments
                       Stats.latest Stats.uniqueConversations Stats.messagesWithReceipts].
  fold rows receipts.
  assert (Hrange : forall r, r ∈ rows ->
            orZero (Aggregate.minimum (map Messages.timestamp rows)) <= Messages.timestamp r
            <= orZero (Aggregate.maximum (map Messages.timestamp rows))).
  { intros r Hr.
    assert (Hin : Messages.timestamp r ∈ map Messages.timestamp rows)
      by (apply list_elem_of_fmap; exists r; split; [reflexivity|exact Hr]).
    destruct (Aggregate.minimum (map Messages.timestamp rows)) as [lo|] eqn:Hlo;
      [|destruct rows; [inversion Hr|discriminate]].
    destruct (Aggregate.maximum (map Messages.timestamp rows)) as [hi|] eqn:Hhi;
      [|destruct rows; [inversion Hr|discriminate]].
    apply minimum_bound in Hlo as [_ Hlo]. apply maximum_bound in Hhi as [_ Hhi].
    rewrite Forall_forall in Hlo, Hhi. simpl. split; [apply Hlo|apply Hhi]; exact Hin. }
  split; [reflexivity|]. split; [reflexivity|]. split; [reflexivity|].
  split; [apply inj_le, countIf_length|].
  split; [intros ->; split; reflexivity|]. split; [exact Hrange|]. split.
  { destruct rows as [|r rest] eqn:Hrows; [simpl; lia|].
    destruct (Hrange r) as [H1 H2]; [left|]. lia. }
  unfold Aggregate.countDistinct. rewrite conversationName_key.
  split; [apply inj_le, distinct_le|]. split.
  { intros Hdash. f_equal. apply distinct_injective.
    intros [a b] [c d] Hx Hy Heq. cbn [fst snd] in Heq.
    apply list_elem_of_fmap in Hx as (r1 & Hk1 & Hr1).
    apply list_elem_of_fmap in Hy as (r2 & Hk2 & Hr2).
    unfold conversationKey in Hk1, Hk2. injection Hk1 as -> ->. injection Hk2 as -> ->.
    destruct (name_injective _ _ _ _ (Hdash r1 Hr1) (Hdash r2 Hr2) Heq) as [-> ->].
    reflexivity. }
  split; [reflexivity|]. split.
  { rewrite <- (length_map MessageReceipts.message_uuid receipts).
    apply inj_le, distinct_le_length. }
  intros Hstored. apply inj_le.
  rewrite <- (length_map Messages.uuid rows). apply submseteq_length.
  apply NoDup_submseteq; [apply NoDup_remove_dups|].
  intros u Hu. apply elem_of_remove_dups, list_elem_of_fmap in Hu as (r & -> & Hr).
  destruct (Hstored r Hr) as (m & Hm & Hum). apply list_elem_of_fmap.
  exists m. split; [symmetry; exact Hum|exact Hm].
Qed.

Lemma getStats_message_totals_witness :
  exists stats earliest,
    fst (getStats Example.env
           (snd (ChatBroadcaster.handleIncomingMessage Example.env Example.hello "nostr"
                   None Example.fresh))) = Ok stats /\
    Stats.earliest stats = Millis earliest /\
    Stats.totalMessages stats = 2 /\
    Stats.totalAcknowledgments stats = 1.
Proof.
  destruct (getStats_message_totals Example.env
              (snd (ChatBroadcaster.handleIncomingMessage Example.env Example.hello "nostr"
                      None Example.fresh)))
    as (stats & earliest & Hok & Hrest).
  - intros n. reflexivity.
  - cbv zeta in Hrest. destruct Hrest as (Hearliest & Htotal & Hacks & _).
    exists stats, earliest. split; [exact Hok|]. split; [exact Hearliest|].
    rewrite Htotal, Hacks. vm_compute. split; reflexivity.
Defined.

(** ** The busiest conversations *)

Lemma busierFirst_total (r1 r2 : ConversationRow.row) :
  busierFirst r1 r2 = true \/ busierFirst r2 r1 = true.
Proof. unfold busierFirst. rewrite !Z.leb_le. lia. Qed.

Lemma busierFirst_trans (r1 r2 r3 : ConversationRow.row) :
  busierFirst r1 r2 = true -> busierFirst r2 r3 = true -> busierFirst r1 r3 = true.
Proof. unfold busierFirst. rewrite !Z.leb_le. lia. Qed.

Lemma group_conversation (rows : list Messages.row) (a b : string) :
  length (Aggregate.group conversationKey (a, b) (List.filter notAck rows))
  = countIf (inConversation a b) rows.
Proof. rewrite group_length, countIf_filter_and. reflexivity. Qed.

(** The groups of a table have all its rows between them. *)
Lemma groups_cover {A K} `{EqDecision K} (e : A -> K) (keys : list K) (rows : list A) :
  NoDup keys ->
  Aggregate.total (map (fun k => Z.of_nat (length (Aggregate.group e k rows))) keys)
  = Z.of_nat (countIf (fun r => bool_decide (e r ∈ keys)) rows).
Proof.
  unfold Aggregate.total. induction 1 as [|k keys Hk Hnd IH]; cbn [map foldr].
  - rewrite countIf_none; [reflexivity|]. apply not_true_is_false. intros Hex.
    apply existsb_exists in Hex as (r & _ & Hr). apply bool_decide_eq_true in Hr. inversion Hr.
  - rewrite IH, group_length, <- Nat2Z.inj_add. f_equal.
    clear IH. induction rows as [|r rows IHr]; simpl; [reflexivity|].
    destruct (decide (e r = k)) as [Hrk|Hrk].
    + rewrite (bool_decide_eq_true_2 _ Hrk).
      rewrite (bool_decide_eq_true_2 (e r ∈ k :: keys)) by (rewrite Hrk; left).
      rewrite (bool_decide_eq_false_2 (e r ∈ keys)) by (rewrite Hrk; exact Hk). lia.
    + rewrite (bool_decide_eq_false_2 _ Hrk).
      destruct (decide (e r ∈ keys)) as [Hin|Hnot].
      * rewrite (bool_decide_eq_true_2 _ Hin).
        rewrite (bool_decide_eq_true_2 (e r ∈ k :: keys)) by (right; exact Hin). lia.
      * rewrite (bool_decide_eq_false_2 _ Hnot).
        rewrite (bool_decide_eq_false_2 (e r ∈ k :: keys)); [lia|].
        intros Hin. apply elem_of_cons in Hin as [Hin|Hin]; auto.
Qed.

Lemma total_app (xs ys : list Z) :
  Aggregate.total (xs ++ ys) = Aggregate.total xs + Aggregate.total ys.
Proof. unfold Aggregate.total. induction xs as [|x xs IH]; simpl; [reflexivity|]. lia. Qed.

Lemma total_Permutation (xs ys : list Z) :
  xs ≡ₚ ys -> Aggregate.total xs = Aggregate.total ys.
Proof. unfold Aggregate.total. induction 1; simpl; lia. Qed.

Lemma total_nonneg (xs : list Z) : Forall (fun x => 0 <= x) xs -> 0 <= Aggregate.total xs.
Proof. unfold Aggregate.total. induction 1; simpl; lia. Qed.

(** X18.  The busiest conversations of [getStats].  On a working store,
    [stats.topConversations] lists sender-recipient pairs by their number
    of messages, acknowledgments not counted, the busiest first: it has
    one entry for each of up to five pairs that exchanged such a message,
    each with its count (at least 1) and with both identities cut to 50
    characters and followed by three dots; a pair that is left out has no
    more messages than any pair listed; and the counts listed add up to at
    most the number of messages that are not acknowledgments, and to that
    number when there are at most five pairs. *)
Theorem getStats_top_conversations (env : Env) (w : World) :
  Healthy env ->
  exists stats,
    fst (getStats env w) = Ok stats /\
    let rows := messages (db w) in
    let top := Stats.topConversations stats in
    let pairs := remove_dups (map conversationKey (List.filter notAck rows)) in
    length top = Nat.min 5 (length pairs) /\
    StronglySorted (fun c1 c2 => Conversation.count c2 <= Conversation.count c1) top /\
    (forall c, c ∈ top ->
       exists a b,
         c = Conversation.mk (abbreviate a) (abbreviate b)
               (Z.of_nat (countIf (inConversation a b) rows)) /\
         1 <= Conversation.count c) /\
    (forall a b,
       (1 <= countIf (inConversation a b) rows)%nat ->
       Conversation.mk (abbreviate a) (abbreviate b)
         (Z.of_nat (countIf (inConversation a b) rows)) ∈ top
       \/ Forall (fun c => Z.of_nat (countIf (inConversation a b) rows) <= Conversation.count c)
            top) /\
    Aggregate.total (map Conversation.count top) <= Z.of_nat (countIf notAck rows) /\
    ((length pairs <= 5)%nat ->
     Aggregate.total (map Conversation.count top) = Z.of_nat (countIf notAck rows)).
Proof.
  intros H. exists (statsOf env w). split; [apply getStats_healthy; exact H|].
  intros rows top pairs. unfold top, statsOf. cbn [Stats.topConversations]. clear top.
  unfold busiest. fold rows. fold (Aggregate.groups conversationKey (List.filter notAck rows)).
  set (rows' := List.filter notAck rows).
  set (keys := Aggregate.groups conversationKey rows').
  set (all := map (conversationRow rows') keys).
  set (sorted := Select.orderBy busierFirst all).
  destruct (limitTo_split 5 sorted) as (dropped & Hsplit & Hlen).
  set (kept := Select.limitTo 5 sorted) in *.
  assert (Hperm : sorted ≡ₚ all) by apply orderBy_Permutation.
  assert (Hsorted : StronglySorted (fun x y => busierFirst x y = true) sorted)
    by (apply orderBy_StronglySorted; [apply busierFirst_total|apply busierFirst_trans]).
  assert (Hkeys : forall a b, (a, b) ∈ keys <-> (1 <= countIf (inConversation a b) rows)%nat).
  { intros a b. unfold keys. rewrite groups_elem, <- group_conversation, group_length.
    fold rows'. split.
    - intros (r & Hr & Hk). apply (countIf_elem _ _ r Hr). apply bool_decide_eq_true_2. exact Hk.
    - intros Hc. apply countIf_positive in Hc as (r & Hr & Hk). exists r.
      split; [exact Hr|]. apply bool_decide_eq_true in Hk. exact Hk. }
  assert (Hall : forall row, row ∈ all ->
            exists a b, (a, b) ∈ keys /\
              row = ConversationRow.mk a b (Z.of_nat (countIf (inConversation a b) rows))).
  { intros row Hrow. apply list_elem_of_fmap in Hrow as ([a b] & -> & Hk).
    exists a, b. split; [exact Hk|]. unfold conversationRow. cbn [fst snd].
    unfold rows'. rewrite group_conversation. reflexivity. }
  assert (Hcounts : map Conversation.count (map toConversation kept)
                    = map ConversationRow.count kept).
  { rewrite map_map. reflexivity. }
  assert (Htotal : Aggregate.total (map ConversationRow.count all)
                   = Z.of_nat (countIf notAck rows)).
  { unfold all. rewrite map_map. cbn [conversationRow ConversationRow.count].
    rewrite (groups_cover conversationKey keys rows') by apply NoDup_remove_dups.
    f_equal. unfold rows'. rewrite countIf_filter_and.
    apply countIf_ext. intros r Hr. destruct (notAck r) eqn:Hack; [|reflexivity].
    cbn [andb]. apply bool_decide_eq_true_2. apply groups_elem. exists r.
    split; [|reflexivity]. apply list_elem_of_In, List.filter_In.
    split; [apply list_elem_of_In; exact Hr|exact Hack]. }
  assert (Hsum : Aggregate.total (map ConversationRow.count kept)
                 + Aggregate.total (map ConversationRow.count dropped)
                 = Z.of_nat (countIf notAck rows)).
  { rewrite <- Htotal, <- total_app, <- map_app, <- Hsplit.
    apply total_Permutation, fmap_Permutation. exact Hperm. }
  assert (Hpos : forall l, l ⊆ all -> Forall (fun x => 0 <= x) (map ConversationRow.count l)).
  { intros l Hl. apply Forall_map, Forall_forall. intros row Hrow.
    destruct (Hall row (Hl row Hrow)) as (a & b & _ & ->). simpl. lia. }
  split; [|split; [|split; [|split; [|split]]]].
  - rewrite length_map, Hlen. simpl (5 <? 0). cbv iota.
    rewrite (Permutation_length Hperm). unfold all. rewrite length_map. reflexivity.
  - apply StronglySorted_map. rewrite Hsplit in Hsorted.
    apply StronglySorted_app_1_l in Hsorted.
    eapply StronglySorted_weaken; [|exact Hsorted].
    intros r1 r2 Hr. unfold busierFirst in Hr. apply Z.leb_le in Hr. exact Hr.
  - intros c Hc. apply list_elem_of_fmap in Hc as (row & -> & Hrow).
    assert (Hin : row ∈ all).
    { rewrite <- Hperm, Hsplit. apply elem_of_app. left. exact Hrow. }
    destruct (Hall row Hin) as (a & b & Hk & ->). exists a, b. split; [reflexivity|].
    cbn [toConversation Conversation.count ConversationRow.count].
    apply Hkeys in Hk. lia.
  - intros a b Hc.
    assert (Hrow : conversationRow rows' (a, b) ∈ kept ++ dropped).
    { rewrite <- Hsplit, Hperm. apply list_elem_of_fmap. exists (a, b).
      split; [reflexivity|]. apply Hkeys. exact Hc. }
    assert (Heq : conversationRow rows' (a, b)
                  = ConversationRow.mk a b (Z.of_nat (countIf (inConversation a b) rows))).
    { unfold conversationRow. cbn [fst snd]. unfold rows'.
      rewrite group_conversation. reflexivity. }
    rewrite Heq in Hrow. apply elem_of_app in Hrow as [Hk|Hd].
    + left. apply list_elem_of_fmap. eexists. split; [|exact Hk]. reflexivity.
    + right. apply Forall_map, Forall_forall. intros x Hx.
      rewrite Hsplit in Hsorted.
      pose proof (StronglySorted_app_1_elem_of _ _ _ x _ Hsorted Hx Hd) as Hle.
      unfold busierFirst in Hle. apply Z.leb_le in Hle. exact Hle.
  - rewrite Hcounts.
    assert (Hd : 0 <= Aggregate.total (map ConversationRow.count dropped)).
    { apply total_nonneg, Hpos. intros row Hrow. rewrite <- Hperm, Hsplit.
      apply elem_of_app. right. exact Hrow. }
    lia.
  - intros Hfew. rewrite Hcounts.
    assert (Hnone : dropped = []).
    { apply (f_equal (@length _)) in Hsplit. rewrite length_app, Hlen in Hsplit.
      change (5 <? 0) with false in Hsplit. cbv iota in Hsplit.
      assert (Hl : length sorted = length pairs).
      { rewrite (Permutation_length Hperm). unfold all. rewrite length_map. reflexivity. }
      destruct dropped; [reflexivity|]. rewrite length_cons in Hsplit.
      change (Z.to_nat 5) with 5%nat in Hsplit. exfalso. lia. }
    rewrite Hnone in Hsum. simpl in Hsum. unfold Aggregate.total in *. simpl in Hsum. lia.
Qed.

Lemma getStats_top_conversations_witness :
  exists stats,
    fst (getStats Example.env
           (snd (ChatBroadcaster.handleIncomingMessage Example.env Example.hello "nostr"
                   None Example.fresh))) = Ok stats /\
    length (Stats.topConversations stats) = 1%nat.
Proof.
  destruct (getStats_top_conversations Example.env
              (snd (ChatBroadcaster.handleIncomingMessage Example.env Example.hello "nostr"
                      None Example.fresh)))
    as (stats & Hok & Hrest).
  - intros n. reflexivity.
  - cbv zeta in Hrest. destruct Hrest as (Hlen & _).
    exists stats. split; [exact Hok|]. rewrite Hlen. vm_compute. reflexivity.
Defined.

(** ** When a statement fails *)

(** X19.  [getStats] only reads.  Whatever the database answers, it leaves
    the store, the seen set and the trace as they are and makes at most
    five [db.execute] calls, none of them retried: the first statement that
    raises an error, SQLITE_BUSY included, makes [getStats] reject with
    that error at once, with the statements after it not run; and when the
    five statements go through it resolves, having read the clock once. *)
Theorem getStats_reads_only (env : Env) (w : World) :
  db (snd (getStats env w)) = db w /\
  seenMessageUuids (snd (getStats env w)) = seenMessageUuids w /\
  trace (snd (getStats env w)) = trace w /\
  (forall k e,
     (k < 5)%nat ->
     (forall j, (j < k)%nat -> sqliteFault env (executes w + j) = None) ->
     sqliteFault env (executes w + k) = Some e ->
     fst (getStats env w) = Throw e /\
     executes (snd (getStats env w)) = (executes w + k + 1)%nat) /\
  ((forall j, (j < 5)%nat -> sqliteFault env (executes w + j) = None) ->
   (exists stats, fst (getStats env w) = Ok stats) /\
   executes (snd (getStats env w)) = (executes w + 5)%nat /\
   clock (snd (getStats env w)) = S (clock w)).
Proof.
  assert (Hrun : forall f0 f1 f2 f3 f4,
            sqliteFault env (executes w + 0) = f0 ->
            sqliteFault env (executes w + 1) = f1 ->
            sqliteFault env (executes w + 2) = f2 ->
            sqliteFault env (executes w + 3) = f3 ->
            sqliteFault env (executes w + 4) = f4 ->
            db (snd (getStats env w)) = db w /\
            seenMessageUuids (snd (getStats env w)) = seenMessageUuids w /\
            trace (snd (getStats env w)) = trace w /\
            match f0, f1, f2, f3, f4 with
            | Some e, _, _, _, _ =>
                fst (getStats env w) = Throw e /\
                executes (snd (getStats env w)) = (executes w + 0 + 1)%nat
            | None, Some e, _, _, _ =>
                fst (getStats env w) = Throw e /\
                executes (snd (getStats env w)) = (executes w + 1 + 1)%nat
            | None, None, Some e, _, _ =>
                fst (getStats env w) = Throw e /\
                executes (snd (getStats env w)) = (executes w + 2 + 1)%nat
            | None, None, None, Some e, _ =>
                fst (getStats env w) = Throw e /\
                executes (snd (getStats env w)) = (executes w + 3 + 1)%nat
            | None, None, None, None, Some e =>
                fst (getStats env w) = Throw e /\
                executes (snd (getStats env w)) = (executes w + 4 + 1)%nat
            | None, None, None, None, None =>
                (exists stats, fst (getStats env w) = Ok stats) /\
                executes (snd (getStats env w)) = (executes w + 5)%nat /\
                clock (snd (getStats env w)) = S (clock w)
            end).
  { intros f0 f1 f2 f3 f4 F0 F1 F2 F3 F4.
    replace (executes w + 0)%nat with (executes w) in * by lia.
    replace (executes w + 1)%nat with (S (executes w)) in * by lia.
    replace (executes w + 2)%nat with (S (S (executes w))) in * by lia.
    replace (executes w + 3)%nat with (S (S (S (executes w)))) in * by lia.
    replace (executes w + 4)%nat with (S (S (S (S (executes w))))) in * by lia.
    replace (executes w + 5)%nat with (S (S (S (S (S (executes w)))))) in * by lia.
    unfold getStats, bind, now, ret, ChatDatabaseQueries.select.
    rewrite F0. destruct f0 as [e0|]; [repeat split; cbn [fst snd executes tickExecutes tickClock]; try reflexivity; lia|].
    cbn [messageTotals tickExecutes tickClock executes db clock].
    rewrite F1. destruct f1 as [e1|]; [repeat split; cbn [fst snd executes tickExecutes tickClock]; try reflexivity; lia|].
    cbn [tickExecutes tickClock executes db clock].
    rewrite F2. destruct f2 as [e2|]; [repeat split; cbn [fst snd executes tickExecutes tickClock]; try reflexivity; lia|].
    cbn [tickExecutes tickClock executes db clock].
    rewrite F3. destruct f3 as [e3|]; [repeat split; cbn [fst snd executes tickExecutes tickClock]; try reflexivity; lia|].
    cbn [tickExecutes tickClock executes db clock].
    rewrite F4. destruct f4 as [e4|]; [repeat split; cbn [fst snd executes tickExecutes tickClock]; try reflexivity; lia|].
    split; [reflexivity|]. split; [reflexivity|]. split; [reflexivity|].
    split; [eexists; reflexivity|].
    split; cbn [fst snd executes clock tickExecutes tickClock]; try reflexivity; lia. }
  specialize (Hrun _ _ _ _ _ eq_refl eq_refl eq_refl eq_refl eq_refl).
  destruct Hrun as (Hdb & Hseen & Htrace & Hcases).
  split; [exact Hdb|]. split; [exact Hseen|]. split; [exact Htrace|]. split.
  - intros k e Hk Hprev Hfail.
    destruct k as [|[|[|[|[|k]]]]]; try lia.
    + rewrite Hfail in Hcases. exact Hcases.
    + rewrite (Hprev 0%nat) in Hcases by lia. rewrite Hfail in Hcases. exact Hcases.
    + rewrite (Hprev 0%nat), (Hprev 1%nat) in Hcases by lia.
      rewrite Hfail in Hcases. exact Hcases.
    + rewrite (Hprev 0%nat), (Hprev 1%nat), (Hprev 2%nat) in Hcases by lia.
      rewrite Hfail in Hcases. exact Hcases.
    + rewrite (Hprev 0%nat), (Hprev 1%nat), (Hprev 2%nat), (Hprev 3%nat) in Hcases by lia.
      rewrite Hfail in Hcases. exact Hcases.
  - intros Hnone.
    rewrite (Hnone 0%nat), (Hnone 1%nat), (Hnone 2%nat), (Hnone 3%nat), (Hnone 4%nat)
      in Hcases by lia.
    exact Hcases.
Qed.

(** * Durations as text *)

(** The nested quotients of [formatDuration] and [formatTimeAgo], in
    milliseconds. *)
Lemma duration_units (ms : Z) :
  ms / 1000 / 60 = ms / 60000 /\
  ms / 1000 / 60 / 60 = ms / 3600000 /\
  ms / 1000 / 60 / 60 / 24 = ms / 86400000.
Proof.
  rewrite !Z.div_div by lia. repeat split; reflexivity.
Qed.

(** X20.  What [formatDuration] shows.  For a duration of [ms >= 0]
    milliseconds: below a minute the text is the whole seconds; from a
    minute on it is minutes and seconds, from an hour on hours, minutes and
    seconds, the hours below 24, the minutes and seconds below 60, and in
    each case the figures shown make up the duration rounded down to the
    second; from a day on it is days, hours and minutes and the seconds are
    not shown, so the figures make up the duration rounded down to the
    minute. *)
Theorem formatDuration_figures (ms : Z) :
  0 <= ms ->
  (ms < 60000 -> formatDuration ms = pretty (ms / 1000) +:+ "s") /\
  (60000 <= ms < 3600000 ->
   exists m s,
     formatDuration ms = pretty m +:+ "m " +:+ pretty s +:+ "s" /\
     1 <= m < 60 /\ 0 <= s < 60 /\
     m * 60 + s = ms / 1000) /\
  (3600000 <= ms < 86400000 ->
   exists h m s,
     formatDuration ms = pretty h +:+ "h " +:+ pretty m +:+ "m " +:+ pretty s +:+ "s" /\
     1 <= h < 24 /\ 0 <= m < 60 /\ 0 <= s < 60 /\
     (h * 60 + m) * 60 + s = ms / 1000) /\
  (86400000 <= ms ->
   exists d h m,
     formatDuration ms = pretty d +:+ "d " +:+ pretty h +:+ "h " +:+ pretty m +:+ "m" /\
     1 <= d /\ 0 <= h < 24 /\ 0 <= m < 60 /\
     (d * 24 + h) * 60 + m = ms / 60000).
Proof.
  intros Hms. destruct (duration_units ms) as (Hmin & Hhour & Hday).
  unfold formatDuration. cbv zeta. rewrite Hday, Hhour, Hmin.
  split; [|split; [|split]].
  - intros Hlt.
    assert (H1 : ms / 86400000 = 0) by (apply Z.div_small; lia).
    assert (H2 : ms / 3600000 = 0) by (apply Z.div_small; lia).
    assert (H3 : ms / 60000 = 0) by (apply Z.div_small; lia).
    rewrite H1, H2, H3. reflexivity.
  - intros [Hlo Hhi].
    assert (H1 : ms / 86400000 = 0) by (apply Z.div_small; lia).
    assert (H2 : ms / 3600000 = 0) by (apply Z.div_small; lia).
    assert (H3 : (0 <? ms / 60000) = true)
      by (apply Z.ltb_lt; Z.to_euclidean_division_equations; lia).
    rewrite H1, H2, H3. cbn [Z.ltb Z.compare].
    exists (ms / 60000), (Z.rem (ms / 1000) 60). split; [reflexivity|].
    Z.to_euclidean_division_equations. lia.
  - intros [Hlo Hhi].
    assert (H1 : ms / 86400000 = 0) by (apply Z.div_small; lia).
    assert (H2 : (0 <? ms / 3600000) = true)
      by (apply Z.ltb_lt; Z.to_euclidean_division_equations; lia).
    rewrite H1, H2. cbn [Z.ltb Z.compare].
    exists (ms / 3600000), (Z.rem (ms / 60000) 60), (Z.rem (ms / 1000) 60).
    split; [reflexivity|]. Z.to_euclidean_division_equations. lia.
  - intros Hlo.
    assert (H1 : (0 <? ms / 86400000) = true)
      by (apply Z.ltb_lt; Z.to_euclidean_division_equations; lia).
    rewrite H1.
    exists (ms / 86400000), (Z.rem (ms / 3600000) 24), (Z.rem (ms / 60000) 60).
    split; [reflexivity|]. Z.to_euclidean_division_equations. lia.
Qed.

Lemma formatDuration_figures_witness :
  (exists d h m,
     formatDuration 93784000 = pretty d +:+ "d " +:+ pretty h +:+ "h " +:+ pretty m +:+ "m" /\
     1 <= d /\ 0 <= h < 24 /\ 0 <= m < 60 /\
     (d * 24 + h) * 60 + m = 93784000 / 60000) /\
  formatDuration 59999 = "59s".
Proof.
  destruct (formatDuration_figures 93784000) as (_ & _ & _ & Hd); [lia|].
  destruct (formatDuration_figures 59999) as (Hs & _); [lia|].
  split; [apply Hd; lia|]. rewrite Hs by lia. vm_compute. reflexivity.
Defined.

(** X21.  What [formatTimeAgo] shows.  For [ms >= 0] milliseconds the
    text is a count and a unit: the unit is the largest of day, hour,
    minute and second that fits into [ms] (second when none does), the
    count is [ms] in that unit rounded down, and the unit gets its plural
    [s] exactly when the count is above 1, so less than a second reads
    [0 second]. *)
Theorem formatTimeAgo_largest_unit (ms : Z) :
  0 <= ms ->
  exists (n : Z) (unit : string) (size : Z),
    formatTimeAgo ms = pretty n +:+ " " +:+ unit +:+ (if 1 <? n then "s" else "") /\
    n = ms / size /\
    ((unit = "day" /\ size = 86400000 /\ 86400000 <= ms)
     \/ (unit = "hour" /\ size = 3600000 /\ 3600000 <= ms < 86400000)
     \/ (unit = "minute" /\ size = 60000 /\ 60000 <= ms < 3600000)
     \/ (unit = "second" /\ size = 1000 /\ ms < 60000)).
Proof.
  intros Hms. destruct (duration_units ms) as (Hmin & Hhour & Hday).
  unfold formatTimeAgo. cbv zeta. rewrite Hday, Hhour, Hmin.
  destruct (0 <? ms / 86400000) eqn:H1.
  { exists (ms / 86400000), "day", 86400000. split; [reflexivity|]. split; [reflexivity|].
    left. apply Z.ltb_lt in H1. repeat split. Z.to_euclidean_division_equations. lia. }
  destruct (0 <? ms / 3600000) eqn:H2.
  { exists (ms / 3600000), "hour", 3600000. split; [reflexivity|]. split; [reflexivity|].
    right. left. apply Z.ltb_lt in H2. apply Z.ltb_ge in H1. repeat split;
      Z.to_euclidean_division_equations; lia. }
  destruct (0 <? ms / 60000) eqn:H3.
  { exists (ms / 60000), "minute", 60000. split; [reflexivity|]. split; [reflexivity|].
    right. right. left. apply Z.ltb_lt in H3. apply Z.ltb_ge in H1, H2. repeat split;
      Z.to_euclidean_division_equations; lia. }
  exists (ms / 1000), "second", 1000. split; [reflexivity|]. split; [reflexivity|].
  right. right. right. apply Z.ltb_ge in H1, H2, H3. repeat split.
  Z.to_euclidean_division_equations. lia.
Qed.

Lemma formatTimeAgo_largest_unit_witness :
  exists (n : Z) (unit : string),
    formatTimeAgo 7200000 = pretty n +:+ " " +:+ unit +:+ (if 1 <? n then "s" else "").
Proof.
  destruct (formatTimeAgo_largest_unit 7200000) as (n & unit & size & Heq & _); [lia|].
  exists n, unit. exact Heq.
Defined.
(** * The viewer of legacy databases *)

Lemma tally_lookup (messages : list (Stored.t Message.t)) (acc : gmap string Z) (p : string) :
  (forall q n, acc !! q = Some n -> 1 <= n) ->
  foldl LegacyStats.tally acc messages !! p
  = let c := countIf (inClass firstProtocol p) messages in
    if (c =? 0)%nat then acc !! p
    else Some (HistoryStats.orZero (acc !! p) + Z.of_nat c).
Proof.
  revert acc. induction messages as [|m messages IH]; intros acc Hacc; cbn [foldl].
  - reflexivity.
  - assert (Hnext : forall q n, LegacyStats.tally acc m !! q = Some n -> 1 <= n).
    { intros q n. unfold LegacyStats.tally.
      destruct (Js.orNullStr _) as [p0|]; [|apply Hacc].
      destruct (decide (q = p0)) as [->|Hne].
      - rewrite lookup_insert_eq. intros [= <-].
        destruct (acc !! p0) as [v|] eqn:Hv; simpl.
        + pose proof (Hacc _ _ Hv). destruct v; simpl; lia.
        + lia.
      - rewrite lookup_insert_ne by congruence. apply Hacc. }
    rewrite (IH _ Hnext). cbv zeta. cbn [countIf].
    set (c := countIf (inClass firstProtocol p) messages).
    unfold inClass, firstProtocol, LegacyStats.tally.
    destruct (Js.orNullStr (Message.firstReceivedProtocol (Stored.fields m))) as [p0|] eqn:Hp0.
    + destruct (decide (p0 = p)) as [->|Hne].
      * rewrite bool_decide_eq_true_2 by reflexivity. rewrite lookup_insert_eq.
        assert (Hold : HistoryStats.orZero (Js.orNull (acc !! p)) = HistoryStats.orZero (acc !! p)).
        { destruct (acc !! p) as [[| |]|]; reflexivity. }
        rewrite Hold. cbn [HistoryStats.orZero].
        destruct c as [|c]; simpl Nat.eqb; cbv iota.
        -- f_equal; lia.
        -- f_equal; lia.
      * rewrite bool_decide_eq_false_2 by congruence.
        rewrite lookup_insert_ne by congruence. reflexivity.
    + rewrite bool_decide_eq_false_2 by congruence. reflexivity.
Qed.

Lemma userReport_healthy (env : Env) (w : World) :
  Healthy env ->
  fst (LegacyStats.userReport env w)
  = Ok (if (length (Select.protocolPerformance (db w)) =? 0)%nat then None
        else Some (map ChatDatabaseQueries.toPerformance (Select.protocolPerformance (db w)),
                   LegacyStats.summary
                     (reverse (map ChatDatabaseQueries.toMessage
                                 (Select.conversation "" "" 1000 (db w)))))).
Proof.
  intros H.
  unfold LegacyStats.userReport, tryCatch, bind, ret,
    ChatDatabaseQueries.getProtocolPerformance, ChatDatabaseQueries.getConversation, bind, ret.
  rewrite select_healthy by exact H. rewrite length_map.
  destruct (length (Select.protocolPerformance (db w)) =? 0)%nat; [reflexivity|].
  rewrite select_healthy by exact H. reflexivity.
Qed.

Lemma filter_partition_length {A} (p : A -> bool) (l : list A) :
  (length (List.filter (fun x => negb (p x)) l) + length (List.filter p l) = length l)%nat.
Proof.
  induction l as [|x l IH]; simpl; [reflexivity|]. destruct (p x); simpl; lia.
Qed.

Lemma orNullStr_named (s : option string) (p : string) :
  Js.orNullStr s = Some p -> p <> EmptyString.
Proof. destruct s as [[|c s]|]; simpl; intros [= <-]; discriminate. Qed.

(** X22.  What the viewer of legacy databases counts.  On a working
    store, the report of a user is empty exactly when [protocol_performance]
    has no row.  Otherwise its message summary is taken from
    [getConversation('', '', 1000)], so it counts only the messages whose
    sender and recipient are both the empty string, at most 1000 of them:
    the messages sent and the acknowledgments add up to that total, the
    tally by protocol has positive entries for non-empty protocols that add
    up to at most the total, and when every stored message names a sender
    or a recipient the summary is zero throughout. *)
Theorem legacy_summary_counts (env : Env) (w : World) :
  Healthy env ->
  exists report,
    fst (LegacyStats.userReport env w) = Ok report /\
    let rows := messages (db w) in
    (report = None <-> protocol_performance (db w) = ∅) /\
    forall performance s,
      report = Some (performance, s) ->
      LegacyStats.MessageSummary.totalMessages s
      = Z.of_nat (Nat.min 1000 (countIf (Select.between "" "") rows)) /\
      LegacyStats.MessageSummary.sentMessages s + LegacyStats.MessageSummary.ackMessages s
      = LegacyStats.MessageSummary.totalMessages s /\
      talliedInTotal (LegacyStats.MessageSummary.messagesByProtocol s)
      <= LegacyStats.MessageSummary.totalMessages s /\
      (forall p n,
         LegacyStats.MessageSummary.messagesByProtocol s !! p = Some n ->
         p <> EmptyString /\ 1 <= n) /\
      ((forall r, r ∈ rows ->
                  Messages.from_identity r <> EmptyString
                  \/ Messages.to_identity r <> EmptyString) ->
       LegacyStats.MessageSummary.totalMessages s = 0 /\
       LegacyStats.MessageSummary.sentMessages s = 0 /\
       LegacyStats.MessageSummary.ackMessages s = 0 /\
       LegacyStats.MessageSummary.messagesByProtocol s = ∅).
Proof.
  intros H. eexists. split; [apply userReport_healthy; exact H|]. intros rows.
  assert (Hperf : length (Select.protocolPerformance (db w)) = 0%nat
                  <-> protocol_performance (db w) = ∅).
  { unfold Select.protocolPerformance. rewrite (Permutation_length (orderBy_Permutation _ _)).
    rewrite length_map_to_list. apply map_size_empty_iff. }
  split.
  { destruct (length (Select.protocolPerformance (db w))) as [|n] eqn:Hn; simpl.
    - split; [intros _; apply Hperf; reflexivity|reflexivity].
    - split; [discriminate|]. intros He. apply Hperf in He. discriminate. }
  intros performance s Hs.
  destruct (length (Select.protocolPerformance (db w)) =? 0)%nat; [discriminate|].
  injection Hs as _ <-.
  set (msgs := reverse (map ChatDatabaseQueries.toMessage (Select.conversation "" "" 1000 (db w)))).
  assert (Hlen : length msgs = Nat.min 1000 (countIf (Select.between "" "") rows)).
  { unfold msgs, Select.conversation. rewrite length_reverse, length_map.
    destruct (limitTo_split 1000
                (Select.orderBy Select.newerFirst
                   (List.filter (Select.between "" "") (messages (db w)))))
      as (dropped & _ & Hl).
    rewrite Hl. change (1000 <? 0) with false. cbv iota.
    rewrite (Permutation_length (orderBy_Permutation _ _)), <- countIf_filter.
    reflexivity. }
  assert (Hlookup : forall p,
            foldl LegacyStats.tally ∅ msgs !! p
            = if (countIf (inClass firstProtocol p) msgs =? 0)%nat then None
              else Some (Z.of_nat (countIf (inClass firstProtocol p) msgs))).
  { intros p. rewrite tally_lookup by (intros q n Hq; rewrite lookup_empty in Hq; discriminate).
    cbv zeta. rewrite lookup_empty. reflexivity. }
  cbn [LegacyStats.summary LegacyStats.MessageSummary.totalMessages
       LegacyStats.MessageSummary.sentMessages LegacyStats.MessageSummary.ackMessages
       LegacyStats.MessageSummary.messagesByProtocol].
  split; [rewrite Hlen; reflexivity|]. split.
  { rewrite <- Nat2Z.inj_add, filter_partition_length. reflexivity. }
  split.
  { unfold talliedInTotal.
    rewrite (sum_of_counts (fun n : Z => n) firstProtocol _ msgs).
    - apply inj_le, countIf_length.
    - intros p n Hp. rewrite Hlookup in Hp.
      destruct (countIf (inClass firstProtocol p) msgs =? 0)%nat; [discriminate|].
      injection Hp as <-. reflexivity.
    - intros p Hp. rewrite Hlookup in Hp.
      destruct (countIf (inClass firstProtocol p) msgs =? 0)%nat eqn:Hc; [|discriminate].
      apply Nat.eqb_eq in Hc. exact Hc. }
  split.
  { intros p n Hp. rewrite Hlookup in Hp.
    destruct (countIf (inClass firstProtocol p) msgs =? 0)%nat eqn:Hc; [discriminate|].
    injection Hp as <-. apply Nat.eqb_neq in Hc.
    assert (Hpos : (1 <= countIf (inClass firstProtocol p) msgs)%nat) by lia.
    split; [|lia]. apply countIf_positive in Hpos as (m & _ & Hm).
    apply bool_decide_eq_true in Hm. eapply orNullStr_named. exact Hm. }
  intros Hnamed.
  assert (Hnone : countIf (Select.between "" "") rows = 0%nat).
  { apply countIf_none. apply not_true_is_false. intros Hex.
    apply existsb_exists in Hex as (r & Hr & Hb). apply list_elem_of_In in Hr.
    unfold Select.between in Hb.
    destruct (Hnamed r Hr) as [Hf|Ht];
      apply orb_true_iff in Hb as [Hb|Hb]; apply andb_true_iff in Hb as [H1 H2];
      apply bool_decide_eq_true in H1, H2; congruence. }
  rewrite Hnone in Hlen. simpl in Hlen.
  destruct msgs as [|m rest]; [|discriminate]. repeat split; reflexivity.
Qed.

Lemma legacy_summary_counts_witness :
  exists report,
    fst (LegacyStats.userReport Example.env
           (snd (ChatBroadcaster.sendMessage Example.env Example.bob "hi" Example.fresh)))
    = Ok report /\
    forall performance s,
      report = Some (performance, s) -> LegacyStats.MessageSummary.totalMessages s = 0.
Proof.
  destruct (legacy_summary_counts Example.env
              (snd (ChatBroadcaster.sendMessage Example.env Example.bob "hi" Example.fresh)))
    as (report & Hok & Hrest).
  - intros n. reflexivity.
  - cbv zeta in Hrest. destruct Hrest as (_ & Hsum).
    exists report. split; [exact Hok|]. intros performance s Hs.
    destruct (Hsum performance s Hs) as (Htotal & _). rewrite Htotal. vm_compute. reflexivity.
Defined.
(** * A delivery in the statistics *)

Lemma statsOf_delivered_total (env : Env) (w : World) :
  deliveredInTotal (HistoryStats.Stats.protocols (statsOf env w))
  = Z.of_nat (length (message_receipts (db w))).
Proof.
  unfold deliveredInTotal.
  rewrite (sum_of_counts HistoryStats.ProtocolStats.totalDelivered
             (fun r => Some (MessageReceipts.protocol r)) _ (message_receipts (db w))).
  - f_equal. generalize (message_receipts (db w)). intros l.
    induction l as [|r l IH]; simpl; [reflexivity|]. f_equal. exact IH.
  - intros p entry Hp. pose proof (statsOf_protocols env w p) as Hc. cbv zeta in Hc.
    rewrite Hp in Hc. destruct Hc as (_ & Hsame & _). destruct Hsame as (Htotal & _).
    rewrite <- Htotal.
    cbn [HistoryStats.toProtocolStats HistoryStats.protocolRow
         HistoryStats.ProtocolStats.totalDelivered HistoryStats.ProtocolRow.delivered].
    rewrite group_length. f_equal. apply countIf_ext. intros r _. unfold inClass.
    apply bool_decide_ext. split; congruence.
  - intros p Hp. pose proof (statsOf_protocols env w p) as Hc. cbv zeta in Hc.
    rewrite Hp in Hc. rewrite <- Hc. apply countIf_ext. intros r _. unfold inClass, fromProtocol.
    apply bool_decide_ext. split; congruence.
Qed.

Lemma statsOf_deliveredOn (env : Env) (w : World) (p : string) :
  deliveredOn (statsOf env w) p = Z.of_nat (countIf (fromProtocol p) (message_receipts (db w))).
Proof.
  unfold deliveredOn. pose proof (statsOf_protocols env w p) as Hc. cbv zeta in Hc.
  destruct (HistoryStats.Stats.protocols (statsOf env w) !! p) as [entry|].
  - destruct Hc as (_ & Hsame & _). destruct Hsame as (Htotal & _). rewrite <- Htotal.
    cbn [HistoryStats.toProtocolStats HistoryStats.protocolRow
         HistoryStats.ProtocolStats.totalDelivered HistoryStats.ProtocolRow.delivered].
    rewrite group_length. reflexivity.
  - rewrite Hc. reflexivity.
Qed.

Lemma fromServer_fromProtocol (p srv : string) (rows : list MessageReceipts.row) :
  (countIf (fromServer p srv) rows <= countIf (fromProtocol p) rows)%nat.
Proof.
  apply countIf_le. intros r Hr. unfold fromServer in Hr.
  apply andb_true_iff in Hr as [Hr _]. exact Hr.
Qed.

Lemma statsOf_deliveredFrom (env : Env) (w : World) (p srv : string) :
  deliveredFrom (statsOf env w) p srv
  = if decide (srv = EmptyString) then 0
    else Z.of_nat (countIf (fromServer p srv) (message_receipts (db w))).
Proof.
  unfold deliveredFrom. pose proof (statsOf_protocols env w p) as Hc. cbv zeta in Hc.
  pose proof (fromServer_fromProtocol p srv (message_receipts (db w))) as Hle.
  destruct (HistoryStats.Stats.protocols (statsOf env w) !! p) as [entry|].
  - destruct Hc as (_ & _ & Hsrv). rewrite Hsrv.
    destruct (decide (srv = EmptyString)) as [->|Hne].
    + rewrite decide_False by (intros [Hn _]; congruence). reflexivity.
    + destruct (decide (srv <> EmptyString
                        /\ (1 <= countIf (fromServer p srv) (message_receipts (db w)))%nat))
        as [[_ Hpos]|Hn].
      * cbn [HistoryStats.toServerStats HistoryStats.serverRow
             HistoryStats.ServerStats.delivered HistoryStats.ServerRow.delivered].
        rewrite group_server. reflexivity.
      * destruct (countIf (fromServer p srv) (message_receipts (db w))) as [|n];
          [reflexivity|]. exfalso. apply Hn. split; [exact Hne|lia].
  - rewrite Hc in Hle. destruct (decide (srv = EmptyString)); [reflexivity|].
    replace (countIf (fromServer p srv) (message_receipts (db w))) with 0%nat by lia.
    reflexivity.
Qed.

Lemma distinct_snoc {A} `{EqDecision A} (l : list A) (x : A) :
  length (remove_dups (l ++ [x]))
  = (length (remove_dups l) + if decide (x ∈ l) then 0 else 1)%nat.
Proof.
  induction l as [|y l IH]; [reflexivity|].
  cbn [app remove_dups].
  destruct (decide_rel elem_of y (l ++ [x])) as [H1|H1],
           (decide_rel elem_of y l) as [H2|H2];
    cbn [length]; rewrite IH;
    destruct (decide (x ∈ l)) as [H4|H4], (decide (x ∈ y :: l)) as [H3|H3];
    try lia; exfalso;
    rewrite elem_of_app, list_elem_of_singleton in H1; rewrite elem_of_cons in H3;
    intuition (subst; auto).
Qed.

(** X23.  A delivery in the statistics.  On a working store, a call of
    [handleIncomingMessage] for a uuid that is new, or whose message is in
    the store, shows in what [getStats] reports afterwards as one more
    delivery, whether the call returns or a handler throws: [totalDelivered]
    of the protocol it was called with is one higher (the entry is created
    if there was none) and that of every other protocol is the same, so the
    total over the protocols is one higher; the [delivered] of the server
    it was called with is one higher when that is a non-empty string, no
    other server entry changes; and [messagesWithReceipts] is one higher
    exactly when the message had no receipt before. *)
Theorem delivery_shows_in_stats (env : Env) (message : ChatMessage.t) (protocol : string)
    (server : option string) (w : World) :
  Healthy env ->
  ChatMessage.uuid message ∉ seenMessageUuids w
  \/ stored (ChatMessage.uuid message) (db w) = true ->
  exists before after,
    fst (HistoryStats.getStats env w) = Ok before /\
    fst (HistoryStats.getStats env
           (snd (ChatBroadcaster.handleIncomingMessage env message protocol server w)))
    = Ok after /\
    deliveredInTotal (HistoryStats.Stats.protocols after)
    = deliveredInTotal (HistoryStats.Stats.protocols before) + 1 /\
    (forall p,
       deliveredOn after p
       = deliveredOn before p + if decide (p = protocol) then 1 else 0) /\
    (forall p srv,
       deliveredFrom after p srv
       = deliveredFrom before p srv
         + if decide (p = protocol /\ Js.orNullStr server = Some srv) then 1 else 0) /\
    HistoryStats.Stats.messagesWithReceipts after
    = HistoryStats.Stats.messagesWithReceipts before
      + if (receiptRows (ChatMessage.uuid message) (db w) =? 0)%nat then 1 else 0.
Proof.
  intros H Hready.
  set (w' := snd (ChatBroadcaster.handleIncomingMessage env message protocol server w)).
  exists (statsOf env w), (statsOf env w').
  split; [apply getStats_healthy; exact H|]. split; [apply getStats_healthy; exact H|].
  destruct (handle_adds_receipt env message protocol server w H Hready)
    as ((row & Hrows & Huuid & Hprotocol & Hserver) & _).
  fold w' in Hrows.
  split; [|split; [|split]].
  - rewrite !statsOf_delivered_total, Hrows, length_app. simpl. lia.
  - intros p. rewrite !statsOf_deliveredOn, Hrows, countIf_app. simpl.
    unfold fromProtocol at 2. rewrite Hprotocol.
    destruct (decide (p = protocol)) as [->|Hne].
    + rewrite bool_decide_eq_true_2 by reflexivity. lia.
    + rewrite bool_decide_eq_false_2 by congruence. lia.
  - intros p srv. rewrite !statsOf_deliveredFrom, Hrows, countIf_app. simpl.
    unfold fromServer at 2. rewrite Hprotocol, Hserver.
    destruct (decide (srv = EmptyString)) as [->|Hne].
    + rewrite decide_False; [lia|]. intros [_ Hs]. apply orNullStr_named in Hs. congruence.
    + destruct (decide (p = protocol /\ Js.orNullStr server = Some srv)) as [[-> Hs]|Hn].
      * rewrite Hs. rewrite !bool_decide_eq_true_2 by reflexivity. simpl. lia.
      * destruct (decide (protocol = p)) as [Hp|Hp].
        -- rewrite (bool_decide_eq_true_2 _ Hp).
           rewrite bool_decide_eq_false_2 by (intros Hs; apply Hn; split; congruence).
           simpl. lia.
        -- rewrite (bool_decide_eq_false_2 _ Hp). simpl. lia.
  - unfold statsOf. cbn [HistoryStats.Stats.messagesWithReceipts].
    unfold Aggregate.countDistinct. rewrite Hrows, map_app. cbn [map].
    rewrite distinct_snoc, Huuid, Nat2Z.inj_add. f_equal.
    unfold receiptRows.
    destruct (decide (ChatMessage.uuid message
                      ∈ map MessageReceipts.message_uuid (message_receipts (db w))))
      as [Hin|Hnot].
    + apply list_elem_of_fmap in Hin as (r & Hr1 & Hr2).
      assert (Hpos : (1 <= countIf (receiptFor (ChatMessage.uuid message))
                            (message_receipts (db w)))%nat).
      { apply (countIf_elem _ _ r Hr2). apply bool_decide_eq_true_2. congruence. }
      destruct (countIf _ _); [lia|reflexivity].
    + destruct (countIf (receiptFor (ChatMessage.uuid message)) (message_receipts (db w)))
        as [|n] eqn:Hc; [reflexivity|].
      exfalso. apply Hnot.
      assert (Hpos : (1 <= countIf (receiptFor (ChatMessage.uuid message))
                            (message_receipts (db w)))%nat) by lia.
      apply countIf_positive in Hpos as (r & Hr & Hu). apply bool_decide_eq_true in Hu.
      apply list_elem_of_fmap. exists r. split; [symmetry; exact Hu|exact Hr].
Qed.

Lemma delivery_shows_in_stats_witness :
  exists before after,
    fst (HistoryStats.getStats Example.env Example.fresh) = Ok before /\
    fst (HistoryStats.getStats Example.env
           (snd (ChatBroadcaster.handleIncomingMessage Example.env Example.hello "nostr"
                   (Some "wss://relay.damus.io") Example.fresh)))
    = Ok after /\
    deliveredInTotal (HistoryStats.Stats.protocols after)
    = deliveredInTotal (HistoryStats.Stats.protocols before) + 1.
Proof.
  destruct (delivery_shows_in_stats Example.env Example.hello "nostr"
              (Some "wss://relay.damus.io") Example.fresh)
    as (before & after & Hb & Ha & Htotal & _).
  - intros n. reflexivity.
  - left. apply (bool_decide_unpack _). vm_compute. exact I.
  - exists before, after. split; [exact Hb|]. split; [exact Ha|]. exact Htotal.
Defined.
